(** * JULEA: configuration, handles, client run execution and the LevelDB backend

    A shallow embedding of the parts of JULEA that the specification talks
    about: [lib/jconfiguration.c], [lib/jcommon.c], [client/object/jobject.c],
    [client/kv/jkv.c] and [backend/server/leveldb.c]; and, beyond them, of
    the loader of [lib/jbackend.c], of [lib/jbackground-operation.c] and of
    the file-system adapter ([fuse/create.c], [fuse/getattr.c]).

    Conventions.
    - A C pointer that the code tests against [NULL] is an [option].
    - [guint32] and [guint64] values are [Z] with the wrap-around written out;
      a [gint] and a [gint64] are the bits read as a two's complement number.
    - GLib and LevelDB are external libraries: what the code needs from them
      is either a section variable (value parsing, path handling) or a small
      model of the documented behaviour (a LevelDB database is a map sorted
      by the bytewise order of its keys). *)

From Stdlib Require Import ZArith Lia Bool List Ascii String Sorted.
From stdpp Require Import gmap strings list.

Local Open Scope Z_scope.
Local Open Scope string_scope.

(** ** How a call ends

    [g_return_if_fail] and [g_return_val_if_fail] log a critical message and
    make the function return to its caller; they do not stop the program.
    [g_assert] and [g_error] stop it. A read from a connection on which
    nothing arrives never returns. Where C leaves the behaviour open (a value
    never initialised is used, a reply is shorter than what is read from it)
    the call is [Undefined]. *)

Inductive outcome (A : Type) : Type :=
| Returned (a : A)
| Aborted
| Blocked
| Undefined.
Arguments Returned {A} a.
Arguments Aborted {A}.
Arguments Blocked {A}.
Arguments Undefined {A}.

Definition wrap32 (z : Z) : Z := z mod 2 ^ 32.
Definition wrap64 (z : Z) : Z := z mod 2 ^ 64.

(** The value a [gint] holds after 32 bits have been assigned to it, and
    the value a [gint64] holds after 64 bits: the bits read as a two's
    complement number. *)
Definition to_gint (z : Z) : Z :=
  let u := wrap32 z in if Z.ltb u (2 ^ 31) then u else u - 2 ^ 32.

Definition to_gint64 (z : Z) : Z :=
  let u := wrap64 z in if Z.ltb u (2 ^ 63) then u else u - 2 ^ 64.

(** ** Configuration ([lib/jconfiguration.c]) *)

Module Configuration.

(** A key file maps (group, key) to the raw text of the value. *)
Abbreviation GKeyFile := (gmap (string * string) string).

Record JConfiguration : Type := mkJConfiguration {
  servers_object : list string;
  servers_kv : list string;
  servers_object_len : Z;
  servers_kv_len : Z;
  object_backend : string;
  object_component : string;
  object_path : string;
  kv_backend : string;
  kv_component : string;
  kv_path : string;
  max_connections : Z;
  ref_count : Z
}.

Section KeyFile.

(** GLib's parsing of a raw value: the list splitter of
    [g_key_file_get_string_list] and the integer reader of
    [g_key_file_get_integer] ([None] when the text is no integer). *)
Variable g_key_file_parse_list : string -> list string.
Variable g_key_file_parse_integer : string -> option Z.

(** [g_key_file_get_integer] returns 0 when the key is not found or the
    value is no integer. *)
Definition g_key_file_get_integer (kf : GKeyFile) (group key : string) : Z :=
  match kf !! (group, key) with
  | Some raw =>
      match g_key_file_parse_integer raw with
      | Some n => n
      | None => 0
      end
  | None => 0
  end.

(** [g_key_file_get_string_list] returns [NULL] when the key is not found. *)
Definition g_key_file_get_string_list (kf : GKeyFile) (group key : string)
  : option (list string) :=
  g_key_file_parse_list <$> kf !! (group, key).

Definition g_key_file_get_string (kf : GKeyFile) (group key : string)
  : option string :=
  kf !! (group, key).

(** [g_strv_length] counts the entries; the count is stored in a [guint32]. *)
Definition g_strv_length (l : list string) : Z := wrap32 (Z.of_nat (length l)).

(** [servers == NULL || servers[0] == NULL] *)
Definition strv_null_or_empty (l : option (list string)) : bool :=
  match l with
  | None => true
  | Some [] => true
  | Some (_ :: _) => false
  end.

Definition is_null {A} (o : option A) : bool :=
  match o with
  | None => true
  | Some _ => false
  end.

Definition j_configuration_new_for_data (key_file : option GKeyFile)
  : option JConfiguration :=
  match key_file with
  | None => None
  | Some kf =>
      let max_connections := g_key_file_get_integer kf "clients" "max-connections" in
      let servers_object := g_key_file_get_string_list kf "servers" "object" in
      let servers_kv := g_key_file_get_string_list kf "servers" "kv" in
      let object_backend := g_key_file_get_string kf "object" "backend" in
      let object_component := g_key_file_get_string kf "object" "component" in
      let object_path := g_key_file_get_string kf "object" "path" in
      let kv_backend := g_key_file_get_string kf "kv" "backend" in
      let kv_component := g_key_file_get_string kf "kv" "component" in
      let kv_path := g_key_file_get_string kf "kv" "path" in
      if strv_null_or_empty servers_object
         || strv_null_or_empty servers_kv
         || is_null object_backend
         || is_null object_component
         || is_null object_path
         || is_null kv_backend
         || is_null kv_component
         || is_null kv_path
      then None
      else
        match servers_object, servers_kv,
              object_backend, object_component, object_path,
              kv_backend, kv_component, kv_path with
        | Some so, Some sk, Some ob, Some oc, Some op, Some kb, Some kc, Some kp =>
            Some {| servers_object := so;
                    servers_kv := sk;
                    servers_object_len := g_strv_length so;
                    servers_kv_len := g_strv_length sk;
                    object_backend := ob;
                    object_component := oc;
                    object_path := op;
                    kv_backend := kb;
                    kv_component := kc;
                    kv_path := kp;
                    max_connections := wrap32 max_connections;
                    ref_count := 1 |}
        | _, _, _, _, _, _, _, _ => None
        end
  end.

End KeyFile.

Definition j_configuration_get_object_server_count (configuration : option JConfiguration) : Z :=
  match configuration with
  | None => 0
  | Some c => servers_object_len c
  end.

Definition j_configuration_get_kv_server_count (configuration : option JConfiguration) : Z :=
  match configuration with
  | None => 0
  | Some c => servers_kv_len c
  end.

Definition j_configuration_get_object_backend (configuration : option JConfiguration) : option string :=
  object_backend <$> configuration.

Definition j_configuration_get_object_component (configuration : option JConfiguration) : option string :=
  object_component <$> configuration.

Definition j_configuration_get_object_path (configuration : option JConfiguration) : option string :=
  object_path <$> configuration.

Definition j_configuration_get_kv_backend (configuration : option JConfiguration) : option string :=
  kv_backend <$> configuration.

Definition j_configuration_get_kv_component (configuration : option JConfiguration) : option string :=
  kv_component <$> configuration.

Definition j_configuration_get_kv_path (configuration : option JConfiguration) : option string :=
  kv_path <$> configuration.

Definition j_configuration_get_max_connections (configuration : option JConfiguration) : Z :=
  match configuration with
  | None => 0
  | Some c => max_connections c
  end.

(** *** Selecting the configuration file ([j_configuration_new]) *)

(** What the process sees: the variable [JULEA_CONFIG], GLib's user and
    system configuration directories, and for each path the key file that
    [g_key_file_load_from_file] reads there ([None] when loading fails). *)
Record Environment : Type := mkEnvironment {
  env_JULEA_CONFIG : option string;
  env_user_config_dir : string;
  env_system_config_dirs : list string;
  env_key_file : string -> option GKeyFile
}.

(** The result of the search together with what it did on the way: the
    paths handed to [g_key_file_load_from_file], oldest first, and the paths
    reported through [J_CRITICAL]. *)
Record Selection : Type := mkSelection {
  sel_configuration : option JConfiguration;
  sel_loads : list string;
  sel_criticals : list string
}.

Section Search.

Variable g_key_file_parse_list : string -> list string.
Variable g_key_file_parse_integer : string -> option Z.

(** GLib's path functions. *)
Variable g_path_is_absolute : string -> bool.
Variable g_path_get_basename : string -> string.
Variable g_build_filename : list string -> string.

Variable env : Environment.

Local Abbreviation new_for_data :=
  (j_configuration_new_for_data g_key_file_parse_list g_key_file_parse_integer).

(** The loop over [g_get_system_config_dirs()]; [loads] are the paths tried
    before. *)
Fixpoint search_system_config_dirs
    (dirs : list string) (config_name : string) (loads : list string) : Selection :=
  match dirs with
  | [] =>
      {| sel_configuration := None; sel_loads := loads; sel_criticals := [] |}
  | dir :: dirs' =>
      let path := g_build_filename [dir; "julea"; config_name] in
      match env_key_file env path with
      | Some key_file =>
          {| sel_configuration := new_for_data (Some key_file);
             sel_loads := loads ++ [path];
             sel_criticals := [] |}
      | None => search_system_config_dirs dirs' config_name (loads ++ [path])
      end
  end.

(** From the user configuration directory on. *)
Definition search_config_dirs (config_name : string) : Selection :=
  let path := g_build_filename [env_user_config_dir env; "julea"; config_name] in
  match env_key_file env path with
  | Some key_file =>
      {| sel_configuration := new_for_data (Some key_file);
         sel_loads := [path];
         sel_criticals := [] |}
  | None =>
      search_system_config_dirs (env_system_config_dirs env) config_name [path]
  end.

Definition j_configuration_new : Selection :=
  match env_JULEA_CONFIG env with
  | Some env_path =>
      if g_path_is_absolute env_path then
        match env_key_file env env_path with
        | Some key_file =>
            {| sel_configuration := new_for_data (Some key_file);
               sel_loads := [env_path];
               sel_criticals := [] |}
        | None =>
            {| sel_configuration := None;
               sel_loads := [env_path];
               sel_criticals := [env_path] |}
        end
      else search_config_dirs (g_path_get_basename env_path)
  | None => search_config_dirs "julea"
  end.

(** The search in the words of the specification: the name is the basename
    of [JULEA_CONFIG] or "julea"; the candidates are the file of that name in
    the user configuration directory and then in each system configuration
    directory, in order. *)
Definition selection_name : string :=
  match env_JULEA_CONFIG env with
  | Some env_path => g_path_get_basename env_path
  | None => "julea"
  end.

Definition selection_candidates : list string :=
  g_build_filename [env_user_config_dir env; "julea"; selection_name]
  :: map (fun dir => g_build_filename [dir; "julea"; selection_name])
         (env_system_config_dirs env).

End Search.

(** The eight values the constructor insists on, as a proposition. *)
Definition required_value_missing
    (parse_list : string -> list string) (kf : GKeyFile) : Prop :=
  (kf !! ("servers", "object") = None \/
   exists raw, kf !! ("servers", "object") = Some raw /\ parse_list raw = [])
  \/ (kf !! ("servers", "kv") = None \/
      exists raw, kf !! ("servers", "kv") = Some raw /\ parse_list raw = [])
  \/ kf !! ("object", "backend") = None
  \/ kf !! ("object", "component") = None
  \/ kf !! ("object", "path") = None
  \/ kf !! ("kv", "backend") = None
  \/ kf !! ("kv", "component") = None
  \/ kf !! ("kv", "path") = None.

End Configuration.

(** ** Semantics

    [jsemantics.c] is not among the sources; the exec functions and the
    backend read one axis of it, the safety, through [j_semantics_get]. *)

Inductive JSemanticsSafety : Type :=
| J_SEMANTICS_SAFETY_NONE
| J_SEMANTICS_SAFETY_NETWORK
| J_SEMANTICS_SAFETY_STORAGE.

#[global] Instance JSemanticsSafety_eq_dec : EqDecision JSemanticsSafety.
Proof. solve_decision. Defined.

Record JSemantics : Type := mkJSemantics {
  sem_safety : JSemanticsSafety
}.

(** A document is the block of bytes [bson_get_data] points at; its [len]
    field is the number of these bytes. *)
Abbreviation bson_t := (list Byte.byte).

Definition bson_len (value : bson_t) : Z := Z.of_nat (length value).

(** ** The LevelDB backend ([backend/server/leveldb.c]) *)

Module LevelDB.

(** *** LevelDB itself

    A database holds its entries in the order of the bytewise comparator,
    which is [String.compare] on the key bytes. A write batch is the list of
    its updates, oldest first. *)

Abbreviation leveldb_t := (list (string * bson_t)).

Inductive leveldb_update : Type :=
| Put (key : string) (value : bson_t)
| Delete (key : string).

Abbreviation leveldb_writebatch_t := (list leveldb_update).

Record leveldb_writeoptions_t : Type := mkWriteOptions {
  sync : bool
}.

Definition leveldb_writeoptions_create : leveldb_writeoptions_t :=
  {| sync := false |}.

Definition leveldb_writeoptions_set_sync
    (options : leveldb_writeoptions_t) (v : Z) : leveldb_writeoptions_t :=
  {| sync := negb (Z.eqb v 0) |}.

Fixpoint leveldb_put (db : leveldb_t) (key : string) (value : bson_t) : leveldb_t :=
  match db with
  | [] => [(key, value)]
  | (k, v) :: db' =>
      match String.compare key k with
      | Lt => (key, value) :: (k, v) :: db'
      | Eq => (key, value) :: db'
      | Gt => (k, v) :: leveldb_put db' key value
      end
  end.

Fixpoint leveldb_delete (db : leveldb_t) (key : string) : leveldb_t :=
  match db with
  | [] => []
  | (k, v) :: db' =>
      match String.compare key k with
      | Lt => (k, v) :: db'
      | Eq => db'
      | Gt => (k, v) :: leveldb_delete db' key
      end
  end.

Definition leveldb_apply (db : leveldb_t) (u : leveldb_update) : leveldb_t :=
  match u with
  | Put key value => leveldb_put db key value
  | Delete key => leveldb_delete db key
  end.

Fixpoint leveldb_lookup (db : leveldb_t) (key : string) : option bson_t :=
  match db with
  | [] => None
  | (k, v) :: db' =>
      match String.compare key k with
      | Lt => None
      | Eq => Some v
      | Gt => leveldb_lookup db' key
      end
  end.

(** [leveldb_iter_seek]: the first entry whose key is at or past [target];
    the iterator is what is left of the database from there on, and it is
    valid while something is left. *)
Fixpoint leveldb_iter_seek (db : leveldb_t) (target : string) : leveldb_t :=
  match db with
  | [] => []
  | (k, v) :: db' =>
      match String.compare k target with
      | Lt => leveldb_iter_seek db' target
      | _ => (k, v) :: db'
      end
  end.

(** *** The backend *)

Record JLevelDBBatch : Type := mkJLevelDBBatch {
  batch : leveldb_writebatch_t;
  namespace : string;
  safety : JSemanticsSafety
}.

Record JLevelDBIterator : Type := mkJLevelDBIterator {
  iterator : leveldb_t;
  prefix : string
}.

(** The file's static variables, and the calls of [leveldb_write] made so
    far with the options each was given, oldest first. *)
Record Backend : Type := mkBackend {
  backend_db : option leveldb_t;
  backend_read_options : bool;
  backend_write_options : option leveldb_writeoptions_t;
  backend_write_options_sync : option leveldb_writeoptions_t;
  backend_writes : list (leveldb_writeoptions_t * leveldb_writebatch_t)
}.

Definition backend_static : Backend :=
  {| backend_db := None;
     backend_read_options := false;
     backend_write_options := None;
     backend_write_options_sync := None;
     backend_writes := [] |}.

Definition NUL : string := String "000"%char EmptyString.

(** [g_strdup_printf("%s:%s", namespace, key)] *)
Definition nskey_of (namespace key : string) : string :=
  namespace ++ ":" ++ key.

Definition backend_batch_start
    (namespace : option string) (safety : JSemanticsSafety)
  : bool * option JLevelDBBatch :=
  match namespace with
  | None => (false, None)
  | Some namespace =>
      (true, Some {| batch := []; namespace := namespace; safety := safety |})
  end.

Definition backend_batch_execute (data : option JLevelDBBatch) (st : Backend)
  : outcome (bool * Backend) :=
  match data with
  | None => Returned (false, st)
  | Some b =>
      let write_options :=
        if decide (safety b = J_SEMANTICS_SAFETY_STORAGE)
        then backend_write_options_sync st
        else backend_write_options st in
      match backend_db st, write_options with
      | Some db, Some options =>
          Returned (true,
            {| backend_db := Some (fold_left leveldb_apply (batch b) db);
               backend_read_options := backend_read_options st;
               backend_write_options := backend_write_options st;
               backend_write_options_sync := backend_write_options_sync st;
               backend_writes := backend_writes st ++ [(options, batch b)] |})
      | _, _ => Undefined
      end
  end.

Definition backend_put
    (data : option JLevelDBBatch) (key : option string) (value : option bson_t)
  : bool * option JLevelDBBatch :=
  match key, value, data with
  | Some key, Some value, Some b =>
      let nskey := nskey_of (namespace b) key in
      (true, Some {| batch := batch b ++ [Put (nskey ++ NUL) value];
                     namespace := namespace b;
                     safety := safety b |})
  | _, _, _ => (false, data)
  end.

Definition backend_delete (data : option JLevelDBBatch) (key : option string)
  : bool * option JLevelDBBatch :=
  match key, data with
  | Some key, Some b =>
      let nskey := nskey_of (namespace b) key in
      (true, Some {| batch := batch b ++ [Delete (nskey ++ NUL)];
                     namespace := namespace b;
                     safety := safety b |})
  | _, _ => (false, data)
  end.

(** The second component is what is copied to [result_out], if anything. *)
Definition backend_get (namespace key : option string) (st : Backend)
  : outcome (bool * option bson_t) :=
  match namespace, key with
  | Some namespace, Some key =>
      let nskey := nskey_of namespace key in
      match backend_db st with
      | Some db =>
          match leveldb_lookup db (nskey ++ NUL) with
          | Some result => Returned (true, Some result)
          | None => Returned (false, None)
          end
      | None => Undefined
      end
  | _, _ => Returned (false, None)
  end.

Definition backend_get_all (namespace : option string) (st : Backend)
  : bool * option JLevelDBIterator :=
  match namespace with
  | Some namespace =>
      match backend_db st with
      | Some db =>
          let prefix := namespace ++ ":" in
          (true, Some {| iterator := leveldb_iter_seek db (prefix ++ NUL);
                         prefix := prefix |})
      | None => (false, None)
      end
  | None => (false, None)
  end.

Definition backend_get_by_prefix (namespace prefix : option string) (st : Backend)
  : bool * option JLevelDBIterator :=
  match namespace, prefix with
  | Some namespace, Some prefix =>
      match backend_db st with
      | Some db =>
          let prefix := nskey_of namespace prefix in
          (true, Some {| iterator := leveldb_iter_seek db (prefix ++ NUL);
                         prefix := prefix |})
      | None => (false, None)
      end
  | _, _ => (false, None)
  end.

(** [strncmp (str, prefix, strlen (prefix)) == 0]: [prefix] holds the
    characters before its terminating NUL, [str] the bytes of the key. *)
Definition g_str_has_prefix (str prefix : string) : bool :=
  String.prefix prefix str.

(** The result is the return value, the iterator that exists after the call
    ([None] once it has been freed) and what [result_out] is set to. *)
Definition backend_iterate (data : option JLevelDBIterator)
  : bool * option JLevelDBIterator * option bson_t :=
  match data with
  | None => (false, None, None)
  | Some it =>
      match iterator it with
      | (key, value) :: rest =>
          if g_str_has_prefix key (prefix it)
          then (true, Some {| iterator := rest; prefix := prefix it |}, Some value)
          else (false, None, None)
      | [] => (false, None, None)
      end
  end.

(** [opened] is what [leveldb_open] returns for the path. *)
Definition backend_init (path : option string) (opened : option leveldb_t)
    (st : Backend) : bool * Backend :=
  match path with
  | None => (false, st)
  | Some _ =>
      let write_options := leveldb_writeoptions_create in
      let write_options_sync :=
        leveldb_writeoptions_set_sync leveldb_writeoptions_create 1 in
      (match opened with Some _ => true | None => false end,
       {| backend_db := opened;
          backend_read_options := true;
          backend_write_options := Some write_options;
          backend_write_options_sync := Some write_options_sync;
          backend_writes := backend_writes st |})
  end.

(** A caller that keeps calling [backend_iterate] until it returns [FALSE]
    and collects what it was given. [fuel] bounds the number of calls. *)
Fixpoint iterate_all (fuel : nat) (data : option JLevelDBIterator)
  : option (list bson_t * option JLevelDBIterator) :=
  match fuel with
  | O => None
  | S fuel' =>
      match backend_iterate data with
      | (true, data', Some value) =>
          match iterate_all fuel' data' with
          | Some (values, final) => Some (value :: values, final)
          | None => None
          end
      | (true, _, None) => None
      | (false, data', _) => Some ([], data')
      end
  end.

End LevelDB.

(** ** The client side ([lib/jcommon.c], [lib/jbackend.c],
    [client/object/jobject.c], [client/kv/jkv.c]) *)

Module Client.

Import Configuration.

(** *** Messages

    Modelled from the spec: [jmessage.c] is not among the sources. A frame has
    an opcode, a flags word, the count of operations packed into it, the
    fields appended to its payload and the bulk segments sent after it
    (section 4.C). A field is kept with its type instead of its bytes. *)

Inductive JMessageType : Type :=
| J_MESSAGE_OBJECT_CREATE
| J_MESSAGE_OBJECT_DELETE
| J_MESSAGE_OBJECT_READ
| J_MESSAGE_OBJECT_STATUS
| J_MESSAGE_OBJECT_WRITE
| J_MESSAGE_KV_PUT
| J_MESSAGE_KV_DELETE
| J_MESSAGE_KV_GET.

Inductive Field : Type :=
| FString (s : string)
| F4 (z : Z)
| F8 (z : Z)
| FData (bytes : list Byte.byte).

Record JMessage : Type := mkJMessage {
  msg_type : JMessageType;
  msg_flags : Z;
  msg_count : Z;
  msg_fields : list Field;
  msg_bulk : list (list Byte.byte)
}.

Definition j_message_new (type : JMessageType) : JMessage :=
  {| msg_type := type; msg_flags := 0; msg_count := 0;
     msg_fields := []; msg_bulk := [] |}.

Definition j_message_append (message : JMessage) (f : Field) : JMessage :=
  {| msg_type := msg_type message;
     msg_flags := msg_flags message;
     msg_count := msg_count message;
     msg_fields := msg_fields message ++ [f];
     msg_bulk := msg_bulk message |}.

Definition j_message_add_operation (message : JMessage) : JMessage :=
  {| msg_type := msg_type message;
     msg_flags := msg_flags message;
     msg_count := wrap32 (msg_count message + 1);
     msg_fields := msg_fields message;
     msg_bulk := msg_bulk message |}.

Definition j_message_add_send (message : JMessage) (data : list Byte.byte) : JMessage :=
  {| msg_type := msg_type message;
     msg_flags := msg_flags message;
     msg_count := msg_count message;
     msg_fields := msg_fields message;
     msg_bulk := msg_bulk message ++ [data] |}.

Definition j_message_get_flags (message : JMessage) : Z := msg_flags message.
Definition j_message_get_count (message : JMessage) : Z := msg_count message.

(** Reading the next field of a reply; [None] when the reply does not hold
    such a field there. *)
Definition j_message_get_4 (reply : JMessage) : option (Z * JMessage) :=
  match msg_fields reply with
  | F4 z :: rest =>
      Some (z, {| msg_type := msg_type reply; msg_flags := msg_flags reply;
                  msg_count := msg_count reply; msg_fields := rest;
                  msg_bulk := msg_bulk reply |})
  | _ => None
  end.

Definition j_message_get_8 (reply : JMessage) : option (Z * JMessage) :=
  match msg_fields reply with
  | F8 z :: rest =>
      Some (z, {| msg_type := msg_type reply; msg_flags := msg_flags reply;
                  msg_count := msg_count reply; msg_fields := rest;
                  msg_bulk := msg_bulk reply |})
  | _ => None
  end.

Definition j_message_get_n (reply : JMessage) (len : Z)
  : option (list Byte.byte * JMessage) :=
  match msg_fields reply with
  | FData bytes :: rest =>
      if decide (bson_len bytes = len) then
        Some (bytes, {| msg_type := msg_type reply; msg_flags := msg_flags reply;
                        msg_count := msg_count reply; msg_fields := rest;
                        msg_bulk := msg_bulk reply |})
      else None
  | _ => None
  end.

(** The bulk bytes that follow a reply on the connection
    ([g_input_stream_read_all]). *)
Definition read_bulk (reply : JMessage) (nbytes : Z)
  : option (list Byte.byte * JMessage) :=
  match msg_bulk reply with
  | bytes :: rest =>
      if decide (bson_len bytes = nbytes) then
        Some (bytes, {| msg_type := msg_type reply; msg_flags := msg_flags reply;
                        msg_count := msg_count reply; msg_fields := msg_fields reply;
                        msg_bulk := rest |})
      else None
  | [] => None
  end.

(** *** Handles *)

Record JObject : Type := mkJObject {
  o_index : Z;
  o_namespace : string;
  o_name : string;
  o_ref_count : Z
}.

Record JKV : Type := mkJKV {
  kv_index : Z;
  kv_namespace : string;
  kv_key : string;
  kv_ref_count : Z
}.

(** *** What a call can touch *)

Inductive Pool : Type := ObjectPool | KVPool.

Inductive WireEvent : Type :=
| Pop (pool : Pool) (index : Z)
| Send (message : JMessage)
| Receive (reply : JMessage)
| Push (pool : Pool) (index : Z).

(** [B] is the state of the backends loaded into the process.
    - [counters]: the 64-bit cells the caller handed in by address
      ([bytes_read], [bytes_written], [modification_time], [size]);
    - [documents]: the caller's [bson_t] cells by address;
    - [buffers]: the caller's read buffers by address;
    - [callbacks]: the calls of a [JKVGetFunc] (function, user data, value);
    - [wire]: what happened on the pooled connections, oldest first;
    - [incoming]: the frames the server side will deliver, next first;
    - [criticals]: the number of critical messages logged. *)
Record World (B : Type) : Type := mkWorld {
  backend : B;
  counters : gmap Z Z;
  documents : gmap Z bson_t;
  buffers : gmap Z (list Byte.byte);
  callbacks : list (Z * Z * bson_t);
  wire : list WireEvent;
  incoming : list JMessage;
  criticals : nat
}.
Arguments mkWorld {B}.
Arguments backend {B}.
Arguments counters {B}.
Arguments documents {B}.
Arguments buffers {B}.
Arguments callbacks {B}.
Arguments wire {B}.
Arguments incoming {B}.
Arguments criticals {B}.

Definition M (B A : Type) : Type := World B -> outcome (A * World B).

Definition ret {B A} (a : A) : M B A := fun w => Returned (a, w).

Definition bind {B A A'} (m : M B A) (k : A -> M B A') : M B A' :=
  fun w =>
    match m w with
    | Returned (a, w') => k a w'
    | Aborted => Aborted
    | Blocked => Blocked
    | Undefined => Undefined
    end.

Definition abort {B A} : M B A := fun _ => Aborted.
Definition undefined {B A} : M B A := fun _ => Undefined.

Declare Scope exec_scope.
Delimit Scope exec_scope with exec.
Notation "'let*' x ':=' m 'in' k" := (bind m (fun x => k))
  (at level 10, x pattern, m at level 100, k at level 200) : exec_scope.
Notation "m ;; k" := (bind m (fun _ => k))
  (at level 100, right associativity) : exec_scope.

Definition of_option {B A} (o : option A) : M B A :=
  match o with
  | Some a => ret a
  | None => undefined
  end.

(** [g_return_if_fail] fired: one more critical message. *)
Definition log_critical {B} (w : World B) : World B :=
  mkWorld (backend w) (counters w) (documents w) (buffers w) (callbacks w)
          (wire w) (incoming w) (S (criticals w)).

Definition critical {B} : M B unit :=
  fun w => Returned (tt, log_critical w).

Definition emit {B} (e : WireEvent) : M B unit :=
  fun w => Returned (tt,
    mkWorld (backend w) (counters w) (documents w) (buffers w) (callbacks w)
            (wire w ++ [e]) (incoming w) (criticals w)).

(** A backend function runs on the backend's state. *)
Definition on_backend {B A} (f : B -> outcome (A * B)) : M B A :=
  fun w =>
    match f (backend w) with
    | Returned (a, b') =>
        Returned (a, mkWorld b' (counters w) (documents w) (buffers w)
                             (callbacks w) (wire w) (incoming w) (criticals w))
    | Aborted => Aborted
    | Blocked => Blocked
    | Undefined => Undefined
    end.

Definition load_counter {B} (w : World B) (p : Z) : Z := default 0 (counters w !! p).

Definition store_counter {B} (p : Z) (v : Z) : M B unit :=
  fun w => Returned (tt,
    mkWorld (backend w) (<[p := v]> (counters w)) (documents w) (buffers w)
            (callbacks w) (wire w) (incoming w) (criticals w)).

(** Modelled from the spec: [j_helper_atomic_add] ([jhelper.c] is not among
    the sources) adds to the caller's 64-bit counter atomically (section
    4.H); the sum wraps as [guint64] does. *)
Definition j_helper_atomic_add {B} (p : Z) (v : Z) : M B unit :=
  fun w => store_counter p (wrap64 (load_counter w p + v)) w.

(** [bson_copy_to (tmp, value)] *)
Definition bson_copy_to {B} (tmp : bson_t) (value : Z) : M B unit :=
  fun w => Returned (tt,
    mkWorld (backend w) (counters w) (<[value := tmp]> (documents w)) (buffers w)
            (callbacks w) (wire w) (incoming w) (criticals w)).

Definition store_buffer {B} (p : Z) (bytes : list Byte.byte) : M B unit :=
  fun w => Returned (tt,
    mkWorld (backend w) (counters w) (documents w) (<[p := bytes]> (buffers w))
            (callbacks w) (wire w) (incoming w) (criticals w)).

(** [func (tmp, data)] *)
Definition call_get_func {B} (func data : Z) (tmp : bson_t) : M B unit :=
  fun w => Returned (tt,
    mkWorld (backend w) (counters w) (documents w) (buffers w)
            (callbacks w ++ [(func, data, tmp)]) (wire w) (incoming w) (criticals w)).

(** Modelled from the spec: [j_message_receive] reads the next frame that
    arrives on the connection; the call does not return while none
    arrives. *)
Definition j_message_receive {B} : M B JMessage :=
  fun w =>
    match incoming w with
    | reply :: rest =>
        Returned (reply,
          mkWorld (backend w) (counters w) (documents w) (buffers w) (callbacks w)
                  (wire w ++ [Receive reply]) rest (criticals w))
    | [] => Blocked
    end.

Section Engine.

Context {B H : Type}.

Local Open Scope exec_scope.

(** What a [gpointer] variable holds: nothing yet, [NULL] or a handle of the
    backend. *)
Inductive gpointer : Type :=
| Indeterminate
| Null
| Pointer (h : H).

(** *** The backend interface

    [jbackend.h] is not among the sources; the members are those that
    [jbackend.c] calls. A member runs on the backend's state. An
    out-parameter is part of the result: the handle stored through
    [gpointer*], the values stored through [modification_time] and [size]
    (if any), the document copied to [value] (if any), the bytes put into the
    read buffer (if any). A byte counter is handed in with its value before
    the call and comes back with its value after it. *)

Inductive JBackendType : Type :=
| J_BACKEND_TYPE_OBJECT
| J_BACKEND_TYPE_KV.

Record JBackendObject : Type := mkJBackendObject {
  object_init : string -> B -> outcome (bool * B);
  object_create : string -> string -> B -> outcome (bool * gpointer * B);
  object_open : string -> string -> B -> outcome (bool * gpointer * B);
  object_delete : H -> B -> outcome (bool * B);
  object_close : H -> B -> outcome (bool * B);
  object_status : H -> B -> outcome (bool * option (Z * Z) * B);
  object_read : H -> Z -> Z -> Z -> B
                -> outcome (bool * Z * option (list Byte.byte) * B);
  object_write : H -> list Byte.byte -> Z -> Z -> Z -> B -> outcome (bool * Z * B)
}.

Record JBackendKV : Type := mkJBackendKV {
  kv_init : string -> B -> outcome (bool * B);
  kv_batch_start : string -> JSemanticsSafety -> B -> outcome (bool * gpointer * B);
  kv_batch_execute : H -> B -> outcome (bool * B);
  kv_put : H -> string -> bson_t -> B -> outcome (bool * H * B);
  kv_delete : H -> string -> B -> outcome (bool * H * B);
  kv_get : string -> string -> B -> outcome (bool * option bson_t * B)
}.

Inductive JBackend : Type :=
| ObjectBackend (object : JBackendObject)
| KVBackend (kv : JBackendKV).

(** *** The wrappers of [jbackend.c] *)

Definition j_backend_object_init (backend : option JBackend) (path : option string)
  : M B bool :=
  match backend, path with
  | Some (ObjectBackend v), Some path => on_backend (object_init v path)
  | _, _ => critical ;; ret false
  end.

Definition j_backend_object_create
    (backend : option JBackend) (namespace path : option string)
  : M B (bool * gpointer) :=
  match backend, namespace, path with
  | Some (ObjectBackend v), Some namespace, Some path =>
      on_backend (object_create v namespace path)
  | _, _, _ => critical ;; ret (false, Indeterminate)
  end.

Definition j_backend_object_open
    (backend : option JBackend) (namespace path : option string)
  : M B (bool * gpointer) :=
  match backend, namespace, path with
  | Some (ObjectBackend v), Some namespace, Some path =>
      on_backend (object_open v namespace path)
  | _, _, _ => critical ;; ret (false, Indeterminate)
  end.

Definition j_backend_object_delete (backend : option JBackend) (data : gpointer)
  : M B bool :=
  match backend, data with
  | Some (ObjectBackend v), Pointer h => on_backend (object_delete v h)
  | Some (ObjectBackend v), Indeterminate => undefined
  | _, _ => critical ;; ret false
  end.

Definition j_backend_object_close (backend : option JBackend) (data : gpointer)
  : M B bool :=
  match backend, data with
  | Some (ObjectBackend v), Pointer h => on_backend (object_close v h)
  | Some (ObjectBackend v), Indeterminate => undefined
  | _, _ => critical ;; ret false
  end.

Definition j_backend_object_status
    (backend : option JBackend) (data : gpointer)
    (modification_time size : option Z)
  : M B bool :=
  match backend, data, modification_time, size with
  | Some (ObjectBackend v), Pointer h, Some modification_time, Some size =>
      let* (r, stored) := on_backend (object_status v h) in
      match stored with
      | Some (t, s) =>
          store_counter modification_time t ;; store_counter size s ;; ret r
      | None => ret r
      end
  | Some (ObjectBackend v), Indeterminate, _, _ => undefined
  | _, _, _, _ => critical ;; ret false
  end.

Definition j_backend_object_read
    (backend : option JBackend) (data : gpointer) (buffer : option Z)
    (length offset : Z) (bytes_read : option Z)
  : M B bool :=
  match backend, data, buffer, bytes_read with
  | Some (ObjectBackend v), Pointer h, Some buffer, Some bytes_read =>
      let* (r, after, bytes) :=
        (fun w => on_backend
           (object_read v h length offset (load_counter w bytes_read)) w) in
      store_counter bytes_read after ;;
      match bytes with
      | Some bytes => store_buffer buffer bytes ;; ret r
      | None => ret r
      end
  | Some (ObjectBackend v), Indeterminate, _, _ => undefined
  | _, _, _, _ => critical ;; ret false
  end.

Definition j_backend_object_write
    (backend : option JBackend) (data : gpointer) (buffer : option (list Byte.byte))
    (length offset : Z) (bytes_written : option Z)
  : M B bool :=
  match backend, data, buffer, bytes_written with
  | Some (ObjectBackend v), Pointer h, Some buffer, Some bytes_written =>
      let* (r, after) :=
        (fun w => on_backend
           (object_write v h buffer length offset (load_counter w bytes_written)) w) in
      store_counter bytes_written after ;; ret r
  | Some (ObjectBackend v), Indeterminate, _, _ => undefined
  | _, _, _, _ => critical ;; ret false
  end.

Definition j_backend_kv_init (backend : option JBackend) (path : option string)
  : M B bool :=
  match backend, path with
  | Some (KVBackend v), Some path => on_backend (kv_init v path)
  | _, _ => critical ;; ret false
  end.

Definition j_backend_kv_batch_start
    (backend : option JBackend) (namespace : option string) (safety : JSemanticsSafety)
  : M B (bool * gpointer) :=
  match backend, namespace with
  | Some (KVBackend v), Some namespace => on_backend (kv_batch_start v namespace safety)
  | _, _ => critical ;; ret (false, Indeterminate)
  end.

Definition j_backend_kv_batch_execute (backend : option JBackend) (batch : gpointer)
  : M B bool :=
  match backend, batch with
  | Some (KVBackend v), Pointer h => on_backend (kv_batch_execute v h)
  | Some (KVBackend v), Indeterminate => undefined
  | _, _ => critical ;; ret false
  end.

Definition j_backend_kv_put
    (backend : option JBackend) (batch : gpointer)
    (key : option string) (value : option bson_t)
  : M B (bool * gpointer) :=
  match backend, batch, key, value with
  | Some (KVBackend v), Pointer h, Some key, Some value =>
      let* (r, h') := on_backend (kv_put v h key value) in
      ret (r, Pointer h')
  | Some (KVBackend v), Indeterminate, _, _ => undefined
  | _, _, _, _ => critical ;; ret (false, batch)
  end.

Definition j_backend_kv_delete
    (backend : option JBackend) (batch : gpointer) (key : option string)
  : M B (bool * gpointer) :=
  match backend, batch, key with
  | Some (KVBackend v), Pointer h, Some key =>
      let* (r, h') := on_backend (kv_delete v h key) in
      ret (r, Pointer h')
  | Some (KVBackend v), Indeterminate, _ => undefined
  | _, _, _ => critical ;; ret (false, batch)
  end.

(** [value_is_null] tells whether the [value] pointer is [NULL]; the second
    component of the result is the document the backend copied to it. *)
Definition j_backend_kv_get
    (backend : option JBackend) (namespace key : option string)
    (value_is_null : bool)
  : M B (bool * option bson_t) :=
  match backend, namespace, key, value_is_null with
  | Some (KVBackend v), Some namespace, Some key, false =>
      on_backend (kv_get v namespace key)
  | _, _, _, _ => critical ;; ret (false, None)
  end.

(** *** The process-wide state ([lib/jcommon.c]) *)

Record JCommon : Type := mkJCommon {
  common_configuration : JConfiguration;
  common_object_backend : option JBackend;
  common_kv_backend : option JBackend
}.

Definition j_configuration (j_common : option JCommon) : M B (option JConfiguration) :=
  match j_common with
  | Some common => ret (Some (common_configuration common))
  | None => critical ;; ret None
  end.

Definition j_object_backend (j_common : option JCommon) : M B (option JBackend) :=
  match j_common with
  | Some common => ret (common_object_backend common)
  | None => critical ;; ret None
  end.

Definition j_kv_backend (j_common : option JCommon) : M B (option JBackend) :=
  match j_common with
  | Some common => ret (common_kv_backend common)
  | None => critical ;; ret None
  end.

(** [j_backend_load] asks the dynamic loader for the module of a backend and
    the module for its descriptor: the result is whether a module was opened
    and the descriptor found in it, if any. *)
Variable j_backend_load : string -> string -> JBackendType -> M B (bool * option JBackend).

Definition j_backend_load_client
    (name component : option string) (type : JBackendType)
  : M B (bool * option JBackend) :=
  match name, component with
  | Some name, Some component =>
      if String.eqb component "client" then
        let* (_, backend) := j_backend_load name "client" type in
        ret (true, backend)
      else ret (false, None)
  | _, _ => critical ;; ret (false, None)
  end.

Variable g_key_file_parse_list : string -> list string.
Variable g_key_file_parse_integer : string -> option Z.
Variable g_path_is_absolute : string -> bool.
Variable g_path_get_basename : string -> string.
Variable g_build_filename : list string -> string.

(** [j_init]: the result is the new value of the static [j_common]. The
    label [error] ends in [g_error], which stops the program. *)
Definition j_init (j_common : option JCommon) (env : Environment)
  : M B (option JCommon) :=
  match j_common with
  | Some _ => critical ;; ret j_common
  | None =>
      let configuration :=
        sel_configuration
          (j_configuration_new g_key_file_parse_list g_key_file_parse_integer
             g_path_is_absolute g_path_get_basename g_build_filename env) in
      match configuration with
      | None => abort
      | Some _ =>
          let object_backend := j_configuration_get_object_backend configuration in
          let object_component := j_configuration_get_object_component configuration in
          let object_path := j_configuration_get_object_path configuration in
          let kv_backend := j_configuration_get_kv_backend configuration in
          let kv_component := j_configuration_get_kv_component configuration in
          let kv_path := j_configuration_get_kv_path configuration in
          let* (object_loaded, common_object) :=
            j_backend_load_client object_backend object_component J_BACKEND_TYPE_OBJECT in
          let* object_ok :=
            (if object_loaded then
               match common_object with
               | None => ret false
               | Some _ => j_backend_object_init common_object object_path
               end
             else ret true) in
          if negb object_ok then abort
          else
            let* (kv_loaded, common_kv) :=
              j_backend_load_client kv_backend kv_component J_BACKEND_TYPE_KV in
            let* kv_ok :=
              (if kv_loaded then
                 match common_kv with
                 | None => ret false
                 | Some _ => j_backend_kv_init common_kv kv_path
                 end
               else ret true) in
            if negb kv_ok then abort
            else
              match configuration with
              | Some c =>
                  ret (Some {| common_configuration := c;
                               common_object_backend := common_object;
                               common_kv_backend := common_kv |})
              | None => abort
              end
      end
  end.

(** *** Handles ([j_object_new], [j_kv_new] and their [_for_index] variants) *)

(** [jhelper.c] is not among the sources: the hash is a parameter. *)
Variable j_helper_hash : string -> Z.

(** The count getters log a critical message for a [NULL] configuration. *)
Definition check_configuration (configuration : option JConfiguration) : M B unit :=
  if is_null configuration then critical else ret tt.

(** [hash % 0] is a division by zero. *)
Definition j_object_new (j_common : option JCommon) (namespace name : option string)
  : M B (option JObject) :=
  let* configuration := j_configuration j_common in
  match namespace, name with
  | Some namespace, Some name =>
      check_configuration configuration ;;
      let count := j_configuration_get_object_server_count configuration in
      if Z.eqb count 0 then undefined
      else ret (Some {| o_index := j_helper_hash name mod count;
                        o_namespace := namespace;
                        o_name := name;
                        o_ref_count := 1 |})
  | _, _ => critical ;; ret None
  end.

Definition j_object_new_for_index
    (j_common : option JCommon) (index : Z) (namespace name : option string)
  : M B (option JObject) :=
  let* configuration := j_configuration j_common in
  match namespace, name with
  | Some namespace, Some name =>
      check_configuration configuration ;;
      if Z.ltb index (j_configuration_get_object_server_count configuration)
      then ret (Some {| o_index := index;
                        o_namespace := namespace;
                        o_name := name;
                        o_ref_count := 1 |})
      else critical ;; ret None
  | _, _ => critical ;; ret None
  end.

Definition j_kv_new (j_common : option JCommon) (namespace key : option string)
  : M B (option JKV) :=
  let* configuration := j_configuration j_common in
  match namespace, key with
  | Some namespace, Some key =>
      check_configuration configuration ;;
      let count := j_configuration_get_kv_server_count configuration in
      if Z.eqb count 0 then undefined
      else ret (Some {| kv_index := j_helper_hash key mod count;
                        kv_namespace := namespace;
                        kv_key := key;
                        kv_ref_count := 1 |})
  | _, _ => critical ;; ret None
  end.

Definition j_kv_new_for_index
    (j_common : option JCommon) (index : Z) (namespace key : option string)
  : M B (option JKV) :=
  let* configuration := j_configuration j_common in
  match namespace, key with
  | Some namespace, Some key =>
      check_configuration configuration ;;
      if Z.ltb index (j_configuration_get_kv_server_count configuration)
      then ret (Some {| kv_index := index;
                        kv_namespace := namespace;
                        kv_key := key;
                        kv_ref_count := 1 |})
      else critical ;; ret None
  | _, _ => critical ;; ret None
  end.

Definition j_object_ref (item : JObject) : JObject :=
  {| o_index := o_index item;
     o_namespace := o_namespace item;
     o_name := o_name item;
     o_ref_count := o_ref_count item + 1 |}.

Definition j_kv_ref (kv : JKV) : JKV :=
  {| kv_index := kv_index kv;
     kv_namespace := kv_namespace kv;
     kv_key := kv_key kv;
     kv_ref_count := kv_ref_count kv + 1 |}.

(** *** Operations and batches

    The members of the unions [JObjectOperation] and [JKVOperation]. A
    pointer into the caller's memory is an address; the data of a write is
    the bytes behind [data]. *)

Record JObjectStatus : Type := mkJObjectStatus {
  status_object : JObject;
  status_modification_time : option Z;
  status_size : option Z
}.

Record JObjectRead : Type := mkJObjectRead {
  read_object : JObject;
  read_data : Z;
  read_length : Z;
  read_offset : Z;
  read_bytes_read : Z
}.

Record JObjectWrite : Type := mkJObjectWrite {
  write_object : JObject;
  write_data : list Byte.byte;
  write_length : Z;
  write_offset : Z;
  write_bytes_written : Z
}.

Record JKVPut : Type := mkJKVPut {
  put_kv : JKV;
  put_value : option bson_t
}.

Record JKVGet : Type := mkJKVGet {
  get_kv : JKV;
  get_value : option Z;
  get_func : option Z;
  get_data : Z
}.

Inductive OperationData : Type :=
| DataObject (object : JObject)
| DataStatus (op : JObjectStatus)
| DataRead (op : JObjectRead)
| DataWrite (op : JObjectWrite)
| DataKVPut (op : JKVPut)
| DataKV (kv : JKV)
| DataKVGet (op : JKVGet).

(** The functions an operation points at. *)
Inductive ExecFunc : Type :=
| Exec_object_create
| Exec_object_delete
| Exec_object_read
| Exec_object_write
| Exec_object_status
| Exec_kv_put
| Exec_kv_delete
| Exec_kv_get.

Inductive FreeFunc : Type :=
| Free_object_create
| Free_object_delete
| Free_object_read
| Free_object_write
| Free_object_status
| Free_kv_put
| Free_kv_delete
| Free_kv_get.

(** The key of an operation is the handle it was made for; the handle is
    told apart by what identifies it. *)
Inductive OperationKey : Type :=
| ObjectKey (index : Z) (namespace name : string)
| KVKey (index : Z) (namespace key : string).

Definition key_of_object (object : JObject) : OperationKey :=
  ObjectKey (o_index object) (o_namespace object) (o_name object).

Definition key_of_kv (kv : JKV) : OperationKey :=
  KVKey (kv_index kv) (kv_namespace kv) (kv_key kv).

Record JOperation : Type := mkJOperation {
  op_key : OperationKey;
  op_data : OperationData;
  op_exec_func : ExecFunc;
  op_free_func : FreeFunc
}.

Record JBatch : Type := mkJBatch {
  batch_operations : list JOperation;
  batch_semantics : JSemantics
}.

(** Modelled from the spec: [j_batch_add] ([jbatch.c] is not among the
    sources) adds the operation to the batch in insertion order (section
    4.G). *)
Definition j_batch_add (batch : JBatch) (operation : JOperation) : JBatch :=
  {| batch_operations := batch_operations batch ++ [operation];
     batch_semantics := batch_semantics batch |}.

(** *** Enqueueing ([j_object_create] ... [j_kv_get_callback])

    Each function returns the batch as it is after the call. *)

Definition j_object_create (object : option JObject) (batch : JBatch) : M B JBatch :=
  match object with
  | Some object =>
      ret (j_batch_add batch
             {| op_key := key_of_object object;
                op_data := DataObject (j_object_ref object);
                op_exec_func := Exec_object_create;
                op_free_func := Free_object_create |})
  | None => critical ;; ret batch
  end.

Definition j_object_delete (object : option JObject) (batch : JBatch) : M B JBatch :=
  match object with
  | Some object =>
      ret (j_batch_add batch
             {| op_key := key_of_object object;
                op_data := DataObject (j_object_ref object);
                op_exec_func := Exec_object_delete;
                op_free_func := Free_object_delete |})
  | None => critical ;; ret batch
  end.

Definition j_object_read
    (object : option JObject) (data : option Z) (length offset : Z)
    (bytes_read : option Z) (batch : JBatch)
  : M B JBatch :=
  match object, data, Z.ltb 0 length, bytes_read with
  | Some object, Some data, true, Some bytes_read =>
      let iop := {| read_object := j_object_ref object;
                    read_data := data;
                    read_length := length;
                    read_offset := offset;
                    read_bytes_read := bytes_read |} in
      store_counter bytes_read 0 ;;
      ret (j_batch_add batch
             {| op_key := key_of_object object;
                op_data := DataRead iop;
                op_exec_func := Exec_object_read;
                op_free_func := Free_object_read |})
  | _, _, _, _ => critical ;; ret batch
  end.

Definition j_object_write
    (object : option JObject) (data : option (list Byte.byte)) (length offset : Z)
    (bytes_written : option Z) (batch : JBatch)
  : M B JBatch :=
  match object, data, Z.ltb 0 length, bytes_written with
  | Some object, Some data, true, Some bytes_written =>
      let iop := {| write_object := j_object_ref object;
                    write_data := data;
                    write_length := length;
                    write_offset := offset;
                    write_bytes_written := bytes_written |} in
      store_counter bytes_written 0 ;;
      ret (j_batch_add batch
             {| op_key := key_of_object object;
                op_data := DataWrite iop;
                op_exec_func := Exec_object_write;
                op_free_func := Free_object_write |})
  | _, _, _, _ => critical ;; ret batch
  end.

Definition j_object_status
    (object : option JObject) (modification_time size : option Z) (batch : JBatch)
  : M B JBatch :=
  match object with
  | Some object =>
      let iop := {| status_object := j_object_ref object;
                    status_modification_time := modification_time;
                    status_size := size |} in
      ret (j_batch_add batch
             {| op_key := key_of_object object;
                op_data := DataStatus iop;
                op_exec_func := Exec_object_status;
                op_free_func := Free_object_status |})
  | None => critical ;; ret batch
  end.

Definition j_kv_put (kv : option JKV) (value : option bson_t) (batch : JBatch)
  : M B JBatch :=
  match kv with
  | Some kv =>
      let kop := {| put_kv := j_kv_ref kv; put_value := value |} in
      ret (j_batch_add batch
             {| op_key := key_of_kv kv;
                op_data := DataKVPut kop;
                op_exec_func := Exec_kv_put;
                op_free_func := Free_kv_put |})
  | None => critical ;; ret batch
  end.

Definition j_kv_delete (object : option JKV) (batch : JBatch) : M B JBatch :=
  match object with
  | Some object =>
      ret (j_batch_add batch
             {| op_key := key_of_kv object;
                op_data := DataKV (j_kv_ref object);
                op_exec_func := Exec_kv_delete;
                op_free_func := Free_kv_delete |})
  | None => critical ;; ret batch
  end.

Definition j_kv_get (kv : option JKV) (value : option Z) (batch : JBatch)
  : M B JBatch :=
  match kv with
  | Some kv =>
      let kop := {| get_kv := j_kv_ref kv; get_value := value;
                    get_func := None; get_data := 0 |} in
      ret (j_batch_add batch
             {| op_key := key_of_kv kv;
                op_data := DataKVGet kop;
                op_exec_func := Exec_kv_get;
                op_free_func := Free_kv_get |})
  | None => critical ;; ret batch
  end.

Definition j_kv_get_callback
    (kv : option JKV) (func : option Z) (data : Z) (batch : JBatch)
  : M B JBatch :=
  match kv, func with
  | Some kv, Some func =>
      let kop := {| get_kv := j_kv_ref kv; get_value := None;
                    get_func := Some func; get_data := data |} in
      ret (j_batch_add batch
             {| op_key := key_of_kv kv;
                op_data := DataKVGet kop;
                op_exec_func := Exec_kv_get;
                op_free_func := Free_kv_get |})
  | _, _ => critical ;; ret batch
  end.

(** *** Safety on the wire *)

(** The value of the flag is in [jmessage.h], which is not among the
    sources. *)
Variable J_MESSAGE_FLAGS_SAFETY_NETWORK : Z.

(** Modelled from the spec: [j_message_set_safety] ([jmessage.c] is not
    among the sources). The flags carry [SAFETY_NETWORK] when the receiver
    must produce a reply (sections 4.C and 6); safety [none] is
    fire-and-forget, [network] awaits a reply and [storage] makes the server
    sync before replying (section 3). *)
Definition j_message_set_safety (message : JMessage) (semantics : JSemantics)
  : JMessage :=
  match sem_safety semantics with
  | J_SEMANTICS_SAFETY_NONE => message
  | J_SEMANTICS_SAFETY_NETWORK
  | J_SEMANTICS_SAFETY_STORAGE =>
      {| msg_type := msg_type message;
         msg_flags := Z.lor (msg_flags message) J_MESSAGE_FLAGS_SAFETY_NETWORK;
         msg_count := msg_count message;
         msg_fields := msg_fields message;
         msg_bulk := msg_bulk message |}
  end.

(** [j_message_get_flags(message) & J_MESSAGE_FLAGS_SAFETY_NETWORK] *)
Definition wants_reply (message : JMessage) : bool :=
  negb (Z.eqb (Z.land (j_message_get_flags message) J_MESSAGE_FLAGS_SAFETY_NETWORK) 0).

(** *** The exec functions of [client/object/jobject.c]

    In each of them the message is only built when no backend is loaded;
    with a backend the message carried through the loop is never used. The
    commented-out [j_message_force_safety] calls of the source are not
    part of the code. *)

Fixpoint object_create_loop
    (object_backend : option JBackend) (operations : list JObject)
    (ret_ : bool) (message : JMessage) : M B (bool * JMessage) :=
  match operations with
  | [] => ret (ret_, message)
  | object :: rest =>
      match object_backend with
      | Some _ =>
          let* (r, object_handle) :=
            j_backend_object_create object_backend
              (Some (o_namespace object)) (Some (o_name object)) in
          let ret_ := r && ret_ in
          let* r := j_backend_object_close object_backend object_handle in
          let ret_ := r && ret_ in
          object_create_loop object_backend rest ret_ message
      | None =>
          let message := j_message_add_operation message in
          let message := j_message_append message (FString (o_name object)) in
          object_create_loop object_backend rest ret_ message
      end
  end.

Definition j_object_create_exec
    (j_common : option JCommon)
    (operations : option (list JObject)) (semantics : option JSemantics)
  : M B bool :=
  match operations, semantics with
  | Some operations, Some semantics =>
      match operations with
      | [] => abort
      | object :: _ =>
          let namespace := o_namespace object in
          let index := o_index object in
          let* object_backend := j_object_backend j_common in
          let message := j_message_new J_MESSAGE_OBJECT_CREATE in
          let message := j_message_set_safety message semantics in
          let message := j_message_append message (FString namespace) in
          let* (ret_, message) :=
            object_create_loop object_backend operations false message in
          match object_backend with
          | None =>
              emit (Pop ObjectPool index) ;;
              emit (Send message) ;;
              (if wants_reply message
               then let* _ := j_message_receive in ret tt
               else ret tt) ;;
              emit (Push ObjectPool index) ;;
              ret ret_
          | Some _ => ret ret_
          end
      end
  | _, _ => critical ;; ret false
  end.

Fixpoint object_delete_loop
    (object_backend : option JBackend) (operations : list JObject)
    (ret_ : bool) (message : JMessage) : M B (bool * JMessage) :=
  match operations with
  | [] => ret (ret_, message)
  | object :: rest =>
      match object_backend with
      | Some _ =>
          let* (r, object_handle) :=
            j_backend_object_open object_backend
              (Some (o_namespace object)) (Some (o_name object)) in
          let ret_ := r && ret_ in
          let* r := j_backend_object_delete object_backend object_handle in
          let ret_ := r && ret_ in
          object_delete_loop object_backend rest ret_ message
      | None =>
          let message := j_message_add_operation message in
          let message := j_message_append message (FString (o_name object)) in
          object_delete_loop object_backend rest ret_ message
      end
  end.

Definition j_object_delete_exec
    (j_common : option JCommon)
    (operations : option (list JObject)) (semantics : option JSemantics)
  : M B bool :=
  match operations, semantics with
  | Some operations, Some semantics =>
      match operations with
      | [] => abort
      | object :: _ =>
          let namespace := o_namespace object in
          let index := o_index object in
          let* object_backend := j_object_backend j_common in
          let message := j_message_new J_MESSAGE_OBJECT_DELETE in
          let message := j_message_set_safety message semantics in
          let message := j_message_append message (FString namespace) in
          let* (ret_, message) :=
            object_delete_loop object_backend operations false message in
          match object_backend with
          | None =>
              emit (Pop ObjectPool index) ;;
              emit (Send message) ;;
              (if wants_reply message
               then let* _ := j_message_receive in ret tt
               else ret tt) ;;
              emit (Push ObjectPool index) ;;
              ret ret_
          | Some _ => ret ret_
          end
      end
  | _, _ => critical ;; ret false
  end.

Fixpoint object_read_loop
    (object_backend : option JBackend) (object_handle : gpointer)
    (operations : list JObjectRead) (ret_ : bool) (message : JMessage)
  : M B (bool * JMessage) :=
  match operations with
  | [] => ret (ret_, message)
  | operation :: rest =>
      let data := read_data operation in
      let length := read_length operation in
      let offset := read_offset operation in
      let bytes_read := read_bytes_read operation in
      match object_backend with
      | Some _ =>
          let* r :=
            j_backend_object_read object_backend object_handle (Some data)
              length offset (Some bytes_read) in
          object_read_loop object_backend object_handle rest (r && ret_) message
      | None =>
          let message := j_message_add_operation message in
          let message := j_message_append message (F8 length) in
          let message := j_message_append message (F8 offset) in
          object_read_loop object_backend object_handle rest ret_ message
      end
  end.

(** The inner loop over one reply: at most [n] operations, and no more than
    the list iterator still has. The result is what the iterator has left. *)
Fixpoint object_read_reply
    (n : nat) (operations : list JObjectRead) (reply : JMessage)
  : M B (list JObjectRead) :=
  match n, operations with
  | S n', operation :: rest =>
      let* (nbytes, reply) := of_option (j_message_get_8 reply) in
      j_helper_atomic_add (read_bytes_read operation) nbytes ;;
      if Z.ltb 0 nbytes then
        let* (bytes, reply) := of_option (read_bulk reply nbytes) in
        store_buffer (read_data operation) bytes ;;
        object_read_reply n' rest reply
      else object_read_reply n' rest reply
  | _, _ => ret operations
  end.

(** The outer loop: one turn per frame that arrives; [frames] are the frames
    still to come. *)
Fixpoint object_read_replies
    (frames : list JMessage) (operations_done operation_count : Z)
    (operations : list JObjectRead) : M B unit :=
  if Z.ltb operations_done operation_count then
    match frames with
    | [] => fun _ => Blocked
    | _ :: frames' =>
        let* reply := j_message_receive in
        let reply_operation_count := j_message_get_count reply in
        let* operations :=
          object_read_reply (Z.to_nat reply_operation_count) operations reply in
        object_read_replies frames'
          (wrap32 (operations_done + reply_operation_count)) operation_count
          operations
    end
  else ret tt.

Definition j_object_read_exec
    (j_common : option JCommon)
    (operations : option (list JObjectRead)) (semantics : option JSemantics)
  : M B bool :=
  match operations, semantics with
  | Some operations, Some semantics =>
      match operations with
      | [] => undefined
      | operation :: _ =>
          let object := read_object operation in
          let* object_backend := j_object_backend j_common in
          let* (ret_, object_handle) :=
            match object_backend with
            | Some _ =>
                let* (r, h) :=
                  j_backend_object_open object_backend
                    (Some (o_namespace object)) (Some (o_name object)) in
                ret (r && true, h)
            | None => ret (true, Indeterminate)
            end in
          let message := j_message_new J_MESSAGE_OBJECT_READ in
          let message := j_message_set_safety message semantics in
          let message := j_message_append message (FString (o_namespace object)) in
          let message := j_message_append message (FString (o_name object)) in
          let* (ret_, message) :=
            object_read_loop object_backend object_handle operations ret_ message in
          match object_backend with
          | Some _ =>
              let* r := j_backend_object_close object_backend object_handle in
              ret (r && ret_)
          | None =>
              emit (Pop ObjectPool (o_index object)) ;;
              emit (Send message) ;;
              (fun w =>
                 object_read_replies (incoming w) 0 (j_message_get_count message)
                   operations w) ;;
              emit (Push ObjectPool (o_index object)) ;;
              ret ret_
          end
      end
  | _, _ => critical ;; ret false
  end.

Fixpoint object_write_loop
    (object_backend : option JBackend) (object_handle : gpointer)
    (semantics : JSemantics)
    (operations : list JObjectWrite) (ret_ : bool) (message : JMessage)
  : M B (bool * JMessage) :=
  match operations with
  | [] => ret (ret_, message)
  | operation :: rest =>
      let data := write_data operation in
      let length := write_length operation in
      let offset := write_offset operation in
      let bytes_written := write_bytes_written operation in
      let* (ret_, message) :=
        match object_backend with
        | Some _ =>
            let* r :=
              j_backend_object_write object_backend object_handle (Some data)
                length offset (Some bytes_written) in
            ret (r && ret_, message)
        | None =>
            let message := j_message_add_operation message in
            let message := j_message_append message (F8 length) in
            let message := j_message_append message (F8 offset) in
            let message := j_message_add_send message (take (Z.to_nat length) data) in
            ret (ret_, message)
        end in
      (if decide (sem_safety semantics = J_SEMANTICS_SAFETY_NONE)
       then j_helper_atomic_add bytes_written length
       else ret tt) ;;
      object_write_loop object_backend object_handle semantics rest ret_ message
  end.

Fixpoint object_write_reply (operations : list JObjectWrite) (reply : JMessage)
  : M B unit :=
  match operations with
  | [] => ret tt
  | operation :: rest =>
      let* (nbytes, reply) := of_option (j_message_get_8 reply) in
      j_helper_atomic_add (write_bytes_written operation) nbytes ;;
      object_write_reply rest reply
  end.

Definition j_object_write_exec
    (j_common : option JCommon)
    (operations : option (list JObjectWrite)) (semantics : option JSemantics)
  : M B bool :=
  match operations, semantics with
  | Some operations, Some semantics =>
      match operations with
      | [] => undefined
      | operation :: _ =>
          let object := write_object operation in
          let* object_backend := j_object_backend j_common in
          let* (ret_, object_handle) :=
            match object_backend with
            | Some _ =>
                let* (r, h) :=
                  j_backend_object_open object_backend
                    (Some (o_namespace object)) (Some (o_name object)) in
                ret (r && true, h)
            | None => ret (true, Indeterminate)
            end in
          let message := j_message_new J_MESSAGE_OBJECT_WRITE in
          let message := j_message_set_safety message semantics in
          let message := j_message_append message (FString (o_namespace object)) in
          let message := j_message_append message (FString (o_name object)) in
          let* (ret_, message) :=
            object_write_loop object_backend object_handle semantics
              operations ret_ message in
          match object_backend with
          | Some _ =>
              let* r := j_backend_object_close object_backend object_handle in
              ret (r && ret_)
          | None =>
              emit (Pop ObjectPool (o_index object)) ;;
              emit (Send message) ;;
              (if wants_reply message
               then
                 let* reply := j_message_receive in
                 object_write_reply operations reply
               else ret tt) ;;
              emit (Push ObjectPool (o_index object)) ;;
              ret ret_
          end
      end
  | _, _ => critical ;; ret false
  end.

Fixpoint object_status_loop
    (object_backend : option JBackend) (operations : list JObjectStatus)
    (ret_ : bool) (message : JMessage) : M B (bool * JMessage) :=
  match operations with
  | [] => ret (ret_, message)
  | operation :: rest =>
      let object := status_object operation in
      let modification_time := status_modification_time operation in
      let size := status_size operation in
      match object_backend with
      | Some _ =>
          let* (r, object_handle) :=
            j_backend_object_open object_backend
              (Some (o_namespace object)) (Some (o_name object)) in
          let ret_ := r && ret_ in
          let* r :=
            j_backend_object_status object_backend object_handle
              modification_time size in
          let ret_ := r && ret_ in
          let* r := j_backend_object_close object_backend object_handle in
          let ret_ := r && ret_ in
          object_status_loop object_backend rest ret_ message
      | None =>
          let message := j_message_add_operation message in
          let message := j_message_append message (FString (o_name object)) in
          object_status_loop object_backend rest ret_ message
      end
  end.

(** [gint64 modification_time_] and [guint64 size_] take the two fields
    of the reply, the first read as a signed number.
    [*modification_time = ...; *size = ...]: a [NULL] pointer is
    dereferenced. *)
Fixpoint object_status_reply (operations : list JObjectStatus) (reply : JMessage)
  : M B unit :=
  match operations with
  | [] => ret tt
  | operation :: rest =>
      let* (modification_time_, reply) := of_option (j_message_get_8 reply) in
      let* (size_, reply) := of_option (j_message_get_8 reply) in
      match status_modification_time operation, status_size operation with
      | Some modification_time, Some size =>
          store_counter modification_time (to_gint64 modification_time_) ;;
          store_counter size (wrap64 size_) ;;
          object_status_reply rest reply
      | _, _ => undefined
      end
  end.

Definition j_object_status_exec
    (j_common : option JCommon)
    (operations : option (list JObjectStatus)) (semantics : option JSemantics)
  : M B bool :=
  match operations, semantics with
  | Some operations, Some semantics =>
      match operations with
      | [] => undefined
      | operation :: _ =>
          let object := status_object operation in
          let namespace := o_namespace object in
          let index := o_index object in
          let* object_backend := j_object_backend j_common in
          let message := j_message_new J_MESSAGE_OBJECT_STATUS in
          let message := j_message_set_safety message semantics in
          let message := j_message_append message (FString namespace) in
          let* (ret_, message) :=
            object_status_loop object_backend operations false message in
          match object_backend with
          | None =>
              emit (Pop ObjectPool index) ;;
              emit (Send message) ;;
              (let* reply := j_message_receive in
               object_status_reply operations reply) ;;
              emit (Push ObjectPool index) ;;
              ret ret_
          | Some _ => ret ret_
          end
      end
  | _, _ => critical ;; ret false
  end.

(** *** The exec functions of [client/kv/jkv.c] *)

Fixpoint kv_put_loop
    (kv_backend : option JBackend) (operations : list JKVPut)
    (ret_ : bool) (kv_batch : gpointer) (message : JMessage)
  : M B (bool * gpointer * JMessage) :=
  match operations with
  | [] => ret (ret_, kv_batch, message)
  | kop :: rest =>
      match kv_backend with
      | Some _ =>
          let* (r, kv_batch) :=
            j_backend_kv_put kv_backend kv_batch
              (Some (kv_key (put_kv kop))) (put_value kop) in
          kv_put_loop kv_backend rest (r && ret_) kv_batch message
      | None =>
          match put_value kop with
          | Some value =>
              let message := j_message_add_operation message in
              let message := j_message_append message (FString (kv_key (put_kv kop))) in
              let message := j_message_append message (F4 (bson_len value)) in
              let message := j_message_append message (FData value) in
              kv_put_loop kv_backend rest ret_ kv_batch message
          | None => undefined
          end
      end
  end.

Definition j_kv_put_exec
    (j_common : option JCommon)
    (operations : option (list JKVPut)) (semantics : option JSemantics)
  : M B bool :=
  match operations, semantics with
  | Some operations, Some semantics =>
      match operations with
      | [] => abort
      | kop :: _ =>
          let namespace := kv_namespace (put_kv kop) in
          let index := kv_index (put_kv kop) in
          let safety := sem_safety semantics in
          let* kv_backend := j_kv_backend j_common in
          let* (ret_, kv_batch) :=
            match kv_backend with
            | Some _ => j_backend_kv_batch_start kv_backend (Some namespace) safety
            | None => ret (true, Indeterminate)
            end in
          let message := j_message_new J_MESSAGE_KV_PUT in
          let message := j_message_set_safety message semantics in
          let message := j_message_append message (FString namespace) in
          let* (ret_, kv_batch, message) :=
            kv_put_loop kv_backend operations ret_ kv_batch message in
          match kv_backend with
          | Some _ =>
              let* r := j_backend_kv_batch_execute kv_backend kv_batch in
              ret (r && ret_)
          | None =>
              emit (Pop KVPool index) ;;
              emit (Send message) ;;
              (if wants_reply message
               then let* _ := j_message_receive in ret tt
               else ret tt) ;;
              emit (Push KVPool index) ;;
              ret ret_
          end
      end
  | _, _ => critical ;; ret false
  end.

Fixpoint kv_delete_loop
    (kv_backend : option JBackend) (operations : list JKV)
    (ret_ : bool) (kv_batch : gpointer) (message : JMessage)
  : M B (bool * gpointer * JMessage) :=
  match operations with
  | [] => ret (ret_, kv_batch, message)
  | kv :: rest =>
      match kv_backend with
      | Some _ =>
          let* (r, kv_batch) :=
            j_backend_kv_delete kv_backend kv_batch (Some (kv_key kv)) in
          kv_delete_loop kv_backend rest (r && ret_) kv_batch message
      | None =>
          let message := j_message_add_operation message in
          let message := j_message_append message (FString (kv_key kv)) in
          kv_delete_loop kv_backend rest ret_ kv_batch message
      end
  end.

Definition j_kv_delete_exec
    (j_common : option JCommon)
    (operations : option (list JKV)) (semantics : option JSemantics)
  : M B bool :=
  match operations, semantics with
  | Some operations, Some semantics =>
      match operations with
      | [] => abort
      | object :: _ =>
          let namespace := kv_namespace object in
          let index := kv_index object in
          let safety := sem_safety semantics in
          let* kv_backend := j_kv_backend j_common in
          let* (ret_, kv_batch) :=
            match kv_backend with
            | Some _ => j_backend_kv_batch_start kv_backend (Some namespace) safety
            | None => ret (true, Indeterminate)
            end in
          let message := j_message_new J_MESSAGE_KV_DELETE in
          let message := j_message_set_safety message semantics in
          let message := j_message_append message (FString namespace) in
          let* (ret_, kv_batch, message) :=
            kv_delete_loop kv_backend operations ret_ kv_batch message in
          match kv_backend with
          | Some _ =>
              let* r := j_backend_kv_batch_execute kv_backend kv_batch in
              ret (r && ret_)
          | None =>
              emit (Pop KVPool index) ;;
              emit (Send message) ;;
              (if wants_reply message
               then let* _ := j_message_receive in ret tt
               else ret tt) ;;
              emit (Push KVPool index) ;;
              ret ret_
          end
      end
  | _, _ => critical ;; ret false
  end.

(** With a callback the backend fills the local [tmp]; used without having
    been filled it is indeterminate. *)
Fixpoint kv_get_loop
    (kv_backend : option JBackend) (operations : list JKVGet)
    (ret_ : bool) (message : JMessage) : M B (bool * JMessage) :=
  match operations with
  | [] => ret (ret_, message)
  | kop :: rest =>
      let namespace := kv_namespace (get_kv kop) in
      let key := kv_key (get_kv kop) in
      match kv_backend with
      | Some _ =>
          match get_func kop with
          | Some func =>
              let* (r, tmp) :=
                j_backend_kv_get kv_backend (Some namespace) (Some key) false in
              let ret_ := r && ret_ in
              if ret_ then
                match tmp with
                | Some tmp =>
                    call_get_func func (get_data kop) tmp ;;
                    kv_get_loop kv_backend rest ret_ message
                | None => undefined
                end
              else kv_get_loop kv_backend rest ret_ message
          | None =>
              let* (r, stored) :=
                j_backend_kv_get kv_backend (Some namespace) (Some key)
                  (is_null (get_value kop)) in
              let ret_ := r && ret_ in
              match stored, get_value kop with
              | Some document, Some value =>
                  bson_copy_to document value ;;
                  kv_get_loop kv_backend rest ret_ message
              | _, _ => kv_get_loop kv_backend rest ret_ message
              end
          end
      | None =>
          let message := j_message_add_operation message in
          let message := j_message_append message (FString key) in
          kv_get_loop kv_backend rest ret_ message
      end
  end.

Fixpoint kv_get_reply
    (operations : list JKVGet) (reply : JMessage) (ret_ : bool) : M B bool :=
  match operations with
  | [] => ret ret_
  | kop :: rest =>
      let* (len, reply) := of_option (j_message_get_4 reply) in
      let ret_ := Z.ltb 0 len && ret_ in
      if Z.ltb 0 len then
        let* (data, reply) := of_option (j_message_get_n reply len) in
        match get_func kop, get_value kop with
        | Some func, _ =>
            call_get_func func (get_data kop) data ;;
            kv_get_reply rest reply ret_
        | None, Some value =>
            bson_copy_to data value ;;
            kv_get_reply rest reply ret_
        | None, None => undefined
        end
      else kv_get_reply rest reply ret_
  end.

Definition j_kv_get_exec
    (j_common : option JCommon)
    (operations : option (list JKVGet)) (semantics : option JSemantics)
  : M B bool :=
  match operations, semantics with
  | Some operations, Some semantics =>
      match operations with
      | [] => abort
      | kop :: _ =>
          let namespace := kv_namespace (get_kv kop) in
          let index := kv_index (get_kv kop) in
          let* kv_backend := j_kv_backend j_common in
          let message := j_message_new J_MESSAGE_KV_GET in
          let message := j_message_set_safety message semantics in
          let message := j_message_append message (FString namespace) in
          let* (ret_, message) :=
            kv_get_loop kv_backend operations true message in
          match kv_backend with
          | None =>
              emit (Pop KVPool index) ;;
              emit (Send message) ;;
              let* reply := j_message_receive in
              let* ret_ := kv_get_reply operations reply ret_ in
              emit (Push KVPool index) ;;
              ret ret_
          | Some _ => ret ret_
          end
      end
  | _, _ => critical ;; ret false
  end.

(** *** Executing a batch *)

Definition as_object (d : OperationData) : option JObject :=
  match d with DataObject o => Some o | _ => None end.
Definition as_status (d : OperationData) : option JObjectStatus :=
  match d with DataStatus o => Some o | _ => None end.
Definition as_read (d : OperationData) : option JObjectRead :=
  match d with DataRead o => Some o | _ => None end.
Definition as_write (d : OperationData) : option JObjectWrite :=
  match d with DataWrite o => Some o | _ => None end.
Definition as_kv_put (d : OperationData) : option JKVPut :=
  match d with DataKVPut o => Some o | _ => None end.
Definition as_kv (d : OperationData) : option JKV :=
  match d with DataKV o => Some o | _ => None end.
Definition as_kv_get (d : OperationData) : option JKVGet :=
  match d with DataKVGet o => Some o | _ => None end.

(** The call through [exec_func]: the data of the
    operations is read as the function's own operation type. *)
Definition call_exec_func
    (j_common : option JCommon) (f : ExecFunc)
    (data : list OperationData) (semantics : option JSemantics) : M B bool :=
  match f with
  | Exec_object_create =>
      let* l := of_option (mapM as_object data) in
      j_object_create_exec j_common (Some l) semantics
  | Exec_object_delete =>
      let* l := of_option (mapM as_object data) in
      j_object_delete_exec j_common (Some l) semantics
  | Exec_object_read =>
      let* l := of_option (mapM as_read data) in
      j_object_read_exec j_common (Some l) semantics
  | Exec_object_write =>
      let* l := of_option (mapM as_write data) in
      j_object_write_exec j_common (Some l) semantics
  | Exec_object_status =>
      let* l := of_option (mapM as_status data) in
      j_object_status_exec j_common (Some l) semantics
  | Exec_kv_put =>
      let* l := of_option (mapM as_kv_put data) in
      j_kv_put_exec j_common (Some l) semantics
  | Exec_kv_delete =>
      let* l := of_option (mapM as_kv data) in
      j_kv_delete_exec j_common (Some l) semantics
  | Exec_kv_get =>
      let* l := of_option (mapM as_kv_get data) in
      j_kv_get_exec j_common (Some l) semantics
  end.

#[local] Instance ExecFunc_eq_dec : EqDecision ExecFunc.
Proof. solve_decision. Defined.

#[local] Instance OperationKey_eq_dec : EqDecision OperationKey.
Proof. solve_decision. Defined.

Definition same_run (a b : JOperation) : bool :=
  bool_decide (op_exec_func a = op_exec_func b)
  && bool_decide (op_key a = op_key b).

(** Modelled from the spec: [j_batch_execute] ([jbatch.c] is not among the
    sources). The engine scans the list and groups adjacent operations with
    the same exec function and the same key into runs; each run is
    dispatched with a single call of its exec function; a run reports
    boolean success, the batch's result is the conjunction, and the
    remaining runs are attempted whatever a run reports; the batch is
    drained afterwards (sections 3, 4.G). *)
Fixpoint batch_runs (operations : list JOperation) : list (list JOperation) :=
  match operations with
  | [] => []
  | operation :: rest =>
      match batch_runs rest with
      | (next :: run) :: runs =>
          if same_run operation next
          then (operation :: next :: run) :: runs
          else [operation] :: (next :: run) :: runs
      | _ => [[operation]]
      end
  end.

Fixpoint execute_runs
    (j_common : option JCommon) (runs : list (list JOperation))
    (semantics : JSemantics) : M B bool :=
  match runs with
  | [] => ret true
  | run :: rest =>
      match run with
      | [] => execute_runs j_common rest semantics
      | operation :: _ =>
          let* r :=
            call_exec_func j_common (op_exec_func operation)
              (map op_data run) (Some semantics) in
          let* rs := execute_runs j_common rest semantics in
          ret (r && rs)
      end
  end.

Definition j_batch_execute (j_common : option JCommon) (batch : JBatch)
  : M B (bool * JBatch) :=
  let* r :=
    execute_runs j_common (batch_runs (batch_operations batch))
      (batch_semantics batch) in
  ret (r, {| batch_operations := []; batch_semantics := batch_semantics batch |}).

End Engine.

End Client.

(** ** The LevelDB backend as a plug-in ([leveldb_backend], [backend_info]) *)

Module LevelDBPlugin.

Import Client.

(** [disk] is what [leveldb_open] finds at a path. The backend's state is
    the file's static variables; a batch handle is the batch behind it. *)
Definition leveldb_backend (disk : string -> option LevelDB.leveldb_t)
  : @JBackend LevelDB.Backend LevelDB.JLevelDBBatch :=
  KVBackend
    {| kv_init := fun path st =>
         Returned (LevelDB.backend_init (Some path) (disk path) st);
       kv_batch_start := fun namespace safety st =>
         match LevelDB.backend_batch_start (Some namespace) safety with
         | (r, Some b) => Returned (r, Pointer b, st)
         | (r, None) => Returned (r, Indeterminate, st)
         end;
       kv_batch_execute := fun b st => LevelDB.backend_batch_execute (Some b) st;
       kv_put := fun b key value st =>
         match LevelDB.backend_put (Some b) (Some key) (Some value) with
         | (r, Some b') => Returned (r, b', st)
         | (r, None) => Returned (r, b, st)
         end;
       kv_delete := fun b key st =>
         match LevelDB.backend_delete (Some b) (Some key) with
         | (r, Some b') => Returned (r, b', st)
         | (r, None) => Returned (r, b, st)
         end;
       kv_get := fun namespace key st =>
         match LevelDB.backend_get (Some namespace) (Some key) st with
         | Returned (r, document) => Returned (r, document, st)
         | Aborted => Aborted
         | Blocked => Blocked
         | Undefined => Undefined
         end |}.

Definition backend_info (disk : string -> option LevelDB.leveldb_t)
    (type : @JBackendType)
  : option (@JBackend LevelDB.Backend LevelDB.JLevelDBBatch) :=
  match type with
  | J_BACKEND_TYPE_KV => Some (leveldb_backend disk)
  | J_BACKEND_TYPE_OBJECT => None
  end.

End LevelDBPlugin.

(** ** The server of an index ([j_configuration_get_object_server],
    [j_configuration_get_kv_server]) *)

Module Servers.

Import Configuration Client.

Local Open Scope exec_scope.

(** [servers[index]] in a [NULL]-terminated array of [length servers]
    strings: the entry, the terminator right after the last entry, and
    nothing that may be read beyond it. *)
Definition strv_index {B} (servers : list string) (index : Z) : M B (option string) :=
  match servers !! Z.to_nat index with
  | Some server => ret (Some server)
  | None =>
      if decide (Z.to_nat index = length servers) then ret None else undefined
  end.

(** [index] is a [guint32]. *)
Definition j_configuration_get_object_server {B}
    (configuration : option JConfiguration) (index : Z) : M B (option string) :=
  match configuration with
  | None => critical ;; ret None
  | Some c =>
      if Z.ltb index (servers_object_len c)
      then strv_index (servers_object c) index
      else critical ;; ret None
  end.

Definition j_configuration_get_kv_server {B}
    (configuration : option JConfiguration) (index : Z) : M B (option string) :=
  match configuration with
  | None => critical ;; ret None
  | Some c =>
      if Z.ltb index (servers_kv_len c)
      then strv_index (servers_kv c) index
      else critical ;; ret None
  end.

End Servers.

(** ** Loading a backend ([j_backend_load], [j_backend_load_server]) *)

Module Loader.

Import Client.

Section Modules.

Context {B H : Type}.

Local Open Scope exec_scope.

(** GLib's dynamic loader: a module that opens is a [GModule]; what
    [g_module_symbol] finds under "backend_info" in it is the function, if
    the module has one. *)
Variable GModule : Type.
Variable g_build_filename : list string -> string.
Variable g_module_build_path : string -> string -> string.
Variable g_module_open : string -> option GModule.
Variable g_module_symbol_backend_info :
  GModule -> option (@JBackendType -> option (@JBackend B H)).

(** The build directory, when the library was compiled with one, and the
    installation directory. *)
Variable JULEA_BACKEND_PATH_BUILD : option string.
Variable JULEA_BACKEND_PATH : string.

(** [backend->type] *)
Definition backend_type (backend : @JBackend B H) : @JBackendType :=
  match backend with
  | ObjectBackend _ => J_BACKEND_TYPE_OBJECT
  | KVBackend _ => J_BACKEND_TYPE_KV
  end.

#[local] Instance JBackendType_eq_dec : EqDecision (@JBackendType).
Proof. solve_decision. Defined.

(** The module of a backend: the build directory is tried first. *)
Definition open_module (name component : string) : option GModule :=
  let module :=
    match JULEA_BACKEND_PATH_BUILD with
    | Some build =>
        g_module_open (g_module_build_path (g_build_filename [build; component]) name)
    | None => None
    end in
  match module with
  | Some _ => module
  | None =>
      g_module_open
        (g_module_build_path (g_build_filename [JULEA_BACKEND_PATH; component]) name)
  end.

(** The result is the module and what is stored through [backend]. A
    descriptor of this model has all its members, so that of the asserts on
    a descriptor the one on its type is left. *)
Definition j_backend_load (name component : string) (type : @JBackendType)
  : M B (option GModule * option (@JBackend B H)) :=
  let module := open_module name component in
  match module with
  | Some m =>
      match g_module_symbol_backend_info m with
      | None => abort
      | Some module_backend_info =>
          match module_backend_info type with
          | Some tmp_backend =>
              if decide (backend_type tmp_backend = type)
              then ret (module, Some tmp_backend)
              else abort
          | None => ret (module, None)
          end
      end
  | None => ret (None, None)
  end.

(** What [j_backend_load_client] and [j_backend_load_server] keep of it:
    whether a module was opened, and the descriptor. *)
Definition load (name component : string) (type : @JBackendType)
  : M B (bool * option (@JBackend B H)) :=
  let* (module, backend) := j_backend_load name component type in
  ret (bool_decide (is_Some module), backend).

Definition j_backend_load_server
    (name component : option string) (type : @JBackendType)
  : M B (bool * option (@JBackend B H)) :=
  match name, component with
  | Some name, Some component =>
      if String.eqb component "server" then
        let* (_, backend) := load name "server" type in
        ret (true, backend)
      else ret (false, None)
  | _, _ => critical ;; ret (false, None)
  end.

End Modules.

End Loader.

(** ** The file-system adapter ([jfs_create], [jfs_getattr]) *)

Module Fuse.

Import Configuration Client.

(** The fields that [jfs_create] appends to a document, and what
    [bson_iter_init_find] finds under a key. *)
Inductive bson_value : Type :=
| BUtf8 (s : string)
| BBool (b : bool)
| BInt64 (z : Z).

(** The members of [struct stat] that [jfs_getattr] sets. *)
Record stat : Type := mkStat {
  st_mode : Z;
  st_nlink : Z;
  st_uid : Z;
  st_gid : Z;
  st_size : Z;
  st_atime : Z;
  st_ctime : Z;
  st_mtime : Z
}.

(** The mode bits, with their values on Linux. *)
Definition S_IFDIR : Z := 16384.
Definition S_IFREG : Z := 32768.
Definition S_IRUSR : Z := 256.
Definition S_IWUSR : Z := 128.
Definition S_IXUSR : Z := 64.
Definition S_IRGRP : Z := 32.
Definition S_IXGRP : Z := 8.
Definition S_IROTH : Z := 4.
Definition S_IXOTH : Z := 1.

Definition ENOENT : Z := 2.
Definition G_USEC_PER_SEC : Z := 1000000.

Definition lor_all (bits : list Z) : Z := fold_left Z.lor bits 0.

(** What [jfs_getattr] stores for a directory, and for a regular file of
    the given size and time (in microseconds). *)
Definition directory_attributes : stat :=
  {| st_mode := lor_all [S_IFDIR; S_IRUSR; S_IWUSR; S_IXUSR; S_IRGRP; S_IXGRP;
                         S_IROTH; S_IXOTH];
     st_nlink := 1; st_uid := 0; st_gid := 0; st_size := 0;
     st_atime := 0; st_ctime := 0; st_mtime := 0 |}.

Definition file_attributes (size time : Z) : stat :=
  {| st_mode := lor_all [S_IFREG; S_IRUSR; S_IWUSR; S_IRGRP; S_IROTH];
     st_nlink := 1; st_uid := 0; st_gid := 0; st_size := size;
     st_atime := Z.quot time G_USEC_PER_SEC;
     st_ctime := Z.quot time G_USEC_PER_SEC;
     st_mtime := Z.quot time G_USEC_PER_SEC |}.

(** A local [bson_t] is not initialised: nothing is at its address. *)
Definition declare_document {B} (file : Z) : M B unit :=
  fun w => Returned (tt,
    mkWorld (backend w) (counters w) (delete file (documents w)) (buffers w)
            (callbacks w) (wire w) (incoming w) (criticals w)).

Definition read_document {B} (file : Z) : M B bson_t :=
  fun w => of_option (documents w !! file) w.

Section Operations.

Context {B H : Type}.

Local Open Scope exec_scope.

Variable J_MESSAGE_FLAGS_SAFETY_NETWORK : Z.
Variable j_helper_hash : string -> Z.

(** The state that [j_init] leaves to the process. *)
Variable j_common : option (@JCommon B H).

(** GLib and libbson: the base name of a path, the time of the call, the
    bytes of a document with the given fields, and the value found under a
    key of a document. *)
Variable g_path_get_basename : string -> string.
Variable g_get_real_time : Z.
Variable bson_new : list (string * bson_value) -> bson_t.
Variable bson_iter_init_find : bson_t -> string -> option bson_value.

(** The preset of the POSIX template ([jsemantics.c] is not among the
    sources). *)
Variable J_SEMANTICS_TEMPLATE_POSIX : JSemantics.

(** Modelled from the spec: a batch is created with a semantics and has no
    operation yet ([jbatch.c] is not among the sources; sections 3,
    4.G). *)
Definition j_batch_new_for_template (template : JSemantics) : JBatch :=
  {| batch_operations := []; batch_semantics := template |}.

Definition jfs_create (path : string) : M B Z :=
  let basename := g_path_get_basename path in
  let batch := j_batch_new_for_template J_SEMANTICS_TEMPLATE_POSIX in
  let* kv := j_kv_new j_helper_hash j_common (Some "posix") (Some path) in
  let* object := j_object_new j_helper_hash j_common (Some "posix") (Some path) in
  let file :=
    bson_new [("name", BUtf8 basename); ("file", BBool true);
              ("size", BInt64 0); ("time", BInt64 g_get_real_time)] in
  let* batch := j_kv_put kv (Some file) batch in
  let* batch := j_object_create object batch in
  let* (r, _) := j_batch_execute J_MESSAGE_FLAGS_SAFETY_NETWORK j_common batch in
  if (r : bool) then ret 0 else ret (- ENOENT).

(** [file] is the address of the local document; the result is the value
    returned and [*stbuf] after the call. *)
Definition jfs_getattr (path : string) (stbuf : stat) (file : Z) : M B (Z * stat) :=
  if String.eqb path "/" then ret (0, directory_attributes)
  else
    declare_document file ;;
    let batch := j_batch_new_for_template J_SEMANTICS_TEMPLATE_POSIX in
    let* kv := j_kv_new j_helper_hash j_common (Some "posix") (Some path) in
    let* batch := j_kv_get kv (Some file) batch in
    let* (r, _) := j_batch_execute J_MESSAGE_FLAGS_SAFETY_NETWORK j_common batch in
    if (r : bool) then
      let* document := read_document file in
      let size := 0 in
      let time := 0 in
      let is_file :=
        match bson_iter_init_find document "file" with
        | Some (BBool b) => b
        | _ => true
        end in
      if is_file then ret (0, file_attributes size time)
      else ret (0, directory_attributes)
    else ret (- ENOENT, stbuf).

End Operations.

End Fuse.

(** ** Background operations ([jbackground-operation.c])

    One operation, the pool thread that runs [j_background_operation_thread]
    on it and the thread of the caller, which calls
    [j_background_operation_ref], [_unref] and [_wait]. A step is one
    statement of one thread; the threads are interleaved in any order, and
    [g_cond_wait] may wake without a signal. The caller calls only with a
    reference it holds: [j_background_operation_new] hands it one, a [_ref]
    one more, an [_unref] takes one back. *)

Module BackgroundOperation.

Inductive thread : Type := Worker | Caller.

(** [struct JBackgroundOperation], and whether its memory was given back
    ([g_slice_free]). The condition has no state of its own: who sleeps on
    it is in the caller's position. *)
Record JBackgroundOperation : Type := mkJBackgroundOperation {
  func : Z -> Z;
  data : Z;
  result : Z;
  completed : bool;
  mutex : option thread;
  ref_count : Z;  (* a [gint] *)
  freed : bool
}.

(** The statement a thread is at. The worker, in
    [j_background_operation_thread]: the call of [func], [g_mutex_lock],
    [completed = TRUE], [g_cond_signal], [g_mutex_unlock],
    [j_background_operation_unref], the end. The caller: between calls, or in
    [j_background_operation_wait] at [g_mutex_lock], at the test of the
    loop, asleep in [g_cond_wait], woken and taking the mutex again, at
    [g_mutex_unlock], at the [return]. *)
Inductive worker_pc : Type :=
| W_call | W_lock | W_set | W_signal | W_unlock | W_unref | W_done.

Inductive caller_pc : Type :=
| C_idle | C_lock | C_test | C_sleep | C_woken | C_unlock | C_return.

(** [held]: the references the caller holds; [returned]: what its calls of
    [j_background_operation_wait] returned, oldest first. *)
Record State : Type := mkState {
  operation : JBackgroundOperation;
  worker : worker_pc;
  caller : caller_pc;
  held : nat;
  returned : list Z
}.

Inductive move : Type :=
| Work       (* the worker's next statement *)
| Ref        (* the caller calls [j_background_operation_ref] *)
| Unref      (* the caller calls [j_background_operation_unref] *)
| Wait       (* the caller calls [j_background_operation_wait] *)
| Go         (* the caller's next statement in [j_background_operation_wait] *)
| Spurious.  (* [g_cond_wait] wakes although no signal was sent *)

(** A statement cannot be executed now ([Disabled]: the mutex is taken, the
    thread sleeps, the thread is elsewhere), reads or writes the operation
    after its memory was given back ([UseAfterFree]), or leads to the next
    state. *)
Inductive step_result : Type :=
| Next (s : State)
| Disabled
| UseAfterFree.

(** [func] is not [NULL]. [ref_count = 2]: one reference for the caller,
    one for the worker. The operation is pushed to the pool, whose thread
    starts at the call of [func]. *)
Definition j_background_operation_new (func : Z -> Z) (data : Z) : State :=
  {| operation := {| func := func; data := data; result := 0;
                     completed := false; mutex := None; ref_count := 2;
                     freed := false |};
     worker := W_call; caller := C_idle; held := 1; returned := [] |}.

Definition with_operation (s : State) (o : JBackgroundOperation) : State :=
  {| operation := o; worker := worker s; caller := caller s; held := held s;
     returned := returned s |}.

Definition at_worker (s : State) (pc : worker_pc) : State :=
  {| operation := operation s; worker := pc; caller := caller s; held := held s;
     returned := returned s |}.

Definition at_caller (s : State) (pc : caller_pc) : State :=
  {| operation := operation s; worker := worker s; caller := pc; held := held s;
     returned := returned s |}.

Definition set_result (o : JBackgroundOperation) (v : Z) : JBackgroundOperation :=
  {| func := func o; data := data o; result := v; completed := completed o;
     mutex := mutex o; ref_count := ref_count o; freed := freed o |}.

Definition set_completed (o : JBackgroundOperation) : JBackgroundOperation :=
  {| func := func o; data := data o; result := result o; completed := true;
     mutex := mutex o; ref_count := ref_count o; freed := freed o |}.

Definition set_mutex (o : JBackgroundOperation) (m : option thread)
  : JBackgroundOperation :=
  {| func := func o; data := data o; result := result o; completed := completed o;
     mutex := m; ref_count := ref_count o; freed := freed o |}.

Definition set_ref_count (o : JBackgroundOperation) (n : Z) : JBackgroundOperation :=
  {| func := func o; data := data o; result := result o; completed := completed o;
     mutex := mutex o; ref_count := n; freed := freed o |}.

Definition set_freed (o : JBackgroundOperation) : JBackgroundOperation :=
  {| func := func o; data := data o; result := result o; completed := completed o;
     mutex := mutex o; ref_count := ref_count o; freed := true |}.

(** A statement that reads or writes the operation. *)
Definition access (s : State) (k : JBackgroundOperation -> step_result) : step_result :=
  if freed (operation s) then UseAfterFree else k (operation s).

(** [g_mutex_lock] goes on when the mutex is free. *)
Definition g_mutex_lock (s : State) (t : thread) (k : State -> State) : step_result :=
  access s (fun o =>
    match mutex o with
    | None => Next (k (with_operation s (set_mutex o (Some t))))
    | Some _ => Disabled
    end).

Definition g_mutex_unlock (s : State) (k : State -> State) : step_result :=
  access s (fun o => Next (k (with_operation s (set_mutex o None)))).

(** [g_atomic_int_inc]: [ref_count] is a [gint], and the addition wraps. *)
Definition j_background_operation_ref (s : State) : step_result :=
  access s (fun o =>
    Next (with_operation s (set_ref_count o (to_gint (ref_count o + 1))))).

(** [g_atomic_int_dec_and_test], which wraps as well, and at zero the
    condition and the mutex are cleared and the memory given back. *)
Definition j_background_operation_unref (s : State) : step_result :=
  access s (fun o =>
    let o := set_ref_count o (to_gint (ref_count o - 1)) in
    if Z.eqb (ref_count o) 0
    then Next (with_operation s (set_freed o))
    else Next (with_operation s o)).

Definition map_next (f : State -> State) (r : step_result) : step_result :=
  match r with
  | Next s => Next (f s)
  | Disabled => Disabled
  | UseAfterFree => UseAfterFree
  end.

(** [j_background_operation_thread], statement by statement.
    [g_cond_signal] wakes the thread that sleeps on the condition, if
    there is one. *)
Definition step_worker (s : State) : step_result :=
  match worker s with
  | W_call =>
      access s (fun o =>
        Next (at_worker (with_operation s (set_result o (func o (data o)))) W_lock))
  | W_lock => g_mutex_lock s Worker (fun s => at_worker s W_set)
  | W_set =>
      access s (fun o => Next (at_worker (with_operation s (set_completed o)) W_signal))
  | W_signal =>
      access s (fun _ =>
        Next (at_worker
                (match caller s with
                 | C_sleep => at_caller s C_woken
                 | _ => s
                 end) W_unlock))
  | W_unlock => g_mutex_unlock s (fun s => at_worker s W_unref)
  | W_unref => map_next (fun s => at_worker s W_done) (j_background_operation_unref s)
  | W_done => Disabled
  end.

(** [j_background_operation_wait], statement by statement. [g_cond_wait]
    gives the mutex up and sleeps until the condition is signalled (or, as
    GLib allows, until it wakes for no reason), then takes the mutex
    again. *)
Definition step_wait (s : State) : step_result :=
  match caller s with
  | C_idle => Disabled
  | C_lock => g_mutex_lock s Caller (fun s => at_caller s C_test)
  | C_test =>
      access s (fun o =>
        if completed o
        then Next (at_caller s C_unlock)
        else Next (at_caller (with_operation s (set_mutex o None)) C_sleep))
  | C_sleep => Disabled
  | C_woken => g_mutex_lock s Caller (fun s => at_caller s C_test)
  | C_unlock => g_mutex_unlock s (fun s => at_caller s C_return)
  | C_return =>
      access s (fun o =>
        Next {| operation := o; worker := worker s; caller := C_idle;
                held := held s; returned := (returned s ++ [result o])%list |})
  end.

Definition with_held (s : State) (n : nat) : State :=
  {| operation := operation s; worker := worker s; caller := caller s; held := n;
     returned := returned s |}.

(** A call of the caller: between two calls, and with a reference it
    holds. *)
Definition calling (s : State) (k : step_result) : step_result :=
  match caller s, held s with
  | C_idle, S _ => k
  | _, _ => Disabled
  end.

Definition step (m : move) (s : State) : step_result :=
  match m with
  | Work => step_worker s
  | Ref =>
      calling s (map_next (fun s => with_held s (S (held s)))
                   (j_background_operation_ref s))
  | Unref =>
      calling s (map_next (fun s => with_held s (Nat.pred (held s)))
                   (j_background_operation_unref s))
  | Wait => calling s (Next (at_caller s C_lock))
  | Go => step_wait s
  | Spurious =>
      match caller s with
      | C_sleep => Next (at_caller s C_woken)
      | _ => Disabled
      end
  end.

(** A schedule, one move after the other; a move that is disabled is
    passed over. *)
Fixpoint run (moves : list move) (s : State) : step_result :=
  match moves with
  | [] => Next s
  | m :: moves =>
      match step m s with
      | Next s' => run moves s'
      | Disabled => run moves s
      | UseAfterFree => UseAfterFree
      end
  end.

End BackgroundOperation.

(** * Vocabulary of the properties, and data to run the model on *)

(** ** Key files *)

Module ConfigurationTerms.

Import Configuration.

(** A splitter and an integer reader to run the definitions on: fields end
    at [;], integers are runs of decimal digits. *)
Fixpoint split_list_from (current : string) (raw : string) : list string :=
  match raw with
  | EmptyString =>
      match current with
      | EmptyString => []
      | _ => [current]
      end
  | String c rest =>
      if Ascii.eqb c ";"%char
      then current :: split_list_from EmptyString rest
      else split_list_from (current ++ String c EmptyString) rest
  end.

Definition split_list (raw : string) : list string :=
  split_list_from EmptyString raw.

Fixpoint read_digits (acc : Z) (raw : string) : option Z :=
  match raw with
  | EmptyString => Some acc
  | String c rest =>
      let d := Z.of_N (N_of_ascii c) - 48 in
      if (Z.leb 0 d && Z.leb d 9)%bool then read_digits (10 * acc + d) rest else None
  end.

Definition read_integer (raw : string) : option Z :=
  match raw with
  | EmptyString => None
  | _ => read_digits 0 raw
  end.

Definition example_key_file : GKeyFile :=
  list_to_map
    [ (("servers", "object"), "alpha:4711;beta:4711;gamma:4711;delta:4711");
      (("servers", "kv"), "alpha:4711;beta:4711");
      (("object", "backend"), "posix");
      (("object", "component"), "server");
      (("object", "path"), "/var/julea/object");
      (("kv", "backend"), "leveldb");
      (("kv", "component"), "server");
      (("kv", "path"), "/var/julea/kv") ].

End ConfigurationTerms.

(** ** The search for the configuration file *)

Module SelectionTerms.

Import Configuration Client.

(** The first candidate that loads, with its position. *)
Definition first_that_loads (env : Environment) (paths : list string)
  : option (nat * string) :=
  list_find (fun path => is_Some (env_key_file env path)) paths.

(** Path functions to run the search on. *)
Definition join_path (parts : list string) : string :=
  String.concat "/" parts.

Definition starts_with_slash (path : string) : bool :=
  String.prefix "/" path.

(** An environment to run the search on: no file in the user directory, none
    in [/etc/xdg], the example key file in [/usr/share]. *)
Definition example_environment : Environment :=
  {| env_JULEA_CONFIG := None;
     env_user_config_dir := "/home/user/.config";
     env_system_config_dirs := ["/etc/xdg"; "/usr/share"];
     env_key_file := fun path =>
       if String.eqb path "/usr/share/julea/julea"
       then Some ConfigurationTerms.example_key_file
       else None |}.

(** A loader that finds no module. *)
Definition no_backend_load
    (name component : string) (type : @JBackendType)
  : M unit (bool * option (@JBackend unit unit)) :=
  ret (false, None).

End SelectionTerms.

(** ** Handles *)

Module HandleTerms.

Import Configuration Client.

(** A hash to run the definitions on (Bernstein's, on 32 bits). *)
Fixpoint hash_from (h : Z) (s : string) : Z :=
  match s with
  | EmptyString => h
  | String c rest => hash_from (wrap32 (33 * h + Z.of_N (N_of_ascii c))) rest
  end.

Definition example_hash (s : string) : Z := hash_from 5381 s.

Definition example_configuration : JConfiguration :=
  {| servers_object := ["alpha:4711"; "beta:4711"; "gamma:4711"; "delta:4711"];
     servers_kv := ["alpha:4711"; "beta:4711"];
     servers_object_len := 4;
     servers_kv_len := 2;
     object_backend := "posix";
     object_component := "server";
     object_path := "/var/julea/object";
     kv_backend := "leveldb";
     kv_component := "server";
     kv_path := "/var/julea/kv";
     max_connections := 0;
     ref_count := 1 |}.

(** A process without in-process backends. *)
Definition example_common : @JCommon unit unit :=
  {| common_configuration := example_configuration;
     common_object_backend := None;
     common_kv_backend := None |}.

Definition empty_world : World unit :=
  {| backend := tt; counters := ∅; documents := ∅; buffers := ∅;
     callbacks := []; wire := []; incoming := []; criticals := 0 |}.

Definition example_object : JObject :=
  {| o_index := 1; o_namespace := "ns"; o_name := "obj"; o_ref_count := 1 |}.

Definition example_batch : JBatch :=
  {| batch_operations := [];
     batch_semantics := {| sem_safety := J_SEMANTICS_SAFETY_NETWORK |} |}.

End HandleTerms.

(** ** The LevelDB backend *)

Module LevelDBTerms.

Import LevelDB.

(** The state [backend_init] leaves behind when the database opens. *)
Definition initialised (st : Backend) : Prop :=
  is_Some (backend_db st)
  /\ backend_write_options st = Some {| sync := false |}
  /\ backend_write_options_sync st = Some {| sync := true |}.

(** What a client does with a batch between [batch_start] and
    [batch_execute]. *)
Inductive batch_call : Type :=
| CallPut (key : option string) (value : option bson_t)
| CallDelete (key : option string).

Definition apply_call (data : option JLevelDBBatch) (c : batch_call)
  : option JLevelDBBatch :=
  match c with
  | CallPut key value => snd (backend_put data key value)
  | CallDelete key => snd (backend_delete data key)
  end.

(** A five-byte document to store. *)
Definition example_document (n : Byte.byte) : bson_t :=
  [Byte.x05; Byte.x00; Byte.x00; Byte.x00; n].

(** The backend after [backend_init] on an empty database. *)
Definition example_state : Backend :=
  snd (backend_init (Some "/var/julea/kv") (Some []) backend_static).

(** The comparator's strict order on keys. *)
Definition lt_key (a b : string) : Prop := String.compare a b = Lt.

(** The database is in the order of the comparator. *)
Definition db_sorted (db : leveldb_t) : Prop :=
  StronglySorted (fun e1 e2 => lt_key (fst e1) (fst e2)) db.

(** A key written by [backend_put] ends in the NUL that [strlen + 1]
    takes along. *)
Definition terminated (key : string) : Prop := exists k, key = k ++ NUL.

Definition keys_terminated (db : leveldb_t) : Prop :=
  Forall (fun e => terminated (fst e)) db.

(** A C string has no NUL before its end. *)
Fixpoint no_nul (s : string) : Prop :=
  match s with
  | EmptyString => True
  | String c rest => c <> "000"%char /\ no_nul rest
  end.

Definition has_prefix (p : string) (entry : string * bson_t) : bool :=
  g_str_has_prefix (fst entry) p.


(** What the writes of this backend keep true of the database. *)
Definition db_wf (db : leveldb_t) : Prop := db_sorted db /\ keys_terminated db.

Definition update_terminated (u : leveldb_update) : Prop :=
  match u with
  | Put key _ => terminated key
  | Delete _ => True
  end.

(** The seed scenario of the specification: three keys, two under the
    prefix. *)
Definition example_updates : leveldb_writebatch_t :=
  match fold_left apply_call
          [CallPut (Some "alpha") (Some (example_document Byte.x01));
           CallPut (Some "ant") (Some (example_document Byte.x02));
           CallPut (Some "beta") (Some (example_document Byte.x03))]
          (snd (backend_batch_start (Some "ns") J_SEMANTICS_SAFETY_NONE)) with
  | Some b => batch b
  | None => []
  end.

Definition example_database : leveldb_t :=
  fold_left leveldb_apply example_updates [].

Definition example_populated : Backend :=
  snd (backend_init (Some "/var/julea/kv") (Some example_database) backend_static).

End LevelDBTerms.

(** ** Runs *)

Module ExecTerms.

Import Configuration Client.

(** A backend whose every call succeeds. *)
Definition agreeable_object_backend : @JBackend unit unit :=
  ObjectBackend
    {| object_init := fun _ b => Returned (true, b);
       object_create := fun _ _ b => Returned (true, Pointer tt, b);
       object_open := fun _ _ b => Returned (true, Pointer tt, b);
       object_delete := fun _ b => Returned (true, b);
       object_close := fun _ b => Returned (true, b);
       object_status := fun _ b => Returned (true, Some (0, 0), b);
       object_read := fun _ len _ before b => Returned (true, before, None, b);
       object_write := fun _ _ len _ before b => Returned (true, wrap64 (before + len), b) |}.

Definition agreeable_common : @JCommon unit unit :=
  {| common_configuration := HandleTerms.example_configuration;
     common_object_backend := Some agreeable_object_backend;
     common_kv_backend := None |}.

(** If the call returns, it returns [FALSE]. *)
Definition returns_false {A} (result : outcome (bool * A)) : Prop :=
  match result with
  | Returned (r, _) => r = false
  | _ => True
  end.

(** The world with more events on the wire and other frames to come. *)
Definition on_wire {B} (w : World B) (events : list WireEvent)
    (frames : list JMessage) : World B :=
  mkWorld (backend w) (counters w) (documents w) (buffers w) (callbacks w)
          (wire w ++ events) frames (criticals w).

(** What a KV get reply holds for a list of results, a miss being a length
    of 0 (section 6, KV_GET). *)
Definition reply_fields (results : list (option bson_t)) : list Field :=
  flat_map (fun r => match r with
                     | Some v => [F4 (bson_len v); FData v]
                     | None => [F4 0]
                     end) results.

Definition hit (r : option bson_t) : bool :=
  match r with Some _ => true | None => false end.

(** A found value is not empty and has somewhere to go. *)
Definition deliverable (kop : JKVGet) (r : option bson_t) : Prop :=
  match r with
  | Some v => v <> [] /\ (is_Some (get_func kop) \/ is_Some (get_value kop))
  | None => True
  end.

Definition callbacks_of (pairs : list (JKVGet * option bson_t)) : list (Z * Z * bson_t) :=
  flat_map (fun x => match snd x, get_func (fst x) with
                     | Some v, Some f => [(f, get_data (fst x), v)]
                     | _, _ => []
                     end) pairs.

(** The operation found its value and copies it to the address [a]. *)
Definition writes_document (a : Z) (x : JKVGet * option bson_t) : Prop :=
  hit (snd x) = true /\ get_func (fst x) = None /\ get_value (fst x) = Some a.

(** The world with other counters. *)
Definition with_counters {B} (w : World B) (m : gmap Z Z) : World B :=
  mkWorld (backend w) m (documents w) (buffers w) (callbacks w)
          (wire w) (incoming w) (criticals w).

(** Atomic adds, one after the other: [adds] pairs a counter's address with
    what is added to it. *)
Definition add_counters (adds : list (Z * Z)) (m : gmap Z Z) : gmap Z Z :=
  fold_left (fun m x => <[fst x := wrap64 (default 0 (m !! fst x) + snd x)]> m) adds m.

(** All that [adds] adds to the counter at [p]. *)
Definition total_for (p : Z) (adds : list (Z * Z)) : Z :=
  fold_right (fun x acc => if decide (fst x = p) then snd x + acc else acc) 0 adds.

Definition write_lengths (operations : list JObjectWrite) : list (Z * Z) :=
  map (fun op => (write_bytes_written op, write_length op)) operations.

Definition write_replies (operations : list JObjectWrite) (nbytes : list Z)
  : list (Z * Z) :=
  zip (map write_bytes_written operations) nbytes.

Definition example_kv : JKV :=
  {| kv_index := 1; kv_namespace := "ns"; kv_key := "a"; kv_ref_count := 2 |}.

(** A world in which the caller's counter at address 100 holds 7. *)
Definition counter_at_seven : World unit :=
  with_counters HandleTerms.empty_world {[ 100 := 7 ]}.

Definition example_write : JObjectWrite :=
  {| write_object := HandleTerms.example_object;
     write_data := [Byte.x41; Byte.x42; Byte.x43; Byte.x44; Byte.x45; Byte.x46];
     write_length := 6;
     write_offset := 10;
     write_bytes_written := 100 |}.

(** What [backend_get] finds for the operation's key. *)
Definition stored_value (db : LevelDB.leveldb_t) (kop : JKVGet) : option bson_t :=
  LevelDB.leveldb_lookup db
    (LevelDB.nskey_of (kv_namespace (get_kv kop)) (kv_key (get_kv kop)) ++ LevelDB.NUL).

Definition found (db : LevelDB.leveldb_t) (kop : JKVGet) : bool :=
  hit (stored_value db kop).

(** The operation's key is stored and its value is copied to [a]. *)
Definition copies_to (db : LevelDB.leveldb_t) (a : Z) (kop : JKVGet) : Prop :=
  found db kop = true /\ get_func kop = None /\ get_value kop = Some a.

Definition has_destination (kop : JKVGet) : Prop :=
  is_Some (get_func kop) \/ is_Some (get_value kop).

(** After a run that returned [FALSE] the remaining runs are executed, from
    the world the run left, and the batch's result is [FALSE]. *)
Definition after_failed_run {W} (remaining : outcome (bool * W)) (result : outcome (bool * W))
  : Prop :=
  match remaining with
  | Returned (_, w) => result = Returned (false, w)
  | Aborted => result = Aborted
  | Blocked => result = Blocked
  | Undefined => result = Undefined
  end.

(** The run is a get run: its operations are the gets [operations], to be
    dispatched to [j_kv_get_exec]. *)
Definition get_run (run : list JOperation) (operations : list JKVGet) : Prop :=
  Forall (fun operation => op_exec_func operation = Exec_kv_get) run
  /\ map op_data run = map DataKVGet operations.

(** The batch went on after a run that returned [FALSE]: it does what the
    remaining runs do from the world the run left and, when they return,
    reports [FALSE] whatever they report, and is left empty. *)
Definition batch_after_failed_run {W} (remaining : outcome (bool * W))
    (batch : JBatch) (result : outcome (bool * JBatch * W)) : Prop :=
  match remaining with
  | Returned (_, w) =>
      result
      = Returned (false,
                  {| batch_operations := []; batch_semantics := batch_semantics batch |},
                  w)
  | Aborted => result = Aborted
  | Blocked => result = Blocked
  | Undefined => result = Undefined
  end.

(** The operation that [j_kv_get] and [j_kv_get_callback] enqueue. *)
Definition get_operation (kop : JKVGet) : JOperation :=
  {| op_key := key_of_kv (get_kv kop); op_data := DataKVGet kop;
     op_exec_func := Exec_kv_get; op_free_func := Free_kv_get |}.

(** Two gets in one run, the first key missing, the second found. *)
Definition get_a : JKVGet :=
  {| get_kv := example_kv; get_value := Some 300; get_func := None; get_data := 0 |}.

Definition get_b : JKVGet :=
  {| get_kv := {| kv_index := 1; kv_namespace := "ns"; kv_key := "b"; kv_ref_count := 2 |};
     get_value := Some 301; get_func := None; get_data := 0 |}.

Definition miss_then_hit : list (option bson_t) :=
  [None; Some (LevelDBTerms.example_document Byte.x02)].

Definition reply_of (results : list (option bson_t)) : JMessage :=
  {| msg_type := J_MESSAGE_KV_GET; msg_flags := 0;
     msg_count := Z.of_nat (length results);
     msg_fields := reply_fields results; msg_bulk := [] |}.

Definition awaiting (frames : list JMessage) : World unit :=
  on_wire HandleTerms.empty_world [] frames.

(** Three gets of three keys, so three runs of one batch: the first and the
    third are found, the second is missing. *)
Definition get_c : JKVGet :=
  {| get_kv := {| kv_index := 1; kv_namespace := "ns"; kv_key := "c"; kv_ref_count := 2 |};
     get_value := Some 302; get_func := None; get_data := 0 |}.

Definition hit_miss_hit : JBatch :=
  {| batch_operations := [get_operation get_b; get_operation get_a; get_operation get_c];
     batch_semantics := {| sem_safety := J_SEMANTICS_SAFETY_NETWORK |} |}.

Definition three_replies : list JMessage :=
  [reply_of [Some (LevelDBTerms.example_document Byte.x02)];
   reply_of [None];
   reply_of [Some (LevelDBTerms.example_document Byte.x03)]].

(** The frame of a get run of one key of the namespace "ns". *)
Definition get_frame (key : string) : JMessage :=
  j_message_add_operation
    (j_message_append
       (j_message_append
          (j_message_set_safety 2 (j_message_new J_MESSAGE_KV_GET)
             {| sem_safety := J_SEMANTICS_SAFETY_NETWORK |})
          (FString "ns")) (FString key)).

(** The world after the first of the three runs, and after the second. *)
Definition after_first_get : World unit :=
  {| backend := tt; counters := ∅;
     documents := {[ 301 := LevelDBTerms.example_document Byte.x02 ]};
     buffers := ∅; callbacks := [];
     wire := [Pop KVPool 1; Send (get_frame "b");
              Receive (reply_of [Some (LevelDBTerms.example_document Byte.x02)]);
              Push KVPool 1];
     incoming := [reply_of [None];
                  reply_of [Some (LevelDBTerms.example_document Byte.x03)]];
     criticals := 0 |}.

Definition after_second_get : World unit :=
  on_wire after_first_get
    [Pop KVPool 1; Send (get_frame "a"); Receive (reply_of [None]); Push KVPool 1]
    [reply_of [Some (LevelDBTerms.example_document Byte.x03)]].

End ExecTerms.

(** ** The store as a map *)

Module StoreTerms.

Import LevelDB LevelDBTerms.

(** What a key of the batch's namespace holds after one call on the batch,
    given what it held before: a put of the key sets it, a delete of the key
    clears it, a call on another key or a call that fails on a [NULL]
    argument leaves it. *)
Definition after_call (key : string) (held : option bson_t) (c : batch_call)
  : option bson_t :=
  match c with
  | CallPut (Some k) (Some v) => if decide (k = key) then Some v else held
  | CallDelete (Some k) => if decide (k = key) then None else held
  | _ => held
  end.

Definition after_calls (key : string) (calls : list batch_call) (held : option bson_t)
  : option bson_t :=
  fold_left (after_call key) calls held.

(** What [backend_get] answers for a key that holds [held]. *)
Definition get_result (held : option bson_t) : outcome (bool * option bson_t) :=
  match held with
  | Some v => Returned (true, Some v)
  | None => Returned (false, None)
  end.

(** The same on the updates of a write batch, by the key's bytes. *)
Definition after_update (target : string) (held : option bson_t) (u : leveldb_update)
  : option bson_t :=
  match u with
  | Put k v => if decide (k = target) then Some v else held
  | Delete k => if decide (k = target) then None else held
  end.

(** The updates that a call adds to a batch of the namespace. *)
Definition updates_of (ns : string) (c : batch_call) : list leveldb_update :=
  match c with
  | CallPut (Some k) (Some v) => [Put (nskey_of ns k ++ NUL) v]
  | CallDelete (Some k) => [Delete (nskey_of ns k ++ NUL)]
  | _ => []
  end.

(** A name without a colon. *)
Fixpoint no_colon (s : string) : Prop :=
  match s with
  | EmptyString => True
  | String c rest => c <> ":"%char /\ no_colon rest
  end.

(** The batch a client hands to [backend_batch_execute]. *)
Definition batch_of (ns : string) (s : JSemanticsSafety) (calls : list batch_call)
  : option JLevelDBBatch :=
  fold_left apply_call calls (snd (backend_batch_start (Some ns) s)).

End StoreTerms.

(** ** Runs on the LevelDB backend loaded in-process *)

Module LocalTerms.

Import Configuration Client.
Import LevelDBTerms.

(** The calls a put run and a delete run make on the backend's batch. *)
Definition put_calls (operations : list JKVPut) : list batch_call :=
  map (fun kop => CallPut (Some (kv_key (put_kv kop))) (put_value kop)) operations.

Definition delete_calls (operations : list JKV) : list batch_call :=
  map (fun kv => CallDelete (Some (kv_key kv))) operations.

(** The world with another state of the backend. *)
Definition with_backend {B} (w : World B) (b : B) : World B :=
  mkWorld b (counters w) (documents w) (buffers w) (callbacks w)
          (wire w) (incoming w) (criticals w).

(** A get of the handle's key into the caller's document at [value]. *)
Definition get_into (kv : JKV) (value : Z) : JKVGet :=
  {| get_kv := kv; get_value := Some value; get_func := None; get_data := 0 |}.

(** A process whose KV backend is the LevelDB plug-in, after [backend_init]
    on an empty database. *)
Definition leveldb_common (disk : string -> option LevelDB.leveldb_t)
  : @JCommon LevelDB.Backend LevelDB.JLevelDBBatch :=
  {| common_configuration := HandleTerms.example_configuration;
     common_object_backend := None;
     common_kv_backend := Some (LevelDBPlugin.leveldb_backend disk) |}.

Definition empty_disk (path : string) : option LevelDB.leveldb_t := Some [].

Definition leveldb_world : World LevelDB.Backend :=
  {| backend := example_state; counters := ∅; documents := ∅; buffers := ∅;
     callbacks := []; wire := []; incoming := []; criticals := 0 |}.

End LocalTerms.

(** ** Loading and initialising backends *)

Module LoaderTerms.

Import Configuration Client.

(** A loader whose only module is the LevelDB plug-in, installed for the
    client under the name "leveldb". *)
Definition plugin_path (parts : list string) : string := String.concat "/" parts.

Definition plugin_file (directory name : string) : string :=
  directory ++ "/lib" ++ name ++ ".so".

Definition plugin_open (path : string) : option unit :=
  if String.eqb path "/usr/lib/julea/backend/client/libleveldb.so"
  then Some tt else None.

Definition plugin_symbol (disk : string -> option LevelDB.leveldb_t) (m : unit)
  : option (@JBackendType
            -> option (@JBackend LevelDB.Backend LevelDB.JLevelDBBatch)) :=
  Some (LevelDBPlugin.backend_info disk).

(** A loader with a module of that name in the build directory too: the
    one in the build directory is the LevelDB plug-in, the installed one
    has no [backend_info]. *)
Definition both_open (path : string) : option Z :=
  if String.eqb path "/build/backend/client/libleveldb.so" then Some 1
  else if String.eqb path "/usr/lib/julea/backend/client/libleveldb.so" then Some 2
  else None.

Definition both_symbol (disk : string -> option LevelDB.leveldb_t) (m : Z)
  : option (@JBackendType
            -> option (@JBackend LevelDB.Backend LevelDB.JLevelDBBatch)) :=
  if Z.eqb m 1 then Some (LevelDBPlugin.backend_info disk) else None.

(** A key file that asks for the LevelDB backend in the client. *)
Definition client_key_file : GKeyFile :=
  <[("kv", "component") := "client"]> ConfigurationTerms.example_key_file.

Definition client_environment : Environment :=
  {| env_JULEA_CONFIG := Some "/etc/julea/client";
     env_user_config_dir := "/home/user/.config";
     env_system_config_dirs := ["/etc/xdg"];
     env_key_file := fun path =>
       if String.eqb path "/etc/julea/client" then Some client_key_file else None |}.

(** A key file that asks for the LevelDB plug-in as the object backend of
    the client. *)
Definition object_key_file : GKeyFile :=
  <[("object", "backend") := "leveldb"]>
    (<[("object", "component") := "client"]> ConfigurationTerms.example_key_file).

Definition object_environment : Environment :=
  {| env_JULEA_CONFIG := Some "/etc/julea/client";
     env_user_config_dir := "/home/user/.config";
     env_system_config_dirs := ["/etc/xdg"];
     env_key_file := fun path =>
       if String.eqb path "/etc/julea/client" then Some object_key_file else None |}.

Definition static_world : World LevelDB.Backend :=
  {| backend := LevelDB.backend_static; counters := ∅; documents := ∅; buffers := ∅;
     callbacks := []; wire := []; incoming := []; criticals := 0 |}.

End LoaderTerms.

(** ** Frames *)

Module FrameTerms.

Import Configuration Client.

(** A frame of the given type that carries the safety of the semantics, a
    header and the fields and bulk segments of [n] operations. *)
Definition frame (FLAG : Z) (type : JMessageType) (semantics : JSemantics)
    (n : nat) (fields : list Field) (bulk : list (list Byte.byte)) : JMessage :=
  {| msg_type := type;
     msg_flags := msg_flags (j_message_set_safety FLAG (j_message_new type) semantics);
     msg_count := wrap32 (Z.of_nat n);
     msg_fields := fields;
     msg_bulk := bulk |}.

(** A message with the fields and bulk segments of [n] more operations. *)
Definition extend (message : JMessage) (n : nat) (fields : list Field)
    (bulk : list (list Byte.byte)) : JMessage :=
  {| msg_type := msg_type message;
     msg_flags := msg_flags message;
     msg_count := wrap32 (msg_count message + Z.of_nat n);
     msg_fields := (msg_fields message ++ fields)%list;
     msg_bulk := (msg_bulk message ++ bulk)%list |}.

(** The fields of a put: the key, the length of the document, the
    document. *)
Definition put_fields (kop : JKVPut) : list Field :=
  match put_value kop with
  | Some value => [FString (kv_key (put_kv kop)); F4 (bson_len value); FData value]
  | None => []
  end.

Definition put_frame (FLAG : Z) (semantics : JSemantics) (operations : list JKVPut)
  : JMessage :=
  frame FLAG J_MESSAGE_KV_PUT semantics (length operations)
    (match operations with
     | kop :: _ => [FString (kv_namespace (put_kv kop))]
     | [] => []
     end ++ flat_map put_fields operations)%list [].

Definition delete_frame (FLAG : Z) (semantics : JSemantics) (operations : list JKV)
  : JMessage :=
  frame FLAG J_MESSAGE_KV_DELETE semantics (length operations)
    (match operations with
     | kv :: _ => [FString (kv_namespace kv)]
     | [] => []
     end ++ map (fun kv => FString (kv_key kv)) operations)%list [].

(** What a run that sends one frame and reads at most one reply leaves on
    the wire. *)
Definition exchanged {B} (w : World B) (pool : Pool) (index : Z) (message : JMessage)
    (reply : option JMessage) (frames : list JMessage) : World B :=
  ExecTerms.on_wire w
    ([Pop pool index; Send message]
     ++ match reply with Some r => [Receive r] | None => [] end
     ++ [Push pool index])%list frames.

(** The frame of a create, delete or status run: the namespace and the
    names. *)
Definition names_frame (FLAG : Z) (type : JMessageType) (semantics : JSemantics)
    (objects : list JObject) : JMessage :=
  frame FLAG type semantics (length objects)
    (match objects with
     | object :: _ => [FString (o_namespace object)]
     | [] => []
     end ++ map (fun object => FString (o_name object)) objects)%list [].

(** Where a status operation wants the modification time and the size. *)
Definition status_destination (operation : JObjectStatus) : option (Z * Z) :=
  match status_modification_time operation, status_size operation with
  | Some modification_time, Some size => Some (modification_time, size)
  | _, _ => None
  end.

(** The cells after the status values of a reply have been stored, one
    operation after the other: the modification time as the signed 64-bit
    number and the size as the unsigned 64-bit number the field holds. *)
Definition store_status (m : gmap Z Z) (x : JObjectStatus * (Z * Z)) : gmap Z Z :=
  match status_destination (fst x) with
  | Some (modification_time, size) =>
      <[size := wrap64 (snd (snd x))]>
        (<[modification_time := to_gint64 (fst (snd x))]> m)
  | None => m
  end.

(** The fields of a read: the length and the offset. *)
Definition read_fields (operation : JObjectRead) : list Field :=
  [F8 (read_length operation); F8 (read_offset operation)].

Definition read_frame (FLAG : Z) (semantics : JSemantics) (operations : list JObjectRead)
  : JMessage :=
  frame FLAG J_MESSAGE_OBJECT_READ semantics (length operations)
    (match operations with
     | operation :: _ =>
         [FString (o_namespace (read_object operation));
          FString (o_name (read_object operation))]
     | [] => []
     end ++ flat_map read_fields operations)%list [].

(** A reply to reads: it counts the operations it answers, holds the byte
    count of each, and is followed on the connection by the bytes of those
    that read any. [blocks] are the bytes per operation. *)
Definition answers_reads (reply : JMessage) (blocks : list (list Byte.byte)) : Prop :=
  msg_count reply = Z.of_nat (length blocks)
  /\ msg_fields reply = map (fun b => F8 (bson_len b)) blocks
  /\ msg_bulk reply = List.filter (fun b => negb (bool_decide (b = []))) blocks.

(** What the answers add to the counters and put into the buffers. *)
Definition read_counts (pairs : list (JObjectRead * list Byte.byte)) : list (Z * Z) :=
  map (fun x => (read_bytes_read (fst x), bson_len (snd x))) pairs.

Definition fill_buffer (m : gmap Z (list Byte.byte)) (x : JObjectRead * list Byte.byte)
  : gmap Z (list Byte.byte) :=
  match snd x with
  | [] => m
  | _ :: _ => <[read_data (fst x) := snd x]> m
  end.

Definition with_reads {B} (w : World B) (pairs : list (JObjectRead * list Byte.byte))
  : World B :=
  mkWorld (backend w) (ExecTerms.add_counters (read_counts pairs) (counters w))
          (documents w) (fold_left fill_buffer pairs (buffers w)) (callbacks w)
          (wire w) (incoming w) (criticals w).

(** A reply that answers reads with the given bytes. *)
Definition read_reply (blocks : list (list Byte.byte)) : JMessage :=
  {| msg_type := J_MESSAGE_OBJECT_READ; msg_flags := 0;
     msg_count := Z.of_nat (length blocks);
     msg_fields := map (fun b => F8 (bson_len b)) blocks;
     msg_bulk := List.filter (fun b => negb (bool_decide (b = []))) blocks |}.

(** Two reads of four bytes that share a counter, and a status operation. *)
Definition read_first : JObjectRead :=
  {| read_object := HandleTerms.example_object; read_data := 200;
     read_length := 4; read_offset := 0; read_bytes_read := 100 |}.

Definition read_second : JObjectRead :=
  {| read_object := HandleTerms.example_object; read_data := 201;
     read_length := 4; read_offset := 4; read_bytes_read := 100 |}.

Definition example_status : JObjectStatus :=
  {| status_object := HandleTerms.example_object;
     status_modification_time := Some 400; status_size := Some 401 |}.

Definition status_reply (values : list (Z * Z)) : JMessage :=
  {| msg_type := J_MESSAGE_OBJECT_STATUS; msg_flags := 0;
     msg_count := Z.of_nat (length values);
     msg_fields := flat_map (fun v => [F8 (fst v); F8 (snd v)]) values;
     msg_bulk := [] |}.

End FrameTerms.

(** ** The file-system adapter *)

Module FuseTerms.

Import Configuration Client Fuse.

(** The entry of a path in the store, and the handles of a path. *)
Definition entry_key (path : string) : string :=
  LevelDB.nskey_of "posix" path ++ LevelDB.NUL.

Definition path_kv (hash : string -> Z) (c : JConfiguration) (path : string) : JKV :=
  {| kv_index := hash path mod servers_kv_len c;
     kv_namespace := "posix"; kv_key := path; kv_ref_count := 1 |}.

Definition path_object (hash : string -> Z) (c : JConfiguration) (path : string)
  : JObject :=
  {| o_index := hash path mod servers_object_len c;
     o_namespace := "posix"; o_name := path; o_ref_count := 1 |}.

(** The document that [jfs_create] stores for a path. *)
Definition created_document
    (basename : string -> string) (now : Z)
    (new : list (string * bson_value) -> bson_t) (path : string) : bson_t :=
  new [("name", BUtf8 (basename path)); ("file", BBool true);
       ("size", BInt64 0); ("time", BInt64 now)].

(** What [jfs_getattr] reports for a stored document. *)
Definition attributes_of
    (find : bson_t -> string -> option bson_value) (document : bson_t) : stat :=
  match find document "file" with
  | Some (BBool false) => directory_attributes
  | _ => file_attributes 0 0
  end.

(** A codec to run the model on: of a document it keeps the file flag. *)
Definition example_bson_new (fields : list (string * bson_value)) : bson_t :=
  flat_map (fun f => if String.eqb (fst f) "file"
                     then match snd f with
                          | BBool true => [Byte.x01]
                          | BBool false => [Byte.x00]
                          | _ => []
                          end
                     else []) fields.

Definition example_find (document : bson_t) (key : string) : option bson_value :=
  if String.eqb key "file" then
    match document with
    | b :: _ => Some (BBool (negb (Byte.eqb b Byte.x00)))
    | [] => None
    end
  else None.

Definition example_basename (path : string) : string :=
  match path with
  | String "/" rest => rest
  | _ => path
  end.

Definition posix_semantics : JSemantics :=
  {| sem_safety := J_SEMANTICS_SAFETY_NETWORK |}.

(** A process with the LevelDB plug-in on an empty database, a reply of the
    server under way, and what [*stbuf] holds before a call. *)
Definition reply_under_way : World LevelDB.Backend :=
  ExecTerms.on_wire LocalTerms.leveldb_world []
    [{| msg_type := J_MESSAGE_OBJECT_CREATE; msg_flags := 0; msg_count := 0;
        msg_fields := []; msg_bulk := [] |}].

Definition stale_attributes : stat :=
  {| st_mode := 0; st_nlink := 7; st_uid := 7; st_gid := 7; st_size := 7;
     st_atime := 7; st_ctime := 7; st_mtime := 7 |}.

End FuseTerms.

(** ** Background operations *)

Module BackgroundTerms.

Import BackgroundOperation.

(** The state after a schedule. *)
Definition reaches (f : Z -> Z) (d : Z) (moves : list move) (s : State) : Prop :=
  run moves (j_background_operation_new f d) = Next s.

(** The reference of the worker, until its [_unref]. *)
Definition worker_share (pc : worker_pc) : Z :=
  match pc with
  | W_done => 0
  | _ => 1
  end.

(** The statements that the worker, and the caller inside
    [j_background_operation_wait], have yet to execute, at most. *)
Definition worker_left (pc : worker_pc) : nat :=
  match pc with
  | W_call => 6 | W_lock => 5 | W_set => 4 | W_signal => 3
  | W_unlock => 2 | W_unref => 1 | W_done => 0
  end.

Definition caller_left (s : State) : nat :=
  match caller s with
  | C_idle => 0
  | C_lock => 7
  | C_test => if completed (operation s) then 3 else 6
  | C_sleep => 5
  | C_woken => if completed (operation s) then 4 else 7
  | C_unlock => 2
  | C_return => 1
  end.

Definition remaining (s : State) : nat := worker_left (worker s) + caller_left s.

Definition is_next (r : step_result) : bool :=
  match r with
  | Next _ => true
  | _ => false
  end.

(** Who has the mutex, and whether [completed] is set, by the statements
    the threads are at. *)
Definition holder (w : worker_pc) (c : caller_pc) : option thread :=
  match w with
  | W_set | W_signal | W_unlock => Some Worker
  | _ => match c with
         | C_test | C_unlock => Some Caller
         | _ => None
         end
  end.

Definition is_set (w : worker_pc) : bool :=
  match w with
  | W_signal | W_unlock | W_unref | W_done => true
  | _ => false
  end.

(** The statements the two threads can be at together: the mutex has one
    holder; the caller is past the loop only when [completed] is set; and
    while it sleeps the signal is still to come. *)
Definition together (w : worker_pc) (c : caller_pc) : bool :=
  match c with
  | C_idle | C_lock => true
  | C_test => match w with W_set | W_signal | W_unlock => false | _ => true end
  | C_sleep => match w with W_call | W_lock | W_set | W_signal => true | _ => false end
  | C_woken => true
  | C_unlock => match w with W_unref | W_done => true | _ => false end
  | C_return => is_set w
  end.

Definition all_released (w : worker_pc) (held : nat) : bool :=
  match w, held with
  | W_done, O => true
  | _, _ => false
  end.

(** What holds in every state that a schedule reaches while the caller
    holds fewer than 2^32 references: the reference count is then the
    number of references, as a [gint]. *)
Record consistent (f : Z -> Z) (d : Z) (s : State) : Prop := mkConsistent {
  keeps_func : func (operation s) = f;
  keeps_data : data (operation s) = d;
  mutex_holder : mutex (operation s) = holder (worker s) (caller s);
  completed_set : completed (operation s) = is_set (worker s);
  released : freed (operation s) = all_released (worker s) (held s);
  counted :
    freed (operation s) = false ->
    ref_count (operation s)
    = to_gint (Z.of_nat (held s) + worker_share (worker s));
  positions : together (worker s) (caller s) = true;
  in_call : caller s <> C_idle -> (0 < held s)%nat;
  has_result : worker s <> W_call -> result (operation s) = f d;
  returns_result : Forall (fun v => v = f d) (returned s)
}.

(** The calls of [j_background_operation_ref] in a schedule. *)
Definition refs (moves : list move) : nat :=
  length (List.filter (fun m => match m with Ref => true | _ => false end) moves).

(** The caller takes [n] references more, the worker runs to its end, and
    the caller takes another one. *)
Definition refs_then_worker (n : nat) : list move :=
  (replicate n Ref ++ [Work; Work; Work; Work; Work; Work; Ref])%list.

(** The state after [n] calls of [j_background_operation_ref] on a new
    operation. *)
Definition after_refs (f : Z -> Z) (d : Z) (n : nat) : State :=
  {| operation := {| func := f; data := d; result := 0;
                     completed := false; mutex := None;
                     ref_count := to_gint (2 + Z.of_nat n);
                     freed := false |};
     worker := W_call; caller := C_idle; held := S n; returned := [] |}.

(** The worker and the caller in turn, [n] times. *)
Definition in_turn (n : nat) : list move := concat (replicate n [Work; Go]).

(** A function to run the model on, and the state in which the caller
    sleeps in [g_cond_wait] before the worker has started. *)
Definition example_func (x : Z) : Z := x * x + 1.

Definition asleep : State :=
  {| operation := {| func := example_func; data := 3; result := 0;
                     completed := false; mutex := None; ref_count := 2;
                     freed := false |};
     worker := W_call; caller := C_sleep; held := 1; returned := [] |}.

End BackgroundTerms.

(** ** Callbacks of a get run *)

Module DeliveryTerms.

Import Configuration Client ExecTerms.

(** The operations of a run up to its first miss. *)
Fixpoint before_miss (db : LevelDB.leveldb_t) (operations : list JKVGet)
  : list JKVGet :=
  match operations with
  | [] => []
  | kop :: rest => if found db kop then kop :: before_miss db rest else []
  end.

Definition with_stored (db : LevelDB.leveldb_t) (kop : JKVGet)
  : JKVGet * option bson_t :=
  (kop, stored_value db kop).

(** A get of a key of the namespace "ns" with a callback. *)
Definition get_with (key : string) (func data : Z) : JKVGet :=
  {| get_kv := {| kv_index := 1; kv_namespace := "ns"; kv_key := key;
                  kv_ref_count := 2 |};
     get_value := None; get_func := Some func; get_data := data |}.

(** A process with the LevelDB plug-in on the example database. *)
Definition populated_world : World LevelDB.Backend :=
  LocalTerms.with_backend LocalTerms.leveldb_world LevelDBTerms.example_populated.

End DeliveryTerms.

(** ** Write runs on an object backend of the process *)

Module LocalWriteTerms.

Import Configuration Client ExecTerms.

(** Every addition made twice. *)
Definition twice (adds : list (Z * Z)) : list (Z * Z) :=
  flat_map (fun x => [x; x]) adds.

(** An object backend to run the model on: it keeps nothing, writes all
    the bytes it is given and adds their number to the caller's counter. *)
Definition counting_backend : @JBackendObject unit unit :=
  {| object_init := fun _ b => Returned (true, b);
     object_create := fun _ _ b => Returned (true, Pointer tt, b);
     object_open := fun _ _ b => Returned (true, Pointer tt, b);
     object_delete := fun _ b => Returned (true, b);
     object_close := fun _ b => Returned (true, b);
     object_status := fun _ b => Returned (true, Some (0, 0), b);
     object_read := fun _ _ _ before b => Returned (true, before, None, b);
     object_write := fun _ _ length _ before b =>
                       Returned (true, wrap64 (before + length), b) |}.

Definition counting_common : @JCommon unit unit :=
  {| common_configuration := HandleTerms.example_configuration;
     common_object_backend := Some (ObjectBackend counting_backend);
     common_kv_backend := None |}.

Definition write_of (length : Z) : JObjectWrite :=
  {| write_object := HandleTerms.example_object;
     write_data := [Byte.x41; Byte.x42; Byte.x43; Byte.x44];
     write_length := length; write_offset := 0; write_bytes_written := 100 |}.

End LocalWriteTerms.

(** ** Committed batches and what a namespace holds *)

Module CommitTerms.

Import Configuration LevelDB LevelDBTerms StoreTerms.

(** The bytes an entry is stored under, in the words of the specification:
    [<ns>:<key>\0]. *)
Definition encoded_key (ns key : string) : string :=
  ns ++ ":" ++ key ++ String "000"%char EmptyString.

(** The updates that a call is to add to a batch of the namespace, by the
    same words: a put or a delete under the encoded key, nothing for a call
    with a [NULL] argument. *)
Definition encoded_updates (ns : string) (c : batch_call) : list leveldb_update :=
  match c with
  | CallPut (Some key) (Some value) => [Put (encoded_key ns key) value]
  | CallDelete (Some key) => [Delete (encoded_key ns key)]
  | _ => []
  end.

(** A batch that was committed: the namespace and the safety it was started
    with, and the calls made on it before [backend_batch_execute]. *)
Record committed : Type := mkCommitted {
  c_namespace : string;
  c_safety : JSemanticsSafety;
  c_calls : list batch_call
}.

(** The backend after the batches have been committed, oldest first;
    nothing when a [backend_batch_execute] does not return. *)
Fixpoint commit_all (history : list committed) (st : Backend) : option Backend :=
  match history with
  | [] => Some st
  | b :: rest =>
      match backend_batch_execute
              (batch_of (c_namespace b) (c_safety b) (c_calls b)) st with
      | Returned (_, st') => commit_all rest st'
      | _ => None
      end
  end.

(** What a key of a namespace holds after one more batch: only a batch of
    the namespace changes it, by its calls in order. *)
Definition stored_step (ns key : string) (held : option bson_t) (b : committed)
  : option bson_t :=
  if decide (c_namespace b = ns) then after_calls key (c_calls b) held else held.

(** What a key of a namespace holds after the batches, the store having
    been empty before them: the value of the last put under that namespace
    and key, unless a delete under them came after it. *)
Definition stored (history : list committed) (ns key : string) : option bson_t :=
  fold_left (stored_step ns key) history None.

(** The entry was written for a namespace without a colon. *)
Definition of_plain_namespace (e : string * bson_t) : Prop :=
  exists ns key, no_colon ns /\ fst e = nskey_of ns key ++ NUL.

(** The entry is the encoding of the key with its value, and the key starts
    with the prefix. *)
Definition entry_of (ns p : string) (e : string * bson_t) (kv : string * bson_t)
  : Prop :=
  fst e = nskey_of ns (fst kv) ++ NUL
  /\ String.prefix p (fst kv) = true
  /\ snd e = snd kv.

(** The order in which iteration meets the keys of a namespace: that of
    their encodings under the comparator. *)
Definition by_encoded_key (ns : string) (a b : string * bson_t) : Prop :=
  lt_key (encoded_key ns (fst a)) (encoded_key ns (fst b)).

(** Three batches on a fresh store: two for the namespace "ns", one for
    another namespace in between. *)
Definition example_history : list committed :=
  [ {| c_namespace := "ns"; c_safety := J_SEMANTICS_SAFETY_NONE;
       c_calls := [CallPut (Some "alpha") (Some (example_document Byte.x01));
                   CallPut (Some "ant") (Some (example_document Byte.x02));
                   CallPut (Some "beta") (Some (example_document Byte.x03))] |};
    {| c_namespace := "posix"; c_safety := J_SEMANTICS_SAFETY_STORAGE;
       c_calls := [CallPut (Some "apple") (Some (example_document Byte.x04))] |};
    {| c_namespace := "ns"; c_safety := J_SEMANTICS_SAFETY_NETWORK;
       c_calls := [CallDelete (Some "ant");
                   CallPut (Some "a:b") (Some (example_document Byte.x05))] |} ].


End CommitTerms.

(** * Properties *)

Lemma wrap64_small z : 0 <= z < 2 ^ 64 -> wrap64 z = z.
Proof. intros Hz. unfold wrap64. apply Z.mod_small. exact Hz. Qed.

Lemma wrap32_small z : 0 <= z < 2 ^ 32 -> wrap32 z = z.
Proof. intros Hz. unfold wrap32. apply Z.mod_small. exact Hz. Qed.

Lemma wrap64_add_l a b : wrap64 (wrap64 a + b) = wrap64 (a + b).
Proof. unfold wrap64. apply Zplus_mod_idemp_l. Qed.

(** ** Configuration *)

Module ConfigurationFacts.

Import Configuration.
Import ConfigurationTerms.

Section KeyFileFacts.

Variable parse_list : string -> list string.
Variable parse_integer : string -> option Z.

Local Abbreviation new_for_data := (j_configuration_new_for_data parse_list parse_integer).

Lemma strv_null_or_empty_spec (kf : GKeyFile) (group key : string) :
  strv_null_or_empty (g_key_file_get_string_list parse_list kf group key) = true
  <-> (kf !! (group, key) = None \/
       exists raw, kf !! (group, key) = Some raw /\ parse_list raw = []).
Proof.
  unfold g_key_file_get_string_list.
  destruct (kf !! (group, key)) as [raw|] eqn:E; simpl.
  - destruct (parse_list raw) eqn:P; simpl; split.
    + intros _. right. exists raw. split; [reflexivity | exact P].
    + reflexivity.
    + discriminate.
    + intros [H | (raw' & H & H')]; [discriminate |].
      injection H as <-. rewrite P in H'. discriminate.
  - split; [intros _; left; reflexivity | reflexivity].
Qed.

Lemma is_null_spec {A} (o : option A) : is_null o = true <-> o = None.
Proof. destruct o; simpl; split; congruence. Qed.

Lemma new_for_data_none_iff (kf : GKeyFile) :
  new_for_data (Some kf) = None <-> required_value_missing parse_list kf.
Proof.
  unfold required_value_missing.
  rewrite <- !strv_null_or_empty_spec.
  rewrite <- !(is_null_spec (kf !! _)).
  unfold j_configuration_new_for_data, g_key_file_get_string.
  destruct (strv_null_or_empty (g_key_file_get_string_list parse_list kf "servers" "object")) eqn:E1;
    [split; [intros _; left; reflexivity | reflexivity] |].
  destruct (strv_null_or_empty (g_key_file_get_string_list parse_list kf "servers" "kv")) eqn:E2;
    [split; [intros _; right; left; reflexivity | reflexivity] |].
  unfold g_key_file_get_string_list in *.
  destruct (kf !! ("servers", "object")) as [so|]; [| discriminate E1].
  destruct (kf !! ("servers", "kv")) as [sk|]; [| discriminate E2].
  destruct (kf !! ("object", "backend")), (kf !! ("object", "component")),
    (kf !! ("object", "path")), (kf !! ("kv", "backend")),
    (kf !! ("kv", "component")), (kf !! ("kv", "path")); simpl;
    split; intros Hx; try reflexivity; try discriminate Hx; try tauto;
    intuition discriminate.
Qed.

(** C10. [j_configuration_new_for_data] returns [NULL] exactly when one of
    the eight required values is missing (an absent or empty [servers]
    object or kv list, an absent object or kv backend, component or path);
    [max-connections] is not among them: when it is absent and nothing
    required is missing, the configuration is built and
    [j_configuration_get_max_connections] returns 0 for it. *)
Theorem new_for_data_null_iff_required_missing (kf : GKeyFile) :
  (new_for_data (Some kf) = None <-> required_value_missing parse_list kf)
  /\ (kf !! ("clients", "max-connections") = None ->
      ~ required_value_missing parse_list kf ->
      exists c, new_for_data (Some kf) = Some c
                /\ j_configuration_get_max_connections (Some c) = 0).
Proof.
  split; [apply new_for_data_none_iff |].
  intros Hmc Hreq.
  destruct (new_for_data (Some kf)) as [c|] eqn:E.
  - exists c. split; [reflexivity |].
    unfold j_configuration_new_for_data, g_key_file_get_integer in E.
    rewrite Hmc in E.
    destruct (_ || _) in E; [discriminate |].
    repeat match type of E with
           | match ?x with _ => _ end = _ => destruct x; try discriminate
           end.
    injection E as <-. reflexivity.
  - exfalso. apply Hreq. apply new_for_data_none_iff. exact E.
Qed.

End KeyFileFacts.

Lemma example_key_file_complete : ~ required_value_missing split_list example_key_file.
Proof.
  assert (H : j_configuration_new_for_data split_list read_integer
                (Some example_key_file) <> None) by (vm_compute; discriminate).
  intros Hm. apply H. apply new_for_data_none_iff. exact Hm.
Qed.

Lemma new_for_data_null_iff_required_missing_witness :
  exists c,
    j_configuration_new_for_data split_list read_integer (Some example_key_file) = Some c
    /\ j_configuration_get_max_connections (Some c) = 0.
Proof.
  apply (proj2 (new_for_data_null_iff_required_missing split_list read_integer
                  example_key_file)).
  - reflexivity.
  - exact example_key_file_complete.
Defined.

End ConfigurationFacts.

(** ** Selecting the configuration file *)

Module SelectionFacts.

Import Configuration Client.
Import SelectionTerms.

Section SearchFacts.

Context {B H : Type}.
Variable j_backend_load :
  string -> string -> @JBackendType -> M B (bool * option (@JBackend B H)).
Variable parse_list : string -> list string.
Variable parse_integer : string -> option Z.
Variable is_absolute : string -> bool.
Variable basename : string -> string.
Variable build_filename : list string -> string.
Variable env : Environment.

Local Abbreviation new_for_data := (j_configuration_new_for_data parse_list parse_integer).
Local Abbreviation configuration_new :=
  (j_configuration_new parse_list parse_integer is_absolute basename build_filename env).
Local Abbreviation candidates :=
  (selection_candidates basename build_filename env).
Local Abbreviation init :=
  (j_init j_backend_load parse_list parse_integer is_absolute basename build_filename).

Lemma search_system_config_dirs_spec (dirs : list string) (name : string) (loads : list string) :
  let paths := map (fun dir => build_filename [dir; "julea"; name]) dirs in
  search_system_config_dirs parse_list parse_integer build_filename env dirs name loads =
  match first_that_loads env paths with
  | Some (i, path) =>
      {| sel_configuration := new_for_data (env_key_file env path);
         sel_loads := loads ++ take (S i) paths;
         sel_criticals := [] |}
  | None =>
      {| sel_configuration := None;
         sel_loads := loads ++ paths;
         sel_criticals := [] |}
  end.
Proof.
  revert loads. induction dirs as [|dir dirs IH]; intros loads;
    cbn [search_system_config_dirs map]; cbv zeta.
  - cbn. rewrite app_nil_r. reflexivity.
  - unfold first_that_loads. cbn [list_find].
    destruct (env_key_file env (build_filename [dir; "julea"; name])) as [kf|] eqn:E.
    + rewrite decide_True by eauto. cbn [take]. rewrite E. reflexivity.
    + rewrite decide_False by (intros [? ?]; discriminate).
      rewrite IH. cbv zeta. unfold first_that_loads.
      destruct (list_find _ _) as [[i path]|]; cbn;
        rewrite <- app_assoc; reflexivity.
Qed.

Lemma search_config_dirs_spec (name : string) :
  let paths :=
    build_filename [env_user_config_dir env; "julea"; name]
    :: map (fun dir => build_filename [dir; "julea"; name]) (env_system_config_dirs env) in
  search_config_dirs parse_list parse_integer build_filename env name =
  match first_that_loads env paths with
  | Some (i, path) =>
      {| sel_configuration := new_for_data (env_key_file env path);
         sel_loads := take (S i) paths;
         sel_criticals := [] |}
  | None =>
      {| sel_configuration := None; sel_loads := paths; sel_criticals := [] |}
  end.
Proof.
  cbv zeta. unfold search_config_dirs, first_that_loads. cbn [list_find].
  destruct (env_key_file env (build_filename [env_user_config_dir env; "julea"; name]))
    as [kf|] eqn:E.
  - rewrite decide_True by eauto. cbn [take]. rewrite E. reflexivity.
  - rewrite decide_False by (intros [? ?]; discriminate).
    rewrite search_system_config_dirs_spec. cbv zeta. unfold first_that_loads.
    destruct (list_find _ _) as [[i path]|]; reflexivity.
Qed.

(** C8. [j_configuration_new] searches in the specified order. With
    [JULEA_CONFIG] an absolute path, that file is the only one tried and the
    result is [NULL] when it does not load. Otherwise the name is the
    basename of [JULEA_CONFIG], or "julea" when it is unset; the user
    configuration directory is tried first and then each system
    configuration directory in order; the search stops at the first file
    that loads, which decides the result; when none loads the result is
    [NULL]. With a [NULL] configuration [j_init] stops the program. *)
Theorem j_configuration_new_search_order :
  (forall env_path,
      env_JULEA_CONFIG env = Some env_path ->
      is_absolute env_path = true ->
      sel_loads configuration_new = [env_path]
      /\ sel_configuration configuration_new =
         match env_key_file env env_path with
         | Some key_file => new_for_data (Some key_file)
         | None => None
         end)
  /\ ((env_JULEA_CONFIG env = None
       \/ exists env_path, env_JULEA_CONFIG env = Some env_path
                           /\ is_absolute env_path = false) ->
      match first_that_loads env candidates with
      | Some (i, path) =>
          sel_loads configuration_new = take (S i) candidates
          /\ sel_configuration configuration_new = new_for_data (env_key_file env path)
      | None =>
          sel_loads configuration_new = candidates
          /\ sel_configuration configuration_new = None
      end)
  /\ (sel_configuration configuration_new = None ->
      forall w : World B, init None env w = Aborted).
Proof.
  split; [| split].
  - intros env_path Henv Habs. unfold j_configuration_new.
    rewrite Henv, Habs.
    destruct (env_key_file env env_path); simpl; split; reflexivity.
  - intros Hsearch.
    assert (Hnew : configuration_new =
                   search_config_dirs parse_list parse_integer build_filename env
                     (selection_name basename env)).
    { unfold j_configuration_new, selection_name.
      destruct Hsearch as [Hnone | (env_path & Hsome & Habs)].
      - rewrite Hnone. reflexivity.
      - rewrite Hsome, Habs. reflexivity. }
    rewrite Hnew, search_config_dirs_spec. unfold selection_candidates.
    destruct (first_that_loads env _) as [[i path]|]; simpl; split; reflexivity.
  - intros Hnull w. unfold j_init. rewrite Hnull. reflexivity.
Qed.

End SearchFacts.

Lemma j_configuration_new_search_order_witness :
  sel_loads
    (j_configuration_new ConfigurationTerms.split_list ConfigurationTerms.read_integer
       starts_with_slash id join_path example_environment)
  = ["/home/user/.config/julea/julea"; "/etc/xdg/julea/julea"; "/usr/share/julea/julea"]
  /\ sel_configuration
       (j_configuration_new ConfigurationTerms.split_list ConfigurationTerms.read_integer
          starts_with_slash id join_path example_environment)
     = j_configuration_new_for_data ConfigurationTerms.split_list
         ConfigurationTerms.read_integer (Some ConfigurationTerms.example_key_file).
Proof.
  exact (proj1 (proj2 (j_configuration_new_search_order no_backend_load
                         ConfigurationTerms.split_list ConfigurationTerms.read_integer
                         starts_with_slash id join_path example_environment))
           (or_introl eq_refl)).
Defined.

End SelectionFacts.

(** ** Handles and enqueueing *)

Module HandleFacts.

Import Configuration Client.
Import HandleTerms.

Section Handles.

Context {B H : Type}.
Variable parse_list : string -> list string.
Variable parse_integer : string -> option Z.
Variable hash : string -> Z.

Local Abbreviation new_for_data := (j_configuration_new_for_data parse_list parse_integer).

Lemma new_for_data_server_counts (kf : GKeyFile) (c : JConfiguration) :
  new_for_data (Some kf) = Some c ->
  servers_object c <> [] /\ servers_kv c <> []
  /\ servers_object_len c = g_strv_length (servers_object c)
  /\ servers_kv_len c = g_strv_length (servers_kv c).
Proof.
  unfold j_configuration_new_for_data. intros E.
  destruct (strv_null_or_empty (g_key_file_get_string_list parse_list kf "servers" "object")) eqn:E1;
    [discriminate E |].
  destruct (strv_null_or_empty (g_key_file_get_string_list parse_list kf "servers" "kv")) eqn:E2;
    [discriminate E |].
  destruct (_ || _) in E; [discriminate |].
  repeat match type of E with
         | match ?x with _ => _ end = _ => destruct x; try discriminate
         end.
  injection E as <-. cbn.
  repeat split; try reflexivity; intros ->; discriminate.
Qed.

Lemma server_count_positive (l : list string) :
  l <> [] -> Z.of_nat (length l) < 2 ^ 32 -> 0 < g_strv_length l.
Proof.
  intros Hne Hlt. unfold g_strv_length. rewrite wrap32_small by lia.
  destruct l; [congruence | cbn [length]; lia].
Qed.

(** C7. For a configuration built by [j_configuration_new_for_data] (with
    fewer than 2^32 servers of each kind), [j_object_new] and [j_kv_new]
    return a handle whose index is the hash of the name (key) modulo the
    object (kv) server count, hence below it; [j_object_new_for_index] and
    [j_kv_new_for_index] return a handle with the given index when it is
    below the server count and [NULL] otherwise. *)
Theorem handle_index_below_server_count
    (kf : GKeyFile) (c : JConfiguration) (common : @JCommon B H) :
  new_for_data (Some kf) = Some c ->
  Z.of_nat (length (servers_object c)) < 2 ^ 32 ->
  Z.of_nat (length (servers_kv c)) < 2 ^ 32 ->
  common_configuration common = c ->
  forall (namespace name : string) (index : Z) (w : World B),
    let object_count := j_configuration_get_object_server_count (Some c) in
    let kv_count := j_configuration_get_kv_server_count (Some c) in
    (exists object,
        j_object_new hash (Some common) (Some namespace) (Some name) w
        = Returned (Some object, w)
        /\ o_index object = hash name mod object_count
        /\ 0 <= o_index object < object_count)
    /\ (exists kv,
           j_kv_new hash (Some common) (Some namespace) (Some name) w
           = Returned (Some kv, w)
           /\ kv_index kv = hash name mod kv_count
           /\ 0 <= kv_index kv < kv_count)
    /\ (index < object_count ->
        exists object,
          j_object_new_for_index (Some common) index (Some namespace) (Some name) w
          = Returned (Some object, w)
          /\ o_index object = index)
    /\ (object_count <= index ->
        j_object_new_for_index (Some common) index (Some namespace) (Some name) w
        = Returned (None, log_critical w))
    /\ (index < kv_count ->
        exists kv,
          j_kv_new_for_index (Some common) index (Some namespace) (Some name) w
          = Returned (Some kv, w)
          /\ kv_index kv = index)
    /\ (kv_count <= index ->
        j_kv_new_for_index (Some common) index (Some namespace) (Some name) w
        = Returned (None, log_critical w)).
Proof.
  intros Hnew Hobj Hkv Hc namespace name index w. cbv zeta.
  destruct (new_for_data_server_counts kf c Hnew) as (Ho & Hk & Hol & Hkl).
  pose proof (server_count_positive _ Ho Hobj) as Hopos.
  pose proof (server_count_positive _ Hk Hkv) as Hkpos.
  rewrite <- Hol in Hopos. rewrite <- Hkl in Hkpos.
  cbn [j_configuration_get_object_server_count j_configuration_get_kv_server_count].
  unfold j_object_new, j_kv_new, j_object_new_for_index, j_kv_new_for_index.
  unfold j_configuration, check_configuration, bind, ret. rewrite Hc.
  cbn [is_null j_configuration_get_object_server_count
       j_configuration_get_kv_server_count].
  repeat split.
  - destruct (Z.eqb_spec (servers_object_len c) 0) as [E|_]; [lia |].
    eexists. split; [reflexivity |]. cbn [o_index].
    split; [reflexivity | apply Z.mod_pos_bound; exact Hopos].
  - destruct (Z.eqb_spec (servers_kv_len c) 0) as [E|_]; [lia |].
    eexists. split; [reflexivity |]. cbn [kv_index].
    split; [reflexivity | apply Z.mod_pos_bound; exact Hkpos].
  - intros Hlt. destruct (Z.ltb_spec index (servers_object_len c)); [| lia].
    eexists. split; reflexivity.
  - intros Hge. destruct (Z.ltb_spec index (servers_object_len c)); [lia |].
    reflexivity.
  - intros Hlt. destruct (Z.ltb_spec index (servers_kv_len c)); [| lia].
    eexists. split; reflexivity.
  - intros Hge. destruct (Z.ltb_spec index (servers_kv_len c)); [lia |].
    reflexivity.
Qed.

(** C9, as the code has it. A call of [j_object_read] or [j_object_write]
    with a [NULL] object, a [NULL] buffer, a length of zero or a [NULL]
    counter, and a call of [j_kv_new_for_index] with an index that is not
    below the kv server count, is stopped by a [g_return_if_fail] guard: it
    logs one critical message and returns (the batch as it was, [NULL] for
    the handle); nothing else changes and the program goes on. *)
Theorem precondition_violation_returns (w : World B) (batch : JBatch) :
  (forall object data length offset bytes_read,
      object = None \/ data = None \/ length <= 0 \/ bytes_read = None ->
      j_object_read object data length offset bytes_read batch w
      = Returned (batch, log_critical w))
  /\ (forall object data length offset bytes_written,
        object = None \/ data = None \/ length <= 0 \/ bytes_written = None ->
        j_object_write object data length offset bytes_written batch w
        = Returned (batch, log_critical w))
  /\ (forall (common : @JCommon B H) index namespace key,
        j_configuration_get_kv_server_count (Some (common_configuration common)) <= index ->
        j_kv_new_for_index (Some common) index namespace key w
        = Returned (None, log_critical w)).
Proof.
  repeat split.
  - intros object data length offset bytes_read Hv.
    unfold j_object_read.
    destruct object, data, (Z.ltb_spec 0 length), bytes_read;
      try reflexivity; destruct Hv as [Hv | [Hv | [Hv | Hv]]];
      try discriminate Hv; lia.
  - intros object data length offset bytes_written Hv.
    unfold j_object_write.
    destruct object, data, (Z.ltb_spec 0 length), bytes_written;
      try reflexivity; destruct Hv as [Hv | [Hv | [Hv | Hv]]];
      try discriminate Hv; lia.
  - intros common index namespace key Hge.
    unfold j_kv_new_for_index, j_configuration, check_configuration, bind, ret.
    cbn [is_null j_configuration_get_kv_server_count] in *.
    destruct namespace, key; try reflexivity.
    destruct (Z.ltb_spec index (servers_kv_len (common_configuration common)));
      [lia | reflexivity].
Qed.

End Handles.

Lemma example_configuration_built :
  j_configuration_new_for_data ConfigurationTerms.split_list
    ConfigurationTerms.read_integer (Some ConfigurationTerms.example_key_file)
  = Some example_configuration.
Proof. vm_compute. reflexivity. Qed.

Lemma handle_index_below_server_count_witness :
  (exists object,
      j_object_new example_hash (Some example_common) (Some "ns") (Some "alpha") empty_world
      = Returned (Some object, empty_world)
      /\ o_index object = example_hash "alpha" mod 4
      /\ 0 <= o_index object < 4)
  /\ j_object_new_for_index (Some example_common) 4 (Some "ns") (Some "alpha") empty_world
     = Returned (None, log_critical empty_world)
  /\ j_kv_new_for_index (Some example_common) 2 (Some "ns") (Some "alpha") empty_world
     = Returned (None, log_critical empty_world).
Proof.
  pose proof (handle_index_below_server_count
                ConfigurationTerms.split_list ConfigurationTerms.read_integer
                example_hash ConfigurationTerms.example_key_file
                example_configuration example_common
                example_configuration_built
                ltac:(cbn; lia) ltac:(cbn; lia) eq_refl
                "ns" "alpha" 4 empty_world) as (Hnew & _ & _ & Hobj & _ & _).
  pose proof (handle_index_below_server_count
                ConfigurationTerms.split_list ConfigurationTerms.read_integer
                example_hash ConfigurationTerms.example_key_file
                example_configuration example_common
                example_configuration_built
                ltac:(cbn; lia) ltac:(cbn; lia) eq_refl
                "ns" "alpha" 2 empty_world) as (_ & _ & _ & _ & _ & Hkv).
  split; [exact Hnew |].
  split; [apply Hobj; cbn; lia | apply Hkv; cbn; lia].
Defined.

(** C9 as the specification states it fails: a write of length zero is not
    stopped with the program, it returns, with the batch unchanged and one
    more critical message in the log. *)
Lemma zero_length_write_returns :
  j_object_write (Some example_object) (Some [Byte.x41]) 0 10 (Some 100)
    example_batch empty_world
  = Returned (example_batch, log_critical empty_world).
Proof. reflexivity. Qed.

Lemma precondition_violation_returns_witness :
  j_object_read None (Some 200) 6 10 (Some 100) example_batch empty_world
  = Returned (example_batch, log_critical empty_world)
  /\ j_kv_new_for_index (Some example_common) 4 (Some "ns") (Some "alpha") empty_world
     = Returned (None, log_critical empty_world).
Proof.
  destruct (precondition_violation_returns (H := unit) empty_world example_batch)
    as (Hread & _ & Hkv).
  split.
  - apply Hread. left. reflexivity.
  - apply Hkv. cbn. lia.
Defined.

End HandleFacts.

(** ** The LevelDB backend *)

Module LevelDBFacts.

Import LevelDB.
Import LevelDBTerms.

(** *** Write options *)

Lemma backend_init_initialised path db st :
  initialised (snd (backend_init (Some path) (Some db) st))
  /\ fst (backend_init (Some path) (Some db) st) = true.
Proof. unfold initialised. cbn. eauto. Qed.

Lemma apply_call_safety (calls : list batch_call) (b : JLevelDBBatch) :
  exists b', fold_left apply_call calls (Some b) = Some b' /\ safety b' = safety b.
Proof.
  revert b. induction calls as [|c calls IH]; intros b; cbn [fold_left].
  - exists b. split; reflexivity.
  - assert (Hstep : exists b1, apply_call (Some b) c = Some b1 /\ safety b1 = safety b).
    { destruct c as [[key|] [value|] | [key|]]; cbn; eexists; split; reflexivity. }
    destruct Hstep as (b1 & -> & Hs1).
    destruct (IH b1) as (b' & Hb' & Hs'). exists b'. split; [exact Hb' | congruence].
Qed.

(** *** Iteration by prefix *)

Lemma string_app_assoc (a b c : string) : (a ++ b) ++ c = a ++ (b ++ c).
Proof. induction a as [|x a IH]; [reflexivity | exact (f_equal (String x) IH)]. Qed.

Lemma ascii_compare_refl (a : ascii) : Ascii.compare a a = Eq.
Proof. unfold Ascii.compare. apply N.compare_refl. Qed.

Lemma ascii_compare_lt_trans (a b c : ascii) :
  Ascii.compare a b = Lt -> Ascii.compare b c = Lt -> Ascii.compare a c = Lt.
Proof.
  unfold Ascii.compare. rewrite !N.compare_lt_iff. apply N.lt_trans.
Qed.

Lemma ascii_compare_nul (c : ascii) : Ascii.compare c "000"%char <> Lt.
Proof.
  unfold Ascii.compare. rewrite N.compare_lt_iff. cbn. apply N.nlt_0_r.
Qed.

Lemma lt_key_trans (a b c : string) : lt_key a b -> lt_key b c -> lt_key a c.
Proof.
  unfold lt_key. revert b c.
  induction a as [|x a IH]; intros [|y b] [|z c]; cbn; try congruence.
  destruct (Ascii.compare x y) eqn:Exy; try discriminate;
    destruct (Ascii.compare y z) eqn:Eyz; try discriminate; intros H1 H2.
  - apply Ascii.compare_eq_iff in Exy, Eyz. subst.
    rewrite ascii_compare_refl. eapply IH; eassumption.
  - apply Ascii.compare_eq_iff in Exy. subst. rewrite Eyz. reflexivity.
  - apply Ascii.compare_eq_iff in Eyz. subst. rewrite Exy. reflexivity.
  - rewrite (ascii_compare_lt_trans _ _ _ Exy Eyz). reflexivity.
Qed.

Lemma prefix_app (p r : string) : String.prefix p (p ++ r) = true.
Proof.
  induction p as [|a p IH]; simpl.
  - destruct r; reflexivity.
  - destruct (ascii_dec a a); [exact IH | congruence].
Qed.

Lemma prefix_inv (p k : string) :
  String.prefix p k = true -> exists r, k = p ++ r.
Proof.
  revert k. induction p as [|a p IH]; intros k Hk.
  - exists k. reflexivity.
  - destruct k as [|b k]; cbn in Hk; [discriminate |].
    destruct (ascii_dec a b) as [-> |]; [| discriminate].
    destruct (IH k Hk) as (r & ->). exists r. reflexivity.
Qed.

Lemma no_nul_app (a b : string) : no_nul a -> no_nul b -> no_nul (a ++ b).
Proof.
  induction a as [|x a IH]; cbn; [auto |]. intros [Hx Ha] Hb. split; auto.
Qed.

Lemma no_nul_nskey (ns p : string) : no_nul ns -> no_nul p -> no_nul (nskey_of ns p).
Proof.
  intros Hns Hp. unfold nskey_of. apply no_nul_app; [exact Hns |].
  apply (no_nul_app ":" p); [| exact Hp]. simpl. split; [discriminate | exact I].
Qed.

Lemma no_nul_not_terminated (p k : string) : no_nul p -> p <> k ++ NUL.
Proof.
  unfold NUL. revert k. induction p as [|a p IH]; intros k Hp E.
  - destruct k; discriminate E.
  - destruct Hp as [Ha Hp]. destruct k as [|b k]; simpl in E.
    + injection E as -> _. apply Ha. reflexivity.
    + injection E as _ E. exact (IH k Hp E).
Qed.

(** A key with the prefix, other than the prefix itself, is at or past the
    seek target. *)
Lemma prefixed_at_or_past_target (p k : string) :
  String.prefix p k = true -> k <> p -> String.compare k (p ++ NUL) <> Lt.
Proof.
  unfold NUL. revert k. induction p as [|a p IH]; intros k Hk Hne.
  - destruct k as [|c k]; [congruence |]. simpl.
    destruct (Ascii.compare c "000"%char) eqn:E; try discriminate.
    + destruct k; discriminate.
    + exfalso. exact (ascii_compare_nul c E).
  - destruct k as [|b k]; simpl in Hk; [discriminate |].
    destruct (ascii_dec a b) as [-> |]; [| discriminate].
    simpl. rewrite ascii_compare_refl. apply IH; [exact Hk | congruence].
Qed.

(** A key at or past the target that lacks the prefix is past every key
    that has it. *)
Lemma past_the_prefix (p k k' : string) :
  String.prefix p k = false ->
  String.compare k (p ++ NUL) <> Lt ->
  lt_key k k' ->
  String.prefix p k' = false.
Proof.
  unfold lt_key, NUL. revert k k'.
  induction p as [|a p IH]; intros k k' Hk Hge Hlt.
  - destruct k; discriminate Hk.
  - destruct k as [|c k]; [simpl in Hge; congruence |].
    destruct k' as [|c' k']; [reflexivity |].
    simpl in Hk, Hge, Hlt |- *.
    destruct (ascii_dec a c') as [<- |]; [| reflexivity].
    destruct (Ascii.compare c a) eqn:Eca.
    + apply Ascii.compare_eq_iff in Eca. subst c.
      destruct (ascii_dec a a) as [_ |]; [| congruence].
      eapply IH; eassumption.
    + congruence.
    + discriminate Hlt.
Qed.

Lemma seek_from_sorted (db : leveldb_t) (target : string) :
  db_sorted db ->
  exists before,
    db = (before ++ leveldb_iter_seek db target)%list
    /\ Forall (fun e => lt_key (fst e) target) before
    /\ Forall (fun e => String.compare (fst e) target <> Lt) (leveldb_iter_seek db target)
    /\ db_sorted (leveldb_iter_seek db target).
Proof.
  induction 1 as [|[k v] db Hs IH Hall]; cbn [leveldb_iter_seek].
  - exists []. repeat split; constructor.
  - destruct (String.compare k target) eqn:E.
    + exists []. repeat split; [constructor | | constructor; assumption].
      constructor; [cbn; congruence |].
      eapply Forall_impl; [exact Hall |]. cbn. intros e He Hlt.
      pose proof (lt_key_trans _ _ _ He Hlt) as Hk. unfold lt_key in Hk. congruence.
    + destruct IH as (before & Hdb & Hb & Ha & Hsorted).
      exists ((k, v) :: before). repeat split; try assumption.
      * cbn. rewrite <- Hdb. reflexivity.
      * constructor; [exact E | exact Hb].
    + exists []. repeat split; [constructor | | constructor; assumption].
      constructor; [cbn; congruence |].
      eapply Forall_impl; [exact Hall |]. cbn. intros e He Hlt.
      pose proof (lt_key_trans _ _ _ He Hlt) as Hk. unfold lt_key in Hk. congruence.
Qed.

Lemma iterate_all_step (n : nat) (k : string) (v : bson_t) (l : leveldb_t) (p : string) :
  iterate_all (S n) (Some {| iterator := (k, v) :: l; prefix := p |})
  = if g_str_has_prefix k p
    then match iterate_all n (Some {| iterator := l; prefix := p |}) with
         | Some (values, final) => Some (v :: values, final)
         | None => None
         end
    else Some ([], None).
Proof.
  cbn [iterate_all backend_iterate iterator prefix].
  destruct (g_str_has_prefix k p); reflexivity.
Qed.

(** From the seek position on, iterating gives exactly the entries with the
    prefix, and stops at the first entry without it. *)
Lemma iterate_all_from (p : string) (l : leveldb_t) :
  db_sorted l ->
  Forall (fun e => String.compare (fst e) (p ++ NUL) <> Lt) l ->
  iterate_all (S (length (List.filter (has_prefix p) l)))
    (Some {| iterator := l; prefix := p |})
  = Some (map snd (List.filter (has_prefix p) l), None).
Proof.
  induction 1 as [|[k v] l Hs IH Hall]; intros Hge.
  - reflexivity.
  - apply Forall_cons in Hge as [Hk Hge]. cbn [fst] in Hk.
    assert (Hhp : has_prefix p (k, v) = g_str_has_prefix k p) by reflexivity.
    cbn [List.filter]. rewrite Hhp.
    destruct (g_str_has_prefix k p) eqn:Ep.
    + cbn [length map snd]. rewrite iterate_all_step, Ep, (IH Hge). reflexivity.
    + assert (Hnone : List.filter (has_prefix p) l = []).
      { clear IH Hs Hge. induction l as [|e l IHl]; [reflexivity |].
        apply Forall_cons in Hall as [He Hall]. cbn [fst] in He.
        cbn [List.filter]. unfold has_prefix at 1, g_str_has_prefix.
        rewrite (past_the_prefix p k (fst e) Ep Hk He). auto. }
      rewrite Hnone. cbn [length map]. rewrite iterate_all_step, Ep. reflexivity.
Qed.

(** *** What the writes keep true of the database *)

Lemma compare_gt_lt_key (a b : string) : String.compare a b = Gt -> lt_key b a.
Proof.
  intros Hgt. unfold lt_key. rewrite String.compare_antisym, Hgt. reflexivity.
Qed.

Lemma leveldb_put_Forall (P : string * bson_t -> Prop) db key value :
  P (key, value) -> Forall P db -> Forall P (leveldb_put db key value).
Proof.
  intros Hp. induction 1 as [|[k v] db Hk Hdb IH]; cbn [leveldb_put].
  - constructor; [exact Hp | constructor].
  - destruct (String.compare key k); repeat constructor; assumption.
Qed.

Lemma leveldb_delete_Forall (P : string * bson_t -> Prop) db key :
  Forall P db -> Forall P (leveldb_delete db key).
Proof.
  induction 1 as [|[k v] db Hk Hdb IH]; cbn [leveldb_delete].
  - constructor.
  - destruct (String.compare key k); try constructor; assumption.
Qed.

Lemma leveldb_put_sorted db key value :
  db_sorted db -> db_sorted (leveldb_put db key value).
Proof.
  induction 1 as [|[k v] db Hs IH Hall]; cbn [leveldb_put].
  - repeat constructor.
  - destruct (String.compare key k) eqn:E.
    + apply String.compare_eq_iff in E. subst key.
      constructor; assumption.
    + constructor; [constructor; assumption |].
      constructor; [exact E |].
      eapply Forall_impl; [exact Hall |]. cbn. intros e He.
      eapply lt_key_trans; [exact E | exact He].
    + constructor; [exact IH |].
      apply leveldb_put_Forall; [| exact Hall].
      cbn. apply compare_gt_lt_key. exact E.
Qed.

Lemma leveldb_delete_sorted db key :
  db_sorted db -> db_sorted (leveldb_delete db key).
Proof.
  induction 1 as [|[k v] db Hs IH Hall]; cbn [leveldb_delete].
  - constructor.
  - destruct (String.compare key k).
    + exact Hs.
    + constructor; assumption.
    + constructor; [exact IH |]. apply leveldb_delete_Forall. exact Hall.
Qed.

Lemma leveldb_apply_wf db (updates : list leveldb_update) :
  Forall update_terminated updates -> db_wf db ->
  db_wf (fold_left leveldb_apply updates db).
Proof.
  intros Hu. revert db. induction Hu as [|u updates Hterm Hu IH]; intros db Hwf.
  - exact Hwf.
  - cbn [fold_left]. apply IH. destruct Hwf as [Hs Ht].
    destruct u as [key value | key]; cbn [leveldb_apply].
    + split; [apply leveldb_put_sorted; exact Hs |].
      apply leveldb_put_Forall; [exact Hterm | exact Ht].
    + split; [apply leveldb_delete_sorted; exact Hs |].
      apply leveldb_delete_Forall. exact Ht.
Qed.

Lemma apply_call_terminated (calls : list batch_call) (b : JLevelDBBatch) :
  Forall update_terminated (batch b) ->
  exists b', fold_left apply_call calls (Some b) = Some b'
             /\ Forall update_terminated (batch b').
Proof.
  revert b. induction calls as [|c calls IH]; intros b Hb; cbn [fold_left].
  - exists b. split; [reflexivity | exact Hb].
  - assert (Hstep : exists b1, apply_call (Some b) c = Some b1
                               /\ Forall update_terminated (batch b1)).
    { destruct c as [[key|] [value|] | [key|]]; cbn;
        eexists; (split; [reflexivity |]); cbn [batch]; try exact Hb;
        apply Forall_app; (split; [exact Hb |]);
        repeat constructor; eexists; reflexivity. }
    destruct Hstep as (b1 & -> & Hb1). exact (IH b1 Hb1).
Qed.

(** The database stays sorted, with terminated keys, through every batch
    that [batch_start], [put], [delete] and [batch_execute] produce. *)
Lemma batch_execute_keeps_db_wf st st' namespace s calls db :
  backend_db st = Some db -> db_wf db ->
  backend_batch_execute
    (fold_left apply_call calls (snd (backend_batch_start (Some namespace) s))) st
  = Returned (true, st') ->
  exists db', backend_db st' = Some db' /\ db_wf db'.
Proof.
  intros Hdb Hwf. cbn [backend_batch_start snd].
  destruct (apply_call_terminated calls
              {| batch := []; namespace := namespace; safety := s |})
    as (b & -> & Hb); [constructor |].
  unfold backend_batch_execute. rewrite Hdb.
  destruct (if decide (safety b = J_SEMANTICS_SAFETY_STORAGE)
            then backend_write_options_sync st
            else backend_write_options st); [| discriminate].
  intros [= <-]. eexists. split; [reflexivity |].
  apply leveldb_apply_wf; assumption.
Qed.

Lemma example_database_wf : db_wf example_database.
Proof.
  apply leveldb_apply_wf.
  - repeat constructor; eexists; reflexivity.
  - split; constructor.
Qed.

Lemma example_matching :
  List.filter (has_prefix (nskey_of "ns" "a")) example_database
  = [("ns:alpha" ++ NUL, example_document Byte.x01);
     ("ns:ant" ++ NUL, example_document Byte.x02)].
Proof. vm_compute. reflexivity. Qed.

Lemma no_nul_ns : no_nul "ns".
Proof. repeat split; discriminate. Qed.


End LevelDBFacts.

(** ** Runs *)

Module ExecFacts.

Import Configuration Client.
Import ExecTerms.

(** An address that no operation of the run writes to is written to by none
    of the remaining operations either: [Hdoc] is what is known of them. *)
Ltac untouched_by_rest Hdoc :=
  let a := fresh "a" in
  let Ha := fresh "Ha" in
  let Hex := fresh "Hex" in
  intros a Ha; apply Hdoc; intros Hex; apply Ha; right; exact Hex.

Section Runs.

Context {B H : Type}.
Variable FLAG : Z.

Local Abbreviation create_exec := (@j_object_create_exec B H FLAG).
Local Abbreviation delete_exec := (@j_object_delete_exec B H FLAG).
Local Abbreviation status_exec := (@j_object_status_exec B H FLAG).

Lemma object_create_loop_false backend operations message (w : World B) :
  match @object_create_loop B H backend operations false message w with
  | Returned (r, _, _) => r = false
  | _ => True
  end.
Proof.
  revert message w. induction operations as [|object rest IH]; intros message w;
    cbn [object_create_loop].
  - reflexivity.
  - destruct backend as [backend|]; [| apply IH].
    unfold bind.
    destruct (j_backend_object_create _ _ _ w) as [[[r h] w1]| | |]; try exact I.
    destruct (j_backend_object_close _ _ w1) as [[r2 w2]| | |]; try exact I.
    rewrite !andb_false_r. apply IH.
Qed.

Lemma object_delete_loop_false backend operations message (w : World B) :
  match @object_delete_loop B H backend operations false message w with
  | Returned (r, _, _) => r = false
  | _ => True
  end.
Proof.
  revert message w. induction operations as [|object rest IH]; intros message w;
    cbn [object_delete_loop].
  - reflexivity.
  - destruct backend as [backend|]; [| apply IH].
    unfold bind.
    destruct (j_backend_object_open _ _ _ w) as [[[r h] w1]| | |]; try exact I.
    destruct (j_backend_object_delete _ _ w1) as [[r2 w2]| | |]; try exact I.
    rewrite !andb_false_r. apply IH.
Qed.

Lemma object_status_loop_false backend operations message (w : World B) :
  match @object_status_loop B H backend operations false message w with
  | Returned (r, _, _) => r = false
  | _ => True
  end.
Proof.
  revert message w. induction operations as [|operation rest IH]; intros message w;
    cbn [object_status_loop].
  - reflexivity.
  - destruct backend as [backend|]; [| apply IH].
    unfold bind.
    destruct (j_backend_object_open _ _ _ w) as [[[r h] w1]| | |]; try exact I.
    destruct (j_backend_object_status _ _ _ _ w1) as [[r2 w2]| | |]; try exact I.
    destruct (j_backend_object_close _ _ w2) as [[r3 w3]| | |]; try exact I.
    rewrite !andb_false_r. apply IH.
Qed.

Lemma create_exec_false common operations semantics (w : World B) :
  returns_false (create_exec common operations semantics w).
Proof.
  unfold j_object_create_exec, returns_false.
  destruct operations as [[|object rest]|], semantics as [semantics|];
    try reflexivity.
  unfold bind at 1.
  destruct (j_object_backend common w) as [[backend w0]| | |]; try exact I.
  unfold bind at 1.
  pose proof (object_create_loop_false backend (object :: rest)
                (j_message_append
                   (j_message_set_safety FLAG (j_message_new J_MESSAGE_OBJECT_CREATE) semantics)
                   (FString (o_namespace object))) w0) as Hloop.
  destruct (object_create_loop _ _ _ _ w0) as [[[r m] w1]| | |]; try exact I.
  subst r. destruct backend; [reflexivity |].
  unfold bind, emit, ret.
  destruct (wants_reply FLAG m); [| reflexivity].
  unfold j_message_receive. cbn [incoming].
  destruct (incoming w1); reflexivity.
Qed.

Lemma delete_exec_false common operations semantics (w : World B) :
  returns_false (delete_exec common operations semantics w).
Proof.
  unfold j_object_delete_exec, returns_false.
  destruct operations as [[|object rest]|], semantics as [semantics|];
    try reflexivity.
  unfold bind at 1.
  destruct (j_object_backend common w) as [[backend w0]| | |]; try exact I.
  unfold bind at 1.
  pose proof (object_delete_loop_false backend (object :: rest)
                (j_message_append
                   (j_message_set_safety FLAG (j_message_new J_MESSAGE_OBJECT_DELETE) semantics)
                   (FString (o_namespace object))) w0) as Hloop.
  destruct (object_delete_loop _ _ _ _ w0) as [[[r m] w1]| | |]; try exact I.
  subst r. destruct backend; [reflexivity |].
  unfold bind, emit, ret.
  destruct (wants_reply FLAG m); [| reflexivity].
  unfold j_message_receive. cbn [incoming].
  destruct (incoming w1); reflexivity.
Qed.

Lemma status_exec_false common operations semantics (w : World B) :
  returns_false (status_exec common operations semantics w).
Proof.
  unfold j_object_status_exec, returns_false.
  destruct operations as [[|operation rest]|], semantics as [semantics|];
    try reflexivity.
  unfold bind at 1.
  destruct (j_object_backend common w) as [[backend w0]| | |]; try exact I.
  unfold bind at 1.
  pose proof (object_status_loop_false backend (operation :: rest)
                (j_message_append
                   (j_message_set_safety FLAG (j_message_new J_MESSAGE_OBJECT_STATUS) semantics)
                   (FString (o_namespace (status_object operation)))) w0) as Hloop.
  destruct (object_status_loop _ _ _ _ w0) as [[[r m] w1]| | |]; try exact I.
  subst r. destruct backend; [reflexivity |].
  unfold bind at 1. unfold emit at 1.
  unfold bind at 1. unfold emit at 1.
  unfold bind at 1.
  match goal with
  | |- match (match ?x with _ => _ end) with _ => _ end =>
      destruct x as [[u w2]| | |]; try exact I
  end.
  reflexivity.
Qed.

End Runs.

(** C2 fails on the code: [j_object_create_exec], [j_object_delete_exec] and
    [j_object_status_exec] start from [ret = FALSE] and only ever combine it
    with [&&], so whenever they return they return [FALSE], whatever the
    backend calls report; a create run on a backend whose create and close
    both succeed returns [FALSE]. *)
Theorem object_create_delete_status_exec_return_false :
  (forall (B H : Type) (FLAG : Z) (common : option (@JCommon B H)) semantics (w : World B),
      (forall operations,
          returns_false (j_object_create_exec FLAG common operations semantics w))
      /\ (forall operations,
            returns_false (j_object_delete_exec FLAG common operations semantics w))
      /\ (forall operations,
            returns_false (j_object_status_exec FLAG common operations semantics w)))
  /\ (forall FLAG : Z,
        j_object_create_exec FLAG (Some agreeable_common)
          (Some [HandleTerms.example_object])
          (Some {| sem_safety := J_SEMANTICS_SAFETY_NETWORK |})
          HandleTerms.empty_world
        = Returned (false, HandleTerms.empty_world)).
Proof.
  split.
  - intros B H FLAG common semantics w. repeat split; intros operations.
    + apply create_exec_false.
    + apply delete_exec_false.
    + apply status_exec_false.
  - intros FLAG. reflexivity.
Qed.

(** *** Runs over the wire *)

Lemma total_for_untouched (p : Z) (adds : list (Z * Z)) :
  p ∉ map fst adds -> total_for p adds = 0.
Proof.
  induction adds as [|[q v] adds IH]; cbn [map fst total_for fold_right]; intros Hp.
  - reflexivity.
  - apply not_elem_of_cons in Hp as [Hne Hp]. cbn [fst snd].
    rewrite decide_False by congruence. apply IH. exact Hp.
Qed.

Lemma add_counters_untouched (p : Z) (adds : list (Z * Z)) (m : gmap Z Z) :
  p ∉ map fst adds -> add_counters adds m !! p = m !! p.
Proof.
  revert m. induction adds as [|[q v] adds IH]; intros m Hp.
  - reflexivity.
  - cbn [map fst] in Hp. apply not_elem_of_cons in Hp as [Hne Hp].
    unfold add_counters. cbn [fold_left fst snd].
    fold (add_counters adds (<[q := wrap64 (default 0 (m !! q) + v)]> m)).
    rewrite IH by exact Hp. apply lookup_insert_ne. congruence.
Qed.

(** Adds to one counter sum up, modulo 2^64. *)
Lemma add_counters_touched (p : Z) (adds : list (Z * Z)) (m : gmap Z Z) :
  p ∈ map fst adds ->
  default 0 (add_counters adds m !! p)
  = wrap64 (default 0 (m !! p) + total_for p adds).
Proof.
  revert m. induction adds as [|[q v] adds IH]; intros m Hp.
  - cbn in Hp. apply elem_of_nil in Hp. contradiction.
  - unfold add_counters. cbn [fold_left fst snd].
    fold (add_counters adds (<[q := wrap64 (default 0 (m !! q) + v)]> m)).
    cbn [total_for fold_right fst snd]. fold (total_for p adds).
    destruct (decide (p ∈ map fst adds)) as [Hin | Hout].
    + rewrite IH by exact Hin.
      destruct (decide (q = p)) as [-> | Hne].
      * rewrite lookup_insert_eq. cbn [default from_option id].
        rewrite wrap64_add_l. f_equal. lia.
      * rewrite lookup_insert_ne by exact Hne. reflexivity.
    + rewrite add_counters_untouched by exact Hout.
      rewrite (total_for_untouched p adds Hout).
      cbn [map fst] in Hp. apply elem_of_cons in Hp as [-> | Hin]; [| contradiction].
      rewrite decide_True by reflexivity.
      rewrite lookup_insert_eq. cbn [default from_option id]. f_equal. lia.
Qed.

Section WireRuns.

Context {B H : Type}.
Variable FLAG : Z.

Local Abbreviation put_exec := (@j_kv_put_exec B H FLAG).
Local Abbreviation get_exec := (@j_kv_get_exec B H FLAG).
Local Abbreviation write_exec := (@j_object_write_exec B H FLAG).

Lemma on_wire_app (w : World B) (e1 e2 : list WireEvent) (f1 f2 : list JMessage) :
  on_wire (on_wire w e1 f1) e2 f2 = on_wire w (e1 ++ e2) f2.
Proof. unfold on_wire. cbn. rewrite app_assoc. reflexivity. Qed.

Lemma emit_on_wire (e : WireEvent) (w : World B) :
  emit e w = Returned (tt, on_wire w [e] (incoming w)).
Proof. reflexivity. Qed.

Lemma receive_on_wire (w : World B) reply rest :
  incoming w = reply :: rest ->
  j_message_receive w = Returned (reply, on_wire w [Receive reply] rest).
Proof. intros Hin. unfold j_message_receive. rewrite Hin. reflexivity. Qed.

Lemma set_safety_reply_flags type semantics :
  FLAG <> 0 -> sem_safety semantics <> J_SEMANTICS_SAFETY_NONE ->
  forall message,
    msg_flags message = msg_flags (j_message_set_safety FLAG (j_message_new type) semantics) ->
    wants_reply FLAG message = true.
Proof.
  intros Hflag Hs message Hm. unfold wants_reply, j_message_get_flags. rewrite Hm.
  unfold j_message_set_safety.
  destruct (sem_safety semantics); [congruence | |]; cbn [msg_flags j_message_new];
    rewrite Z.lor_0_l, Z.land_diag; apply negb_true_iff, Z.eqb_neq; exact Hflag.
Qed.

Lemma kv_put_loop_wire operations ret_ kv_batch message (w : World B) :
  Forall (fun kop => is_Some (put_value kop)) operations ->
  exists message',
    @kv_put_loop B H None operations ret_ kv_batch message w
    = Returned (ret_, kv_batch, message', w)
    /\ msg_flags message' = msg_flags message.
Proof.
  intros Hall. revert message.
  induction Hall as [|kop rest [v Hv] Hall IH]; intros message; cbn [kv_put_loop].
  - exists message. split; reflexivity.
  - rewrite Hv. destruct (IH (j_message_append
                                 (j_message_append
                                    (j_message_append (j_message_add_operation message)
                                       (FString (kv_key (put_kv kop))))
                                    (F4 (bson_len v))) (FData v)))
      as (message' & Hloop & Hflags).
    exists message'. split; [exact Hloop | exact Hflags].
Qed.

Lemma kv_get_loop_wire operations ret_ message (w : World B) :
  exists message',
    @kv_get_loop B H None operations ret_ message w = Returned (ret_, message', w)
    /\ msg_flags message' = msg_flags message.
Proof.
  revert message. induction operations as [|kop rest IH]; intros message;
    cbn [kv_get_loop].
  - exists message. split; reflexivity.
  - destruct (IH (j_message_append (j_message_add_operation message)
                    (FString (kv_key (get_kv kop))))) as (message' & Hloop & Hflags).
    exists message'. split; [exact Hloop | exact Hflags].
Qed.

(** A put run over the wire under safety [none]: the frame goes out without
    the flag and the connection goes back to the pool with no reply read. *)
Lemma kv_put_exec_none (common : @JCommon B H) kop operations (w : World B) :
  common_kv_backend common = None ->
  Forall (fun kop => is_Some (put_value kop)) (kop :: operations) ->
  exists message,
    put_exec (Some common) (Some (kop :: operations))
      (Some {| sem_safety := J_SEMANTICS_SAFETY_NONE |}) w
    = Returned (true,
        on_wire w [Pop KVPool (kv_index (put_kv kop)); Send message;
                   Push KVPool (kv_index (put_kv kop))] (incoming w))
    /\ wants_reply FLAG message = false.
Proof.
  intros Hnone Hall. unfold j_kv_put_exec, j_kv_backend. rewrite Hnone.
  unfold bind at 1. unfold ret at 1. unfold bind at 1. unfold ret at 1.
  unfold bind at 1.
  destruct (kv_put_loop_wire (kop :: operations) true Indeterminate
              (j_message_append
                 (j_message_set_safety FLAG (j_message_new J_MESSAGE_KV_PUT)
                    {| sem_safety := J_SEMANTICS_SAFETY_NONE |})
                 (FString (kv_namespace (put_kv kop)))) w Hall)
    as (message & Hloop & Hflags).
  rewrite Hloop. exists message.
  assert (Hw : wants_reply FLAG message = false).
  { unfold wants_reply, j_message_get_flags. rewrite Hflags. reflexivity. }
  split; [| exact Hw].
  unfold bind, ret. rewrite !emit_on_wire. rewrite Hw.
  rewrite emit_on_wire, !on_wire_app. reflexivity.
Qed.

Lemma get_4_next (reply : JMessage) (z : Z) (rest : list Field) :
  msg_fields reply = F4 z :: rest ->
  exists reply', j_message_get_4 reply = Some (z, reply') /\ msg_fields reply' = rest.
Proof.
  intros Hf. unfold j_message_get_4. rewrite Hf. eexists. split; reflexivity.
Qed.

Lemma get_8_next (reply : JMessage) (z : Z) (rest : list Field) :
  msg_fields reply = F8 z :: rest ->
  exists reply', j_message_get_8 reply = Some (z, reply') /\ msg_fields reply' = rest.
Proof.
  intros Hf. unfold j_message_get_8. rewrite Hf. eexists. split; reflexivity.
Qed.

Lemma get_n_next (reply : JMessage) (v : bson_t) (rest : list Field) :
  msg_fields reply = FData v :: rest ->
  exists reply', j_message_get_n reply (bson_len v) = Some (v, reply')
                 /\ msg_fields reply' = rest.
Proof.
  intros Hf. unfold j_message_get_n. rewrite Hf.
  rewrite decide_True by reflexivity. eexists. split; reflexivity.
Qed.

Lemma bson_len_pos (v : bson_t) : v <> [] -> Z.ltb 0 (bson_len v) = true.
Proof.
  intros Hv. apply Z.ltb_lt. unfold bson_len.
  destruct v; [congruence | cbn [length]; lia].
Qed.

(** What reading the reply of a get run does: the result is the conjunction
    of the hits; only the world's documents and callbacks change, the
    callbacks by the hits that have a function, the documents only at
    addresses that a hit copies to. *)
Lemma kv_get_reply_spec operations results :
  Forall2 deliverable operations results ->
  forall reply extra ret_ (w : World B),
    msg_fields reply = (reply_fields results ++ extra)%list ->
    exists w',
      @kv_get_reply B operations reply ret_ w
      = Returned (forallb hit results && ret_, w')
      /\ backend w' = backend w /\ counters w' = counters w
      /\ buffers w' = buffers w /\ wire w' = wire w
      /\ incoming w' = incoming w /\ criticals w' = criticals w
      /\ callbacks w' = (callbacks w ++ callbacks_of (zip operations results))%list
      /\ (forall a,
            ~ Exists (writes_document a) (zip operations results) ->
            documents w' !! a = documents w !! a).
Proof.
  induction 1 as [|kop r operations results Hd Hall IH]; intros reply extra ret_ w Hf.
  - exists w. cbn. rewrite app_nil_r. repeat split; reflexivity.
  - cbn [kv_get_reply]. unfold bind at 1. unfold of_option.
    destruct r as [v|]; cbn [reply_fields flat_map] in Hf.
    + destruct Hd as [Hv Hdest].
      cbn [app] in Hf.
      destruct (get_4_next reply _ _ Hf) as (reply1 & -> & Hf1). unfold ret at 1.
      rewrite (bson_len_pos v Hv). unfold bind at 1. unfold of_option.
      destruct (get_n_next reply1 _ _ Hf1) as (reply2 & -> & Hf2). unfold ret at 1.
      cbn [forallb hit zip zip_with callbacks_of flat_map fst snd].
      destruct (get_func kop) as [f|] eqn:Ef.
      * unfold bind at 1. unfold call_get_func at 1.
        destruct (IH reply2 extra (true && ret_)
                    (mkWorld (backend w) (counters w) (documents w) (buffers w)
                       (callbacks w ++ [(f, get_data kop, v)]) (wire w)
                       (incoming w) (criticals w)) Hf2)
          as (w' & -> & Hb & Hc & Hbu & Hwi & Hin & Hcr & Hcb & Hdoc).
        exists w'. cbn in Hb, Hc, Hbu, Hwi, Hin, Hcr, Hcb, Hdoc.
        split; [reflexivity |].
        repeat split; try assumption.
        -- rewrite Hcb, <- app_assoc. reflexivity.
        -- untouched_by_rest Hdoc.
      * destruct (get_value kop) as [value|] eqn:Eval;
          [| destruct Hdest as [[? ?] | [? ?]]; discriminate].
        unfold bind at 1. unfold bson_copy_to at 1.
        destruct (IH reply2 extra (true && ret_)
                    (mkWorld (backend w) (counters w) (<[value := v]> (documents w))
                       (buffers w) (callbacks w) (wire w) (incoming w) (criticals w)) Hf2)
          as (w' & -> & Hb & Hc & Hbu & Hwi & Hin & Hcr & Hcb & Hdoc).
        exists w'. cbn in Hb, Hc, Hbu, Hwi, Hin, Hcr, Hcb, Hdoc.
        split; [reflexivity |].
        repeat split; try assumption.
        -- intros a Ha. rewrite Hdoc.
           ++ apply lookup_insert_ne. intros ->. apply Ha. left.
              unfold writes_document. cbn [fst snd hit]. auto.
           ++ intros Hex. apply Ha. right. exact Hex.
    + cbn [app] in Hf.
      destruct (get_4_next reply _ _ Hf) as (reply1 & -> & Hf1). unfold ret at 1.
      cbn [Z.ltb Z.compare].
      destruct (IH reply1 extra (false && ret_) w Hf1)
        as (w' & -> & Hb & Hc & Hbu & Hwi & Hin & Hcr & Hcb & Hdoc).
      exists w'. cbn [forallb hit zip zip_with callbacks_of flat_map fst snd].
      split; [rewrite andb_false_l, andb_false_r; reflexivity |].
      repeat split; try assumption.
      untouched_by_rest Hdoc.
Qed.

(** A get run over the wire. *)
Lemma kv_get_exec_wire (common : @JCommon B H) kop operations results semantics
    reply rest (w : World B) :
  common_kv_backend common = None ->
  Forall2 deliverable (kop :: operations) results ->
  incoming w = reply :: rest ->
  msg_fields reply = reply_fields results ->
  exists message w',
    get_exec (Some common) (Some (kop :: operations)) (Some semantics) w
    = Returned (forallb hit results, w')
    /\ wire w' = (wire w ++ [Pop KVPool (kv_index (get_kv kop)); Send message;
                            Receive reply; Push KVPool (kv_index (get_kv kop))])%list
    /\ msg_flags message
       = msg_flags (j_message_set_safety FLAG (j_message_new J_MESSAGE_KV_GET) semantics)
    /\ incoming w' = rest
    /\ backend w' = backend w /\ counters w' = counters w /\ criticals w' = criticals w
    /\ callbacks w' = (callbacks w ++ callbacks_of (zip (kop :: operations) results))%list
    /\ (forall a,
          ~ Exists (writes_document a) (zip (kop :: operations) results) ->
          documents w' !! a = documents w !! a).
Proof.
  intros Hnone Hall Hin Hfields. unfold j_kv_get_exec, j_kv_backend. rewrite Hnone.
  unfold bind at 1. unfold ret at 1. unfold bind at 1.
  destruct (kv_get_loop_wire (kop :: operations) true
              (j_message_append
                 (j_message_set_safety FLAG (j_message_new J_MESSAGE_KV_GET) semantics)
                 (FString (kv_namespace (get_kv kop)))) w)
    as (message & Hloop & Hflags).
  rewrite Hloop.
  unfold bind at 1. rewrite emit_on_wire.
  unfold bind at 1. rewrite emit_on_wire, on_wire_app.
  unfold bind at 1. erewrite receive_on_wire by (cbn; exact Hin). rewrite on_wire_app.
  assert (Hf : msg_fields reply = (reply_fields results ++ [])%list)
    by (rewrite app_nil_r; exact Hfields).
  destruct (kv_get_reply_spec (kop :: operations) results Hall reply [] true
              (on_wire w ([Pop KVPool (kv_index (get_kv kop))] ++ [Send message]
                          ++ [Receive reply]) rest) Hf)
    as (w1 & Hreply & Hb & Hc & Hbu & Hwi & Hinc & Hcr & Hcb & Hdoc).
  unfold bind at 1. cbn [app] in Hreply |- *. rewrite Hreply.
  unfold bind, ret. rewrite emit_on_wire.
  exists message. eexists. split; [rewrite andb_true_r; reflexivity |].
  cbn in Hb, Hc, Hbu, Hwi, Hinc, Hcr, Hcb, Hdoc |- *.
  rewrite Hwi, Hinc, Hb, Hc, Hcr, Hcb, <- app_assoc.
  repeat split; try reflexivity; assumption.
Qed.

Lemma with_counters_on_wire (w : World B) events frames m :
  with_counters (on_wire w events frames) m = on_wire (with_counters w m) events frames.
Proof. reflexivity. Qed.

Lemma atomic_add_counters (p v : Z) (w : World B) :
  j_helper_atomic_add p v w
  = Returned (tt, with_counters w (add_counters [(p, v)] (counters w))).
Proof. reflexivity. Qed.

Lemma object_write_loop_none handle operations ret_ message (w : World B) :
  exists message',
    @object_write_loop B H None handle {| sem_safety := J_SEMANTICS_SAFETY_NONE |}
      operations ret_ message w
    = Returned (ret_, message',
                with_counters w (add_counters (write_lengths operations) (counters w)))
    /\ msg_flags message' = msg_flags message.
Proof.
  revert message w. induction operations as [|op rest IH]; intros message w.
  - exists message. split; [destruct w |]; reflexivity.
  - cbn [object_write_loop]. unfold bind at 1. unfold ret at 1.
    unfold bind at 1. cbn [sem_safety]. rewrite decide_True by reflexivity.
    rewrite atomic_add_counters.
    destruct (IH (j_message_add_send
                    (j_message_append
                       (j_message_append (j_message_add_operation message)
                          (F8 (write_length op))) (F8 (write_offset op)))
                    (take (Z.to_nat (write_length op)) (write_data op)))
                (with_counters w (add_counters
                                    [(write_bytes_written op, write_length op)]
                                    (counters w))))
      as (message' & Hloop & Hflags).
    exists message'. split; [| exact Hflags]. rewrite Hloop. reflexivity.
Qed.

Lemma object_write_loop_reply handle semantics operations ret_ message (w : World B) :
  sem_safety semantics <> J_SEMANTICS_SAFETY_NONE ->
  exists message',
    @object_write_loop B H None handle semantics operations ret_ message w
    = Returned (ret_, message', w)
    /\ msg_flags message' = msg_flags message.
Proof.
  intros Hs. revert message. induction operations as [|op rest IH]; intros message.
  - exists message. split; reflexivity.
  - cbn [object_write_loop]. unfold bind at 1. unfold ret at 1.
    unfold bind at 1. rewrite decide_False by exact Hs. unfold ret at 1.
    destruct (IH (j_message_add_send
                    (j_message_append
                       (j_message_append (j_message_add_operation message)
                          (F8 (write_length op))) (F8 (write_offset op)))
                    (take (Z.to_nat (write_length op)) (write_data op))))
      as (message' & Hloop & Hflags).
    exists message'. split; [exact Hloop | exact Hflags].
Qed.

Lemma object_write_reply_spec operations (nbytes : list Z) :
  length nbytes = length operations ->
  forall reply extra (w : World B),
    msg_fields reply = (map F8 nbytes ++ extra)%list ->
    @object_write_reply B operations reply w
    = Returned (tt, with_counters w
                      (add_counters (write_replies operations nbytes) (counters w))).
Proof.
  revert nbytes. induction operations as [|op rest IH]; intros nbytes Hlen reply extra w Hf.
  - destruct w. reflexivity.
  - destruct nbytes as [|n nbytes]; [discriminate Hlen |].
    cbn [map app] in Hf. cbn [object_write_reply]. unfold bind at 1. unfold of_option.
    destruct (get_8_next reply _ _ Hf) as (reply1 & -> & Hf1). unfold ret at 1.
    unfold bind at 1. rewrite atomic_add_counters.
    rewrite (IH nbytes ltac:(cbn in Hlen; lia) reply1 extra _ Hf1). reflexivity.
Qed.

(** A write run over the wire under safety [none]. *)
Lemma object_write_exec_none (common : @JCommon B H) op operations (w : World B) :
  common_object_backend common = None ->
  exists message,
    write_exec (Some common) (Some (op :: operations))
      (Some {| sem_safety := J_SEMANTICS_SAFETY_NONE |}) w
    = Returned (true,
        on_wire
          (with_counters w
             (add_counters (write_lengths (op :: operations)) (counters w)))
          [Pop ObjectPool (o_index (write_object op)); Send message;
           Push ObjectPool (o_index (write_object op))] (incoming w))
    /\ wants_reply FLAG message = false.
Proof.
  intros Hnone. unfold j_object_write_exec, j_object_backend. rewrite Hnone.
  unfold bind at 1. unfold ret at 1. unfold bind at 1. unfold ret at 1.
  unfold bind at 1.
  destruct (object_write_loop_none Indeterminate (op :: operations) true
              (j_message_append
                 (j_message_append
                    (j_message_set_safety FLAG (j_message_new J_MESSAGE_OBJECT_WRITE)
                       {| sem_safety := J_SEMANTICS_SAFETY_NONE |})
                    (FString (o_namespace (write_object op))))
                 (FString (o_name (write_object op)))) w)
    as (message & Hloop & Hflags).
  rewrite Hloop. exists message.
  assert (Hw : wants_reply FLAG message = false).
  { unfold wants_reply, j_message_get_flags. rewrite Hflags. reflexivity. }
  split; [| exact Hw].
  unfold bind, ret. rewrite !emit_on_wire. rewrite Hw.
  rewrite emit_on_wire, !on_wire_app. reflexivity.
Qed.

(** A write run over the wire under a safety that asks for a reply. *)
Lemma object_write_exec_reply (common : @JCommon B H) op operations semantics
    (nbytes : list Z) reply rest (w : World B) :
  FLAG <> 0 ->
  common_object_backend common = None ->
  sem_safety semantics <> J_SEMANTICS_SAFETY_NONE ->
  incoming w = reply :: rest ->
  msg_fields reply = map F8 nbytes ->
  length nbytes = length (op :: operations) ->
  exists message,
    write_exec (Some common) (Some (op :: operations)) (Some semantics) w
    = Returned (true,
        on_wire
          (with_counters w
             (add_counters (write_replies (op :: operations) nbytes) (counters w)))
          [Pop ObjectPool (o_index (write_object op)); Send message;
           Receive reply; Push ObjectPool (o_index (write_object op))] rest)
    /\ wants_reply FLAG message = true.
Proof.
  intros Hflag Hnone Hs Hin Hfields Hlen.
  unfold j_object_write_exec, j_object_backend. rewrite Hnone.
  unfold bind at 1. unfold ret at 1. unfold bind at 1. unfold ret at 1.
  unfold bind at 1.
  destruct (object_write_loop_reply Indeterminate semantics (op :: operations) true
              (j_message_append
                 (j_message_append
                    (j_message_set_safety FLAG (j_message_new J_MESSAGE_OBJECT_WRITE)
                       semantics)
                    (FString (o_namespace (write_object op))))
                 (FString (o_name (write_object op)))) w Hs)
    as (message & Hloop & Hflags).
  rewrite Hloop. exists message.
  assert (Hw : wants_reply FLAG message = true).
  { apply (set_safety_reply_flags J_MESSAGE_OBJECT_WRITE semantics Hflag Hs).
    rewrite Hflags. reflexivity. }
  split; [| exact Hw].
  unfold bind at 1. rewrite emit_on_wire.
  unfold bind at 1. rewrite emit_on_wire, on_wire_app.
  unfold bind at 1. rewrite Hw.
  unfold bind at 1. erewrite receive_on_wire by (cbn; exact Hin). rewrite on_wire_app.
  assert (Hf : msg_fields reply = (map F8 nbytes ++ [])%list)
    by (rewrite app_nil_r; exact Hfields).
  rewrite (object_write_reply_spec (op :: operations) nbytes Hlen reply [] _ Hf).
  unfold bind, ret. rewrite emit_on_wire, with_counters_on_wire, on_wire_app.
  reflexivity.
Qed.

End WireRuns.

(** C1 fails on the code. Without a local KV backend and with safety [none],
    a put run sends its frame without the [SAFETY_NETWORK] flag, reads no
    reply and returns the connection to the pool; a get run sends its frame
    without the flag as well, and then reads a reply all the same. (The
    comment "Force safe semantics to make the server send a reply" stands
    over a [j_message_force_safety] call that is commented out.) *)
Theorem kv_put_get_safety_not_forced
    (B H : Type) (FLAG : Z) (common : @JCommon B H) (w : World B) :
  common_kv_backend common = None ->
  (forall kop operations,
      Forall (fun kop => is_Some (put_value kop)) (kop :: operations) ->
      exists message,
        j_kv_put_exec FLAG (Some common) (Some (kop :: operations))
          (Some {| sem_safety := J_SEMANTICS_SAFETY_NONE |}) w
        = Returned (true,
            on_wire w [Pop KVPool (kv_index (put_kv kop)); Send message;
                       Push KVPool (kv_index (put_kv kop))] (incoming w))
        /\ Z.land (j_message_get_flags message) FLAG = 0)
  /\ (forall kop operations results reply rest,
        Forall2 deliverable (kop :: operations) results ->
        incoming w = reply :: rest ->
        msg_fields reply = reply_fields results ->
        exists message w',
          j_kv_get_exec FLAG (Some common) (Some (kop :: operations))
            (Some {| sem_safety := J_SEMANTICS_SAFETY_NONE |}) w
          = Returned (forallb hit results, w')
          /\ wire w' = (wire w ++ [Pop KVPool (kv_index (get_kv kop)); Send message;
                                  Receive reply; Push KVPool (kv_index (get_kv kop))])%list
          /\ Z.land (j_message_get_flags message) FLAG = 0).
Proof.
  intros Hnone. split.
  - intros kop operations Hall.
    destruct (kv_put_exec_none FLAG common kop operations w Hnone Hall)
      as (message & Hexec & Hw).
    exists message. split; [exact Hexec |].
    unfold wants_reply in Hw. apply negb_false_iff, Z.eqb_eq in Hw. exact Hw.
  - intros kop operations results reply rest Hall Hin Hfields.
    destruct (kv_get_exec_wire FLAG common kop operations results
                {| sem_safety := J_SEMANTICS_SAFETY_NONE |} reply rest w
                Hnone Hall Hin Hfields)
      as (message & w' & Hexec & Hwire & Hflags & _).
    exists message, w'. repeat split; try assumption.
    unfold j_message_get_flags. rewrite Hflags. reflexivity.
Qed.

Lemma kv_put_get_safety_not_forced_witness :
  exists message,
    j_kv_put_exec 2 (Some HandleTerms.example_common)
      (Some [{| put_kv := example_kv;
                put_value := Some (LevelDBTerms.example_document Byte.x01) |}])
      (Some {| sem_safety := J_SEMANTICS_SAFETY_NONE |}) HandleTerms.empty_world
    = Returned (true,
        on_wire HandleTerms.empty_world
          [Pop KVPool 1; Send message; Push KVPool 1] [])
    /\ Z.land (j_message_get_flags message) 2 = 0.
Proof.
  apply (proj1 (kv_put_get_safety_not_forced unit unit 2 HandleTerms.example_common
                  HandleTerms.empty_world eq_refl)).
  repeat constructor. eexists. reflexivity.
Defined.

(** C3, as the code has it. [j_object_read] and [j_object_write] set the
    caller's counter to 0 when the operation is enqueued, executed or not.
    When a write run is executed over the wire under safety [none], the
    frame goes out without the flag, no reply is read, and each counter has
    grown by the lengths requested through it; under safety [network] or
    [storage] the frame carries the flag, one reply is read before the
    connection goes back to the pool, and each counter has grown by the byte
    counts the reply holds for it. Sums are modulo 2^64; other counters keep
    their values. *)
Theorem write_counter_set_on_enqueue_and_added_on_execute
    (B H : Type) (FLAG : Z) (common : @JCommon B H) (w : World B) :
  FLAG <> 0 ->
  common_object_backend common = None ->
  (forall object data length offset bytes_written batch,
      0 < length ->
      j_object_write (Some object) (Some data) length offset (Some bytes_written) batch w
      = Returned
          (j_batch_add batch
             {| op_key := key_of_object object;
                op_data := DataWrite
                  {| write_object := j_object_ref object; write_data := data;
                     write_length := length; write_offset := offset;
                     write_bytes_written := bytes_written |};
                op_exec_func := Exec_object_write;
                op_free_func := Free_object_write |},
           with_counters w (<[bytes_written := 0]> (counters w))))
  /\ (forall object data length offset bytes_read batch,
        0 < length ->
        j_object_read (Some object) (Some data) length offset (Some bytes_read) batch w
        = Returned
            (j_batch_add batch
               {| op_key := key_of_object object;
                  op_data := DataRead
                    {| read_object := j_object_ref object; read_data := data;
                       read_length := length; read_offset := offset;
                       read_bytes_read := bytes_read |};
                  op_exec_func := Exec_object_read;
                  op_free_func := Free_object_read |},
             with_counters w (<[bytes_read := 0]> (counters w))))
  /\ (forall op operations,
        let adds := write_lengths (op :: operations) in
        exists message w',
          j_object_write_exec FLAG (Some common) (Some (op :: operations))
            (Some {| sem_safety := J_SEMANTICS_SAFETY_NONE |}) w
          = Returned (true, w')
          /\ wire w' = (wire w ++ [Pop ObjectPool (o_index (write_object op));
                                  Send message;
                                  Push ObjectPool (o_index (write_object op))])%list
          /\ incoming w' = incoming w
          /\ wants_reply FLAG message = false
          /\ (forall p, p ∈ map fst adds ->
                load_counter w' p = wrap64 (load_counter w p + total_for p adds))
          /\ (forall p, p ∉ map fst adds -> counters w' !! p = counters w !! p))
  /\ (forall op operations semantics nbytes reply rest,
        sem_safety semantics <> J_SEMANTICS_SAFETY_NONE ->
        incoming w = reply :: rest ->
        msg_fields reply = map F8 nbytes ->
        length nbytes = length (op :: operations) ->
        let adds := write_replies (op :: operations) nbytes in
        exists message w',
          j_object_write_exec FLAG (Some common) (Some (op :: operations))
            (Some semantics) w
          = Returned (true, w')
          /\ wire w' = (wire w ++ [Pop ObjectPool (o_index (write_object op));
                                  Send message; Receive reply;
                                  Push ObjectPool (o_index (write_object op))])%list
          /\ incoming w' = rest
          /\ wants_reply FLAG message = true
          /\ (forall p, p ∈ map fst adds ->
                load_counter w' p = wrap64 (load_counter w p + total_for p adds))
          /\ (forall p, p ∉ map fst adds -> counters w' !! p = counters w !! p)).
Proof.
  intros Hflag Hnone. split; [| split; [| split]].
  - intros object data length offset bytes_written batch Hlen.
    unfold j_object_write. destruct (Z.ltb_spec 0 length); [reflexivity | lia].
  - intros object data length offset bytes_read batch Hlen.
    unfold j_object_read. destruct (Z.ltb_spec 0 length); [reflexivity | lia].
  - intros op operations adds.
    destruct (object_write_exec_none FLAG common op operations w Hnone)
      as (message & Hexec & Hw).
    exists message. eexists. split; [exact Hexec |].
    repeat split; try reflexivity; try exact Hw.
    + intros p Hp. unfold load_counter. cbn [counters on_wire with_counters].
      apply add_counters_touched. exact Hp.
    + intros p Hp. cbn [counters on_wire with_counters].
      apply add_counters_untouched. exact Hp.
  - intros op operations semantics nbytes reply rest Hs Hin Hfields Hlen adds.
    destruct (object_write_exec_reply FLAG common op operations semantics nbytes
                reply rest w Hflag Hnone Hs Hin Hfields Hlen)
      as (message & Hexec & Hw).
    exists message. eexists. split; [exact Hexec |].
    repeat split; try reflexivity; try exact Hw.
    + intros p Hp. unfold load_counter. cbn [counters on_wire with_counters].
      apply add_counters_touched. exact Hp.
    + intros p Hp. cbn [counters on_wire with_counters].
      apply add_counters_untouched. exact Hp.
Qed.

(** C3 as the specification states it fails: the counter is written when
    the write is enqueued; no batch has been executed, and the 7 is gone. *)
Lemma enqueued_write_resets_counter :
  counters counter_at_seven !! 100 = Some 7
  /\ match j_object_write (Some HandleTerms.example_object)
             (Some [Byte.x41; Byte.x42; Byte.x43; Byte.x44; Byte.x45; Byte.x46])
             6 10 (Some 100) HandleTerms.example_batch counter_at_seven with
     | Returned (_, w') => counters w' !! 100
     | _ => None
     end = Some 0.
Proof. split; reflexivity. Qed.

Lemma write_counter_set_on_enqueue_and_added_on_execute_witness :
  exists message w',
    j_object_write_exec 2 (Some HandleTerms.example_common)
      (Some [example_write; example_write])
      (Some {| sem_safety := J_SEMANTICS_SAFETY_NONE |}) counter_at_seven
    = Returned (true, w')
    /\ wire w' = [Pop ObjectPool 1; Send message; Push ObjectPool 1]
    /\ load_counter w' 100 = 19.
Proof.
  destruct (write_counter_set_on_enqueue_and_added_on_execute
              unit unit 2 HandleTerms.example_common counter_at_seven
              ltac:(discriminate) eq_refl) as (_ & _ & Hnone & _).
  destruct (Hnone example_write [example_write])
    as (message & w' & Hexec & Hwire & _ & _ & Hsum & _).
  exists message, w'. split; [exact Hexec |]. split; [exact Hwire |].
  rewrite Hsum; [reflexivity |].
  cbn. apply elem_of_cons. left. reflexivity.
Defined.

(** *** Get runs on the LevelDB backend loaded in-process *)

Section LocalGet.

Variable FLAG : Z.
Variable disk : string -> option LevelDB.leveldb_t.
Variable db : LevelDB.leveldb_t.

Local Abbreviation LB := LevelDB.Backend.
Local Abbreviation LH := LevelDB.JLevelDBBatch.

Lemma world_eta {B} (w : World B) :
  mkWorld (backend w) (counters w) (documents w) (buffers w) (callbacks w)
          (wire w) (incoming w) (criticals w) = w.
Proof. destruct w. reflexivity. Qed.

Lemma leveldb_kv_get (kop : JKVGet) (w : World LB) :
  LevelDB.backend_db (backend w) = Some db ->
  j_backend_kv_get (H := LH) (Some (LevelDBPlugin.leveldb_backend disk))
    (Some (kv_namespace (get_kv kop))) (Some (kv_key (get_kv kop))) false w
  = Returned (found db kop, stored_value db kop, w).
Proof.
  intros Hdb. unfold j_backend_kv_get, LevelDBPlugin.leveldb_backend, on_backend.
  cbn [kv_get]. unfold LevelDB.backend_get. rewrite Hdb.
  unfold found, stored_value.
  destruct (LevelDB.leveldb_lookup db _); cbn [hit]; rewrite world_eta; reflexivity.
Qed.

Lemma kv_get_loop_local operations :
  Forall has_destination operations ->
  forall ret_ message (w : World LB),
    LevelDB.backend_db (backend w) = Some db ->
    exists w',
      kv_get_loop (H := LH) (Some (LevelDBPlugin.leveldb_backend disk))
        operations ret_ message w
      = Returned (forallb (found db) operations && ret_, message, w')
      /\ backend w' = backend w /\ counters w' = counters w
      /\ wire w' = wire w /\ incoming w' = incoming w
      /\ criticals w' = criticals w
      /\ (forall a, ~ Exists (copies_to db a) operations ->
                    documents w' !! a = documents w !! a).
Proof.
  induction 1 as [|kop operations Hd Hall IH]; intros ret_ message w Hdb.
  - exists w. repeat split; reflexivity.
  - cbn [kv_get_loop forallb].
    assert (Hfound : found db kop = hit (stored_value db kop)) by reflexivity.
    destruct (get_func kop) as [f|] eqn:Ef.
    + unfold bind at 1. rewrite (leveldb_kv_get kop w Hdb).
      destruct (stored_value db kop) as [v|] eqn:Ev; cbn [hit] in Hfound;
        rewrite Hfound; cbn [andb].
      * destruct ret_.
        -- unfold bind at 1. unfold call_get_func at 1.
           destruct (IH true message
                       (mkWorld (backend w) (counters w) (documents w) (buffers w)
                          (callbacks w ++ [(f, get_data kop, v)]) (wire w)
                          (incoming w) (criticals w)) Hdb)
             as (w' & -> & Hb & Hc & Hwi & Hin & Hcr & Hdoc).
           cbn in Hb, Hc, Hwi, Hin, Hcr, Hdoc.
           exists w'. split; [reflexivity |]. repeat split; try assumption.
           untouched_by_rest Hdoc.
        -- destruct (IH false message w Hdb)
             as (w' & -> & Hb & Hc & Hwi & Hin & Hcr & Hdoc).
           exists w'. split; [reflexivity |]. repeat split; try assumption.
           untouched_by_rest Hdoc.
      * destruct (IH false message w Hdb)
          as (w' & -> & Hb & Hc & Hwi & Hin & Hcr & Hdoc).
        exists w'. split; [rewrite andb_false_r; reflexivity |].
        repeat split; try assumption.
        untouched_by_rest Hdoc.
    + destruct (get_value kop) as [value|] eqn:Eval;
        [| unfold has_destination in Hd; rewrite Ef, Eval in Hd;
           destruct Hd as [[? Hx] | [? Hx]]; discriminate Hx].
      cbn [is_null]. unfold bind at 1. rewrite (leveldb_kv_get kop w Hdb).
      destruct (stored_value db kop) as [v|] eqn:Ev; cbn [hit] in Hfound;
        rewrite Hfound; cbn [andb].
      * unfold bind at 1. unfold bson_copy_to at 1.
        destruct (IH ret_ message
                    (mkWorld (backend w) (counters w) (<[value := v]> (documents w))
                       (buffers w) (callbacks w) (wire w) (incoming w)
                       (criticals w)) Hdb)
          as (w' & -> & Hb & Hc & Hwi & Hin & Hcr & Hdoc).
        cbn in Hb, Hc, Hwi, Hin, Hcr, Hdoc.
        exists w'. split; [reflexivity |]. repeat split; try assumption.
        intros a Ha. rewrite Hdoc.
        -- apply lookup_insert_ne. intros ->. apply Ha. left.
           unfold copies_to. auto.
        -- intros Hex. apply Ha. right. exact Hex.
      * destruct (IH false message w Hdb)
          as (w' & -> & Hb & Hc & Hwi & Hin & Hcr & Hdoc).
        exists w'. split; [rewrite andb_false_r; reflexivity |].
        repeat split; try assumption.
        untouched_by_rest Hdoc.
Qed.

Lemma kv_get_exec_local (common : @JCommon LB LH) kop operations semantics
    (w : World LB) :
  common_kv_backend common = Some (LevelDBPlugin.leveldb_backend disk) ->
  LevelDB.backend_db (backend w) = Some db ->
  Forall has_destination (kop :: operations) ->
  exists w',
    j_kv_get_exec FLAG (Some common) (Some (kop :: operations)) (Some semantics) w
    = Returned (forallb (found db) (kop :: operations), w')
    /\ backend w' = backend w /\ wire w' = wire w
    /\ (forall a, ~ Exists (copies_to db a) (kop :: operations) ->
                  documents w' !! a = documents w !! a).
Proof.
  intros Hbackend Hdb Hall. unfold j_kv_get_exec, j_kv_backend. rewrite Hbackend.
  unfold bind at 1. unfold ret at 1. unfold bind at 1.
  destruct (kv_get_loop_local (kop :: operations) Hall true
              (j_message_append
                 (j_message_set_safety FLAG (j_message_new J_MESSAGE_KV_GET) semantics)
                 (FString (kv_namespace (get_kv kop)))) w Hdb)
    as (w' & -> & Hb & Hc & Hwi & Hin & Hcr & Hdoc).
  exists w'. rewrite andb_true_r. repeat split; assumption.
Qed.

End LocalGet.

(** *** A failed run inside a batch *)

Lemma execute_runs_after_failed_run
    (B H : Type) (FLAG : Z) (common : option (@JCommon B H))
    operation run rest semantics (w w1 : World B) :
  call_exec_func FLAG common (op_exec_func operation)
    (map op_data (operation :: run)) (Some semantics) w = Returned (false, w1) ->
  after_failed_run
    (execute_runs FLAG common rest semantics w1)
    (execute_runs FLAG common ((operation :: run) :: rest) semantics w).
Proof.
  intros Hrun. cbn [execute_runs]. unfold bind at 1. rewrite Hrun.
  unfold bind, ret, after_failed_run.
  destruct (execute_runs FLAG common rest semantics w1) as [[rs w2]| | |];
    reflexivity.
Qed.

Lemma forallb_hit_miss (results : list (option bson_t)) :
  None ∈ results -> forallb hit results = false.
Proof.
  induction results as [|r results IH]; intros Hin.
  - apply elem_of_nil in Hin. contradiction.
  - apply elem_of_cons in Hin as [<- | Hin]; [reflexivity |].
    cbn [forallb]. rewrite (IH Hin). apply andb_false_r.
Qed.

Lemma forallb_found_miss db (operations : list JKVGet) :
  Exists (fun kop => stored_value db kop = None) operations ->
  forallb (found db) operations = false.
Proof.
  induction 1 as [kop operations Hmiss | kop operations Hex IH]; cbn [forallb].
  - unfold found. rewrite Hmiss. reflexivity.
  - rewrite IH. apply andb_false_r.
Qed.

Lemma mapM_as_kv_get (operations : list JKVGet) :
  mapM as_kv_get (map DataKVGet operations) = Some operations.
Proof.
  induction operations as [|kop operations IH]; [reflexivity |].
  cbn. cbn in IH. rewrite IH. reflexivity.
Qed.

(** The runs of a batch one after the other. *)
Lemma execute_runs_app
    (B H : Type) (FLAG : Z) (common : option (@JCommon B H))
    (before after : list (list JOperation)) semantics :
  forall (w0 w : World B) r0,
    execute_runs FLAG common before semantics w0 = Returned (r0, w) ->
    execute_runs FLAG common (before ++ after) semantics w0
    = match execute_runs FLAG common after semantics w with
      | Returned (r, w') => Returned (r0 && r, w')
      | Aborted => Aborted
      | Blocked => Blocked
      | Undefined => Undefined
      end.
Proof.
  induction before as [|run before IH]; intros w0 w r0 Hbefore.
  - injection Hbefore as <- <-. cbn [app].
    destruct (execute_runs FLAG common after semantics w0) as [[r w']| | |];
      reflexivity.
  - cbn [app execute_runs] in Hbefore |- *.
    destruct run as [|operation run]; [exact (IH w0 w r0 Hbefore) |].
    unfold bind at 1 in Hbefore. unfold bind at 1.
    destruct (call_exec_func FLAG common (op_exec_func operation)
                (map op_data (operation :: run)) (Some semantics) w0)
      as [[r1 w1]| | |]; try discriminate Hbefore.
    unfold bind at 1 in Hbefore. unfold bind at 1.
    destruct (execute_runs FLAG common before semantics w1) as [[rs w2]| | |] eqn:Hrest;
      try discriminate Hbefore.
    unfold ret in Hbefore. injection Hbefore as <- <-.
    rewrite (IH w1 w2 rs Hrest).
    destruct (execute_runs FLAG common after semantics w2) as [[r w']| | |];
      try reflexivity.
    unfold ret. rewrite andb_assoc. reflexivity.
Qed.

(** A batch with a get run that returns [FALSE], after the runs before it
    have been executed. *)
Lemma batch_after_failed_get_run
    (B H : Type) (FLAG : Z) (common : option (@JCommon B H))
    (batch : JBatch) before run more kop operations (w0 w w1 : World B) r0 :
  batch_runs (batch_operations batch) = (before ++ run :: more)%list ->
  get_run run (kop :: operations) ->
  execute_runs FLAG common before (batch_semantics batch) w0 = Returned (r0, w) ->
  j_kv_get_exec FLAG common (Some (kop :: operations))
    (Some (batch_semantics batch)) w = Returned (false, w1) ->
  batch_after_failed_run
    (execute_runs FLAG common more (batch_semantics batch) w1) batch
    (j_batch_execute FLAG common batch w0).
Proof.
  intros Hruns [Hfunc Hdata] Hbefore Hexec.
  destruct run as [|operation run]; [discriminate Hdata |].
  apply Forall_cons in Hfunc as [Hfunc _].
  assert (Hcall : call_exec_func FLAG common (op_exec_func operation)
                    (map op_data (operation :: run))
                    (Some (batch_semantics batch)) w = Returned (false, w1)).
  { rewrite Hfunc, Hdata. unfold call_exec_func.
    rewrite mapM_as_kv_get. unfold bind, of_option. exact Hexec. }
  pose proof (execute_runs_after_failed_run B H FLAG common operation run more
                (batch_semantics batch) w w1 Hcall) as Hafter.
  unfold j_batch_execute. rewrite Hruns. unfold bind.
  rewrite (execute_runs_app B H FLAG common before ((operation :: run) :: more)
             (batch_semantics batch) w0 w r0 Hbefore).
  unfold after_failed_run in Hafter. unfold batch_after_failed_run.
  destruct (execute_runs FLAG common more (batch_semantics batch) w1)
    as [[rs w2]| | |]; rewrite Hafter; try reflexivity.
  unfold ret. rewrite andb_false_r. reflexivity.
Qed.

(** C4. In a KV get run over the wire the reply holds a length per
    operation and a length of 0 is a miss: the run returns the conjunction
    of the hits, so [FALSE] as soon as one key is missing; a callback is
    called for the hits only, and a caller's document is only written at an
    address that a hit copies to, so the value of a missing key stays as it
    was. The same holds for a run on the LevelDB backend loaded in-process,
    where a miss is a key that [backend_get] does not find. In both cases a
    batch that has come to such a get run with a missing key, whatever runs
    it has executed before, goes on: it executes its remaining runs from
    the world the get run left, and reports [FALSE]. *)
Theorem kv_get_miss_returns_false_and_leaves_value :
  (forall (B H : Type) (FLAG : Z) (common : @JCommon B H) (w : World B)
          kop operations results semantics reply rest,
      common_kv_backend common = None ->
      Forall2 deliverable (kop :: operations) results ->
      incoming w = reply :: rest ->
      msg_fields reply = reply_fields results ->
      exists w',
        j_kv_get_exec FLAG (Some common) (Some (kop :: operations)) (Some semantics) w
        = Returned (forallb hit results, w')
        /\ (None ∈ results -> forallb hit results = false)
        /\ (forall a,
              ~ Exists (writes_document a) (zip (kop :: operations) results) ->
              documents w' !! a = documents w !! a)
        /\ callbacks w'
           = (callbacks w ++ callbacks_of (zip (kop :: operations) results))%list
        /\ (None ∈ results ->
            forall batch before run more w0 r0,
              batch_semantics batch = semantics ->
              batch_runs (batch_operations batch) = (before ++ run :: more)%list ->
              get_run run (kop :: operations) ->
              execute_runs FLAG (Some common) before semantics w0 = Returned (r0, w) ->
              batch_after_failed_run
                (execute_runs FLAG (Some common) more semantics w') batch
                (j_batch_execute FLAG (Some common) batch w0)))
  /\ (forall (FLAG : Z) disk db
             (common : @JCommon LevelDB.Backend LevelDB.JLevelDBBatch)
             (w : World LevelDB.Backend) kop operations semantics,
        common_kv_backend common = Some (LevelDBPlugin.leveldb_backend disk) ->
        LevelDB.backend_db (backend w) = Some db ->
        Forall has_destination (kop :: operations) ->
        exists w',
          j_kv_get_exec FLAG (Some common) (Some (kop :: operations)) (Some semantics) w
          = Returned (forallb (found db) (kop :: operations), w')
          /\ (Exists (fun kop => stored_value db kop = None) (kop :: operations) ->
              forallb (found db) (kop :: operations) = false)
          /\ (forall a,
                ~ Exists (copies_to db a) (kop :: operations) ->
                documents w' !! a = documents w !! a)
          /\ (Exists (fun kop => stored_value db kop = None) (kop :: operations) ->
              forall batch before run more w0 r0,
                batch_semantics batch = semantics ->
                batch_runs (batch_operations batch) = (before ++ run :: more)%list ->
                get_run run (kop :: operations) ->
                execute_runs FLAG (Some common) before semantics w0 = Returned (r0, w) ->
                batch_after_failed_run
                  (execute_runs FLAG (Some common) more semantics w') batch
                  (j_batch_execute FLAG (Some common) batch w0))).
Proof.
  split.
  - intros B H FLAG common w kop operations results semantics reply rest
      Hnone Hall Hin Hfields.
    destruct (kv_get_exec_wire FLAG common kop operations results semantics
                reply rest w Hnone Hall Hin Hfields)
      as (message & w' & Hexec & _ & _ & _ & _ & _ & _ & Hcb & Hdoc).
    exists w'. split; [exact Hexec |]. split; [apply forallb_hit_miss |].
    split; [exact Hdoc |]. split; [exact Hcb |].
    intros Hmiss batch before run more w0 r0 <- Hruns Hrun Hbefore.
    apply (batch_after_failed_get_run _ _ _ _ _ before run more kop operations
             w0 w w' r0 Hruns Hrun Hbefore).
    rewrite Hexec, (forallb_hit_miss results Hmiss). reflexivity.
  - intros FLAG disk db common w kop operations semantics Hbackend Hdb Hall.
    destruct (kv_get_exec_local FLAG disk db common kop operations semantics w
                Hbackend Hdb Hall) as (w' & Hexec & _ & _ & Hdoc).
    exists w'. split; [exact Hexec |]. split; [apply forallb_found_miss |].
    split; [exact Hdoc |].
    intros Hmiss batch before run more w0 r0 <- Hruns Hrun Hbefore.
    apply (batch_after_failed_get_run _ _ _ _ _ before run more kop operations
             w0 w w' r0 Hruns Hrun Hbefore).
    rewrite Hexec, (forallb_found_miss db _ Hmiss). reflexivity.
Qed.

Lemma kv_get_miss_returns_false_and_leaves_value_witness :
  exists w' w'',
    j_kv_get_exec 2 (Some HandleTerms.example_common) (Some [get_a])
      (Some {| sem_safety := J_SEMANTICS_SAFETY_NETWORK |}) after_first_get
    = Returned (false, w')
    /\ documents w' !! 300 = None
    /\ j_batch_execute 2 (Some HandleTerms.example_common) hit_miss_hit
         (awaiting three_replies)
       = Returned (false,
                   {| batch_operations := [];
                      batch_semantics := {| sem_safety := J_SEMANTICS_SAFETY_NETWORK |} |},
                   w'')
    /\ length (wire w'') = 12%nat
    /\ documents w'' !! 300 = None
    /\ documents w'' !! 301 = Some (LevelDBTerms.example_document Byte.x02)
    /\ documents w'' !! 302 = Some (LevelDBTerms.example_document Byte.x03).
Proof.
  destruct kv_get_miss_returns_false_and_leaves_value as [Hwire _].
  destruct (Hwire unit unit 2 HandleTerms.example_common after_first_get
              get_a [] [None]
              {| sem_safety := J_SEMANTICS_SAFETY_NETWORK |}
              (reply_of [None])
              [reply_of [Some (LevelDBTerms.example_document Byte.x03)]])
    as (w' & Hexec & _ & Hdoc & _ & Hbatch).
  - reflexivity.
  - constructor; [exact I | constructor].
  - reflexivity.
  - reflexivity.
  - assert (Hrun : get_run [get_operation get_a] [get_a]).
    { split; [constructor; [reflexivity | constructor] | reflexivity]. }
    specialize (Hbatch ltac:(left) hit_miss_hit [[get_operation get_b]]
                  [get_operation get_a] [[get_operation get_c]]
                  (awaiting three_replies) true eq_refl eq_refl Hrun eq_refl).
    assert (Hw : w' = after_second_get).
    { vm_compute in Hexec. injection Hexec as <-. reflexivity. }
    rewrite Hw in *.
    eexists. eexists. split; [exact Hexec |].
    split; [rewrite Hdoc; [reflexivity |] |].
    + intros Hex. apply Exists_cons in Hex as [(Hhit & _) | Hex]; [discriminate Hhit |].
      apply Exists_nil in Hex. exact Hex.
    + vm_compute in Hbatch. split; [vm_compute; exact Hbatch |].
      repeat split; reflexivity.
Defined.

(** The same two gets as two runs of one batch (their keys differ): both
    frames go out and both replies are read (eight events on the wire), the
    found value is delivered, the missing one is not, and the batch reports
    [FALSE]. *)
Example batch_goes_on_after_miss :
  match
    j_batch_execute 2 (Some HandleTerms.example_common)
      {| batch_operations :=
           [ {| op_key := key_of_kv (get_kv get_a); op_data := DataKVGet get_a;
                op_exec_func := Exec_kv_get; op_free_func := Free_kv_get |};
             {| op_key := key_of_kv (get_kv get_b); op_data := DataKVGet get_b;
                op_exec_func := Exec_kv_get; op_free_func := Free_kv_get |} ];
         batch_semantics := {| sem_safety := J_SEMANTICS_SAFETY_NETWORK |} |}
      (awaiting [reply_of [None];
                 reply_of [Some (LevelDBTerms.example_document Byte.x02)]])
  with
  | Returned (r, _, w') =>
      (r, length (wire w'), documents w' !! 300, documents w' !! 301)
  | _ => (true, 0%nat, None, None)
  end
  = (false, 8%nat, None, Some (LevelDBTerms.example_document Byte.x02)).
Proof. vm_compute. reflexivity. Qed.

End ExecFacts.

(** ** The store as a map *)

Module StoreFacts.

Import LevelDB LevelDBTerms StoreTerms.
Import LevelDBFacts.

(** *** Keys *)

Lemma string_app_inv_head (a x y : string) : a ++ x = a ++ y -> x = y.
Proof.
  induction a as [|c a IH]; simpl; intros E; [exact E |].
  injection E as E. exact (IH E).
Qed.

Lemma string_app_nul_inv (x y : string) : x ++ NUL = y ++ NUL -> x = y.
Proof.
  unfold NUL. revert y. induction x as [|c x IH]; intros [|d y]; simpl; intros E.
  - reflexivity.
  - injection E as _ E. destruct y; discriminate E.
  - injection E as _ E. destruct x; discriminate E.
  - injection E as -> E. f_equal. exact (IH y E).
Qed.

Lemma nskey_inj_key (ns k k' : string) :
  nskey_of ns k ++ NUL = nskey_of ns k' ++ NUL -> k = k'.
Proof.
  intros E. apply string_app_nul_inv in E. unfold nskey_of in E.
  apply string_app_inv_head in E. apply (string_app_inv_head ":") in E. exact E.
Qed.

Lemma nskey_inj_namespace (ns ns' k k' : string) :
  no_colon ns -> no_colon ns' -> nskey_of ns k = nskey_of ns' k' -> ns = ns'.
Proof.
  unfold nskey_of. revert ns'.
  induction ns as [|c ns IH]; intros [|d ns']; simpl; intros Hns Hns' E.
  - reflexivity.
  - injection E as E _. destruct Hns' as [Hd _]. congruence.
  - injection E as E _. destruct Hns as [Hc _]. congruence.
  - injection E as -> E. f_equal.
    destruct Hns as [_ Hns]. destruct Hns' as [_ Hns']. exact (IH ns' Hns Hns' E).
Qed.

Lemma nskey_colon (ns a b : string) :
  nskey_of (ns ++ ":" ++ a) b = nskey_of ns (a ++ ":" ++ b).
Proof. unfold nskey_of. rewrite !string_app_assoc. reflexivity. Qed.

(** *** Lookup after an update *)

Lemma compare_refl (s : string) : String.compare s s = Eq.
Proof.
  induction s as [|c s IH]; [reflexivity |].
  cbn. rewrite ascii_compare_refl. exact IH.
Qed.

Lemma lookup_put_eq db k v : leveldb_lookup (leveldb_put db k v) k = Some v.
Proof.
  induction db as [|[k0 v0] db IH]; cbn [leveldb_put leveldb_lookup].
  - rewrite compare_refl. reflexivity.
  - destruct (String.compare k k0) eqn:E; cbn [leveldb_lookup].
    + rewrite compare_refl. reflexivity.
    + rewrite compare_refl. reflexivity.
    + rewrite E. exact IH.
Qed.

Lemma lookup_put_ne db k v k' :
  k <> k' -> leveldb_lookup (leveldb_put db k v) k' = leveldb_lookup db k'.
Proof.
  intros Hne. induction db as [|[k0 v0] db IH]; cbn [leveldb_put leveldb_lookup].
  - destruct (String.compare k' k) eqn:E; try reflexivity.
    apply String.compare_eq_iff in E. congruence.
  - destruct (String.compare k k0) eqn:E; cbn [leveldb_lookup].
    + apply String.compare_eq_iff in E. subst k0.
      destruct (String.compare k' k) eqn:E'; try reflexivity.
      apply String.compare_eq_iff in E'. congruence.
    + destruct (String.compare k' k) eqn:E'.
      * apply String.compare_eq_iff in E'. congruence.
      * rewrite (lt_key_trans k' k k0 E' E). reflexivity.
      * reflexivity.
    + destruct (String.compare k' k0); try reflexivity. exact IH.
Qed.

Lemma lookup_above db k :
  Forall (fun e => lt_key k (fst e)) db -> leveldb_lookup db k = None.
Proof.
  intros Hall. destruct Hall as [|[k0 v0] db Hk _]; cbn [leveldb_lookup].
  - reflexivity.
  - cbn [fst] in Hk. unfold lt_key in Hk. rewrite Hk. reflexivity.
Qed.

Lemma lookup_delete_eq db k :
  db_sorted db -> leveldb_lookup (leveldb_delete db k) k = None.
Proof.
  induction 1 as [|[k0 v0] db Hs IH Hall]; cbn [leveldb_delete].
  - reflexivity.
  - destruct (String.compare k k0) eqn:E; cbn [leveldb_lookup].
    + apply String.compare_eq_iff in E. subst k0. apply lookup_above. exact Hall.
    + rewrite E. reflexivity.
    + rewrite E. exact IH.
Qed.

Lemma lookup_delete_ne db k k' :
  db_sorted db -> k <> k' ->
  leveldb_lookup (leveldb_delete db k) k' = leveldb_lookup db k'.
Proof.
  intros Hs Hne. induction Hs as [|[k0 v0] db Hs IH Hall]; cbn [leveldb_delete].
  - reflexivity.
  - destruct (String.compare k k0) eqn:E; cbn [leveldb_lookup].
    + apply String.compare_eq_iff in E. subst k0.
      destruct (String.compare k' k) eqn:E'.
      * apply String.compare_eq_iff in E'. congruence.
      * apply lookup_above. eapply Forall_impl; [exact Hall |].
        cbn. intros e He. exact (lt_key_trans _ _ _ E' He).
      * reflexivity.
    + reflexivity.
    + destruct (String.compare k' k0); try reflexivity. exact IH.
Qed.

Lemma lookup_apply db u target :
  db_sorted db ->
  leveldb_lookup (leveldb_apply db u) target
  = after_update target (leveldb_lookup db target) u.
Proof.
  intros Hs. destruct u as [k v | k]; cbn [leveldb_apply after_update].
  - destruct (decide (k = target)) as [-> | Hne].
    + apply lookup_put_eq.
    + apply lookup_put_ne. exact Hne.
  - destruct (decide (k = target)) as [-> | Hne].
    + apply lookup_delete_eq. exact Hs.
    + apply lookup_delete_ne; assumption.
Qed.

Lemma apply_sorted db u : db_sorted db -> db_sorted (leveldb_apply db u).
Proof.
  intros Hs. destruct u; cbn [leveldb_apply].
  - apply leveldb_put_sorted. exact Hs.
  - apply leveldb_delete_sorted. exact Hs.
Qed.

Lemma lookup_fold (updates : leveldb_writebatch_t) db target :
  db_sorted db ->
  leveldb_lookup (fold_left leveldb_apply updates db) target
  = fold_left (after_update target) updates (leveldb_lookup db target).
Proof.
  revert db. induction updates as [|u updates IH]; intros db Hs; cbn [fold_left].
  - reflexivity.
  - rewrite IH by (apply apply_sorted; exact Hs).
    rewrite lookup_apply by exact Hs. reflexivity.
Qed.

(** *** From the calls on a batch to its updates *)

Lemma apply_call_updates (calls : list batch_call) (b : JLevelDBBatch) :
  fold_left apply_call calls (Some b)
  = Some {| batch := (batch b ++ flat_map (updates_of (namespace b)) calls)%list;
            namespace := namespace b;
            safety := safety b |}.
Proof.
  revert b. induction calls as [|c calls IH]; intros b; cbn [fold_left flat_map].
  - rewrite app_nil_r. destruct b. reflexivity.
  - assert (Hstep : apply_call (Some b) c
                    = Some {| batch := (batch b ++ updates_of (namespace b) c)%list;
                              namespace := namespace b;
                              safety := safety b |}).
    { destruct c as [[k|] [v|] | [k|]]; cbn; rewrite ?app_nil_r;
        try reflexivity; destruct b; reflexivity. }
    rewrite Hstep, IH. cbn [batch namespace safety].
    rewrite <- app_assoc. reflexivity.
Qed.

Lemma batch_of_updates ns s calls :
  batch_of ns s calls
  = Some {| batch := flat_map (updates_of ns) calls; namespace := ns; safety := s |}.
Proof.
  unfold batch_of. cbn [backend_batch_start snd]. rewrite apply_call_updates.
  reflexivity.
Qed.

Lemma after_updates_of ns key calls held :
  fold_left (after_update (nskey_of ns key ++ NUL)) (flat_map (updates_of ns) calls) held
  = after_calls key calls held.
Proof.
  unfold after_calls. revert held.
  induction calls as [|c calls IH]; intros held; cbn [flat_map fold_left].
  - reflexivity.
  - rewrite fold_left_app, IH. f_equal.
    destruct c as [[k|] [v|] | [k|]]; cbn [updates_of fold_left after_update after_call];
      try reflexivity.
    + destruct (decide (k = key)) as [-> | Hne].
      * rewrite decide_True by reflexivity. reflexivity.
      * rewrite decide_False; [reflexivity |].
        intros E. apply Hne. exact (nskey_inj_key ns k key E).
    + destruct (decide (k = key)) as [-> | Hne].
      * rewrite decide_True by reflexivity. reflexivity.
      * rewrite decide_False; [reflexivity |].
        intros E. apply Hne. exact (nskey_inj_key ns k key E).
Qed.

(** Updates under other keys leave a key as it was. *)
Lemma after_updates_elsewhere target updates held :
  Forall (fun u => match u with Put k _ | Delete k => k <> target end) updates ->
  fold_left (after_update target) updates held = held.
Proof.
  intros Hall. revert held. induction Hall as [|u updates Hu Hall IH]; intros held.
  - reflexivity.
  - cbn [fold_left]. rewrite IH.
    destruct u as [k v | k]; cbn [after_update]; rewrite decide_False by exact Hu;
      reflexivity.
Qed.

Lemma updates_of_other_namespace ns ns' key calls :
  no_colon ns -> no_colon ns' -> ns <> ns' ->
  Forall (fun u => match u with
                   | Put k _ | Delete k => k <> nskey_of ns' key ++ NUL
                   end) (flat_map (updates_of ns) calls).
Proof.
  intros Hns Hns' Hne. induction calls as [|c calls IH]; cbn [flat_map].
  - constructor.
  - apply Forall_app. split; [| exact IH].
    destruct c as [[k|] [v|] | [k|]]; cbn [updates_of]; repeat constructor;
      intros E; apply string_app_nul_inv in E;
      exact (Hne (nskey_inj_namespace ns ns' k key Hns Hns' E)).
Qed.

(** What [backend_batch_execute] does with the batch of a namespace. *)
Lemma batch_execute_db st db ns s calls :
  initialised st -> backend_db st = Some db ->
  exists st',
    backend_batch_execute (batch_of ns s calls) st = Returned (true, st')
    /\ backend_db st' = Some (fold_left leveldb_apply (flat_map (updates_of ns) calls) db).
Proof.
  intros (_ & Hopt & Hsync) Hdb. rewrite batch_of_updates.
  unfold backend_batch_execute. cbn [safety batch]. rewrite Hdb.
  destruct (decide (s = J_SEMANTICS_SAFETY_STORAGE)).
  - rewrite Hsync. eexists. split; reflexivity.
  - rewrite Hopt. eexists. split; reflexivity.
Qed.

Lemma backend_get_lookup st db ns key :
  backend_db st = Some db ->
  backend_get (Some ns) (Some key) st
  = get_result (leveldb_lookup db (nskey_of ns key ++ NUL)).
Proof.
  intros Hdb. unfold backend_get. rewrite Hdb.
  destruct (leveldb_lookup db _); reflexivity.
Qed.

Lemma get_after_calls st' db ns calls key :
  db_sorted db ->
  backend_db st' = Some (fold_left leveldb_apply (flat_map (updates_of ns) calls) db) ->
  backend_get (Some ns) (Some key) st'
  = get_result (after_calls key calls (leveldb_lookup db (nskey_of ns key ++ NUL))).
Proof.
  intros Hs Hdb'. rewrite (backend_get_lookup st' _ ns key Hdb').
  rewrite lookup_fold by exact Hs. rewrite after_updates_of. reflexivity.
Qed.

(** X1. Once [backend_init] has run and with the database in key order, a
    batch started for a namespace, filled by any calls of [backend_put] and
    [backend_delete] and committed by [backend_batch_execute] makes
    [backend_get] answer, for every key of the namespace, by the last call
    of the batch on that key: the value of a put, a miss after a delete;
    a key the batch has no call on, and a call with a [NULL] key or value,
    change nothing. *)
Theorem batch_then_get_answers_by_last_call
    (st : Backend) (db : leveldb_t) (ns : string) (s : JSemanticsSafety)
    (calls : list batch_call) :
  initialised st -> backend_db st = Some db -> db_sorted db ->
  exists st',
    backend_batch_execute (batch_of ns s calls) st = Returned (true, st')
    /\ forall key,
         backend_get (Some ns) (Some key) st'
         = get_result
             (after_calls key calls (leveldb_lookup db (nskey_of ns key ++ NUL))).
Proof.
  intros Hinit Hdb Hs.
  destruct (batch_execute_db st db ns s calls Hinit Hdb) as (st' & Hexec & Hdb').
  exists st'. split; [exact Hexec |]. intros key.
  apply get_after_calls; assumption.
Qed.

Lemma example_state_initialised : initialised example_state.
Proof. exact (proj1 (backend_init_initialised "/var/julea/kv" [] backend_static)). Qed.

Lemma batch_then_get_answers_by_last_call_witness :
  exists st',
    backend_batch_execute
      (batch_of "ns" J_SEMANTICS_SAFETY_NONE
         [CallPut (Some "a") (Some (example_document Byte.x01));
          CallPut (Some "b") (Some (example_document Byte.x02));
          CallPut (Some "a") (Some (example_document Byte.x03));
          CallDelete (Some "b")]) example_state
    = Returned (true, st')
    /\ backend_get (Some "ns") (Some "a") st'
       = Returned (true, Some (example_document Byte.x03))
    /\ backend_get (Some "ns") (Some "b") st' = Returned (false, None).
Proof.
  destruct (batch_then_get_answers_by_last_call example_state [] "ns"
              J_SEMANTICS_SAFETY_NONE
              [CallPut (Some "a") (Some (example_document Byte.x01));
               CallPut (Some "b") (Some (example_document Byte.x02));
               CallPut (Some "a") (Some (example_document Byte.x03));
               CallDelete (Some "b")]
              example_state_initialised eq_refl ltac:(constructor))
    as (st' & Hexec & Hget).
  exists st'. split; [exact Hexec |].
  split; [exact (Hget "a") | exact (Hget "b")].
Defined.

(** X2. Namespaces whose names hold no colon are separate: a batch committed
    for one of them changes the answer of [backend_get] for no key of
    another. *)
Theorem batch_leaves_other_namespaces
    (st : Backend) (db : leveldb_t) (ns ns' : string) (s : JSemanticsSafety)
    (calls : list batch_call) :
  initialised st -> backend_db st = Some db -> db_sorted db ->
  no_colon ns -> no_colon ns' -> ns <> ns' ->
  exists st',
    backend_batch_execute (batch_of ns s calls) st = Returned (true, st')
    /\ forall key,
         backend_get (Some ns') (Some key) st' = backend_get (Some ns') (Some key) st.
Proof.
  intros Hinit Hdb Hs Hns Hns' Hne.
  destruct (batch_execute_db st db ns s calls Hinit Hdb) as (st' & Hexec & Hdb').
  exists st'. split; [exact Hexec |]. intros key.
  rewrite (backend_get_lookup st' _ ns' key Hdb'), (backend_get_lookup st db ns' key Hdb).
  rewrite lookup_fold by exact Hs.
  rewrite after_updates_elsewhere; [reflexivity |].
  apply updates_of_other_namespace; assumption.
Qed.

Lemma no_colon_ns : no_colon "ns".
Proof. repeat split; discriminate. Qed.

Lemma no_colon_posix : no_colon "posix".
Proof. repeat split; discriminate. Qed.

Lemma batch_leaves_other_namespaces_witness :
  exists st',
    backend_batch_execute
      (batch_of "posix" J_SEMANTICS_SAFETY_NONE [CallDelete (Some "alpha")])
      example_populated
    = Returned (true, st')
    /\ backend_get (Some "ns") (Some "alpha") st'
       = Returned (true, Some (example_document Byte.x01)).
Proof.
  destruct (batch_leaves_other_namespaces example_populated example_database
              "posix" "ns" J_SEMANTICS_SAFETY_NONE [CallDelete (Some "alpha")])
    as (st' & Hexec & Hget).
  - exact (proj1 (backend_init_initialised "/var/julea/kv" example_database
                    backend_static)).
  - reflexivity.
  - exact (proj1 example_database_wf).
  - exact no_colon_posix.
  - exact no_colon_ns.
  - discriminate.
  - exists st'. split; [exact Hexec |]. rewrite Hget. reflexivity.
Defined.

(** X3. A colon in a namespace makes it overlap with another: the key [b]
    put under the namespace [<ns>:<a>] is what [backend_get] finds under the
    namespace [<ns>] for the key [<a>:<b>], both being stored under the same
    bytes. *)
Theorem colon_in_namespace_overlaps
    (st : Backend) (db : leveldb_t) (ns a b : string) (v : bson_t)
    (s : JSemanticsSafety) :
  initialised st -> backend_db st = Some db -> db_sorted db ->
  exists st',
    backend_batch_execute
      (batch_of (ns ++ ":" ++ a) s [CallPut (Some b) (Some v)]) st
    = Returned (true, st')
    /\ backend_get (Some ns) (Some (a ++ ":" ++ b)) st' = Returned (true, Some v).
Proof.
  intros Hinit Hdb Hs.
  destruct (batch_execute_db st db (ns ++ ":" ++ a) s [CallPut (Some b) (Some v)]
              Hinit Hdb) as (st' & Hexec & Hdb').
  exists st'. split; [exact Hexec |].
  rewrite (backend_get_lookup st' _ ns _ Hdb').
  cbn [flat_map updates_of app fold_left leveldb_apply].
  rewrite nskey_colon. rewrite lookup_put_eq. reflexivity.
Qed.

Lemma colon_in_namespace_overlaps_witness :
  exists st',
    backend_batch_execute
      (batch_of "posix:home" J_SEMANTICS_SAFETY_NONE
         [CallPut (Some "file") (Some (example_document Byte.x01))]) example_state
    = Returned (true, st')
    /\ backend_get (Some "posix") (Some "home:file") st'
       = Returned (true, Some (example_document Byte.x01)).
Proof.
  exact (colon_in_namespace_overlaps example_state [] "posix" "home" "file"
           (example_document Byte.x01) J_SEMANTICS_SAFETY_NONE
           example_state_initialised eq_refl ltac:(constructor)).
Defined.

(** *** Iterating over a namespace *)

(** Before the seek position nothing has the prefix. *)
Lemma iterate_from_seek (q : string) (db : leveldb_t) :
  db_wf db -> no_nul q ->
  iterate_all (S (length (List.filter (has_prefix q) db)))
    (Some {| iterator := leveldb_iter_seek db (q ++ NUL); prefix := q |})
  = Some (map snd (List.filter (has_prefix q) db), None).
Proof.
  intros [Hsorted Hterm] Hq.
  destruct (seek_from_sorted db (q ++ NUL) Hsorted)
    as (before & Hsplit & Hbefore & Hafter & Hsafter).
  assert (Hmatch : List.filter (has_prefix q) db
                   = List.filter (has_prefix q) (leveldb_iter_seek db (q ++ NUL))).
  { rewrite Hsplit at 1. rewrite List.filter_app.
    replace (List.filter (has_prefix q) before) with (@nil (string * bson_t));
      [reflexivity |].
    symmetry. unfold keys_terminated in Hterm. rewrite Hsplit in Hterm.
    apply Forall_app in Hterm as [Hterm _].
    clear Hsplit. induction before as [|e before IH]; [reflexivity |].
    apply Forall_cons in Hbefore as [He Hbefore].
    apply Forall_cons in Hterm as [[k Hk] Hterm].
    cbn [List.filter]. destruct (has_prefix q e) eqn:Epre;
      [| exact (IH Hterm Hbefore)].
    exfalso. apply (prefixed_at_or_past_target q (fst e)).
    - exact Epre.
    - rewrite Hk. intros Heq. symmetry in Heq.
      exact (no_nul_not_terminated _ _ Hq Heq).
    - exact He. }
  rewrite Hmatch. apply iterate_all_from; assumption.
Qed.

Lemma filter_sorted (f : string * bson_t -> bool) (db : leveldb_t) :
  db_sorted db -> db_sorted (List.filter f db).
Proof.
  induction 1 as [|e db Hs IH Hall]; cbn [List.filter].
  - constructor.
  - destruct (f e); [| exact IH].
    constructor; [exact IH |].
    apply Forall_forall. intros x Hx. apply list_elem_of_In in Hx.
    apply List.filter_In in Hx as [Hx _].
    rewrite Forall_forall in Hall. apply Hall. apply list_elem_of_In. exact Hx.
Qed.

Lemma no_nul_namespace_prefix (ns : string) : no_nul ns -> no_nul (ns ++ ":").
Proof.
  intros Hns. apply no_nul_app; [exact Hns |]. simpl. split; [discriminate | exact I].
Qed.

End StoreFacts.

(** ** Runs on the LevelDB backend loaded in-process *)

Module LocalFacts.

Import Configuration Client.
Import LevelDBTerms StoreTerms ExecTerms LocalTerms.

Section LocalRuns.

Variable FLAG : Z.
Variable disk : string -> option LevelDB.leveldb_t.

Local Abbreviation LB := LevelDB.Backend.
Local Abbreviation LH := LevelDB.JLevelDBBatch.
Local Abbreviation plugin := (LevelDBPlugin.leveldb_backend disk).

Lemma with_backend_same (w : World LB) : with_backend w (backend w) = w.
Proof. destruct w. reflexivity. Qed.

Lemma leveldb_kv_batch_start ns s (w : World LB) :
  j_backend_kv_batch_start (H := LH) (Some plugin) (Some ns) s w
  = Returned (true,
              Pointer {| LevelDB.batch := []; LevelDB.namespace := ns;
                         LevelDB.safety := s |}, w).
Proof. destruct w. reflexivity. Qed.

Lemma leveldb_kv_put (b : LH) key value (w : World LB) :
  j_backend_kv_put (Some plugin) (Pointer b) (Some key) (Some value) w
  = Returned (true,
              Pointer {| LevelDB.batch :=
                           (LevelDB.batch b
                            ++ [LevelDB.Put
                                  (LevelDB.nskey_of (LevelDB.namespace b) key
                                   ++ LevelDB.NUL) value])%list;
                         LevelDB.namespace := LevelDB.namespace b;
                         LevelDB.safety := LevelDB.safety b |}, w).
Proof. destruct w. reflexivity. Qed.

Lemma leveldb_kv_delete (b : LH) key (w : World LB) :
  j_backend_kv_delete (Some plugin) (Pointer b) (Some key) w
  = Returned (true,
              Pointer {| LevelDB.batch :=
                           (LevelDB.batch b
                            ++ [LevelDB.Delete
                                  (LevelDB.nskey_of (LevelDB.namespace b) key
                                   ++ LevelDB.NUL)])%list;
                         LevelDB.namespace := LevelDB.namespace b;
                         LevelDB.safety := LevelDB.safety b |}, w).
Proof. destruct w. reflexivity. Qed.

Lemma leveldb_kv_batch_execute (b : LH) (w : World LB) r st' :
  LevelDB.backend_batch_execute (Some b) (backend w) = Returned (r, st') ->
  j_backend_kv_batch_execute (Some plugin) (Pointer b) w
  = Returned (r, with_backend w st').
Proof.
  intros Hexec. unfold j_backend_kv_batch_execute, LevelDBPlugin.leveldb_backend.
  cbn [kv_batch_execute]. unfold on_backend. rewrite Hexec. reflexivity.
Qed.

Lemma kv_put_loop_local operations :
  Forall (fun kop => is_Some (put_value kop)) operations ->
  forall ret_ (b : LH) message (w : World LB),
    exists b',
      fold_left apply_call (put_calls operations) (Some b) = Some b'
      /\ kv_put_loop (Some plugin) operations ret_ (Pointer b) message w
         = Returned (ret_, Pointer b', message, w).
Proof.
  induction 1 as [|kop operations [v Hv] Hall IH]; intros ret_ b message w.
  - exists b. split; reflexivity.
  - cbn [kv_put_loop put_calls map fold_left]. rewrite Hv.
    unfold bind at 1. rewrite leveldb_kv_put. cbn [andb apply_call snd LevelDB.backend_put].
    apply IH.
Qed.

Lemma kv_delete_loop_local (operations : list JKV) :
  forall ret_ (b : LH) message (w : World LB),
    exists b',
      fold_left apply_call (delete_calls operations) (Some b) = Some b'
      /\ kv_delete_loop (Some plugin) operations ret_ (Pointer b) message w
         = Returned (ret_, Pointer b', message, w).
Proof.
  induction operations as [|kv operations IH]; intros ret_ b message w.
  - exists b. split; reflexivity.
  - cbn [kv_delete_loop delete_calls map fold_left].
    unfold bind at 1. rewrite leveldb_kv_delete.
    cbn [andb apply_call snd LevelDB.backend_delete].
    apply IH.
Qed.

(** A put run on the plug-in commits the batch of its calls. *)
Lemma kv_put_exec_local (common : @JCommon LB LH) kop operations semantics
    (w : World LB) st' :
  common_kv_backend common = Some plugin ->
  Forall (fun kop => is_Some (put_value kop)) (kop :: operations) ->
  LevelDB.backend_batch_execute
    (batch_of (kv_namespace (put_kv kop)) (sem_safety semantics)
       (put_calls (kop :: operations))) (backend w)
  = Returned (true, st') ->
  j_kv_put_exec FLAG (Some common) (Some (kop :: operations)) (Some semantics) w
  = Returned (true, with_backend w st').
Proof.
  intros Hbackend Hall Hexec. unfold j_kv_put_exec, j_kv_backend. rewrite Hbackend.
  unfold bind at 1. unfold ret at 1. unfold bind at 1.
  rewrite leveldb_kv_batch_start. unfold bind at 1.
  destruct (kv_put_loop_local (kop :: operations) Hall true
              {| LevelDB.batch := []; LevelDB.namespace := kv_namespace (put_kv kop);
                 LevelDB.safety := sem_safety semantics |}
              (j_message_append
                 (j_message_set_safety FLAG (j_message_new J_MESSAGE_KV_PUT) semantics)
                 (FString (kv_namespace (put_kv kop)))) w)
    as (b' & Hfold & Hloop).
  rewrite Hloop. unfold batch_of in Hexec. cbn [LevelDB.backend_batch_start snd] in Hexec.
  rewrite Hfold in Hexec. unfold bind at 1.
  rewrite (leveldb_kv_batch_execute b' w true st' Hexec). reflexivity.
Qed.

Lemma kv_delete_exec_local (common : @JCommon LB LH) kv operations semantics
    (w : World LB) st' :
  common_kv_backend common = Some plugin ->
  LevelDB.backend_batch_execute
    (batch_of (kv_namespace kv) (sem_safety semantics)
       (delete_calls (kv :: operations))) (backend w)
  = Returned (true, st') ->
  j_kv_delete_exec FLAG (Some common) (Some (kv :: operations)) (Some semantics) w
  = Returned (true, with_backend w st').
Proof.
  intros Hbackend Hexec. unfold j_kv_delete_exec, j_kv_backend. rewrite Hbackend.
  unfold bind at 1. unfold ret at 1. unfold bind at 1.
  rewrite leveldb_kv_batch_start. unfold bind at 1.
  destruct (kv_delete_loop_local (kv :: operations) true
              {| LevelDB.batch := []; LevelDB.namespace := kv_namespace kv;
                 LevelDB.safety := sem_safety semantics |}
              (j_message_append
                 (j_message_set_safety FLAG (j_message_new J_MESSAGE_KV_DELETE) semantics)
                 (FString (kv_namespace kv))) w)
    as (b' & Hfold & Hloop).
  rewrite Hloop. unfold batch_of in Hexec. cbn [LevelDB.backend_batch_start snd] in Hexec.
  rewrite Hfold in Hexec. unfold bind at 1.
  rewrite (leveldb_kv_batch_execute b' w true st' Hexec). reflexivity.
Qed.

(** A get of one key into the caller's document. *)
Lemma kv_get_exec_local_one (common : @JCommon LB LH) kv value semantics
    (w : World LB) held :
  common_kv_backend common = Some plugin ->
  LevelDB.backend_get (Some (kv_namespace kv)) (Some (kv_key kv)) (backend w)
  = get_result held ->
  exists w',
    j_kv_get_exec FLAG (Some common) (Some [get_into kv value]) (Some semantics) w
    = Returned (hit held, w')
    /\ documents w' !! value
       = match held with
         | Some v => Some v
         | None => documents w !! value
         end
    /\ (forall a, a <> value -> documents w' !! a = documents w !! a)
    /\ backend w' = backend w /\ wire w' = wire w /\ criticals w' = criticals w.
Proof.
  intros Hbackend Hget. unfold j_kv_get_exec, j_kv_backend. rewrite Hbackend.
  unfold bind at 1. unfold ret at 1. unfold bind at 1.
  cbn [kv_get_loop get_into get_func get_value get_kv is_null].
  unfold bind at 1. unfold j_backend_kv_get, LevelDBPlugin.leveldb_backend.
  cbn [kv_get]. unfold on_backend. rewrite Hget.
  destruct held as [v|]; cbn [get_result hit].
  - eexists. split; [reflexivity |]. cbn [documents backend wire criticals].
    split; [apply lookup_insert_eq |].
    split; [intros a Ha; apply lookup_insert_ne; congruence |].
    repeat split.
  - eexists. split; [reflexivity |]. cbn [documents backend wire criticals].
    repeat split.
Qed.

Lemma after_puts_of_one_key key (operations : list JKVPut) d held :
  operations <> [] ->
  Forall (fun op => kv_key (put_kv op) = key /\ is_Some (put_value op)) operations ->
  after_calls key (put_calls operations) held = put_value (List.last operations d).
Proof.
  unfold after_calls. intros Hne Hall. revert held.
  induction Hall as [|op operations [Hk [v Hv]] Hall IH]; intros held; [congruence |].
  cbn [put_calls map fold_left after_call]. rewrite Hv.
  rewrite decide_True by exact Hk.
  destruct operations as [|op' operations].
  - cbn. symmetry. exact Hv.
  - change (List.last (op :: op' :: operations) d)
      with (List.last (op' :: operations) d).
    apply IH. discriminate.
Qed.

Lemma after_deletes_none key (operations : list JKV) :
  after_calls key (delete_calls operations) None = None.
Proof.
  unfold after_calls. induction operations as [|kv operations IH]; [reflexivity |].
  cbn [delete_calls map fold_left after_call].
  destruct (decide (kv_key kv = key)); exact IH.
Qed.

Lemma after_deletes key (operations : list JKV) held :
  key ∈ map kv_key operations ->
  after_calls key (delete_calls operations) held = None.
Proof.
  revert held. induction operations as [|kv operations IH]; intros held Hin.
  - apply elem_of_nil in Hin. contradiction.
  - unfold after_calls. cbn [delete_calls map fold_left after_call].
    destruct (decide (kv_key kv = key)) as [Hk | Hne].
    + apply after_deletes_none.
    + cbn [map] in Hin. apply elem_of_cons in Hin as [-> | Hin]; [congruence |].
      apply IH. exact Hin.
Qed.

(** X5. With the LevelDB plug-in as the process's KV backend, a put run
    whose operations all carry a value is committed in-process, nothing
    going over the wire, and returns [TRUE]; after it a get run for a key of
    the run's namespace answers by the last put of that key in the run: it
    returns [TRUE] and copies that value to the caller's document, and
    for a key the run did not put it answers as before the run. For a run on
    one key the value found is that of the run's last operation. *)
Theorem local_put_then_get
    (common : @JCommon LB LH) (w : World LB) (db : LevelDB.leveldb_t)
    kop operations semantics :
  common_kv_backend common = Some plugin ->
  initialised (backend w) -> LevelDB.backend_db (backend w) = Some db ->
  db_sorted db ->
  Forall (fun kop => is_Some (put_value kop)) (kop :: operations) ->
  exists st',
    j_kv_put_exec FLAG (Some common) (Some (kop :: operations)) (Some semantics) w
    = Returned (true, with_backend w st')
    /\ (forall kv value semantics',
          kv_namespace kv = kv_namespace (put_kv kop) ->
          let held :=
            after_calls (kv_key kv) (put_calls (kop :: operations))
              (LevelDB.leveldb_lookup db
                 (LevelDB.nskey_of (kv_namespace kv) (kv_key kv) ++ LevelDB.NUL)) in
          exists w',
            j_kv_get_exec FLAG (Some common) (Some [get_into kv value])
              (Some semantics') (with_backend w st')
            = Returned (hit held, w')
            /\ documents w' !! value
               = match held with
                 | Some v => Some v
                 | None => documents w !! value
                 end
            /\ wire w' = wire w)
    /\ (Forall (fun op => kv_key (put_kv op) = kv_key (put_kv kop)) operations ->
        after_calls (kv_key (put_kv kop)) (put_calls (kop :: operations))
          (LevelDB.leveldb_lookup db
             (LevelDB.nskey_of (kv_namespace (put_kv kop)) (kv_key (put_kv kop))
              ++ LevelDB.NUL))
        = put_value (List.last operations kop)).
Proof.
  intros Hbackend Hinit Hdb Hsorted Hall.
  destruct (StoreFacts.batch_execute_db (backend w) db
              (kv_namespace (put_kv kop)) (sem_safety semantics)
              (put_calls (kop :: operations)) Hinit Hdb)
    as (st' & Hexec & Hdb').
  pose proof (fun key => StoreFacts.get_after_calls st' db
                (kv_namespace (put_kv kop)) (put_calls (kop :: operations)) key
                Hsorted Hdb') as Hget.
  exists st'. split; [| split].
  - apply kv_put_exec_local; assumption.
  - intros kv value semantics' Hns held.
    destruct (kv_get_exec_local_one common kv value semantics' (with_backend w st') held
                Hbackend) as (w' & Hrun & Hdoc & _ & _ & Hwire & _).
    { cbn [backend with_backend]. subst held. rewrite Hns. apply Hget. }
    exists w'. split; [exact Hrun |]. split; [exact Hdoc | exact Hwire].
  - intros Hkeys.
    change (List.last operations kop) with (List.last operations kop).
    rewrite (after_puts_of_one_key (kv_key (put_kv kop)) (kop :: operations) kop).
    + destruct operations; reflexivity.
    + discriminate.
    + apply Forall_cons in Hall as [Hv Hall]. constructor; [split; [reflexivity | exact Hv] |].
      rewrite Forall_forall in Hkeys, Hall |- *. intros op Hop.
      split; [apply Hkeys | apply Hall]; exact Hop.
Qed.

(** X6. With the LevelDB plug-in as the process's KV backend, a delete run
    is committed in-process and returns [TRUE], whether its keys were stored
    or not; after it a get run for any key of the run, in the run's
    namespace, returns [FALSE] and leaves the caller's document as it
    was. *)
Theorem local_delete_then_get
    (common : @JCommon LB LH) (w : World LB) (db : LevelDB.leveldb_t)
    kv operations semantics :
  common_kv_backend common = Some plugin ->
  initialised (backend w) -> LevelDB.backend_db (backend w) = Some db ->
  db_sorted db ->
  exists st',
    j_kv_delete_exec FLAG (Some common) (Some (kv :: operations)) (Some semantics) w
    = Returned (true, with_backend w st')
    /\ forall kv' value semantics',
         kv_namespace kv' = kv_namespace kv ->
         kv_key kv' ∈ map kv_key (kv :: operations) ->
         exists w',
           j_kv_get_exec FLAG (Some common) (Some [get_into kv' value])
             (Some semantics') (with_backend w st')
           = Returned (false, w')
           /\ documents w' !! value = documents w !! value
           /\ wire w' = wire w.
Proof.
  intros Hbackend Hinit Hdb Hsorted.
  destruct (StoreFacts.batch_execute_db (backend w) db
              (kv_namespace kv) (sem_safety semantics)
              (delete_calls (kv :: operations)) Hinit Hdb)
    as (st' & Hexec & Hdb').
  exists st'. split.
  - apply kv_delete_exec_local; assumption.
  - intros kv' value semantics' Hns Hin.
    destruct (kv_get_exec_local_one common kv' value semantics' (with_backend w st')
                None Hbackend) as (w' & Hrun & Hdoc & _ & _ & Hwire & _).
    { cbn [backend with_backend]. rewrite Hns.
      rewrite (StoreFacts.get_after_calls st' db (kv_namespace kv)
                 (delete_calls (kv :: operations)) (kv_key kv') Hsorted Hdb').
      rewrite (after_deletes _ _ _ Hin). reflexivity. }
    exists w'. split; [exact Hrun |]. split; [exact Hdoc | exact Hwire].
Qed.

End LocalRuns.

Lemma leveldb_world_initialised : initialised (backend leveldb_world).
Proof. exact StoreFacts.example_state_initialised. Qed.

Lemma local_put_then_get_witness :
  exists st' w',
    j_kv_put_exec 2 (Some (leveldb_common empty_disk))
      (Some [{| put_kv := example_kv;
                put_value := Some (example_document Byte.x01) |};
             {| put_kv := example_kv;
                put_value := Some (example_document Byte.x02) |}])
      (Some {| sem_safety := J_SEMANTICS_SAFETY_NONE |}) leveldb_world
    = Returned (true, with_backend leveldb_world st')
    /\ j_kv_get_exec 2 (Some (leveldb_common empty_disk))
         (Some [get_into example_kv 300])
         (Some {| sem_safety := J_SEMANTICS_SAFETY_NONE |})
         (with_backend leveldb_world st')
       = Returned (true, w')
    /\ documents w' !! 300 = Some (example_document Byte.x02)
    /\ wire w' = [].
Proof.
  destruct (local_put_then_get 2 empty_disk (leveldb_common empty_disk)
              leveldb_world []
              {| put_kv := example_kv; put_value := Some (example_document Byte.x01) |}
              [{| put_kv := example_kv; put_value := Some (example_document Byte.x02) |}]
              {| sem_safety := J_SEMANTICS_SAFETY_NONE |}
              eq_refl leveldb_world_initialised eq_refl ltac:(constructor))
    as (st' & Hput & Hget & _).
  - repeat constructor; eexists; reflexivity.
  - destruct (Hget example_kv 300 {| sem_safety := J_SEMANTICS_SAFETY_NONE |} eq_refl)
      as (w' & Hrun & Hdoc & Hwire).
    exists st', w'. split; [exact Hput |].
    split; [exact Hrun |]. split; [exact Hdoc | exact Hwire].
Defined.

Lemma local_delete_then_get_witness :
  exists st' w',
    j_kv_delete_exec 2 (Some (leveldb_common empty_disk)) (Some [example_kv])
      (Some {| sem_safety := J_SEMANTICS_SAFETY_STORAGE |}) leveldb_world
    = Returned (true, with_backend leveldb_world st')
    /\ j_kv_get_exec 2 (Some (leveldb_common empty_disk))
         (Some [get_into example_kv 300])
         (Some {| sem_safety := J_SEMANTICS_SAFETY_NONE |})
         (with_backend leveldb_world st')
       = Returned (false, w')
    /\ documents w' !! 300 = None.
Proof.
  destruct (local_delete_then_get 2 empty_disk (leveldb_common empty_disk)
              leveldb_world [] example_kv []
              {| sem_safety := J_SEMANTICS_SAFETY_STORAGE |}
              eq_refl leveldb_world_initialised eq_refl ltac:(constructor))
    as (st' & Hdel & Hget).
  destruct (Hget example_kv 300 {| sem_safety := J_SEMANTICS_SAFETY_NONE |} eq_refl)
    as (w' & Hrun & Hdoc & _).
  - cbn. apply elem_of_cons. left. reflexivity.
  - exists st', w'. split; [exact Hdel |]. split; [exact Hrun | exact Hdoc].
Defined.

End LocalFacts.

(** ** The server of a handle *)

Module ServersFacts.

Import Configuration Client Servers.
Import HandleTerms.

Section ServerOfHandle.

Context {B H : Type}.
Variable parse_list : string -> list string.
Variable parse_integer : string -> option Z.
Variable hash : string -> Z.

Local Abbreviation new_for_data := (j_configuration_new_for_data parse_list parse_integer).

Lemma strv_index_in_range (servers : list string) (index : Z) (w : World B) :
  0 <= index < Z.of_nat (length servers) ->
  exists server,
    strv_index servers index w = Returned (Some server, w)
    /\ servers !! Z.to_nat index = Some server.
Proof.
  intros Hrange. unfold strv_index.
  destruct (servers !! Z.to_nat index) as [server|] eqn:E.
  - exists server. split; reflexivity.
  - apply lookup_ge_None in E. lia.
Qed.

Lemma server_count_le (l : list string) : g_strv_length l <= Z.of_nat (length l).
Proof.
  unfold g_strv_length, wrap32.
  apply Z.mod_le; lia.
Qed.

(** X7. For a configuration built by [j_configuration_new_for_data],
    [j_configuration_get_object_server] and [j_configuration_get_kv_server]
    return the server at an index below the respective count, and log a
    critical message and return [NULL] for any other index; so the index of
    every handle that [j_object_new] or [j_kv_new] makes names one of the
    configured servers. *)
Theorem handle_index_names_a_server
    (kf : GKeyFile) (c : JConfiguration) (common : @JCommon B H) :
  new_for_data (Some kf) = Some c ->
  common_configuration common = c ->
  forall (w : World B),
    (forall index,
        0 <= index < servers_object_len c ->
        exists server,
          j_configuration_get_object_server (Some c) index w = Returned (Some server, w)
          /\ servers_object c !! Z.to_nat index = Some server)
    /\ (forall index,
          0 <= index < servers_kv_len c ->
          exists server,
            j_configuration_get_kv_server (Some c) index w = Returned (Some server, w)
            /\ servers_kv c !! Z.to_nat index = Some server)
    /\ (forall index,
          servers_object_len c <= index ->
          j_configuration_get_object_server (Some c) index w
          = Returned (None, log_critical w))
    /\ (forall index,
          servers_kv_len c <= index ->
          j_configuration_get_kv_server (Some c) index w
          = Returned (None, log_critical w))
    /\ (forall namespace name object w',
          j_object_new hash (Some common) (Some namespace) (Some name) w
          = Returned (Some object, w') ->
          exists server,
            j_configuration_get_object_server (Some c) (o_index object) w'
            = Returned (Some server, w')
            /\ server ∈ servers_object c)
    /\ (forall namespace key kv w',
          j_kv_new hash (Some common) (Some namespace) (Some key) w
          = Returned (Some kv, w') ->
          exists server,
            j_configuration_get_kv_server (Some c) (kv_index kv) w'
            = Returned (Some server, w')
            /\ server ∈ servers_kv c).
Proof.
  intros Hnew Hc w.
  destruct (HandleFacts.new_for_data_server_counts parse_list parse_integer kf c Hnew)
    as (_ & _ & Hol & Hkl).
  pose proof (server_count_le (servers_object c)) as Hole.
  pose proof (server_count_le (servers_kv c)) as Hkle.
  rewrite <- Hol in Hole. rewrite <- Hkl in Hkle.
  assert (Hobj : forall index (w0 : World B),
             0 <= index < servers_object_len c ->
             exists server,
               j_configuration_get_object_server (Some c) index w0
               = Returned (Some server, w0)
               /\ servers_object c !! Z.to_nat index = Some server).
  { intros index w0 Hrange. unfold j_configuration_get_object_server.
    destruct (Z.ltb_spec index (servers_object_len c)); [| lia].
    apply strv_index_in_range. lia. }
  assert (Hkv : forall index (w0 : World B),
             0 <= index < servers_kv_len c ->
             exists server,
               j_configuration_get_kv_server (Some c) index w0
               = Returned (Some server, w0)
               /\ servers_kv c !! Z.to_nat index = Some server).
  { intros index w0 Hrange. unfold j_configuration_get_kv_server.
    destruct (Z.ltb_spec index (servers_kv_len c)); [| lia].
    apply strv_index_in_range. lia. }
  split; [intros index; apply Hobj |].
  split; [intros index; apply Hkv |].
  split; [| split; [| split]].
  - intros index Hge. unfold j_configuration_get_object_server.
    destruct (Z.ltb_spec index (servers_object_len c)); [lia | reflexivity].
  - intros index Hge. unfold j_configuration_get_kv_server.
    destruct (Z.ltb_spec index (servers_kv_len c)); [lia | reflexivity].
  - intros namespace name object w' Hobject.
    unfold j_object_new, j_configuration, check_configuration, bind, ret in Hobject.
    rewrite Hc in Hobject.
    cbn [is_null j_configuration_get_object_server_count] in Hobject.
    destruct (Z.eqb_spec (servers_object_len c) 0) as [| Hne]; [discriminate |].
    injection Hobject as <- <-. cbn [o_index].
    assert (Hpos : 0 < servers_object_len c).
    { rewrite Hol in Hne |- *. unfold g_strv_length, wrap32 in *.
      pose proof (Z.mod_pos_bound (Z.of_nat (length (servers_object c))) (2 ^ 32)).
      lia. }
    destruct (Hobj (hash name mod servers_object_len c) w
                (Z.mod_pos_bound _ _ Hpos)) as (server & Hget & Hlookup).
    exists server. split; [exact Hget |].
    eapply list_elem_of_lookup_2. exact Hlookup.
  - intros namespace key kv w' Hkvnew.
    unfold j_kv_new, j_configuration, check_configuration, bind, ret in Hkvnew.
    rewrite Hc in Hkvnew.
    cbn [is_null j_configuration_get_kv_server_count] in Hkvnew.
    destruct (Z.eqb_spec (servers_kv_len c) 0) as [| Hne]; [discriminate |].
    injection Hkvnew as <- <-. cbn [kv_index].
    assert (Hpos : 0 < servers_kv_len c).
    { rewrite Hkl in Hne |- *. unfold g_strv_length, wrap32 in *.
      pose proof (Z.mod_pos_bound (Z.of_nat (length (servers_kv c))) (2 ^ 32)).
      lia. }
    destruct (Hkv (hash key mod servers_kv_len c) w
                (Z.mod_pos_bound _ _ Hpos)) as (server & Hget & Hlookup).
    exists server. split; [exact Hget |].
    eapply list_elem_of_lookup_2. exact Hlookup.
Qed.

End ServerOfHandle.

Lemma handle_index_names_a_server_witness :
  exists server,
    j_configuration_get_kv_server (Some example_configuration) 1 empty_world
    = Returned (Some server, empty_world)
    /\ servers_kv example_configuration !! Z.to_nat 1 = Some server.
Proof.
  destruct (handle_index_names_a_server (H := unit)
              ConfigurationTerms.split_list ConfigurationTerms.read_integer
              example_hash ConfigurationTerms.example_key_file
              example_configuration example_common
              HandleFacts.example_configuration_built eq_refl empty_world)
    as (_ & Hkv & _).
  apply Hkv. cbn. lia.
Defined.

End ServersFacts.

(** ** Loading and initialising backends *)

Module LoaderFacts.

Import Configuration Client Loader.
Import LocalTerms LoaderTerms.

Section Loading.

Context {B H : Type}.
Variable GModule : Type.
Variable build_filename : list string -> string.
Variable module_build_path : string -> string -> string.
Variable module_open : string -> option GModule.
Variable module_symbol : GModule -> option (@JBackendType -> option (@JBackend B H)).
Variable PATH_BUILD : option string.
Variable PATH : string.

Local Abbreviation backend_load :=
  (j_backend_load GModule build_filename module_build_path module_open module_symbol
     PATH_BUILD PATH).
Local Abbreviation the_load :=
  (load GModule build_filename module_build_path module_open module_symbol
     PATH_BUILD PATH).
Local Abbreviation load_client := (j_backend_load_client the_load).
Local Abbreviation load_server :=
  (j_backend_load_server GModule build_filename module_build_path module_open
     module_symbol PATH_BUILD PATH).
Local Abbreviation the_module :=
  (open_module GModule build_filename module_build_path module_open PATH_BUILD PATH).

(** X8. [j_backend_load] looks for the module in the build directory
    first, when the library was compiled with one, and in the installation
    directory only when none opened there. When no module opens it returns
    no module and no descriptor. When the module has no [backend_info] the
    assertion stops the program. Otherwise the module's [backend_info] is
    asked for the type: when it gives no descriptor the module is returned
    without one; a descriptor of the type asked for is returned with the
    module; a descriptor of the other type stops the program at the
    assertion on its type. So a descriptor is handed out only of the type
    asked for and only from a module that opened, and nothing else changes.
    [j_backend_load_client] loads only for the component "client" and
    [j_backend_load_server] only for "server", so for one component at most
    one of them returns [TRUE], and the one that returns [FALSE] hands out
    no descriptor. *)
Theorem backend_load_gives_requested_type
    (name component : string) (type : @JBackendType) (w : World B) :
  let built :=
    match PATH_BUILD with
    | Some build =>
        module_open (module_build_path (build_filename [build; component]) name)
    | None => None
    end in
  let installed :=
    module_open (module_build_path (build_filename [PATH; component]) name) in
  let found := match built with Some m => Some m | None => installed end in
  (found = None -> backend_load name component type w = Returned (None, None, w))
  /\ (forall m,
        found = Some m -> module_symbol m = None ->
        backend_load name component type w = Aborted)
  /\ (forall m info,
        found = Some m -> module_symbol m = Some info -> info type = None ->
        backend_load name component type w = Returned (Some m, None, w))
  /\ (forall m info b,
        found = Some m -> module_symbol m = Some info -> info type = Some b ->
        backend_type b = type ->
        backend_load name component type w = Returned (Some m, Some b, w))
  /\ (forall m info b,
        found = Some m -> module_symbol m = Some info -> info type = Some b ->
        backend_type b <> type ->
        backend_load name component type w = Aborted)
  /\ match backend_load name component type w with
     | Returned (module, backend, w') =>
         w' = w /\ module = found
         /\ match backend with
            | Some b => backend_type b = type /\ is_Some module
            | None => True
            end
     | Aborted =>
         exists m,
           found = Some m
           /\ (module_symbol m = None
               \/ exists info b,
                    module_symbol m = Some info /\ info type = Some b
                    /\ backend_type b <> type)
     | _ => False
     end
  /\ (forall r r' b b' w1 w2,
        load_client (Some name) (Some component) type w = Returned (r, b, w1) ->
        load_server (Some name) (Some component) type w = Returned (r', b', w2) ->
        (r = true <-> component = "client") /\ (r' = true <-> component = "server")
        /\ (r && r' = false)
        /\ (r = false -> b = None /\ w1 = w)
        /\ (r' = false -> b' = None /\ w2 = w)).
Proof.
  intros built installed found.
  assert (Hmodule : the_module name component = found).
  { unfold open_module, found, built, installed.
    destruct PATH_BUILD as [build|]; [| reflexivity].
    destruct (module_open (module_build_path (build_filename [build; component]) name));
      reflexivity. }
  split; [| split; [| split; [| split; [| split; [| split]]]]].
  - intros Hnone. unfold j_backend_load. fold (the_module name component).
    rewrite Hmodule, Hnone. reflexivity.
  - intros m Hm Hsym. unfold j_backend_load. fold (the_module name component).
    rewrite Hmodule, Hm, Hsym. reflexivity.
  - intros m info Hm Hsym Hinfo. unfold j_backend_load.
    fold (the_module name component). rewrite Hmodule, Hm, Hsym, Hinfo. reflexivity.
  - intros m info b Hm Hsym Hinfo Ht. unfold j_backend_load.
    fold (the_module name component). rewrite Hmodule, Hm, Hsym, Hinfo.
    destruct (decide (backend_type b = type)); [reflexivity | contradiction].
  - intros m info b Hm Hsym Hinfo Ht. unfold j_backend_load.
    fold (the_module name component). rewrite Hmodule, Hm, Hsym, Hinfo.
    destruct (decide (backend_type b = type)); [contradiction | reflexivity].
  - unfold j_backend_load. fold (the_module name component). rewrite Hmodule.
    destruct found as [m|]; [| repeat split].
    destruct (module_symbol m) as [info|] eqn:Hsym;
      [| exists m; split; [reflexivity | left; exact Hsym]].
    destruct (info type) as [b|] eqn:Hinfo; [| repeat split].
    destruct (decide (backend_type b = type)) as [Ht | Ht].
    + repeat split; [exact Ht | eexists; reflexivity].
    + exists m. split; [reflexivity |]. right. exists info, b. repeat split; assumption.
  - intros r r' b b' w1 w2 Hc Hs.
    unfold j_backend_load_client in Hc. unfold j_backend_load_server in Hs.
    destruct (String.eqb_spec component "client") as [-> | Hnc].
    + cbn [String.eqb Ascii.eqb Bool.eqb] in Hs. injection Hs as <- <- <-.
      unfold bind in Hc.
      destruct (the_load name "client" type w) as [[[x y] w0]| | |]; try discriminate.
      injection Hc as <- <- <-.
      repeat split; try reflexivity; try discriminate; intros; congruence.
    + injection Hc as <- <- <-.
      destruct (String.eqb_spec component "server") as [-> | Hns].
      * unfold bind in Hs.
        destruct (the_load name "server" type w) as [[[x y] w0]| | |]; try discriminate.
        injection Hs as <- <- <-.
        repeat split; try reflexivity; try discriminate; intros; congruence.
      * injection Hs as <- <- <-.
        repeat split; try reflexivity; try discriminate; intros; congruence.
Qed.

End Loading.

Section Initialising.

Context {B H : Type}.
Variable j_backend_load :
  string -> string -> @JBackendType -> M B (bool * option (@JBackend B H)).
Variable parse_list : string -> list string.
Variable parse_integer : string -> option Z.
Variable is_absolute : string -> bool.
Variable basename : string -> string.
Variable build_filename : list string -> string.

Local Abbreviation configuration_new :=
  (j_configuration_new parse_list parse_integer is_absolute basename build_filename).
Local Abbreviation init :=
  (j_init j_backend_load parse_list parse_integer is_absolute basename build_filename).

(** X9. [j_init] asks for a backend only when its component is "client":
    with both components different from "client" it loads nothing, whatever
    the loader would find, and leaves a process without in-process
    backends, so that every run goes over the wire. With the object
    component "client", or the kv component "client" and the object
    component not, a loader that gives no descriptor makes [j_init] stop
    the program. *)
Theorem init_loads_only_client_components
    (env : Environment) (c : JConfiguration) (w : World B) :
  sel_configuration (configuration_new env) = Some c ->
  (object_component c <> "client" -> kv_component c <> "client" ->
   init None env w
   = Returned (Some {| common_configuration := c;
                       common_object_backend := None;
                       common_kv_backend := None |}, w))
  /\ (object_component c = "client" ->
      (exists found w',
          j_backend_load (object_backend c) "client" J_BACKEND_TYPE_OBJECT w
          = Returned (found, None, w')) ->
      init None env w = Aborted)
  /\ (object_component c <> "client" -> kv_component c = "client" ->
      (exists found w',
          j_backend_load (kv_backend c) "client" J_BACKEND_TYPE_KV w
          = Returned (found, None, w')) ->
      init None env w = Aborted).
Proof.
  intros Hc. unfold j_init. rewrite Hc.
  cbn [j_configuration_get_object_backend j_configuration_get_object_component
       j_configuration_get_object_path j_configuration_get_kv_backend
       j_configuration_get_kv_component j_configuration_get_kv_path fmap option_fmap
       option_map].
  unfold j_backend_load_client.
  split; [| split].
  - intros Ho Hk.
    destruct (String.eqb_spec (object_component c) "client"); [contradiction |].
    destruct (String.eqb_spec (kv_component c) "client"); [contradiction |].
    reflexivity.
  - intros Ho (found & w' & Hload). rewrite Ho. cbn [String.eqb Ascii.eqb Bool.eqb].
    unfold bind at 1. unfold bind at 1. rewrite Hload. reflexivity.
  - intros Ho Hk (found & w' & Hload).
    destruct (String.eqb_spec (object_component c) "client"); [contradiction |].
    rewrite Hk. cbn [String.eqb Ascii.eqb Bool.eqb].
    unfold bind at 1. unfold ret at 1. unfold bind at 1. unfold ret at 1.
    cbn [negb]. unfold bind at 1. unfold bind at 1. rewrite Hload. reflexivity.
Qed.

End Initialising.

Section InitialisingLevelDB.

Variable GModule : Type.
Variable module_build_path : string -> string -> string.
Variable module_open : string -> option GModule.
Variable disk : string -> option LevelDB.leveldb_t.
Variable module_symbol :
  GModule -> option (@JBackendType
                     -> option (@JBackend LevelDB.Backend LevelDB.JLevelDBBatch)).
Variable PATH_BUILD : option string.
Variable PATH : string.
Variable parse_list : string -> list string.
Variable parse_integer : string -> option Z.
Variable is_absolute : string -> bool.
Variable basename : string -> string.
Variable build_filename : list string -> string.

Local Abbreviation the_load :=
  (load GModule build_filename module_build_path module_open module_symbol
     PATH_BUILD PATH).
Local Abbreviation the_module :=
  (open_module GModule build_filename module_build_path module_open PATH_BUILD PATH).
Local Abbreviation the_backend_load :=
  (j_backend_load GModule build_filename module_build_path module_open module_symbol
     PATH_BUILD PATH).
Local Abbreviation configuration_new :=
  (j_configuration_new parse_list parse_integer is_absolute basename build_filename).
Local Abbreviation init :=
  (j_init the_load parse_list parse_integer is_absolute basename build_filename).

Lemma load_plugin (name : string) (m : GModule) (type : @JBackendType)
    (w : World LevelDB.Backend) :
  the_module name "client" = Some m ->
  module_symbol m = Some (LevelDBPlugin.backend_info disk) ->
  the_load name "client" type w
  = Returned (true, LevelDBPlugin.backend_info disk type, w).
Proof.
  intros Hm Hsym. unfold load, j_backend_load.
  fold (the_module name "client"). rewrite Hm, Hsym.
  destruct type; reflexivity.
Qed.

(** X10. With the kv component "client" (and the object component not)
    and the LevelDB plug-in as the module of the configured kv backend,
    [j_init] initialises the plug-in on the configured kv path: when
    [leveldb_open] succeeds there the process has the plug-in as its KV
    backend and no object backend, with the database open and both write
    options made; when it fails the program is stopped. Asked for as the
    object backend of the client, the plug-in's [backend_info] gives no
    descriptor: [j_backend_load] returns the module without one, no
    assertion of the loader being reached, and [j_init] stops the program
    itself on finding no object backend. *)
Theorem init_with_leveldb_plugin
    (env : Environment) (c : JConfiguration) (m : GModule)
    (w : World LevelDB.Backend) :
  sel_configuration (configuration_new env) = Some c ->
  module_symbol m = Some (LevelDBPlugin.backend_info disk) ->
  (object_component c <> "client" -> kv_component c = "client" ->
   the_module (kv_backend c) "client" = Some m ->
   (forall db,
       disk (kv_path c) = Some db ->
       exists st',
         init None env w
         = Returned (Some {| common_configuration := c;
                             common_object_backend := None;
                             common_kv_backend :=
                               Some (LevelDBPlugin.leveldb_backend disk) |},
                     with_backend w st')
         /\ LevelDBTerms.initialised st' /\ LevelDB.backend_db st' = Some db)
   /\ (disk (kv_path c) = None -> init None env w = Aborted))
  /\ (object_component c = "client" ->
      the_module (object_backend c) "client" = Some m ->
      the_backend_load (object_backend c) "client" J_BACKEND_TYPE_OBJECT w
      = Returned (Some m, None, w)
      /\ j_backend_load_client the_load (Some (object_backend c))
           (Some (object_component c)) J_BACKEND_TYPE_OBJECT w
         = Returned (true, None, w)
      /\ init None env w = Aborted).
Proof.
  intros Hc Hsym. split.
  - intros Ho Hk Hm.
    assert (Hrun : init None env w
                   = match disk (kv_path c) with
                     | Some db =>
                         Returned
                           (Some {| common_configuration := c;
                                    common_object_backend := None;
                                    common_kv_backend :=
                                      Some (LevelDBPlugin.leveldb_backend disk) |},
                            with_backend w
                              (snd (LevelDB.backend_init (Some (kv_path c))
                                      (Some db) (backend w))))
                     | None => Aborted
                     end).
    { unfold j_init. rewrite Hc.
      cbn [j_configuration_get_object_backend j_configuration_get_object_component
           j_configuration_get_object_path j_configuration_get_kv_backend
           j_configuration_get_kv_component j_configuration_get_kv_path fmap
           option_fmap option_map].
      unfold j_backend_load_client.
      destruct (String.eqb_spec (object_component c) "client"); [contradiction |].
      rewrite Hk. cbn [String.eqb Ascii.eqb Bool.eqb].
      unfold bind at 1. unfold ret at 1. unfold bind at 1. unfold ret at 1.
      cbn [negb]. unfold bind at 1. unfold bind at 1.
      rewrite (load_plugin (kv_backend c) m J_BACKEND_TYPE_KV w Hm Hsym).
      unfold ret at 1. cbn [LevelDBPlugin.backend_info]. unfold bind at 1.
      unfold j_backend_kv_init, LevelDBPlugin.leveldb_backend at 1. cbn [kv_init].
      unfold on_backend. cbn [LevelDB.backend_init].
      destruct (disk (kv_path c)); reflexivity. }
    split.
    + intros db Hdisk.
      exists (snd (LevelDB.backend_init (Some (kv_path c)) (Some db) (backend w))).
      split; [rewrite Hrun, Hdisk; reflexivity |].
      split; [| reflexivity]. unfold LevelDBTerms.initialised. cbn. eauto.
    + intros Hdisk. rewrite Hrun, Hdisk. reflexivity.
  - intros Ho Hm.
    split; [unfold j_backend_load; fold (the_module (object_backend c) "client");
            rewrite Hm, Hsym; reflexivity |].
    split; [unfold j_backend_load_client; rewrite Ho;
            cbn [String.eqb Ascii.eqb Bool.eqb]; unfold bind;
            rewrite (load_plugin (object_backend c) m J_BACKEND_TYPE_OBJECT w Hm Hsym);
            reflexivity |].
    unfold j_init. rewrite Hc.
    cbn [j_configuration_get_object_backend j_configuration_get_object_component
         j_configuration_get_object_path j_configuration_get_kv_backend
         j_configuration_get_kv_component j_configuration_get_kv_path fmap
         option_fmap option_map].
    unfold j_backend_load_client.
    rewrite Ho. cbn [String.eqb Ascii.eqb Bool.eqb].
    unfold bind at 1. unfold bind at 1.
    rewrite (load_plugin (object_backend c) m J_BACKEND_TYPE_OBJECT w Hm Hsym).
    reflexivity.
Qed.

End InitialisingLevelDB.

Lemma backend_load_gives_requested_type_witness :
  Loader.j_backend_load Z plugin_path plugin_file both_open (both_symbol empty_disk)
    (Some "/build/backend") "/usr/lib/julea/backend" "leveldb" "client"
    J_BACKEND_TYPE_KV static_world
  = Returned (Some 1, Some (LevelDBPlugin.leveldb_backend empty_disk), static_world)
  /\ Loader.j_backend_load Z plugin_path plugin_file both_open (both_symbol empty_disk)
       (Some "/build/backend") "/usr/lib/julea/backend" "leveldb" "client"
       J_BACKEND_TYPE_OBJECT static_world
     = Returned (Some 1, None, static_world)
  /\ Loader.j_backend_load Z plugin_path plugin_file both_open (both_symbol empty_disk)
       None "/usr/lib/julea/backend" "leveldb" "client"
       J_BACKEND_TYPE_KV static_world
     = Aborted.
Proof.
  destruct (backend_load_gives_requested_type Z plugin_path plugin_file both_open
              (both_symbol empty_disk) (Some "/build/backend") "/usr/lib/julea/backend"
              "leveldb" "client" J_BACKEND_TYPE_KV static_world)
    as (_ & _ & _ & Hkv & _).
  destruct (backend_load_gives_requested_type Z plugin_path plugin_file both_open
              (both_symbol empty_disk) (Some "/build/backend") "/usr/lib/julea/backend"
              "leveldb" "client" J_BACKEND_TYPE_OBJECT static_world)
    as (_ & _ & Hobject & _).
  destruct (backend_load_gives_requested_type Z plugin_path plugin_file both_open
              (both_symbol empty_disk) None "/usr/lib/julea/backend"
              "leveldb" "client" J_BACKEND_TYPE_KV static_world)
    as (_ & Hnone & _).
  split; [| split].
  - exact (Hkv 1 (LevelDBPlugin.backend_info empty_disk)
             (LevelDBPlugin.leveldb_backend empty_disk)
             eq_refl eq_refl eq_refl eq_refl).
  - exact (Hobject 1 (LevelDBPlugin.backend_info empty_disk) eq_refl eq_refl eq_refl).
  - exact (Hnone 2 eq_refl eq_refl).
Defined.

Lemma init_loads_only_client_components_witness :
  j_init SelectionTerms.no_backend_load ConfigurationTerms.split_list
    ConfigurationTerms.read_integer SelectionTerms.starts_with_slash id
    SelectionTerms.join_path None SelectionTerms.example_environment
    HandleTerms.empty_world
  = Returned (Some HandleTerms.example_common, HandleTerms.empty_world).
Proof.
  refine (proj1 (init_loads_only_client_components SelectionTerms.no_backend_load
                   ConfigurationTerms.split_list ConfigurationTerms.read_integer
                   SelectionTerms.starts_with_slash id SelectionTerms.join_path
                   SelectionTerms.example_environment HandleTerms.example_configuration
                   HandleTerms.empty_world _) _ _).
  - vm_compute. reflexivity.
  - discriminate.
  - discriminate.
Defined.

Lemma client_configuration_selected :
  exists c,
    sel_configuration
      (j_configuration_new ConfigurationTerms.split_list ConfigurationTerms.read_integer
         SelectionTerms.starts_with_slash id plugin_path client_environment)
    = Some c
    /\ kv_component c = "client" /\ object_component c = "server"
    /\ kv_backend c = "leveldb" /\ kv_path c = "/var/julea/kv".
Proof. vm_compute. eexists. repeat split. Qed.

Lemma object_configuration_selected :
  exists c,
    sel_configuration
      (j_configuration_new ConfigurationTerms.split_list ConfigurationTerms.read_integer
         SelectionTerms.starts_with_slash id plugin_path object_environment)
    = Some c
    /\ object_component c = "client" /\ object_backend c = "leveldb".
Proof. vm_compute. eexists. repeat split. Qed.

Lemma init_with_leveldb_plugin_witness :
  (exists common st',
      j_init (load unit plugin_path plugin_file plugin_open (plugin_symbol empty_disk)
                None "/usr/lib/julea/backend")
        ConfigurationTerms.split_list ConfigurationTerms.read_integer
        SelectionTerms.starts_with_slash id plugin_path None client_environment
        static_world
      = Returned (Some common, with_backend static_world st')
      /\ common_kv_backend common = Some (LevelDBPlugin.leveldb_backend empty_disk)
      /\ LevelDBTerms.initialised st')
  /\ Loader.j_backend_load unit plugin_path plugin_file plugin_open
       (plugin_symbol empty_disk) None "/usr/lib/julea/backend" "leveldb" "client"
       J_BACKEND_TYPE_OBJECT static_world
     = Returned (Some tt, None, static_world)
  /\ j_init (load unit plugin_path plugin_file plugin_open (plugin_symbol empty_disk)
               None "/usr/lib/julea/backend")
       ConfigurationTerms.split_list ConfigurationTerms.read_integer
       SelectionTerms.starts_with_slash id plugin_path None object_environment
       static_world
     = Aborted.
Proof.
  split.
  - destruct client_configuration_selected as (c & Hc & Hk & Ho & Hname & Hpath).
    destruct (init_with_leveldb_plugin unit plugin_file plugin_open empty_disk
                (plugin_symbol empty_disk) None "/usr/lib/julea/backend"
                ConfigurationTerms.split_list ConfigurationTerms.read_integer
                SelectionTerms.starts_with_slash id plugin_path
                client_environment c tt static_world Hc eq_refl) as [Hkv _].
    destruct Hkv as [Hopen _].
    + rewrite Ho. discriminate.
    + exact Hk.
    + rewrite Hname. reflexivity.
    + destruct (Hopen [] eq_refl) as (st' & Hinit & Hst & _).
      eexists _, st'. split; [exact Hinit |]. split; [reflexivity | exact Hst].
  - destruct object_configuration_selected as (c & Hc & Ho & Hname).
    destruct (init_with_leveldb_plugin unit plugin_file plugin_open empty_disk
                (plugin_symbol empty_disk) None "/usr/lib/julea/backend"
                ConfigurationTerms.split_list ConfigurationTerms.read_integer
                SelectionTerms.starts_with_slash id plugin_path
                object_environment c tt static_world Hc eq_refl) as [_ Hobject].
    destruct (Hobject Ho) as (Hload & _ & Hstop).
    + rewrite Hname. reflexivity.
    + rewrite Hname in Hload. split; [exact Hload | exact Hstop].
Defined.

End LoaderFacts.

(** ** Frames *)

Module FrameFacts.

Import Configuration Client.
Import ExecTerms FrameTerms.

Lemma wrap32_range z : 0 <= wrap32 z < 2 ^ 32.
Proof. unfold wrap32. apply Z.mod_pos_bound. lia. Qed.

Lemma wrap32_succ (c : Z) (n : nat) :
  wrap32 (wrap32 (c + 1) + Z.of_nat n) = wrap32 (c + Z.of_nat (S n)).
Proof.
  unfold wrap32. rewrite Zplus_mod_idemp_l. f_equal. lia.
Qed.

Lemma wants_reply_frame FLAG type semantics n fields bulk :
  wants_reply FLAG (frame FLAG type semantics n fields bulk)
  = bool_decide (sem_safety semantics <> J_SEMANTICS_SAFETY_NONE /\ FLAG <> 0).
Proof.
  unfold wants_reply, j_message_get_flags, frame, j_message_set_safety.
  cbn [msg_flags].
  destruct (sem_safety semantics); cbn [msg_flags j_message_new].
  - cbn. rewrite bool_decide_eq_false_2; [reflexivity | intros [Hx _]; congruence].
  - rewrite Z.lor_0_l, Z.land_diag.
    destruct (Z.eqb_spec FLAG 0) as [Hz | Hz]; cbn [negb].
    + rewrite bool_decide_eq_false_2; [reflexivity | intros [_ Hx]; congruence].
    + rewrite bool_decide_eq_true_2; [reflexivity | split; [discriminate | exact Hz]].
  - rewrite Z.lor_0_l, Z.land_diag.
    destruct (Z.eqb_spec FLAG 0) as [Hz | Hz]; cbn [negb].
    + rewrite bool_decide_eq_false_2; [reflexivity | intros [_ Hx]; congruence].
    + rewrite bool_decide_eq_true_2; [reflexivity | split; [discriminate | exact Hz]].
Qed.

Section KVFrames.

Context {B H : Type}.
Variable FLAG : Z.

Lemma extend_nothing message :
  0 <= msg_count message < 2 ^ 32 -> extend message 0 [] [] = message.
Proof.
  intros Hc. unfold extend. cbn [Z.of_nat]. rewrite Z.add_0_r, !app_nil_r.
  rewrite wrap32_small by exact Hc. destruct message. reflexivity.
Qed.

(** One more operation, then [n] more. *)
Lemma extend_operation message (f : list Field) (b : list (list Byte.byte))
    n fields bulk :
  extend {| msg_type := msg_type message;
            msg_flags := msg_flags message;
            msg_count := wrap32 (msg_count message + 1);
            msg_fields := (msg_fields message ++ f)%list;
            msg_bulk := (msg_bulk message ++ b)%list |} n fields bulk
  = extend message (S n) (f ++ fields) (b ++ bulk).
Proof.
  unfold extend. cbn [msg_type msg_flags msg_count msg_fields msg_bulk].
  rewrite wrap32_succ, <- !app_assoc. reflexivity.
Qed.

Lemma set_safety_count message semantics :
  msg_count (j_message_set_safety FLAG message semantics) = msg_count message.
Proof. unfold j_message_set_safety. destruct (sem_safety semantics); reflexivity. Qed.

Lemma extend_header type semantics (f : Field) n fields bulk :
  extend (j_message_append (j_message_set_safety FLAG (j_message_new type) semantics) f)
    n fields bulk
  = frame FLAG type semantics n (f :: fields) bulk.
Proof.
  unfold extend, frame, j_message_set_safety.
  destruct (sem_safety semantics); reflexivity.
Qed.

Lemma extend_header2 type semantics (f1 f2 : Field) n fields bulk :
  extend (j_message_append
            (j_message_append
               (j_message_set_safety FLAG (j_message_new type) semantics) f1) f2)
    n fields bulk
  = frame FLAG type semantics n (f1 :: f2 :: fields) bulk.
Proof.
  unfold extend, frame, j_message_set_safety.
  destruct (sem_safety semantics); reflexivity.
Qed.

Lemma kv_delete_loop_frame (operations : list JKV) :
  forall ret_ kv_batch message (w : World B),
    0 <= msg_count message < 2 ^ 32 ->
    @kv_delete_loop B H None operations ret_ kv_batch message w
    = Returned (ret_, kv_batch,
                extend message (length operations)
                  (map (fun kv => FString (kv_key kv)) operations) [], w).
Proof.
  induction operations as [|kv operations IH]; intros ret_ kv_batch message w Hc.
  - cbn [kv_delete_loop length map]. rewrite extend_nothing by exact Hc. reflexivity.
  - cbn [kv_delete_loop]. rewrite IH by (cbn; apply wrap32_range).
    unfold j_message_append, j_message_add_operation.
    cbn [msg_type msg_flags msg_count msg_fields msg_bulk].
    rewrite <- (app_nil_r (msg_bulk message)) at 1.
    rewrite extend_operation. reflexivity.
Qed.

Lemma kv_put_loop_frame (operations : list JKVPut) :
  Forall (fun kop => is_Some (put_value kop)) operations ->
  forall ret_ kv_batch message (w : World B),
    0 <= msg_count message < 2 ^ 32 ->
    @kv_put_loop B H None operations ret_ kv_batch message w
    = Returned (ret_, kv_batch,
                extend message (length operations) (flat_map put_fields operations) [],
                w).
Proof.
  induction 1 as [|kop operations [v Hv] Hall IH]; intros ret_ kv_batch message w Hc.
  - cbn [kv_put_loop length flat_map]. rewrite extend_nothing by exact Hc. reflexivity.
  - cbn [kv_put_loop]. rewrite Hv. rewrite IH by (cbn; apply wrap32_range).
    unfold j_message_append, j_message_add_operation.
    cbn [msg_type msg_flags msg_count msg_fields msg_bulk length flat_map].
    unfold put_fields at 2. rewrite Hv.
    rewrite <- (app_nil_r (msg_bulk message)) at 1.
    rewrite <- !app_assoc. cbn [app].
    rewrite (extend_operation message
               [FString (kv_key (put_kv kop)); F4 (bson_len v); FData v] []).
    reflexivity.
Qed.

Lemma header_count_range type semantics (f : Field) :
  0 <= msg_count (j_message_append
                    (j_message_set_safety FLAG (j_message_new type) semantics) f)
  < 2 ^ 32.
Proof.
  cbn [msg_count j_message_append]. rewrite set_safety_count.
  cbn. split; [discriminate | reflexivity].
Qed.

(** A run that sends [message] and reads a reply when the frame asks for
    one. *)
Lemma send_and_maybe_receive (pool : Pool) (index : Z) (message : JMessage)
    (ret_ : bool) (w : World B) :
  (emit (Pop pool index) ;;
   emit (Send message) ;;
   (if wants_reply FLAG message
    then let* _ := j_message_receive in ret tt
    else ret tt) ;;
   emit (Push pool index) ;;
   ret ret_)%exec w
  = if wants_reply FLAG message
    then match incoming w with
         | reply :: rest =>
             Returned (ret_, exchanged w pool index message (Some reply) rest)
         | [] => Blocked
         end
    else Returned (ret_, exchanged w pool index message None (incoming w)).
Proof.
  unfold bind, emit, ret, exchanged, on_wire. cbn [wire incoming].
  destruct (wants_reply FLAG message).
  - unfold j_message_receive. cbn [incoming].
    destruct (incoming w) as [|reply rest]; [reflexivity |].
    cbn. rewrite <- !app_assoc. reflexivity.
  - cbn. rewrite <- !app_assoc. reflexivity.
Qed.

(** X11. Without a KV backend in the process, a put run (of operations
    that carry a value) and a delete run are each sent as one frame: the
    namespace of the first operation, then for each operation in order its
    key (and for a put the length of the document and the document), the
    operation count being their number modulo 2^32 and the flags those of
    the semantics. The frame asks for a reply exactly when the safety is not
    [none] (and the flag is not 0); then one reply is read, and the run
    waits while none arrives; whatever the reply holds, and also when none
    is asked for, the run returns [TRUE]. *)
Theorem kv_put_and_delete_over_the_wire
    (common : @JCommon B H) (semantics : JSemantics) (w : World B) :
  common_kv_backend common = None ->
  (forall kop operations,
      Forall (fun kop => is_Some (put_value kop)) (kop :: operations) ->
      let message := put_frame FLAG semantics (kop :: operations) in
      j_kv_put_exec FLAG (Some common) (Some (kop :: operations)) (Some semantics) w
      = if wants_reply FLAG message
        then match incoming w with
             | reply :: rest =>
                 Returned (true, exchanged w KVPool (kv_index (put_kv kop))
                                   message (Some reply) rest)
             | [] => Blocked
             end
        else Returned (true, exchanged w KVPool (kv_index (put_kv kop))
                               message None (incoming w)))
  /\ (forall kv operations,
        let message := delete_frame FLAG semantics (kv :: operations) in
        j_kv_delete_exec FLAG (Some common) (Some (kv :: operations)) (Some semantics) w
        = if wants_reply FLAG message
          then match incoming w with
               | reply :: rest =>
                   Returned (true, exchanged w KVPool (kv_index kv)
                                     message (Some reply) rest)
               | [] => Blocked
               end
          else Returned (true, exchanged w KVPool (kv_index kv)
                                 message None (incoming w)))
  /\ (forall type n fields bulk,
        wants_reply FLAG (frame FLAG type semantics n fields bulk) = true
        <-> sem_safety semantics <> J_SEMANTICS_SAFETY_NONE /\ FLAG <> 0).
Proof.
  intros Hnone. split; [| split].
  - intros kop operations Hall message.
    unfold j_kv_put_exec, j_kv_backend. rewrite Hnone.
    unfold bind at 1. unfold ret at 1. unfold bind at 1. unfold ret at 1.
    unfold bind at 1.
    rewrite (kv_put_loop_frame (kop :: operations) Hall)
      by apply header_count_range.
    rewrite extend_header. apply send_and_maybe_receive.
  - intros kv operations message.
    unfold j_kv_delete_exec, j_kv_backend. rewrite Hnone.
    unfold bind at 1. unfold ret at 1. unfold bind at 1. unfold ret at 1.
    unfold bind at 1.
    rewrite (kv_delete_loop_frame (kv :: operations))
      by apply header_count_range.
    rewrite extend_header. apply send_and_maybe_receive.
  - intros type n fields bulk. rewrite wants_reply_frame.
    apply bool_decide_eq_true.
Qed.

End KVFrames.

Section ReadFrames.

Context {B H : Type}.
Variable FLAG : Z.

Lemma object_read_loop_frame (operations : list JObjectRead) :
  forall handle ret_ message (w : World B),
    0 <= msg_count message < 2 ^ 32 ->
    @object_read_loop B H None handle operations ret_ message w
    = Returned (ret_,
                extend message (length operations) (flat_map read_fields operations) [],
                w).
Proof.
  induction operations as [|operation operations IH]; intros handle ret_ message w Hc.
  - cbn [object_read_loop length flat_map]. rewrite extend_nothing by exact Hc.
    reflexivity.
  - cbn [object_read_loop]. rewrite IH by (cbn; apply wrap32_range).
    unfold j_message_append, j_message_add_operation.
    cbn [msg_type msg_flags msg_count msg_fields msg_bulk length flat_map].
    rewrite <- (app_nil_r (msg_bulk message)) at 1.
    rewrite <- !app_assoc. cbn [app].
    rewrite (extend_operation message (read_fields operation) []).
    reflexivity.
Qed.

Lemma with_reads_nil (w : World B) : with_reads w [] = w.
Proof. destruct w. reflexivity. Qed.

Lemma get_8_keeps (reply : JMessage) (z : Z) (rest : list Field) :
  msg_fields reply = F8 z :: rest ->
  exists reply',
    j_message_get_8 reply = Some (z, reply')
    /\ msg_fields reply' = rest /\ msg_bulk reply' = msg_bulk reply.
Proof.
  intros Hf. unfold j_message_get_8. rewrite Hf. eexists. repeat split.
Qed.

Lemma read_bulk_next (reply : JMessage) (b : list Byte.byte)
    (rest : list (list Byte.byte)) :
  msg_bulk reply = b :: rest ->
  exists reply',
    read_bulk reply (bson_len b) = Some (b, reply')
    /\ msg_fields reply' = msg_fields reply /\ msg_bulk reply' = rest.
Proof.
  intros Hb. unfold read_bulk. rewrite Hb.
  rewrite decide_True by reflexivity. eexists. repeat split.
Qed.

Lemma with_reads_cons (w : World B) (x : JObjectRead * list Byte.byte) pairs :
  with_reads w (x :: pairs) = with_reads (with_reads w [x]) pairs.
Proof. reflexivity. Qed.

(** The inner loop over one reply. *)
Lemma object_read_reply_spec (blocks : list (list Byte.byte)) :
  forall (operations : list JObjectRead) reply extra_fields extra_bulk (w : World B),
    (length blocks <= length operations)%nat ->
    msg_fields reply = (map (fun b => F8 (bson_len b)) blocks ++ extra_fields)%list ->
    msg_bulk reply
    = (List.filter (fun b => negb (bool_decide (b = []))) blocks ++ extra_bulk)%list ->
    object_read_reply (length blocks) operations reply w
    = Returned (drop (length blocks) operations,
                with_reads w (zip (take (length blocks) operations) blocks)).
Proof.
  induction blocks as [|b blocks IH];
    intros operations reply extra_fields extra_bulk w Hlen Hf Hb.
  - cbn [length object_read_reply drop take zip zip_with]. rewrite with_reads_nil.
    destruct operations; reflexivity.
  - destruct operations as [|operation operations]; [cbn in Hlen; lia |].
    cbn [length object_read_reply drop take zip zip_with].
    cbn [map app] in Hf. rewrite with_reads_cons.
    unfold bind at 1. unfold of_option.
    destruct (get_8_keeps reply _ _ Hf) as (reply1 & -> & Hf1 & Hb1).
    unfold ret at 1. unfold bind at 1.
    rewrite ExecFacts.atomic_add_counters. cbn [List.filter] in Hb.
    destruct b as [|x b].
    + cbn [bson_len length Z.of_nat Z.ltb Z.compare].
      rewrite bool_decide_eq_true_2 in Hb by reflexivity. cbn [negb] in Hb.
      rewrite <- Hb1 in Hb.
      rewrite (IH operations reply1 extra_fields extra_bulk _
                 ltac:(cbn in Hlen; lia) Hf1 Hb).
      reflexivity.
    + rewrite bool_decide_eq_false_2 in Hb by discriminate. cbn [negb app] in Hb.
      rewrite <- Hb1 in Hb.
      rewrite (ExecFacts.bson_len_pos (x :: b)) by discriminate.
      unfold bind at 1. unfold of_option.
      destruct (read_bulk_next reply1 _ _ Hb) as (reply2 & -> & Hf2 & Hb2).
      unfold ret at 1. unfold bind at 1. unfold store_buffer at 1.
      rewrite Hf1 in Hf2.
      rewrite (IH operations reply2 extra_fields extra_bulk _
                 ltac:(cbn in Hlen; lia) Hf2 Hb2).
      reflexivity.
Qed.

Lemma with_reads_app (w : World B) (l1 l2 : list (JObjectRead * list Byte.byte)) :
  with_reads w (l1 ++ l2) = with_reads (with_reads w l1) l2.
Proof.
  unfold with_reads, read_counts, add_counters. cbn.
  rewrite map_app, !fold_left_app. reflexivity.
Qed.

Lemma with_reads_on_wire (w : World B) events frames pairs :
  with_reads (on_wire w events frames) pairs = on_wire (with_reads w pairs) events frames.
Proof. reflexivity. Qed.

Lemma on_wire_nothing (w : World B) : on_wire w [] (incoming w) = w.
Proof. unfold on_wire. rewrite app_nil_r. destruct w. reflexivity. Qed.

(** The outer loop: replies are read until every operation is answered. *)
Lemma object_read_replies_spec (answers : list (list (list Byte.byte))) :
  forall (replies rest : list JMessage) (operations : list JObjectRead)
         (done count : Z) (w : World B),
    Forall2 answers_reads replies answers ->
    Forall (fun blocks => blocks <> []) answers ->
    incoming w = (replies ++ rest)%list ->
    0 <= done -> count < 2 ^ 32 ->
    done + Z.of_nat (length (concat answers)) = count ->
    length operations = length (concat answers) ->
    object_read_replies (incoming w) done count operations w
    = Returned (tt, on_wire (with_reads w (zip operations (concat answers)))
                      (map Receive replies) rest).
Proof.
  induction answers as [|blocks answers IH];
    intros replies rest operations done count w Hrep Hne Hin Hdone Hcount Hsum Hlen.
  - apply Forall2_nil_inv_r in Hrep. subst replies.
    cbn [concat length Z.of_nat] in Hsum, Hlen.
    destruct operations; [| discriminate Hlen].
    cbn [app] in Hin. cbn [concat zip zip_with map]. rewrite with_reads_nil.
    rewrite <- Hin, on_wire_nothing.
    replace count with done by lia.
    destruct (incoming w); cbn [object_read_replies]; rewrite Z.ltb_irrefl; reflexivity.
  - apply Forall2_cons_inv_r in Hrep as (reply & replies' & Hans & Hrep & ->).
    apply Forall_cons in Hne as [Hblocks Hne].
    destruct Hans as (Hc & Hf & Hb).
    cbn [concat] in Hsum, Hlen |- *. rewrite length_app in Hsum, Hlen.
    assert (Hpos : (0 < length blocks)%nat) by (destruct blocks; [congruence | cbn; lia]).
    cbn [app] in Hin. rewrite Hin. cbn [object_read_replies].
    destruct (Z.ltb_spec done count) as [_ | Hge]; [| lia].
    unfold bind at 1.
    rewrite (ExecFacts.receive_on_wire w reply (replies' ++ rest) Hin).
    unfold j_message_get_count. rewrite Hc, Nat2Z.id.
    unfold bind at 1.
    rewrite (object_read_reply_spec blocks operations reply [] []
               (on_wire w [Receive reply] (replies' ++ rest)))
      by (rewrite ?app_nil_r; first [lia | assumption]).
    rewrite wrap32_small by lia.
    pose proof (IH replies' rest (drop (length blocks) operations)
                  (done + Z.of_nat (length blocks)) count
                  (with_reads (on_wire w [Receive reply] (replies' ++ rest))
                     (zip (take (length blocks) operations) blocks))
                  Hrep Hne eq_refl ltac:(lia) Hcount ltac:(lia)
                  ltac:(rewrite length_drop; lia)) as Hrest.
    cbn [incoming with_reads on_wire] in Hrest. rewrite Hrest.
    rewrite <- with_reads_app, with_reads_on_wire, ExecFacts.on_wire_app.
    cbn [map app].
    rewrite <- (take_drop (length blocks) operations) at 3.
    rewrite zip_with_app by (rewrite length_take; lia).
    reflexivity.
Qed.

(** X12. Without an object backend in the process, a read run (of fewer
    than 2^32 operations) sends one frame, with the namespace and the name
    of the object and then the length and the offset of each operation, and
    reads replies until every operation is answered, whatever the safety: a
    reply answers the next operations in order, and for each of them the
    run adds the byte count of the reply to the caller's counter and, when
    it is not 0, puts the bytes that follow the reply into the caller's
    buffer (the counts being no more than what was asked for). The run
    returns [TRUE] whatever the byte counts are, also when they are all
    0. *)
Theorem object_read_over_the_wire
    (common : @JCommon B H) (semantics : JSemantics) (w : World B)
    (operation : JObjectRead) (operations : list JObjectRead)
    (answers : list (list (list Byte.byte))) (replies rest : list JMessage) :
  common_object_backend common = None ->
  Z.of_nat (length (operation :: operations)) < 2 ^ 32 ->
  incoming w = (replies ++ rest)%list ->
  Forall2 answers_reads replies answers ->
  Forall (fun blocks => blocks <> []) answers ->
  length (concat answers) = length (operation :: operations) ->
  Forall (fun x => bson_len (snd x) <= read_length (fst x))
    (zip (operation :: operations) (concat answers)) ->
  let message := read_frame FLAG semantics (operation :: operations) in
  let pairs := zip (operation :: operations) (concat answers) in
  let index := o_index (read_object operation) in
  j_object_read_exec FLAG (Some common) (Some (operation :: operations))
    (Some semantics) w
  = Returned (true,
      on_wire (with_reads w pairs)
        ([Pop ObjectPool index; Send message] ++ map Receive replies
         ++ [Push ObjectPool index]) rest)
  /\ (forall p, p ∈ map fst (read_counts pairs) ->
        default 0 (add_counters (read_counts pairs) (counters w) !! p)
        = wrap64 (load_counter w p + total_for p (read_counts pairs)))
  /\ (forall p, p ∉ map fst (read_counts pairs) ->
        add_counters (read_counts pairs) (counters w) !! p = counters w !! p).
Proof.
  intros Hnone Hn Hin Hrep Hne Hlen Hfit message pairs index.
  split; [| split].
  - unfold j_object_read_exec, j_object_backend. rewrite Hnone.
    unfold bind at 1. unfold ret at 1. unfold bind at 1. unfold ret at 1.
    unfold bind at 1.
    rewrite (object_read_loop_frame (operation :: operations))
      by (cbn [msg_count j_message_append]; rewrite set_safety_count;
          cbn; split; [discriminate | reflexivity]).
    rewrite extend_header2.
    change (frame FLAG J_MESSAGE_OBJECT_READ semantics
              (length (operation :: operations))
              (FString (o_namespace (read_object operation))
               :: FString (o_name (read_object operation))
               :: flat_map read_fields (operation :: operations)) [])
      with message.
    fold index.
    unfold bind at 1. rewrite ExecFacts.emit_on_wire.
    unfold bind at 1. rewrite ExecFacts.emit_on_wire, ExecFacts.on_wire_app.
    unfold bind at 1.
    assert (Hcount : j_message_get_count message
                     = Z.of_nat (length (operation :: operations))).
    { unfold message, read_frame, frame, j_message_get_count. cbn [msg_count].
      apply wrap32_small. lia. }
    rewrite Hcount.
    pose proof (object_read_replies_spec answers replies rest
                  (operation :: operations) 0
                  (Z.of_nat (length (operation :: operations)))
                  (on_wire w ([Pop ObjectPool index] ++ [Send message]) (incoming w))
                  Hrep Hne Hin ltac:(lia) Hn ltac:(rewrite Hlen; lia)
                  ltac:(symmetry; exact Hlen)) as Hloop.
    cbn [incoming on_wire] in Hloop |- *. rewrite Hloop.
    unfold bind, ret. rewrite ExecFacts.emit_on_wire.
    rewrite with_reads_on_wire, !ExecFacts.on_wire_app.
    rewrite <- !app_assoc. reflexivity.
  - intros p Hp. apply ExecFacts.add_counters_touched. exact Hp.
  - intros p Hp. apply ExecFacts.add_counters_untouched. exact Hp.
Qed.

End ReadFrames.

Section ObjectFrames.

Context {B H : Type}.
Variable FLAG : Z.

Lemma object_create_loop_frame (operations : list JObject) :
  forall ret_ message (w : World B),
    0 <= msg_count message < 2 ^ 32 ->
    @object_create_loop B H None operations ret_ message w
    = Returned (ret_,
                extend message (length operations)
                  (map (fun object => FString (o_name object)) operations) [], w).
Proof.
  induction operations as [|object operations IH]; intros ret_ message w Hc.
  - cbn [object_create_loop length map]. rewrite extend_nothing by exact Hc.
    reflexivity.
  - cbn [object_create_loop]. rewrite IH by (cbn; apply wrap32_range).
    unfold j_message_append, j_message_add_operation.
    cbn [msg_type msg_flags msg_count msg_fields msg_bulk length map].
    rewrite <- (app_nil_r (msg_bulk message)) at 1.
    rewrite extend_operation. reflexivity.
Qed.

Lemma object_delete_loop_frame (operations : list JObject) :
  forall ret_ message (w : World B),
    0 <= msg_count message < 2 ^ 32 ->
    @object_delete_loop B H None operations ret_ message w
    = Returned (ret_,
                extend message (length operations)
                  (map (fun object => FString (o_name object)) operations) [], w).
Proof.
  induction operations as [|object operations IH]; intros ret_ message w Hc.
  - cbn [object_delete_loop length map]. rewrite extend_nothing by exact Hc.
    reflexivity.
  - cbn [object_delete_loop]. rewrite IH by (cbn; apply wrap32_range).
    unfold j_message_append, j_message_add_operation.
    cbn [msg_type msg_flags msg_count msg_fields msg_bulk length map].
    rewrite <- (app_nil_r (msg_bulk message)) at 1.
    rewrite extend_operation. reflexivity.
Qed.

Lemma object_status_loop_frame (operations : list JObjectStatus) :
  forall ret_ message (w : World B),
    0 <= msg_count message < 2 ^ 32 ->
    @object_status_loop B H None operations ret_ message w
    = Returned (ret_,
                extend message (length operations)
                  (map (fun object => FString (o_name object))
                     (map status_object operations)) [], w).
Proof.
  induction operations as [|operation operations IH]; intros ret_ message w Hc.
  - cbn [object_status_loop length map]. rewrite extend_nothing by exact Hc.
    reflexivity.
  - cbn [object_status_loop]. rewrite IH by (cbn; apply wrap32_range).
    unfold j_message_append, j_message_add_operation.
    cbn [msg_type msg_flags msg_count msg_fields msg_bulk length map].
    rewrite <- (app_nil_r (msg_bulk message)) at 1.
    rewrite extend_operation. reflexivity.
Qed.

(** X13. Without an object backend in the process, a create run and a
    delete run are each sent as one frame: the namespace of the first
    object, then the name of each object in order, counted modulo 2^32,
    with the flags of the semantics; a reply is read exactly when the frame
    asks for one, the run waiting while none arrives. Although the frame is
    sent, and the reply read, the run returns [FALSE]. *)
Theorem object_create_and_delete_over_the_wire
    (common : @JCommon B H) (semantics : JSemantics) (w : World B) :
  common_object_backend common = None ->
  (forall object operations,
      let message :=
        names_frame FLAG J_MESSAGE_OBJECT_CREATE semantics (object :: operations) in
      j_object_create_exec FLAG (Some common) (Some (object :: operations))
        (Some semantics) w
      = if wants_reply FLAG message
        then match incoming w with
             | reply :: rest =>
                 Returned (false, exchanged w ObjectPool (o_index object)
                                    message (Some reply) rest)
             | [] => Blocked
             end
        else Returned (false, exchanged w ObjectPool (o_index object)
                                message None (incoming w)))
  /\ (forall object operations,
        let message :=
          names_frame FLAG J_MESSAGE_OBJECT_DELETE semantics (object :: operations) in
        j_object_delete_exec FLAG (Some common) (Some (object :: operations))
          (Some semantics) w
        = if wants_reply FLAG message
          then match incoming w with
               | reply :: rest =>
                   Returned (false, exchanged w ObjectPool (o_index object)
                                      message (Some reply) rest)
               | [] => Blocked
               end
          else Returned (false, exchanged w ObjectPool (o_index object)
                                  message None (incoming w))).
Proof.
  intros Hnone. split.
  - intros object operations message.
    unfold j_object_create_exec, j_object_backend. rewrite Hnone.
    unfold bind at 1. unfold ret at 1. unfold bind at 1.
    rewrite (object_create_loop_frame (object :: operations))
      by apply header_count_range.
    rewrite extend_header. apply send_and_maybe_receive.
  - intros object operations message.
    unfold j_object_delete_exec, j_object_backend. rewrite Hnone.
    unfold bind at 1. unfold ret at 1. unfold bind at 1.
    rewrite (object_delete_loop_frame (object :: operations))
      by apply header_count_range.
    rewrite extend_header. apply send_and_maybe_receive.
Qed.

Lemma object_status_reply_spec (operations : list JObjectStatus) :
  forall (values : list (Z * Z)) reply extra (w : World B),
    length values = length operations ->
    Forall (fun operation => is_Some (status_destination operation)) operations ->
    msg_fields reply
    = (flat_map (fun v => [F8 (fst v); F8 (snd v)]) values ++ extra)%list ->
    object_status_reply operations reply w
    = Returned (tt, with_counters w
                      (fold_left store_status (zip operations values) (counters w))).
Proof.
  induction operations as [|operation operations IH];
    intros values reply extra w Hlen Hdest Hf.
  - destruct values; [| discriminate Hlen]. destruct w. reflexivity.
  - destruct values as [|[t s] values]; [discriminate Hlen |].
    apply Forall_cons in Hdest as [[d Hd] Hdest].
    cbn [flat_map app fst snd] in Hf. cbn [object_status_reply].
    unfold bind at 1. unfold of_option.
    destruct (ExecFacts.get_8_next reply _ _ Hf) as (reply1 & -> & Hf1).
    unfold ret at 1. unfold bind at 1. unfold of_option.
    destruct (ExecFacts.get_8_next reply1 _ _ Hf1) as (reply2 & -> & Hf2).
    unfold ret at 1.
    unfold status_destination in Hd.
    destruct (status_modification_time operation) as [mt|] eqn:Emt; [| discriminate].
    destruct (status_size operation) as [sz|] eqn:Esz; [| discriminate].
    assert (Hstep : forall m, store_status m (operation, (t, s))
                              = <[sz := wrap64 s]> (<[mt := to_gint64 t]> m)).
    { intros m. unfold store_status, status_destination. cbn [fst snd].
      rewrite Emt, Esz. reflexivity. }
    unfold bind at 1. unfold store_counter at 1.
    unfold bind at 1. unfold store_counter at 1.
    rewrite (IH values reply2 extra _ ltac:(cbn in Hlen; lia) Hdest Hf2).
    cbn [zip zip_with fold_left]. rewrite Hstep. reflexivity.
Qed.

(** X14. Without an object backend in the process, a status run whose
    operations all have somewhere to put the modification time and the size
    sends one frame (the namespace and the names) and then reads one reply,
    whatever the safety; it stores the two values the reply holds for each
    operation, in order, through the operation's pointers: the modification
    time as a signed 64-bit number (a field of 64 one bits gives -1), the
    size as an unsigned one. It returns [FALSE] all the same, and waits
    while no reply arrives. *)
Theorem object_status_over_the_wire
    (common : @JCommon B H) (semantics : JSemantics) (w : World B)
    (operation : JObjectStatus) (operations : list JObjectStatus)
    (values : list (Z * Z)) :
  common_object_backend common = None ->
  length values = length (operation :: operations) ->
  Forall (fun operation => is_Some (status_destination operation))
    (operation :: operations) ->
  let message :=
    names_frame FLAG J_MESSAGE_OBJECT_STATUS semantics
      (map status_object (operation :: operations)) in
  let index := o_index (status_object operation) in
  (forall reply rest,
      incoming w = reply :: rest ->
      msg_fields reply = flat_map (fun v => [F8 (fst v); F8 (snd v)]) values ->
      j_object_status_exec FLAG (Some common) (Some (operation :: operations))
        (Some semantics) w
      = Returned (false,
          exchanged
            (with_counters w
               (fold_left store_status (zip (operation :: operations) values)
                  (counters w)))
            ObjectPool index message (Some reply) rest))
  /\ (incoming w = [] ->
      j_object_status_exec FLAG (Some common) (Some (operation :: operations))
        (Some semantics) w
      = Blocked).
Proof.
  intros Hnone Hlen Hdest message index.
  assert (Hloop : forall w0 : World B,
             @object_status_loop B H None (operation :: operations) false
               (j_message_append
                  (j_message_set_safety FLAG (j_message_new J_MESSAGE_OBJECT_STATUS)
                     semantics)
                  (FString (o_namespace (status_object operation)))) w0
             = Returned (false, message, w0)).
  { intros w0. rewrite object_status_loop_frame by apply header_count_range.
    rewrite extend_header. unfold message, names_frame.
    rewrite length_map. reflexivity. }
  split.
  - intros reply rest Hin Hf.
    unfold j_object_status_exec, j_object_backend. rewrite Hnone.
    unfold bind at 1. unfold ret at 1. unfold bind at 1. rewrite Hloop.
    fold index.
    unfold bind at 1. rewrite ExecFacts.emit_on_wire.
    unfold bind at 1. rewrite ExecFacts.emit_on_wire, ExecFacts.on_wire_app.
    unfold bind at 1. unfold bind at 1.
    erewrite ExecFacts.receive_on_wire by (cbn; exact Hin).
    rewrite ExecFacts.on_wire_app.
    rewrite (object_status_reply_spec (operation :: operations) values reply [] _
               Hlen Hdest) by (rewrite app_nil_r; exact Hf).
    unfold bind, ret. rewrite ExecFacts.emit_on_wire.
    rewrite ExecFacts.with_counters_on_wire, ExecFacts.on_wire_app.
    unfold exchanged. rewrite <- !app_assoc. reflexivity.
  - intros Hin.
    unfold j_object_status_exec, j_object_backend. rewrite Hnone.
    unfold bind at 1. unfold ret at 1. unfold bind at 1. rewrite Hloop.
    unfold bind, emit, ret, j_message_receive. cbn [incoming]. rewrite Hin.
    reflexivity.
Qed.

End ObjectFrames.

Lemma kv_put_and_delete_over_the_wire_witness :
  j_kv_delete_exec 2 (Some HandleTerms.example_common) (Some [example_kv])
    (Some {| sem_safety := J_SEMANTICS_SAFETY_NETWORK |})
    (awaiting [status_reply []])
  = Returned (true,
      exchanged (awaiting [status_reply []]) KVPool 1
        (delete_frame 2 {| sem_safety := J_SEMANTICS_SAFETY_NETWORK |} [example_kv])
        (Some (status_reply [])) []).
Proof.
  exact (proj1 (proj2 (kv_put_and_delete_over_the_wire (H := unit) 2
                         HandleTerms.example_common
                         {| sem_safety := J_SEMANTICS_SAFETY_NETWORK |}
                         (awaiting [status_reply []]) eq_refl))
           example_kv []).
Defined.

Lemma object_create_and_delete_over_the_wire_witness :
  j_object_create_exec 2 (Some HandleTerms.example_common)
    (Some [HandleTerms.example_object])
    (Some {| sem_safety := J_SEMANTICS_SAFETY_NONE |}) HandleTerms.empty_world
  = Returned (false,
      exchanged HandleTerms.empty_world ObjectPool 1
        (names_frame 2 J_MESSAGE_OBJECT_CREATE
           {| sem_safety := J_SEMANTICS_SAFETY_NONE |} [HandleTerms.example_object])
        None []).
Proof.
  exact (proj1 (object_create_and_delete_over_the_wire (H := unit) 2
                  HandleTerms.example_common
                  {| sem_safety := J_SEMANTICS_SAFETY_NONE |}
                  HandleTerms.empty_world eq_refl)
           HandleTerms.example_object []).
Defined.

Lemma object_read_over_the_wire_witness :
  exists w',
    j_object_read_exec 2 (Some HandleTerms.example_common)
      (Some [read_first; read_second])
      (Some {| sem_safety := J_SEMANTICS_SAFETY_NONE |})
      (awaiting [read_reply [[Byte.x41; Byte.x42; Byte.x43]]; read_reply [[]]])
    = Returned (true, w')
    /\ load_counter w' 100 = 3
    /\ buffers w' !! 200 = Some [Byte.x41; Byte.x42; Byte.x43]
    /\ buffers w' !! 201 = None
    /\ incoming w' = [].
Proof.
  destruct (object_read_over_the_wire (H := unit) 2 HandleTerms.example_common
              {| sem_safety := J_SEMANTICS_SAFETY_NONE |}
              (awaiting [read_reply [[Byte.x41; Byte.x42; Byte.x43]]; read_reply [[]]])
              read_first [read_second]
              [[[Byte.x41; Byte.x42; Byte.x43]]; [[]]]
              [read_reply [[Byte.x41; Byte.x42; Byte.x43]]; read_reply [[]]] [])
    as (Hrun & _).
  - reflexivity.
  - reflexivity.
  - reflexivity.
  - repeat constructor.
  - repeat constructor; discriminate.
  - reflexivity.
  - cbn. constructor; [vm_compute; discriminate |].
    constructor; [vm_compute; discriminate |]. constructor.
  - eexists. split; [exact Hrun |]. repeat split.
Defined.

Lemma object_status_over_the_wire_witness :
  exists w',
    j_object_status_exec 2 (Some HandleTerms.example_common) (Some [example_status])
      (Some {| sem_safety := J_SEMANTICS_SAFETY_NONE |})
      (awaiting [status_reply [(18446744073709551615, 56)]])
    = Returned (false, w')
    /\ counters w' !! 400 = Some (-1) /\ counters w' !! 401 = Some 56.
Proof.
  destruct (object_status_over_the_wire (H := unit) 2 HandleTerms.example_common
              {| sem_safety := J_SEMANTICS_SAFETY_NONE |}
              (awaiting [status_reply [(18446744073709551615, 56)]])
              example_status [] [(18446744073709551615, 56)] eq_refl eq_refl)
    as (Hrun & _).
  - repeat constructor. eexists. reflexivity.
  - eexists. split; [exact (Hrun _ _ eq_refl eq_refl) |]. split; reflexivity.
Defined.

End FrameFacts.

(** ** The file-system adapter *)

Module FuseFacts.

Import Configuration Client Fuse.
Import LevelDBTerms StoreTerms ExecTerms LocalTerms FrameTerms FuseTerms.

Section Generic.

Context {B H : Type}.
Variable FLAG : Z.
Variable hash : string -> Z.
Variable common : option (@JCommon B H).
Variable basename : string -> string.
Variable now : Z.
Variable new : list (string * bson_value) -> bson_t.
Variable find : bson_t -> string -> option bson_value.
Variable posix : JSemantics.

Local Abbreviation create := (jfs_create FLAG hash common basename now new posix).

Lemma bind_returned {A A'} (m : M B A) (k : A -> M B A') (w : World B) r :
  bind m k w = Returned r ->
  exists a w', m w = Returned (a, w') /\ k a w' = Returned r.
Proof.
  unfold bind. destruct (m w) as [[a w']| | |]; try discriminate.
  intros E. exists a, w'. split; [reflexivity | exact E].
Qed.

Lemma execute_runs_with_create
    (runs : list (list JOperation)) (semantics : JSemantics) (w : World B) :
  Exists (fun run => exists operation rest,
                       run = operation :: rest
                       /\ op_exec_func operation = Exec_object_create) runs ->
  returns_false (execute_runs FLAG common runs semantics w).
Proof.
  revert w. induction runs as [|run runs IH]; intros w Hex.
  - apply Exists_nil in Hex. contradiction.
  - apply Exists_cons in Hex as [Hhere | Hlater].
    + destruct Hhere as (operation & rest & -> & Hf).
      cbn [execute_runs]. rewrite Hf. unfold bind at 1.
      cbn [call_exec_func]. unfold bind at 1, of_option.
      destruct (mapM as_object (map op_data (operation :: rest))) as [l|];
        [| exact I].
      unfold ret at 1.
      pose proof (ExecFacts.create_exec_false FLAG common (Some l)
                    (Some semantics) w) as Hfalse.
      unfold returns_false in Hfalse |- *.
      destruct (j_object_create_exec FLAG common (Some l) (Some semantics) w)
        as [[r w1]| | |]; try exact I.
      subst r. unfold bind, ret.
      destruct (execute_runs FLAG common runs semantics w1) as [[rs w2]| | |];
        try exact I.
      reflexivity.
    + destruct run as [|operation rest].
      * cbn [execute_runs]. apply IH, Hlater.
      * cbn [execute_runs]. unfold bind at 1.
        destruct (call_exec_func FLAG common (op_exec_func operation)
                    (map op_data (operation :: rest)) (Some semantics) w)
          as [[r w1]| | |]; try exact I.
        specialize (IH w1 Hlater). unfold returns_false in IH |- *.
        unfold bind, ret.
        destruct (execute_runs FLAG common runs semantics w1) as [[rs w2]| | |];
          try exact I.
        subst rs. apply andb_false_r.
Qed.

(** X15. [jfs_create] never reports success: whenever it returns, in
    whatever state of the process and of the servers, its result is
    [-ENOENT]. Its batch holds the put of the entry and the create of the
    object, and the run of the create returns [FALSE]. *)
Theorem create_never_reports_success (path : string) (w : World B) :
  match create path w with
  | Returned (r, _) => r = - ENOENT
  | _ => True
  end.
Proof.
  unfold jfs_create.
  destruct (bind _ _ w) as [[r w']| | |] eqn:E; try exact I.
  apply bind_returned in E as (kv & w1 & Hkv & E).
  apply bind_returned in E as (object & w2 & Hobject & E).
  assert (Hk : exists k, kv = Some k).
  { unfold j_kv_new in Hkv. apply bind_returned in Hkv as (c & w0 & _ & Hkv).
    apply bind_returned in Hkv as (? & ? & _ & Hkv).
    destruct (Z.eqb _ 0); [discriminate |]. injection Hkv as <- _. eauto. }
  assert (Ho : exists o, object = Some o).
  { unfold j_object_new in Hobject.
    apply bind_returned in Hobject as (c & w0 & _ & Hobject).
    apply bind_returned in Hobject as (? & ? & _ & Hobject).
    destruct (Z.eqb _ 0); [discriminate |]. injection Hobject as <- _. eauto. }
  destruct Hk as (k & ->), Ho as (o & ->).
  cbn [j_kv_put j_object_create] in E. unfold bind at 1, ret at 1 in E.
  unfold bind at 1, ret at 1 in E.
  apply bind_returned in E as ([rr b] & w3 & Hexec & E).
  unfold j_batch_execute in Hexec.
  apply bind_returned in Hexec as (r0 & w4 & Hruns & Hret).
  injection Hret as <- _ _.
  match type of Hruns with
  | execute_runs _ _ ?runs ?semantics ?w0 = _ =>
      pose proof (execute_runs_with_create runs semantics w0) as Hfalse
  end.
  rewrite Hruns in Hfalse. cbn [returns_false] in Hfalse.
  rewrite Hfalse in E.
  - injection E as <- _. reflexivity.
  - cbn. apply Exists_cons_tl, Exists_cons_hd. eauto.
Qed.

End Generic.

Section OverLevelDB.

Variable FLAG : Z.
Variable hash : string -> Z.
Variable disk : string -> option LevelDB.leveldb_t.
Variable basename : string -> string.
Variable now : Z.
Variable new : list (string * bson_value) -> bson_t.
Variable find : bson_t -> string -> option bson_value.
Variable posix : JSemantics.

Local Abbreviation LB := LevelDB.Backend.
Local Abbreviation LH := LevelDB.JLevelDBBatch.
Local Abbreviation plugin := (LevelDBPlugin.leveldb_backend disk).

Variable common : @JCommon LB LH.

Local Abbreviation c := (common_configuration common).
Local Abbreviation getattr :=
  (jfs_getattr FLAG hash (Some common) find posix).
Local Abbreviation create_file :=
  (jfs_create FLAG hash (Some common) basename now new posix).

Local Abbreviation created := (created_document basename now new).

Lemma kv_new_path (path : string) (w : World LB) :
  servers_kv_len c <> 0 ->
  j_kv_new hash (Some common) (Some "posix") (Some path) w
  = Returned (Some (path_kv hash c path), w).
Proof.
  intros Hlen. unfold j_kv_new, j_configuration. unfold bind at 1, ret at 1.
  cbn [check_configuration is_null]. unfold bind at 1, ret at 1.
  cbn [j_configuration_get_kv_server_count].
  destruct (Z.eqb_spec (servers_kv_len c) 0) as [E|_]; [contradiction |].
  reflexivity.
Qed.

Lemma object_new_path (path : string) (w : World LB) :
  servers_object_len c <> 0 ->
  j_object_new hash (Some common) (Some "posix") (Some path) w
  = Returned (Some (path_object hash c path), w).
Proof.
  intros Hlen. unfold j_object_new, j_configuration. unfold bind at 1, ret at 1.
  cbn [check_configuration is_null]. unfold bind at 1, ret at 1.
  cbn [j_configuration_get_object_server_count].
  destruct (Z.eqb_spec (servers_object_len c) 0) as [E|_]; [contradiction |].
  reflexivity.
Qed.

Lemma declared_backend (file : Z) (w : World LB) :
  exists w0, declare_document file w = Returned (tt, w0)
             /\ backend w0 = backend w /\ wire w0 = wire w
             /\ incoming w0 = incoming w
             /\ documents w0 !! file = None.
Proof.
  eexists. split; [reflexivity |]. cbn [backend wire incoming documents].
  repeat split. apply lookup_delete_eq.
Qed.

(** [jfs_getattr] on a path whose entry the store answers with [held]. *)
Lemma getattr_local (path : string) (stbuf : stat) (file : Z) (w : World LB) held :
  common_kv_backend common = Some plugin ->
  servers_kv_len c <> 0 ->
  path <> "/" ->
  LevelDB.backend_get (Some "posix") (Some path) (backend w) = get_result held ->
  exists w',
    getattr path stbuf file w
    = Returned (match held with
                | Some document => (0, attributes_of find document)
                | None => (- ENOENT, stbuf)
                end, w')
    /\ backend w' = backend w /\ wire w' = wire w.
Proof.
  intros Hbackend Hlen Hpath Hget. unfold jfs_getattr.
  destruct (String.eqb_spec path "/") as [E|_]; [contradiction |].
  destruct (declared_backend file w) as (w0 & Hdecl & Hb0 & Hw0 & _ & Hdoc0).
  unfold bind at 1. rewrite Hdecl.
  unfold bind at 1. rewrite (kv_new_path path w0 Hlen).
  cbn [j_kv_get]. unfold bind at 1, ret at 1.
  unfold bind at 1. unfold j_batch_execute.
  cbn [batch_operations batch_semantics j_batch_add j_batch_new_for_template
       app batch_runs].
  cbn [execute_runs op_exec_func map op_data call_exec_func].
  cbn [mapM as_kv_get]. cbn [mbind option_bind mret option_ret fmap option_map].
  destruct (LocalFacts.kv_get_exec_local_one FLAG disk common
              (j_kv_ref (path_kv hash c path)) file posix w0 held Hbackend)
    as (w1 & Hrun & Hdoc & _ & Hb1 & Hw1 & _).
  { cbn [kv_namespace kv_key j_kv_ref path_kv]. rewrite Hb0. exact Hget. }
  change {| get_kv := j_kv_ref (path_kv hash c path); get_value := Some file;
            get_func := None; get_data := 0 |}
    with (get_into (j_kv_ref (path_kv hash c path)) file).
  unfold mret, option_ret. cbn [of_option]. unfold bind, ret.
  rewrite Hrun, andb_true_r.
  destruct held as [document|]; cbn [hit].
  - unfold read_document. rewrite Hdoc. cbn [of_option]. unfold ret.
    exists w1. split; [| split; congruence].
    unfold attributes_of.
    destruct (find document "file") as [[s|[|]|z]|]; reflexivity.
  - exists w1. split; [reflexivity | split; congruence].
Qed.

(** X16. With the LevelDB plug-in as the process's KV backend,
    [jfs_getattr] answers for the root without consulting the store, and
    for any other path by the entry stored under the path in the namespace
    "posix": without an entry it returns [-ENOENT] and leaves [*stbuf]
    as it is; with one it returns 0 and reports a directory when the
    entry's "file" field is the boolean false and a regular file
    otherwise. The size and the times it reports are 0 whatever the entry
    holds, and the store is left as it is. *)
Theorem getattr_answers_from_the_store
    (path : string) (stbuf : stat) (file : Z) (w : World LB)
    (db : LevelDB.leveldb_t) :
  common_kv_backend common = Some plugin ->
  servers_kv_len c <> 0 ->
  LevelDB.backend_db (backend w) = Some db ->
  getattr "/" stbuf file w = Returned ((0, directory_attributes), w)
  /\ (path <> "/" ->
      exists w',
        getattr path stbuf file w
        = Returned (match LevelDB.leveldb_lookup db (entry_key path) with
                    | Some document => (0, attributes_of find document)
                    | None => (- ENOENT, stbuf)
                    end, w')
        /\ backend w' = backend w /\ wire w' = wire w)
  /\ (forall document,
        let st := attributes_of find document in
        st_size st = 0 /\ st_atime st = 0 /\ st_ctime st = 0 /\ st_mtime st = 0
        /\ (st = directory_attributes <-> find document "file" = Some (BBool false))).
Proof.
  intros Hbackend Hlen Hdb. split; [reflexivity | split].
  - intros Hpath. apply getattr_local; try assumption.
    apply StoreFacts.backend_get_lookup. exact Hdb.
  - intros document st. subst st. unfold attributes_of.
    destruct (find document "file") as [[s|[|]|z]|];
      (repeat split; try reflexivity; try discriminate; try congruence).
Qed.

(** The run of the create of one object, without an object backend. *)
Lemma object_create_exec_wire (object : JObject) (w : World LB) :
  common_object_backend common = None ->
  let message := names_frame FLAG J_MESSAGE_OBJECT_CREATE posix [object] in
  j_object_create_exec FLAG (Some common) (Some [object]) (Some posix) w
  = if wants_reply FLAG message
    then match incoming w with
         | reply :: rest =>
             Returned (false, exchanged w ObjectPool (o_index object)
                                message (Some reply) rest)
         | [] => Blocked
         end
    else Returned (false, exchanged w ObjectPool (o_index object)
                            message None (incoming w)).
Proof.
  intros Hnone message.
  unfold j_object_create_exec, j_object_backend. rewrite Hnone.
  unfold bind at 1. unfold ret at 1. unfold bind at 1.
  rewrite (FrameFacts.object_create_loop_frame [object])
    by apply FrameFacts.header_count_range.
  rewrite FrameFacts.extend_header. apply FrameFacts.send_and_maybe_receive.
Qed.

(** X17. In a process with the LevelDB plug-in as its KV backend and no
    object backend, [jfs_create] stores the entry of the path and sends the
    create of the object to the server, and returns [-ENOENT] all the same;
    when the frame asks for a reply it waits while none arrives. After it
    [jfs_getattr] for the same path returns 0, with the attributes of the
    document that [jfs_create] built: the file is there although its
    creation was reported as failed. *)
Theorem create_fails_but_file_is_there
    (path : string) (w : World LB) (db : LevelDB.leveldb_t) :
  common_kv_backend common = Some plugin ->
  common_object_backend common = None ->
  servers_kv_len c <> 0 -> servers_object_len c <> 0 ->
  initialised (backend w) -> LevelDB.backend_db (backend w) = Some db ->
  db_sorted db ->
  path <> "/" ->
  let message :=
    names_frame FLAG J_MESSAGE_OBJECT_CREATE posix
      [j_object_ref (path_object hash c path)] in
  (wants_reply FLAG message = true -> incoming w = [] ->
   create_file path w = Blocked)
  /\ (wants_reply FLAG message = false \/ incoming w <> [] ->
      exists w1,
        create_file path w = Returned (- ENOENT, w1)
        /\ wire w1
           = (wire w
              ++ [Pop ObjectPool (o_index (path_object hash c path)); Send message]
              ++ (if wants_reply FLAG message
                  then match incoming w with
                       | reply :: _ => [Receive reply]
                       | [] => []
                       end
                  else [])
              ++ [Push ObjectPool (o_index (path_object hash c path))])%list
        /\ forall stbuf file,
             exists w2,
               getattr path stbuf file w1
               = Returned ((0, attributes_of find (created path)), w2)
               /\ backend w2 = backend w1).
Proof.
  intros Hbackend Hnone Hkv Hobject Hinit Hdb Hsorted Hpath message.
  set (kop := {| put_kv := j_kv_ref (path_kv hash c path);
                 put_value := Some (created path) |}).
  destruct (StoreFacts.batch_execute_db (backend w) db "posix" (sem_safety posix)
              (put_calls [kop]) Hinit Hdb) as (st' & Hexec & Hdb').
  assert (Hput : j_kv_put_exec FLAG (Some common) (Some [kop]) (Some posix) w
                 = Returned (true, with_backend w st')).
  { apply (LocalFacts.kv_put_exec_local FLAG disk); try assumption.
    constructor; [eexists; reflexivity | constructor]. }
  assert (Hstored : LevelDB.backend_get (Some "posix") (Some path) st'
                    = get_result (Some (created path))).
  { rewrite (StoreFacts.get_after_calls st' db "posix" (put_calls [kop]) path
               Hsorted Hdb').
    unfold after_calls. cbn [put_calls map fold_left after_call kop put_kv
                             put_value kv_key j_kv_ref path_kv].
    rewrite decide_True by reflexivity. reflexivity. }
  assert (Hrun : create_file path w
                 = match j_object_create_exec FLAG (Some common)
                           (Some [j_object_ref (path_object hash c path)])
                           (Some posix) (with_backend w st') with
                   | Returned (_, w1) => Returned (- ENOENT, w1)
                   | Aborted => Aborted
                   | Blocked => Blocked
                   | Undefined => Undefined
                   end).
  { unfold jfs_create.
    unfold bind at 1. rewrite (kv_new_path path w Hkv).
    unfold bind at 1. rewrite (object_new_path path w Hobject).
    cbn [j_kv_put j_object_create]. unfold bind at 1, ret at 1.
    unfold bind at 1, ret at 1. unfold bind at 1. unfold j_batch_execute.
    cbn [batch_operations batch_semantics j_batch_add j_batch_new_for_template app].
    change (batch_runs _) with
      [[{| op_key := key_of_kv (path_kv hash c path);
           op_data := DataKVPut kop;
           op_exec_func := Exec_kv_put;
           op_free_func := Free_kv_put |}];
       [{| op_key := key_of_object (path_object hash c path);
           op_data := DataObject (j_object_ref (path_object hash c path));
           op_exec_func := Exec_object_create;
           op_free_func := Free_object_create |}]].
    cbn [execute_runs op_exec_func map op_data call_exec_func].
    cbn [mapM as_kv_put as_object].
    cbn [mbind option_bind mret option_ret fmap option_map of_option].
    unfold mret, option_ret. cbn [of_option]. unfold bind, ret.
    rewrite Hput.
    pose proof (ExecFacts.create_exec_false FLAG (Some common)
                  (Some [j_object_ref (path_object hash c path)]) (Some posix)
                  (with_backend w st')) as Hfalse.
    unfold returns_false in Hfalse.
    destruct (j_object_create_exec FLAG (Some common)
                (Some [j_object_ref (path_object hash c path)]) (Some posix)
                (with_backend w st')) as [[r w1]| | |]; try reflexivity.
    subst r. reflexivity. }
  rewrite Hrun, (object_create_exec_wire _ (with_backend w st') Hnone).
  fold message. cbn [incoming with_backend].
  split.
  - intros Hwants Hin. rewrite Hwants, Hin. reflexivity.
  - intros Hreply.
    assert (Hgetattr : forall w1, backend w1 = st' ->
              forall stbuf file,
                exists w2,
                  getattr path stbuf file w1
                  = Returned ((0, attributes_of find (created path)), w2)
                  /\ backend w2 = backend w1).
    { intros w1 Hb stbuf file.
      destruct (getattr_local path stbuf file w1 (Some (created path))
                  Hbackend Hkv Hpath) as (w2 & Hrun2 & Hb2 & _).
      - rewrite Hb. exact Hstored.
      - exists w2. split; [exact Hrun2 | exact Hb2]. }
    destruct (wants_reply FLAG message) eqn:Hwants.
    + destruct (incoming w) as [|reply rest] eqn:Hin.
      * destruct Hreply as [Hreply | Hreply]; [discriminate | contradiction].
      * eexists. split; [reflexivity |]. split; [reflexivity |].
        apply Hgetattr. reflexivity.
    + eexists. split; [reflexivity |]. split; [reflexivity |].
      apply Hgetattr. reflexivity.
Qed.

End OverLevelDB.

Lemma getattr_answers_from_the_store_witness :
  jfs_getattr 2 HandleTerms.example_hash (Some (leveldb_common empty_disk))
    example_find posix_semantics "/" stale_attributes 500 leveldb_world
  = Returned ((0, directory_attributes), leveldb_world)
  /\ exists w',
       jfs_getattr 2 HandleTerms.example_hash (Some (leveldb_common empty_disk))
         example_find posix_semantics "/a" stale_attributes 500 leveldb_world
       = Returned ((- ENOENT, stale_attributes), w')
       /\ backend w' = backend leveldb_world.
Proof.
  destruct (getattr_answers_from_the_store 2 HandleTerms.example_hash empty_disk
              example_find posix_semantics (leveldb_common empty_disk)
              "/a" stale_attributes 500 leveldb_world [])
    as (Hroot & Hpath & _).
  - reflexivity.
  - discriminate.
  - reflexivity.
  - split; [exact Hroot |].
    destruct Hpath as (w' & Hrun & Hb & _); [discriminate |].
    exists w'. split; [exact Hrun | exact Hb].
Defined.

Lemma create_fails_but_file_is_there_witness :
  exists w1 w2,
    jfs_create 2 HandleTerms.example_hash (Some (leveldb_common empty_disk))
      example_basename 1700000000000000 example_bson_new posix_semantics
      "/a" reply_under_way
    = Returned (- ENOENT, w1)
    /\ jfs_getattr 2 HandleTerms.example_hash (Some (leveldb_common empty_disk))
         example_find posix_semantics "/a" stale_attributes 500 w1
       = Returned ((0, file_attributes 0 0), w2).
Proof.
  destruct (create_fails_but_file_is_there 2 HandleTerms.example_hash empty_disk
              example_basename 1700000000000000 example_bson_new example_find
              posix_semantics (leveldb_common empty_disk) "/a" reply_under_way [])
    as (_ & Hrun).
  - reflexivity.
  - reflexivity.
  - discriminate.
  - discriminate.
  - exact LocalFacts.leveldb_world_initialised.
  - reflexivity.
  - constructor.
  - discriminate.
  - destruct Hrun as (w1 & Hcreate & _ & Hgetattr); [right; discriminate |].
    destruct (Hgetattr stale_attributes 500) as (w2 & Hget & _).
    exists w1, w2. split; [exact Hcreate | exact Hget].
Defined.

End FuseFacts.

(** ** Background operations *)

Module BackgroundFacts.

Import BackgroundOperation BackgroundTerms.

(** *** The reference count as a [gint] *)

Lemma to_gint_wrap (x : Z) : wrap32 (to_gint x) = wrap32 x.
Proof.
  unfold to_gint, wrap32. change (2 ^ 32) with 4294967296.
  change (2 ^ 31) with 2147483648.
  destruct (Z.ltb_spec (x mod 4294967296) 2147483648);
    Z.div_mod_to_equations; lia.
Qed.

Lemma to_gint_add (x y : Z) : to_gint (to_gint x + y) = to_gint (x + y).
Proof.
  assert (Hw : wrap32 (to_gint x + y) = wrap32 (x + y)).
  { pose proof (to_gint_wrap x) as Hx. unfold wrap32 in *.
    change (2 ^ 32) with 4294967296 in *.
    rewrite Z.add_mod, Hx, <- Z.add_mod by lia. reflexivity. }
  unfold to_gint at 1 3. cbv zeta. rewrite Hw. reflexivity.
Qed.

Lemma to_gint_inc (x : Z) : to_gint (to_gint x + 1) = to_gint (x + 1).
Proof. apply to_gint_add. Qed.

Lemma to_gint_dec (x : Z) : to_gint (to_gint x - 1) = to_gint (x - 1).
Proof. exact (to_gint_add x (-1)). Qed.

(** [g_atomic_int_dec_and_test] tells the last reference apart as long as
    at most 2^32 are counted. *)
Lemma dec_and_test (x : Z) :
  0 < x <= 2 ^ 32 -> Z.eqb (to_gint (to_gint x - 1)) 0 = Z.eqb x 1.
Proof.
  intros Hx. rewrite to_gint_dec. unfold to_gint, wrap32.
  change (2 ^ 32) with 4294967296 in *. change (2 ^ 31) with 2147483648.
  rewrite Z.mod_small by lia.
  destruct (Z.ltb_spec (x - 1) 2147483648);
    destruct (Z.eqb_spec x 1); apply Z.eqb_eq || apply Z.eqb_neq; lia.
Qed.

#[local] Arguments to_gint : simpl never.

Section Runs.

Variable f : Z -> Z.
Variable d : Z.

Lemma new_consistent : consistent f d (j_background_operation_new f d).
Proof.
  split; cbn; try reflexivity; try lia; try congruence. constructor.
Qed.

Lemma step_worker_consistent (s s' : State) :
  consistent f d s -> Z.of_nat (held s) < 2 ^ 32 ->
  step_worker s = Next s' -> consistent f d s'.
Proof.
  intros [Hf Hdt Hm Hc Hfr Hrc Hpos Hin Hres Hret] Hbound Hstep.
  destruct s as [[fn dt res comp mtx rc fr] wpc cpc hd rets]. cbn in *.
  subst fn dt mtx comp fr.
  unfold step_worker, g_mutex_lock, g_mutex_unlock, j_background_operation_unref,
    access in Hstep; cbn in Hstep.
  destruct wpc; cbn in Hstep.
  - injection Hstep as <-. destruct cpc; try discriminate Hpos;
      (split; cbn; try reflexivity; try assumption; try lia; try congruence;
       intros; apply Hrc; reflexivity).
  - destruct cpc; try discriminate Hpos; cbn in Hstep; try discriminate Hstep;
      injection Hstep as <-;
      (split; cbn; try reflexivity; try assumption; try lia; try congruence;
       solve [intros; apply Hrc; reflexivity | intros; apply Hres; discriminate]).
  - injection Hstep as <-. destruct cpc; try discriminate Hpos;
      (split; cbn; try reflexivity; try assumption; try lia; try congruence;
       solve [intros; apply Hrc; reflexivity | intros; apply Hres; discriminate]).
  - injection Hstep as <-. destruct cpc; try discriminate Hpos;
      (split; cbn; try reflexivity; try assumption; try lia; try congruence;
       solve [intros; apply Hrc; reflexivity | intros; apply Hres; discriminate
             | intros; apply Hin; discriminate]).
  - injection Hstep as <-. destruct cpc; try discriminate Hpos;
      (split; cbn; try reflexivity; try assumption; try lia; try congruence;
       solve [intros; apply Hrc; reflexivity | intros; apply Hres; discriminate]).
  - specialize (Hrc eq_refl). cbn -[Z.of_nat] in Hrc. subst rc.
    assert (Hres' : res = f d) by (apply Hres; discriminate).
    rewrite dec_and_test, to_gint_dec in Hstep by lia.
    destruct hd as [|n].
    + cbn in Hstep. injection Hstep as <-.
      destruct cpc; try discriminate Hpos;
        try (exfalso; specialize (Hin ltac:(discriminate)); lia).
      split; cbn; try reflexivity; try assumption; try lia; try congruence.
    + replace (Z.eqb (Z.of_nat (S n) + 1) 1) with false in Hstep
        by (symmetry; apply Z.eqb_neq; lia).
      cbn -[Z.of_nat] in Hstep. injection Hstep as <-.
      destruct cpc; try discriminate Hpos;
        (split; cbn -[Z.of_nat]; try reflexivity; try assumption; try lia;
         try congruence; try (intros; f_equal; lia)).
  - discriminate Hstep.
Qed.

Lemma step_wait_consistent (s s' : State) :
  consistent f d s -> step_wait s = Next s' -> consistent f d s'.
Proof.
  intros [Hf Hdt Hm Hc Hfr Hrc Hpos Hin Hres Hret] Hstep.
  destruct s as [[fn dt res comp mtx rc fr] wpc cpc hd rets]. cbn in *.
  subst fn dt mtx comp fr.
  unfold step_wait, g_mutex_lock, g_mutex_unlock, access in Hstep; cbn in Hstep.
  destruct cpc; cbn in Hstep; try discriminate Hstep;
    specialize (Hin ltac:(discriminate));
    (destruct hd as [|n]; [lia |]);
    destruct wpc; try discriminate Hpos; cbn in Hstep; try discriminate Hstep;
    injection Hstep as <-;
    (split; cbn -[Z.of_nat]; try reflexivity; try assumption; try lia;
     try congruence;
     try solve [intros; apply Hrc; reflexivity]).
  all: try (apply Forall_app; split; [assumption |];
            constructor; [| constructor]; apply Hres; discriminate).
Qed.

Lemma step_consistent (m : move) (s s' : State) :
  consistent f d s -> Z.of_nat (held s) < 2 ^ 32 ->
  step m s = Next s' -> consistent f d s'.
Proof.
  intros Hs Hbound Hstep. destruct m; cbn [step] in Hstep.
  - exact (step_worker_consistent s s' Hs Hbound Hstep).
  - destruct Hs as [Hf Hdt Hm Hc Hfr Hrc Hpos Hin Hres Hret].
    destruct s as [[fn dt res comp mtx rc fr] wpc cpc hd rets]. cbn in *.
    subst fn dt mtx comp fr.
    unfold calling, j_background_operation_ref, access in Hstep; cbn in Hstep.
    destruct cpc; try discriminate Hstep.
    destruct hd as [|n]; [discriminate Hstep |].
    destruct wpc; cbn -[Z.of_nat] in Hstep; injection Hstep as <-;
      (split; cbn -[Z.of_nat]; try reflexivity; try assumption; try lia;
       try congruence;
       intros; rewrite Hrc by reflexivity; cbn -[Z.of_nat];
       rewrite to_gint_inc; f_equal; lia).
  - destruct Hs as [Hf Hdt Hm Hc Hfr Hrc Hpos Hin Hres Hret].
    destruct s as [[fn dt res comp mtx rc fr] wpc cpc hd rets]. cbn in *.
    subst fn dt mtx comp fr.
    unfold calling, j_background_operation_unref, access in Hstep; cbn in Hstep.
    destruct cpc; try discriminate Hstep.
    destruct hd as [|n]; [discriminate Hstep |].
    assert (Hrc' : rc = to_gint (Z.of_nat (S n) + worker_share wpc))
      by (apply Hrc; destruct wpc; reflexivity).
    subst rc.
    rewrite dec_and_test, to_gint_dec in Hstep
      by (destruct wpc; cbn -[Z.of_nat]; lia).
    destruct wpc; cbn -[Z.of_nat Z.eqb] in Hstep;
      try (replace (Z.eqb (Z.of_nat (S n) + 1) 1) with false in Hstep
             by (symmetry; apply Z.eqb_neq; lia);
           cbn -[Z.of_nat] in Hstep; injection Hstep as <-;
           split; cbn -[Z.of_nat]; try reflexivity; try assumption; try lia;
           try congruence; try discriminate; try (intros; lia);
           try (intros; f_equal; lia)).
    destruct n as [|n].
    + cbn in Hstep. injection Hstep as <-.
      split; cbn; try reflexivity; try assumption; try lia; try congruence;
        try discriminate.
    + replace (Z.eqb (Z.of_nat (S (S n)) + 0) 1) with false in Hstep
        by (symmetry; apply Z.eqb_neq; lia).
      cbn -[Z.of_nat] in Hstep. injection Hstep as <-.
      split; cbn -[Z.of_nat]; try reflexivity; try assumption; try lia;
        try congruence; try discriminate; try (intros; lia);
        try (intros; f_equal; lia).
  - destruct Hs as [Hf Hdt Hm Hc Hfr Hrc Hpos Hin Hres Hret].
    destruct s as [[fn dt res comp mtx rc fr] wpc cpc hd rets]. cbn in *.
    subst fn dt mtx comp fr.
    unfold calling in Hstep; cbn in Hstep.
    destruct cpc; try discriminate Hstep.
    destruct hd as [|n]; [discriminate Hstep |].
    injection Hstep as <-.
    destruct wpc; split; cbn -[Z.of_nat]; try reflexivity; try assumption;
      try lia; try congruence.
  - exact (step_wait_consistent s s' Hs Hstep).
  - destruct Hs as [Hf Hdt Hm Hc Hfr Hrc Hpos Hin Hres Hret].
    destruct s as [[fn dt res comp mtx rc fr] wpc cpc hd rets]. cbn in *.
    subst fn dt mtx comp fr.
    destruct cpc; try discriminate Hstep. injection Hstep as <-.
    destruct wpc; try discriminate Hpos;
      (split; cbn -[Z.of_nat]; try reflexivity; try assumption; try lia;
       try congruence; try (intros; apply Hin; discriminate)).
Qed.

Lemma step_safe (m : move) (s : State) :
  consistent f d s -> step m s <> UseAfterFree.
Proof.
  intros [Hf Hdt Hm Hc Hfr Hrc Hpos Hin Hres Hret].
  destruct s as [[fn dt res comp mtx rc fr] wpc cpc hd rets]. cbn in *.
  subst fn dt mtx comp fr.
  destruct m; cbn; unfold step_worker, step_wait, calling, g_mutex_lock,
    g_mutex_unlock, j_background_operation_ref, j_background_operation_unref,
    access; cbn.
  - destruct wpc, cpc; try discriminate Hpos; cbn; try discriminate.
    all: destruct (Z.eqb _ 0); discriminate.
  - destruct cpc; try discriminate. destruct hd; [discriminate |].
    destruct wpc; discriminate.
  - destruct cpc; try discriminate. destruct hd; [discriminate |].
    destruct wpc; cbn; destruct (Z.eqb _ 0); discriminate.
  - destruct cpc; try discriminate. destruct hd; discriminate.
  - destruct cpc; try discriminate; specialize (Hin ltac:(discriminate));
      (destruct hd; [lia |]);
      destruct wpc; try discriminate Hpos; cbn; discriminate.
  - destruct cpc; discriminate.
Qed.

(** Only [j_background_operation_ref] gives the caller a reference. *)
Lemma step_held (m : move) (s s' : State) :
  step m s = Next s' -> (held s' <= held s + refs [m])%nat.
Proof.
  destruct s as [[fn dt res comp mtx rc fr] wpc cpc hd rets].
  destruct m; cbn [step refs List.filter length];
    unfold step_worker, step_wait, calling, g_mutex_lock, g_mutex_unlock,
      j_background_operation_ref, j_background_operation_unref, access, map_next;
    cbn -[Z.eqb to_gint].
  - destruct wpc, fr; cbn -[Z.eqb to_gint]; try discriminate;
      try (destruct mtx; try discriminate);
      try (destruct (Z.eqb _ 0)); try (destruct cpc);
      intros [= <-]; cbn; lia.
  - destruct cpc; try discriminate. destruct hd; [discriminate |].
    destruct fr; [discriminate |]. intros [= <-]. cbn. lia.
  - destruct cpc; try discriminate. destruct hd; [discriminate |].
    destruct fr; [discriminate |]. cbn -[Z.eqb to_gint].
    destruct (Z.eqb _ 0); intros [= <-]; cbn; lia.
  - destruct cpc; try discriminate. destruct hd; [discriminate |].
    intros [= <-]. cbn. lia.
  - destruct cpc, fr; cbn; try discriminate;
      try (destruct mtx; try discriminate); try (destruct comp);
      intros [= <-]; cbn; lia.
  - destruct cpc; try discriminate. intros [= <-]. cbn. lia.
Qed.

Lemma refs_cons (m : move) (moves : list move) :
  refs (m :: moves) = (refs [m] + refs moves)%nat.
Proof. unfold refs. cbn [List.filter]. destruct m; reflexivity. Qed.

Lemma run_consistent (moves : list move) (s : State) :
  consistent f d s ->
  Z.of_nat (held s) + Z.of_nat (refs moves) < 2 ^ 32 ->
  exists s',
    run moves s = Next s' /\ consistent f d s'
    /\ (held s' <= held s + refs moves)%nat.
Proof.
  revert s. induction moves as [|m moves IH]; intros s Hs Hbound.
  - exists s. split; [reflexivity |]. split; [exact Hs | lia].
  - cbn [run]. rewrite refs_cons in Hbound |- *.
    pose proof (step_safe m s Hs) as Hsafe.
    pose proof (step_consistent m s) as Hnext.
    pose proof (step_held m s) as Hheld.
    destruct (step m s) as [s1| |].
    + specialize (Hheld s1 eq_refl).
      destruct (IH s1 (Hnext s1 Hs ltac:(lia) eq_refl) ltac:(lia))
        as (s' & Hrun & Hs' & Hle).
      exists s'. split; [exact Hrun |]. split; [exact Hs' | lia].
    + destruct (IH s Hs ltac:(lia)) as (s' & Hrun & Hs' & Hle).
      exists s'. split; [exact Hrun |]. split; [exact Hs' | lia].
    + contradiction.
Qed.

Lemma run_app (moves1 moves2 : list move) (s : State) :
  run (moves1 ++ moves2) s
  = match run moves1 s with
    | Next s' => run moves2 s'
    | r => r
    end.
Proof.
  revert s. induction moves1 as [|m moves1 IH]; intros s; [reflexivity |].
  cbn [app run]. destruct (step m s); try reflexivity; apply IH.
Qed.

Lemma run_refs (n : nat) :
  run (replicate n Ref) (j_background_operation_new f d) = Next (after_refs f d n).
Proof.
  assert (Hfrom : forall k,
             run (replicate n Ref) (after_refs f d k)
             = Next (after_refs f d (k + n))).
  { induction n as [|n IH]; intros k.
    - cbn [replicate run]. rewrite Nat.add_0_r. reflexivity.
    - cbn [replicate run step]. unfold calling, j_background_operation_ref, access.
      cbn -[Z.of_nat to_gint]. rewrite to_gint_inc.
      replace (2 + Z.of_nat k + 1) with (2 + Z.of_nat (S k)) by lia.
      change (run (replicate n Ref) (after_refs f d (S k))
              = Next (after_refs f d (k + S n))).
      rewrite IH. f_equal. f_equal. lia. }
  exact (Hfrom 0%nat).
Qed.

(** With a reference count of 1 while the caller holds references, the
    worker's [_unref] gives the memory back, and the caller's next call
    uses it. *)
Lemma worker_frees_early (n : nat) (s : State) :
  s = {| operation := {| func := f; data := d; result := 0;
                         completed := false; mutex := None;
                         ref_count := 1; freed := false |};
         worker := W_call; caller := C_idle; held := S n; returned := [] |} ->
  run [Work; Work; Work; Work; Work; Work; Ref] s = UseAfterFree.
Proof. intros ->. reflexivity. Qed.

(** X18. However the worker and a caller that calls only with a
    reference it holds are interleaved, and whenever [g_cond_wait] wakes
    without a signal, as long as the schedule has fewer than 2^32 - 1 calls
    of [j_background_operation_ref] (so that the caller never holds 2^32
    references): no statement of [j_background_operation_thread], [_ref],
    [_unref] or [_wait] reads or writes the operation after its memory was
    given back. The memory is given back exactly when the caller holds no
    reference and the worker has dropped its own, so that it is neither
    kept for ever nor given back while the worker still runs; until then
    the reference count is, as a [gint], the number of references the
    caller holds, plus one while the worker has not dropped its own.
    Whatever [j_background_operation_wait] returned is the result of [func]
    on [data]. The bound is needed: [ref_count] being a [gint], after
    2^32 - 1 calls of [_ref] it has wrapped around to 1, the worker's
    [_unref] gives the memory back, and the caller's next call reads it. *)
Theorem no_use_after_free_and_no_leak (moves : list move) :
  (Z.of_nat (refs moves) + 1 < 2 ^ 32 ->
   exists s,
     run moves (j_background_operation_new f d) = Next s
     /\ (freed (operation s) = true <-> (held s = 0%nat /\ worker s = W_done))
     /\ (freed (operation s) = false ->
         ref_count (operation s)
         = to_gint (Z.of_nat (held s) + worker_share (worker s)))
     /\ (held s <= 1 + refs moves)%nat
     /\ mutex (operation s) = holder (worker s) (caller s)
     /\ Forall (fun v => v = f d) (returned s))
  /\ run (refs_then_worker (Z.to_nat (2 ^ 32 - 1))) (j_background_operation_new f d)
     = UseAfterFree.
Proof.
  split.
  - intros Hfew.
    destruct (run_consistent moves _ new_consistent)
      as (s & Hrun & [Hf Hdt Hm Hc Hfr Hrc Hpos Hin Hres Hret] & Hle);
      [cbn [held j_background_operation_new]; lia |].
    exists s. split; [exact Hrun |]. split; [| split; [exact Hrc |
      split; [exact Hle | split; [exact Hm | exact Hret]]]].
    rewrite Hfr. destruct (worker s), (held s); cbn; split;
      try discriminate; try (intros [? ?]; discriminate); try (split; reflexivity);
      reflexivity.
  - unfold refs_then_worker. rewrite run_app, run_refs.
    apply (worker_frees_early (Z.to_nat (2 ^ 32 - 1))).
    unfold after_refs. rewrite Z2Nat.id by (vm_compute; discriminate).
    reflexivity.
Qed.

(** One turn of the worker and the caller while the caller is in
    [j_background_operation_wait]. *)
Lemma turn_in_wait (s : State) :
  consistent f d s -> Z.of_nat (held s) < 2 ^ 32 -> caller s <> C_idle ->
  exists s1,
    run [Work; Go] s = Next s1
    /\ ((caller s1 = C_idle /\ returned s1 = (returned s ++ [f d])%list)
        \/ (caller s1 <> C_idle /\ returned s1 = returned s
            /\ (remaining s1 < remaining s)%nat)).
Proof.
  intros [Hf Hdt Hm Hc Hfr Hrc Hpos Hin Hres Hret] Hbound Hcaller.
  specialize (Hin Hcaller).
  destruct s as [[fn dt res comp mtx rc fr] wpc cpc hd rets].
  cbn -[Z.of_nat Z.lt Z.pow] in *.
  subst fn dt mtx comp fr.
  destruct hd as [|n]; [lia |].
  specialize (Hrc ltac:(destruct wpc; reflexivity)). subst rc.
  unfold remaining, caller_left, run, step, step_worker, step_wait, g_mutex_lock,
    g_mutex_unlock, j_background_operation_unref, access, map_next.
  destruct wpc, cpc; try discriminate Hpos; try congruence;
    cbn -[Z.of_nat Z.eqb];
    try (rewrite dec_and_test by lia;
         replace (Z.eqb (Z.of_nat (S n) + 1) 1) with false
           by (symmetry; apply Z.eqb_neq; lia));
    cbn -[Z.of_nat Z.eqb];
    eexists; (split; [reflexivity |]); cbn;
    first [ left; split; [reflexivity |]; f_equal; f_equal; apply Hres; discriminate
          | right; split; [discriminate |]; split; [reflexivity | lia] ].
Qed.

Lemma turn_when_idle (s : State) :
  consistent f d s -> caller s = C_idle ->
  exists s1,
    run [Work; Go] s = Next s1 /\ caller s1 = C_idle /\ returned s1 = returned s.
Proof.
  intros Hs Hidle.
  pose proof (step_safe Work s Hs) as Hsafe.
  destruct s as [[fn dt res comp mtx rc fr] wpc cpc hd rets]. cbn in *. subst cpc.
  unfold run, step, step_worker, step_wait, g_mutex_lock,
    g_mutex_unlock, j_background_operation_unref, access, map_next in *.
  destruct wpc; cbn in *; destruct fr; cbn in *; try contradiction;
    try (destruct mtx; cbn); try (destruct (Z.eqb _ 0); cbn);
    eexists; (split; [reflexivity |]); split; reflexivity.
Qed.

Lemma in_turn_step (k : nat) (s : State) :
  run (in_turn (S k)) s
  = match run [Work; Go] s with
    | Next s1 => run (in_turn k) s1
    | r => r
    end.
Proof.
  unfold in_turn. cbn [replicate concat app run].
  destruct (step Work s) as [s1| |]; [| | reflexivity].
  - destruct (step Go s1); reflexivity.
  - destruct (step Go s); reflexivity.
Qed.

Lemma in_turn_idle (n : nat) :
  forall s,
    consistent f d s -> Z.of_nat (held s) < 2 ^ 32 -> caller s = C_idle ->
    exists s',
      run (in_turn n) s = Next s' /\ caller s' = C_idle
      /\ returned s' = returned s.
Proof.
  induction n as [|n IH]; intros s Hs Hbound Hidle.
  - exists s. repeat split. exact Hidle.
  - rewrite in_turn_step.
    destruct (turn_when_idle s Hs Hidle) as (s1 & Hrun1 & Hidle1 & Hret1).
    destruct (run_consistent [Work; Go] s Hs) as (s1' & Hrun1' & Hs1 & Hle);
      [cbn [refs List.filter length]; lia |].
    rewrite Hrun1 in Hrun1'. injection Hrun1' as <-. rewrite Hrun1.
    cbn [refs List.filter length] in Hle.
    destruct (IH s1 Hs1 ltac:(lia) Hidle1) as (s' & Hrun & Hidle' & Hret').
    exists s'. split; [exact Hrun |]. split; [exact Hidle' | congruence].
Qed.

Lemma in_turn_returns (n : nat) :
  forall s,
    consistent f d s -> Z.of_nat (held s) < 2 ^ 32 ->
    caller s <> C_idle -> (remaining s <= n)%nat ->
    exists s',
      run (in_turn n) s = Next s' /\ caller s' = C_idle
      /\ returned s' = (returned s ++ [f d])%list.
Proof.
  induction n as [|n IH]; intros s Hs Hbound Hwait Hle.
  - exfalso. unfold remaining, caller_left in Hle.
    destruct (caller s); try congruence; try lia;
      destruct (completed (operation s)); lia.
  - rewrite in_turn_step.
    destruct (turn_in_wait s Hs Hbound Hwait) as (s1 & Hrun1 & Hcase).
    destruct (run_consistent [Work; Go] s Hs) as (s1' & Hrun1' & Hs1 & Hheld);
      [cbn [refs List.filter length]; lia |].
    rewrite Hrun1 in Hrun1'. injection Hrun1' as <-. rewrite Hrun1.
    cbn [refs List.filter length] in Hheld.
    destruct Hcase as [[Hidle1 Hret1] | (Hwait1 & Hret1 & Hless)].
    + destruct (in_turn_idle n s1 Hs1 ltac:(lia) Hidle1)
        as (s' & Hrun & Hidle' & Hret').
      exists s'. split; [exact Hrun |]. split; [exact Hidle' | congruence].
    + destruct (IH s1 Hs1 ltac:(lia) Hwait1 ltac:(lia))
        as (s' & Hrun & Hidle' & Hret').
      exists s'. split; [exact Hrun |]. split; [exact Hidle' | congruence].
Qed.

(** A statement of the worker or of the caller in [_wait] brings the end
    nearer. *)
Lemma step_nearer (m : move) (s s' : State) :
  consistent f d s -> m = Work \/ m = Go ->
  step m s = Next s' -> (remaining s' < remaining s)%nat.
Proof.
  intros [Hf Hdt Hm Hc Hfr Hrc Hpos Hin Hres Hret] Hmove Hstep.
  destruct s as [[fn dt res comp mtx rc fr] wpc cpc hd rets]. cbn in *.
  subst fn dt mtx comp fr.
  unfold remaining, caller_left.
  destruct Hmove as [-> | ->]; cbn [step] in Hstep;
    unfold step_worker, step_wait, g_mutex_lock, g_mutex_unlock,
      j_background_operation_unref, access, map_next in Hstep;
    destruct wpc, cpc; try discriminate Hpos; cbn in Hstep;
    try discriminate Hstep;
    repeat match type of Hstep with
           | context [all_released ?w ?h] => destruct h; cbn in Hstep
           | context [if ?b then _ else _] => destruct b; cbn in Hstep
           end;
    try discriminate Hstep;
    injection Hstep as <-; cbn; lia.
Qed.

Lemma step_enabled (s : State) :
  consistent f d s -> caller s <> C_idle ->
  is_next (step Work s) || is_next (step Go s) = true.
Proof.
  intros [Hf Hdt Hm Hc Hfr Hrc Hpos Hin Hres Hret] Hcaller.
  specialize (Hin Hcaller).
  destruct s as [[fn dt res comp mtx rc fr] wpc cpc hd rets]. cbn in *.
  subst fn dt mtx comp fr.
  destruct hd as [|n]; [lia |].
  unfold step, step_worker, step_wait, g_mutex_lock, g_mutex_unlock,
    j_background_operation_unref, access, map_next.
  destruct wpc, cpc; try discriminate Hpos; try congruence; cbn;
    try reflexivity; destruct (Z.eqb _ 0); reflexivity.
Qed.

(** X19. [j_background_operation_wait] cannot hang and returns the result
    of [func] on [data]: in every state that the worker and the caller can
    reach by a schedule with fewer than 2^32 - 1 calls of
    [j_background_operation_ref] (the reference count, a [gint], has then
    not wrapped around), with the caller inside the call, the worker or the
    caller has a statement it can execute, every statement either of them
    executes brings the return of the call nearer (at most 13 remain), and
    so the call returns once each has been given that many turns. In
    particular the caller never sleeps in [g_cond_wait] after the signal
    was sent: while it sleeps the worker has yet to execute
    [g_cond_signal]; and a wake-up without a signal only sends it through
    the loop once more. *)
Theorem wait_returns_the_result (moves : list move) (s : State) :
  reaches f d moves s ->
  Z.of_nat (refs moves) + 1 < 2 ^ 32 ->
  caller s <> C_idle ->
  is_next (step Work s) || is_next (step Go s) = true
  /\ (forall m s', m = Work \/ m = Go -> step m s = Next s' ->
        (remaining s' < remaining s <= 13)%nat)
  /\ (caller s = C_sleep ->
      worker s = W_call \/ worker s = W_lock \/ worker s = W_set
      \/ worker s = W_signal)
  /\ exists s',
       run (in_turn (remaining s)) s = Next s'
       /\ caller s' = C_idle /\ returned s' = (returned s ++ [f d])%list.
Proof.
  intros Hreach Hfew Hwait.
  destruct (run_consistent moves _ new_consistent) as (s0 & Hrun & Hs & Hheld);
    [cbn [held j_background_operation_new]; lia |].
  unfold reaches in Hreach. rewrite Hreach in Hrun. injection Hrun as <-.
  cbn [held j_background_operation_new] in Hheld.
  split; [exact (step_enabled s Hs Hwait) |].
  split; [| split].
  - intros m s' Hm Hstep. split; [exact (step_nearer m s s' Hs Hm Hstep) |].
    unfold remaining, caller_left, worker_left.
    destruct (worker s), (caller s); try destruct (completed (operation s)); lia.
  - intros Hsleep. pose proof (positions f d s Hs) as Hpos.
    rewrite Hsleep in Hpos. destruct (worker s); try discriminate Hpos; tauto.
  - apply in_turn_returns; [exact Hs | lia | exact Hwait | lia].
Qed.

End Runs.

Lemma no_use_after_free_and_no_leak_witness :
  exists s,
    run [Ref; Wait; Go; Go; Work; Work; Work; Work; Work; Work; Go; Go; Go; Go;
         Unref; Unref]
      (j_background_operation_new example_func 3) = Next s
    /\ freed (operation s) = true /\ returned s = [10].
Proof.
  destruct (proj1 (no_use_after_free_and_no_leak example_func 3
                     [Ref; Wait; Go; Go; Work; Work; Work; Work; Work; Work; Go; Go; Go;
                      Go; Unref; Unref]))
    as (s & Hrun & _).
  - vm_compute. reflexivity.
  - exists s. split; [exact Hrun |].
    vm_compute in Hrun. injection Hrun as <-. split; reflexivity.
Defined.

Lemma wait_returns_the_result_witness :
  run [Wait; Go; Go; Spurious; Go; Go] (j_background_operation_new example_func 3)
  = Next asleep
  /\ exists s',
       run (in_turn 11) asleep = Next s'
       /\ caller s' = C_idle /\ returned s' = [10].
Proof.
  split; [reflexivity |].
  destruct (wait_returns_the_result example_func 3
              [Wait; Go; Go; Spurious; Go; Go] asleep)
    as (_ & _ & _ & s' & Hrun & Hidle & Hret).
  - reflexivity.
  - vm_compute. reflexivity.
  - discriminate.
  - exists s'. split; [exact Hrun |]. split; [exact Hidle | exact Hret].
Defined.

End BackgroundFacts.

(** ** Callbacks of a get run *)

Module DeliveryFacts.

Import Configuration Client.
Import LevelDBTerms ExecTerms LocalTerms DeliveryTerms.

Section Callbacks.

Variable FLAG : Z.
Variable disk : string -> option LevelDB.leveldb_t.
Variable db : LevelDB.leveldb_t.

Local Abbreviation LB := LevelDB.Backend.
Local Abbreviation LH := LevelDB.JLevelDBBatch.
Local Abbreviation plugin := (LevelDBPlugin.leveldb_backend disk).

Lemma kv_get_loop_callbacks (operations : list JKVGet) :
  Forall has_destination operations ->
  forall ret_ message (w : World LB),
    LevelDB.backend_db (backend w) = Some db ->
    exists w',
      kv_get_loop (H := LH) (Some plugin) operations ret_ message w
      = Returned (forallb (found db) operations && ret_, message, w')
      /\ callbacks w'
         = (callbacks w
            ++ if ret_
               then callbacks_of (map (with_stored db) (before_miss db operations))
               else [])%list.
Proof.
  induction 1 as [|kop operations Hd Hall IH]; intros ret_ message w Hdb.
  - exists w. split; [reflexivity |]. cbn. destruct ret_; symmetry; apply app_nil_r.
  - cbn [kv_get_loop forallb before_miss].
    assert (Hfound : found db kop = hit (stored_value db kop)) by reflexivity.
    destruct (get_func kop) as [f|] eqn:Ef.
    + unfold bind at 1. rewrite (ExecFacts.leveldb_kv_get disk db kop w Hdb).
      destruct (stored_value db kop) as [v|] eqn:Ev; cbn [hit] in Hfound;
        rewrite Hfound; cbn [andb].
      * destruct ret_.
        -- unfold bind at 1. unfold call_get_func at 1.
           destruct (IH true message
                       (mkWorld (backend w) (counters w) (documents w) (buffers w)
                          (callbacks w ++ [(f, get_data kop, v)]) (wire w)
                          (incoming w) (criticals w)) Hdb)
             as (w' & -> & Hcb).
           cbn [callbacks] in Hcb.
           exists w'. split; [reflexivity |]. rewrite Hcb.
           cbn [map callbacks_of flat_map with_stored fst snd]. rewrite Ev, Ef.
           rewrite <- app_assoc. reflexivity.
        -- destruct (IH false message w Hdb) as (w' & -> & Hcb).
           exists w'. split; [reflexivity | exact Hcb].
      * destruct (IH false message w Hdb) as (w' & -> & Hcb).
        exists w'. split; [rewrite andb_false_r; reflexivity |].
        rewrite Hcb. destruct ret_; reflexivity.
    + destruct (get_value kop) as [value|] eqn:Eval;
        [| unfold has_destination in Hd; rewrite Ef, Eval in Hd;
           destruct Hd as [[? Hx] | [? Hx]]; discriminate Hx].
      cbn [is_null]. unfold bind at 1.
      rewrite (ExecFacts.leveldb_kv_get disk db kop w Hdb).
      destruct (stored_value db kop) as [v|] eqn:Ev; cbn [hit] in Hfound;
        rewrite Hfound; cbn [andb].
      * unfold bind at 1. unfold bson_copy_to at 1.
        destruct (IH ret_ message
                    (mkWorld (backend w) (counters w) (<[value := v]> (documents w))
                       (buffers w) (callbacks w) (wire w) (incoming w)
                       (criticals w)) Hdb)
          as (w' & -> & Hcb).
        cbn [callbacks] in Hcb.
        exists w'. split; [reflexivity |]. rewrite Hcb.
        cbn [map callbacks_of flat_map with_stored fst snd]. rewrite Ev, Ef.
        reflexivity.
      * destruct (IH false message w Hdb) as (w' & -> & Hcb).
        exists w'. split; [rewrite andb_false_r; reflexivity |].
        rewrite Hcb. destruct ret_; reflexivity.
Qed.

Lemma before_miss_app (before after : list JKVGet) (missing : JKVGet) :
  forallb (found db) before = true -> found db missing = false ->
  before_miss db (before ++ missing :: after) = before.
Proof.
  induction before as [|kop before IH]; intros Hall Hmiss.
  - cbn. rewrite Hmiss. reflexivity.
  - cbn [forallb] in Hall. apply andb_true_iff in Hall as [Hk Hall].
    cbn [app before_miss]. rewrite Hk, (IH Hall Hmiss). reflexivity.
Qed.

Lemma zip_with_stored (operations : list JKVGet) :
  zip operations (map (stored_value db) operations)
  = map (with_stored db) operations.
Proof.
  induction operations as [|kop operations IH]; [reflexivity |].
  cbn. rewrite <- IH. reflexivity.
Qed.

Lemma deliverable_stored (operations : list JKVGet) :
  Forall has_destination operations ->
  Forall (fun kop => stored_value db kop <> Some []) operations ->
  Forall2 deliverable operations (map (stored_value db) operations).
Proof.
  induction 1 as [|kop operations Hd Hall IH]; intros Hne; [constructor |].
  apply Forall_cons in Hne as [Hk Hne]. cbn [map]. constructor; [| exact (IH Hne)].
  unfold deliverable. destruct (stored_value db kop) as [v|]; [| exact I].
  split; [congruence | exact Hd].
Qed.

(** X20. A get run on the LevelDB plug-in loaded in-process, whose
    operations have a callback or a document to fill, calls the callbacks
    of the operations before its first miss only, in order and with the
    stored values: once a key was not found, the callback of no later
    operation is called, although its key may be stored. Over the wire the
    same run, answered with the same values, calls the callback of every
    operation whose key is stored. Both return [TRUE] exactly when no key
    is missing. *)
Theorem local_callbacks_stop_at_first_miss
    (common : @JCommon LB LH) (w : World LB) kop operations semantics :
  common_kv_backend common = Some plugin ->
  LevelDB.backend_db (backend w) = Some db ->
  Forall has_destination (kop :: operations) ->
  (exists w',
      j_kv_get_exec FLAG (Some common) (Some (kop :: operations)) (Some semantics) w
      = Returned (forallb (found db) (kop :: operations), w')
      /\ callbacks w'
         = (callbacks w
            ++ callbacks_of (map (with_stored db)
                               (before_miss db (kop :: operations))))%list
      /\ (forall before missing after,
            kop :: operations = (before ++ missing :: after)%list ->
            forallb (found db) before = true -> found db missing = false ->
            callbacks w'
            = (callbacks w ++ callbacks_of (map (with_stored db) before))%list))
  /\ (forall (B' H' : Type) (common' : @JCommon B' H') (w0 : World B') reply rest,
        common_kv_backend common' = None ->
        Forall (fun kop => stored_value db kop <> Some []) (kop :: operations) ->
        incoming w0 = reply :: rest ->
        msg_fields reply
        = reply_fields (map (stored_value db) (kop :: operations)) ->
        exists w0',
          j_kv_get_exec FLAG (Some common') (Some (kop :: operations))
            (Some semantics) w0
          = Returned (forallb (found db) (kop :: operations), w0')
          /\ callbacks w0'
             = (callbacks w0
                ++ callbacks_of (map (with_stored db) (kop :: operations)))%list).
Proof.
  intros Hbackend Hdb Hall. split.
  - unfold j_kv_get_exec, j_kv_backend. rewrite Hbackend.
    unfold bind at 1. unfold ret at 1. unfold bind at 1.
    destruct (kv_get_loop_callbacks (kop :: operations) Hall true
                (j_message_append
                   (j_message_set_safety FLAG (j_message_new J_MESSAGE_KV_GET)
                      semantics)
                   (FString (kv_namespace (get_kv kop)))) w Hdb)
      as (w' & -> & Hcb).
    exists w'. rewrite andb_true_r. split; [reflexivity |].
    split; [exact Hcb |].
    intros before missing after Hsplit Hbefore Hmiss.
    rewrite Hcb, Hsplit, (before_miss_app before after missing Hbefore Hmiss).
    reflexivity.
  - intros B' H' common' w0 reply rest Hnone Hne Hin Hfields.
    destruct (ExecFacts.kv_get_exec_wire FLAG common' kop operations
                (map (stored_value db) (kop :: operations)) semantics reply rest w0
                Hnone (deliverable_stored (kop :: operations) Hall Hne) Hin Hfields)
      as (message & w0' & Hrun & _ & _ & _ & _ & _ & _ & Hcb & _).
    exists w0'. split.
    + rewrite Hrun. f_equal. f_equal. unfold found.
      clear. induction (kop :: operations) as [|k l IH]; [reflexivity |].
      cbn [map forallb]. rewrite IH. reflexivity.
    + rewrite Hcb, zip_with_stored. reflexivity.
Qed.

End Callbacks.

Lemma local_callbacks_stop_at_first_miss_witness :
  (exists w',
      j_kv_get_exec 2 (Some (leveldb_common empty_disk))
        (Some [get_with "zebra" 7 1; get_with "alpha" 7 2])
        (Some {| sem_safety := J_SEMANTICS_SAFETY_NONE |}) populated_world
      = Returned (false, w')
      /\ callbacks w' = [])
  /\ (exists w0',
        j_kv_get_exec 2 (Some HandleTerms.example_common)
          (Some [get_with "zebra" 7 1; get_with "alpha" 7 2])
          (Some {| sem_safety := J_SEMANTICS_SAFETY_NONE |})
          (awaiting [reply_of [None; Some (example_document Byte.x01)]])
        = Returned (false, w0')
        /\ callbacks w0' = [(7, 2, example_document Byte.x01)]).
Proof.
  destruct (local_callbacks_stop_at_first_miss 2 empty_disk example_database
              (leveldb_common empty_disk) populated_world
              (get_with "zebra" 7 1) [get_with "alpha" 7 2]
              {| sem_safety := J_SEMANTICS_SAFETY_NONE |})
    as ((w' & Hrun & Hcb & _) & Hwire).
  - reflexivity.
  - reflexivity.
  - constructor; [left; eexists; reflexivity |].
    constructor; [left; eexists; reflexivity | constructor].
  - split.
    + exists w'. split; [exact Hrun | exact Hcb].
    + destruct (Hwire unit unit HandleTerms.example_common
                  (awaiting [reply_of [None; Some (example_document Byte.x01)]])
                  (reply_of [None; Some (example_document Byte.x01)]) [])
        as (w0' & Hrun0 & Hcb0).
      * reflexivity.
      * constructor; [discriminate |]. constructor; [discriminate | constructor].
      * reflexivity.
      * reflexivity.
      * exists w0'. split; [exact Hrun0 | exact Hcb0].
Defined.

End DeliveryFacts.

(** ** Write runs on an object backend of the process *)

Module LocalWriteFacts.

Import Configuration Client.
Import ExecTerms LocalWriteTerms.

Section LocalWrites.

Context {B H : Type}.
Variable FLAG : Z.
Variable v : @JBackendObject B H.
Variable h : H.

Hypothesis writes_all :
  forall data length offset before b,
    exists b',
      object_write v h data length offset before b
      = Returned (true, wrap64 (before + length), b').

Lemma object_write_loop_local semantics (operations : list JObjectWrite) :
  forall ret_ message (w : World B),
    exists w',
      object_write_loop (Some (ObjectBackend v)) (Pointer h) semantics
        operations ret_ message w
      = Returned (ret_, message, w')
      /\ counters w'
         = add_counters
             (if decide (sem_safety semantics = J_SEMANTICS_SAFETY_NONE)
              then twice (write_lengths operations)
              else write_lengths operations) (counters w)
      /\ wire w' = wire w /\ incoming w' = incoming w
      /\ criticals w' = criticals w.
Proof.
  induction operations as [|op rest IH]; intros ret_ message w.
  - exists w. split; [reflexivity |]. cbn. destruct (decide _); repeat split.
  - cbn [object_write_loop]. unfold bind at 1. unfold bind at 1.
    unfold j_backend_object_write. unfold bind at 1. unfold on_backend at 1.
    destruct (writes_all (write_data op) (write_length op) (write_offset op)
                (load_counter w (write_bytes_written op)) (backend w))
      as (b' & Hwrite).
    rewrite Hwrite. unfold bind at 1. unfold store_counter at 1.
    unfold ret at 1. unfold ret at 1. cbn [andb].
    destruct (decide (sem_safety semantics = J_SEMANTICS_SAFETY_NONE)) as [Hs|Hs].
    + unfold bind at 1. rewrite ExecFacts.atomic_add_counters.
      match goal with
      | |- context [object_write_loop _ _ _ rest ret_ message ?w1] =>
          destruct (IH ret_ message w1) as (w' & -> & Hc & Hwi & Hin & Hcr)
      end.
      exists w'. split; [reflexivity |].
      cbn in Hc, Hwi, Hin, Hcr. repeat split; assumption.
    + unfold bind at 1. unfold ret at 1.
      match goal with
      | |- context [object_write_loop _ _ _ rest ret_ message ?w1] =>
          destruct (IH ret_ message w1) as (w' & -> & Hc & Hwi & Hin & Hcr)
      end.
      exists w'. split; [reflexivity |].
      cbn in Hc, Hwi, Hin, Hcr. repeat split; try assumption.
Qed.

Lemma total_for_twice (p : Z) (adds : list (Z * Z)) :
  total_for p (twice adds) = 2 * total_for p adds.
Proof.
  induction adds as [|[q n] adds IH]; [reflexivity |].
  cbn [twice flat_map app]. fold (twice adds).
  cbn [total_for fold_right fst snd].
  fold (total_for p (twice adds)). fold (total_for p adds).
  rewrite IH. destruct (decide (q = p)); lia.
Qed.

Lemma touched_twice (p : Z) (adds : list (Z * Z)) :
  p ∈ map fst adds -> p ∈ map fst (twice adds).
Proof.
  induction adds as [|[q n] adds IH]; intros Hin.
  - exact Hin.
  - cbn [twice flat_map app map fst]. fold (twice adds).
    cbn [map fst] in Hin. apply elem_of_cons in Hin as [-> | Hin].
    + left.
    + right. right. apply IH, Hin.
Qed.

(** X21. With an object backend loaded in-process that writes all the
    bytes it is given and adds their number to the caller's counter, a write
    run under safety [none] leaves each counter grown by twice the lengths
    written through it: after the backend has counted the bytes, the run
    adds the requested length once more, as it does for a frame that no
    reply will answer. Under safety [network] or [storage] each counter has
    grown by the lengths once. Nothing goes over the wire, and the run
    returns what [open] and [close] returned. *)
Theorem local_write_under_none_counts_twice
    (common : @JCommon B H) (w : World B) op operations semantics
    (opened closed : bool) (b1 : B) :
  common_object_backend common = Some (ObjectBackend v) ->
  object_open v (o_namespace (write_object op)) (o_name (write_object op)) (backend w)
  = Returned (opened, Pointer h, b1) ->
  (forall b, exists b', object_close v h b = Returned (closed, b')) ->
  let adds := write_lengths (op :: operations) in
  exists w',
    j_object_write_exec FLAG (Some common) (Some (op :: operations))
      (Some semantics) w
    = Returned (closed && opened, w')
    /\ wire w' = wire w
    /\ counters w'
       = add_counters
           (if decide (sem_safety semantics = J_SEMANTICS_SAFETY_NONE)
            then twice adds else adds) (counters w)
    /\ (forall p, p ∈ map fst adds ->
          load_counter w' p
          = wrap64 (load_counter w p
                    + (if decide (sem_safety semantics = J_SEMANTICS_SAFETY_NONE)
                       then 2 else 1) * total_for p adds)).
Proof.
  intros Hbackend Hopen Hclose adds.
  unfold j_object_write_exec, j_object_backend. rewrite Hbackend.
  unfold bind at 1. unfold ret at 1. unfold bind at 1. unfold bind at 1.
  unfold j_backend_object_open, on_backend. rewrite Hopen.
  unfold ret at 1. unfold bind at 1.
  match goal with
  | |- context [object_write_loop _ _ _ _ ?r ?m ?w1] =>
      destruct (object_write_loop_local semantics (op :: operations) r m w1)
        as (w2 & -> & Hc & Hwi & Hin & Hcr)
  end.
  cbn [counters wire] in Hc, Hwi.
  unfold bind at 1. unfold j_backend_object_close, on_backend.
  destruct (Hclose (backend w2)) as (b3 & ->). unfold ret.
  rewrite andb_true_r.
  eexists. split; [reflexivity |]. cbn [wire counters].
  split; [exact Hwi |]. split; [exact Hc |].
  intros p Hp. unfold load_counter. cbn [counters]. rewrite Hc.
  destruct (decide (sem_safety semantics = J_SEMANTICS_SAFETY_NONE)).
  - rewrite ExecFacts.add_counters_touched by (apply touched_twice, Hp).
    rewrite total_for_twice. reflexivity.
  - rewrite ExecFacts.add_counters_touched by exact Hp.
    rewrite Z.mul_1_l. reflexivity.
Qed.

End LocalWrites.

Lemma counting_backend_writes_all data length offset before b :
  exists b',
    object_write counting_backend tt data length offset before b
    = Returned (true, wrap64 (before + length), b').
Proof. exists b. reflexivity. Qed.

Lemma local_write_under_none_counts_twice_witness :
  exists w',
    j_object_write_exec 2 (Some counting_common) (Some [write_of 4])
      (Some {| sem_safety := J_SEMANTICS_SAFETY_NONE |}) HandleTerms.empty_world
    = Returned (true, w')
    /\ wire w' = []
    /\ load_counter w' 100 = 8.
Proof.
  destruct (local_write_under_none_counts_twice 2 counting_backend tt
              counting_backend_writes_all
              counting_common HandleTerms.empty_world (write_of 4) []
              {| sem_safety := J_SEMANTICS_SAFETY_NONE |} true true tt)
    as (w' & Hrun & Hwire & _ & Hcount).
  - reflexivity.
  - reflexivity.
  - intros b. exists b. reflexivity.
  - exists w'. split; [exact Hrun |]. split; [exact Hwire |].
    rewrite (Hcount 100); [reflexivity | left].
Defined.

End LocalWriteFacts.

(** ** Committed batches and what a namespace holds *)

Module CommitFacts.

Import Configuration LevelDB LevelDBTerms StoreTerms CommitTerms.
Import LevelDBFacts StoreFacts.

(** *** The encoding *)

Lemma encoded_key_nskey (ns key : string) :
  encoded_key ns key = nskey_of ns key ++ NUL.
Proof. unfold encoded_key, nskey_of, NUL. rewrite string_app_assoc. reflexivity. Qed.

Lemma encoded_updates_of (ns : string) (calls : list batch_call) :
  flat_map (encoded_updates ns) calls = flat_map (updates_of ns) calls.
Proof.
  induction calls as [|c calls IH]; [reflexivity |].
  cbn [flat_map]. rewrite IH. f_equal.
  destruct c as [[k|] [v|] | [k|]]; cbn [encoded_updates updates_of];
    rewrite ?encoded_key_nskey; reflexivity.
Qed.

(** *** One batch *)

Lemma batch_execute_state st db ns s calls :
  initialised st -> backend_db st = Some db ->
  exists st',
    backend_batch_execute (batch_of ns s calls) st = Returned (true, st')
    /\ backend_writes st'
       = (backend_writes st
          ++ [({| sync := bool_decide (s = J_SEMANTICS_SAFETY_STORAGE) |},
               flat_map (updates_of ns) calls)])%list
    /\ backend_db st'
       = Some (fold_left leveldb_apply (flat_map (updates_of ns) calls) db)
    /\ initialised st'.
Proof.
  intros (_ & Hopt & Hsync) Hdb. rewrite batch_of_updates.
  unfold backend_batch_execute. cbn [safety batch]. rewrite Hdb.
  destruct (decide (s = J_SEMANTICS_SAFETY_STORAGE)) as [-> | Hne].
  - rewrite Hsync. eexists. split; [reflexivity |].
    cbn [backend_writes backend_db]. split; [reflexivity |]. split; [reflexivity |].
    unfold initialised. cbn. eauto.
  - rewrite Hopt. eexists. split; [reflexivity |].
    cbn [backend_writes backend_db]. rewrite bool_decide_eq_false_2 by exact Hne.
    split; [reflexivity |]. split; [reflexivity |].
    unfold initialised. cbn. eauto.
Qed.

(** C6. Once [backend_init] has run, a batch started by [batch_start] for a
    namespace and filled by any calls of [put] and [delete] is committed by
    [batch_execute] through one [leveldb_write]: of the puts and deletes
    under the encoded keys [<ns>:<key>\0], in the order of the calls, which
    the database holds afterwards; with the synchronous write options when
    the batch was started with safety [storage], and with the options that
    do not sync for any other safety. The options stay as they are for the
    next batch. *)
Theorem batch_execute_syncs_iff_storage
    (st : Backend) (ns : string) (s : JSemanticsSafety) (calls : list batch_call) :
  initialised st ->
  exists db st',
    backend_db st = Some db
    /\ backend_batch_execute
         (fold_left apply_call calls (snd (backend_batch_start (Some ns) s))) st
       = Returned (true, st')
    /\ backend_writes st'
       = (backend_writes st
          ++ [({| sync := bool_decide (s = J_SEMANTICS_SAFETY_STORAGE) |},
               flat_map (encoded_updates ns) calls)])%list
    /\ backend_db st'
       = Some (fold_left leveldb_apply (flat_map (encoded_updates ns) calls) db)
    /\ backend_write_options_sync st' = Some {| sync := true |}
    /\ backend_write_options st' = Some {| sync := false |}
    /\ initialised st'.
Proof.
  intros Hinit. pose proof Hinit as ([db Hdb] & _ & _).
  destruct (batch_execute_state st db ns s calls Hinit Hdb)
    as (st' & Hexec & Hwrites & Hdb' & Hinit').
  exists db, st'. split; [exact Hdb |]. split; [exact Hexec |].
  rewrite encoded_updates_of.
  split; [exact Hwrites |]. split; [exact Hdb' |].
  split; [exact (proj2 (proj2 Hinit')) |].
  split; [exact (proj1 (proj2 Hinit')) | exact Hinit'].
Qed.

Lemma batch_execute_syncs_iff_storage_witness :
  exists db st',
    backend_db example_state = Some db
    /\ backend_batch_execute
         (fold_left apply_call
            [CallPut (Some "alpha") (Some (example_document Byte.x01));
             CallDelete (Some "beta")]
            (snd (backend_batch_start (Some "ns") J_SEMANTICS_SAFETY_STORAGE)))
         example_state
       = Returned (true, st')
    /\ backend_writes st'
       = [({| sync := true |},
           [Put ("ns:alpha" ++ NUL) (example_document Byte.x01);
            Delete ("ns:beta" ++ NUL)])]
    /\ backend_db st' = Some [("ns:alpha" ++ NUL, example_document Byte.x01)].
Proof.
  destruct (batch_execute_syncs_iff_storage example_state "ns"
              J_SEMANTICS_SAFETY_STORAGE
              [CallPut (Some "alpha") (Some (example_document Byte.x01));
               CallDelete (Some "beta")]
              example_state_initialised)
    as (db & st' & Hdb & Hexec & Hwrites & Hdb' & _).
  exists db, st'. split; [exact Hdb |]. split; [exact Hexec |].
  injection Hdb as <-.
  split; [exact Hwrites | exact Hdb'].
Defined.

(** *** Membership and lookup *)

Lemma lt_key_irrefl (k : string) : ~ lt_key k k.
Proof. unfold lt_key. rewrite compare_refl. discriminate. Qed.

Lemma lookup_In (db : leveldb_t) (k : string) (v : bson_t) :
  db_sorted db -> (In (k, v) db <-> leveldb_lookup db k = Some v).
Proof.
  induction 1 as [|[k0 v0] db Hs IH Hall]; cbn [leveldb_lookup In].
  - split; [contradiction | discriminate].
  - assert (Habove : forall v', In (k, v') db -> lt_key k0 k).
    { intros v' Hin. rewrite Forall_forall in Hall.
      exact (Hall (k, v') (proj2 (list_elem_of_In _ _) Hin)). }
    destruct (String.compare k k0) eqn:E.
    + apply String.compare_eq_iff in E. subst k0. split.
      * intros [Heq | Hin]; [congruence |].
        destruct (lt_key_irrefl k (Habove v Hin)).
      * intros [= ->]. left. reflexivity.
    + split; [| discriminate]. intros [Heq | Hin].
      * injection Heq as -> _. rewrite compare_refl in E. discriminate E.
      * destruct (lt_key_irrefl k (lt_key_trans k k0 k E (Habove v Hin))).
    + rewrite <- IH. split; [| intros Hin; right; exact Hin].
      intros [Heq | Hin]; [| exact Hin].
      injection Heq as -> _. rewrite compare_refl in E. discriminate E.
Qed.

(** *** Prefixes of encoded keys *)

Lemma prefix_empty (k : string) : String.prefix "" k = true.
Proof. destruct k; reflexivity. Qed.

Lemma prefix_terminated (p k : string) :
  no_nul p -> String.prefix p (k ++ NUL) = true -> String.prefix p k = true.
Proof.
  revert k. induction p as [|c p IH]; intros k Hp Hpre.
  - apply prefix_empty.
  - destruct Hp as [Hc Hp]. destruct k as [|d k]; simpl in Hpre |- *.
    + destruct (ascii_dec c "000"%char); [contradiction | discriminate Hpre].
    + destruct (ascii_dec c d); [exact (IH k Hp Hpre) | discriminate Hpre].
Qed.

Lemma nskey_terminated (ns key : string) :
  nskey_of ns key ++ NUL = nskey_of ns (key ++ NUL).
Proof. unfold nskey_of. rewrite string_app_assoc. reflexivity. Qed.

Lemma nskey_app (ns x r : string) : nskey_of ns x ++ r = nskey_of ns (x ++ r).
Proof. unfold nskey_of. rewrite string_app_assoc. reflexivity. Qed.

Lemma prefix_namespace (ns ns' x y : string) :
  no_colon ns -> no_colon ns' ->
  String.prefix (nskey_of ns x) (nskey_of ns' y) = true ->
  ns = ns' /\ String.prefix x y = true.
Proof.
  intros Hns Hns' Hpre. apply prefix_inv in Hpre as (r & Hr).
  rewrite nskey_app in Hr.
  pose proof (nskey_inj_namespace ns' ns y (x ++ r) Hns' Hns Hr) as ->.
  split; [reflexivity |].
  unfold nskey_of in Hr. apply string_app_inv_head in Hr.
  apply (string_app_inv_head ":") in Hr. rewrite Hr. apply prefix_app.
Qed.

Lemma prefix_of_encoded (ns p key : string) :
  String.prefix p key = true ->
  String.prefix (nskey_of ns p) (nskey_of ns key ++ NUL) = true.
Proof.
  intros Hpre. apply prefix_inv in Hpre as (r & ->).
  replace (nskey_of ns (p ++ r) ++ NUL) with (nskey_of ns p ++ (r ++ NUL)).
  - apply prefix_app.
  - rewrite !nskey_app. rewrite string_app_assoc. reflexivity.
Qed.

(** *** What the batches keep true of the database *)

Lemma fold_apply_Forall (P : string * bson_t -> Prop) (updates : leveldb_writebatch_t) :
  Forall (fun u => match u with Put k v => P (k, v) | Delete _ => True end) updates ->
  forall db, Forall P db -> Forall P (fold_left leveldb_apply updates db).
Proof.
  induction 1 as [|u updates Hu Hall IH]; intros db Hdb; cbn [fold_left].
  - exact Hdb.
  - apply IH. destruct u as [k v | k]; cbn [leveldb_apply].
    + apply leveldb_put_Forall; assumption.
    + apply leveldb_delete_Forall. exact Hdb.
Qed.

Lemma updates_plain (ns : string) (calls : list batch_call) :
  no_colon ns ->
  Forall (fun u => match u with
                   | Put k v => of_plain_namespace (k, v)
                   | Delete _ => True
                   end) (flat_map (updates_of ns) calls).
Proof.
  intros Hns. induction calls as [|c calls IH]; cbn [flat_map].
  - constructor.
  - apply Forall_app. split; [| exact IH].
    destruct c as [[k|] [v|] | [k|]]; cbn [updates_of]; constructor;
      try constructor; try exact I.
    exists ns, k. split; [exact Hns | reflexivity].
Qed.

Lemma updates_terminated (ns : string) (calls : list batch_call) :
  Forall update_terminated (flat_map (updates_of ns) calls).
Proof.
  induction calls as [|c calls IH]; cbn [flat_map].
  - constructor.
  - apply Forall_app. split; [| exact IH].
    destruct c as [[k|] [v|] | [k|]]; cbn [updates_of]; constructor;
      try constructor; try exact I.
    eexists. reflexivity.
Qed.

Lemma commit_all_spec (history : list committed) :
  forall st db,
    initialised st -> backend_db st = Some db -> db_wf db ->
    Forall of_plain_namespace db ->
    Forall (fun b => no_colon (c_namespace b)) history ->
    exists st' db',
      commit_all history st = Some st'
      /\ initialised st' /\ backend_db st' = Some db' /\ db_wf db'
      /\ Forall of_plain_namespace db'
      /\ forall ns key,
           no_colon ns ->
           leveldb_lookup db' (nskey_of ns key ++ NUL)
           = fold_left (stored_step ns key) history
               (leveldb_lookup db (nskey_of ns key ++ NUL)).
Proof.
  induction history as [|b history IH]; intros st db Hinit Hdb Hwf Hplain Hnames.
  - exists st, db. split; [reflexivity |]. split; [exact Hinit |].
    split; [exact Hdb |]. split; [exact Hwf |]. split; [exact Hplain |].
    reflexivity.
  - apply Forall_cons in Hnames as [Hb Hnames].
    destruct (batch_execute_state st db (c_namespace b) (c_safety b) (c_calls b)
                Hinit Hdb) as (st1 & Hexec & _ & Hdb1 & Hinit1).
    destruct (IH st1 _ Hinit1 Hdb1) as (st' & db' & Hall & Hinit' & Hdb' & Hwf' & Hplain' & Hlook).
    + apply leveldb_apply_wf; [apply updates_terminated | exact Hwf].
    + apply fold_apply_Forall; [apply updates_plain; exact Hb | exact Hplain].
    + exact Hnames.
    + exists st', db'. split; [cbn [commit_all]; rewrite Hexec; exact Hall |].
      split; [exact Hinit' |]. split; [exact Hdb' |]. split; [exact Hwf' |].
      split; [exact Hplain' |].
      intros ns key Hns. rewrite (Hlook ns key Hns). cbn [fold_left]. f_equal.
      rewrite lookup_fold by exact (proj1 Hwf). unfold stored_step.
      destruct (decide (c_namespace b = ns)) as [<- | Hne].
      * apply after_updates_of.
      * apply after_updates_elsewhere.
        apply updates_of_other_namespace; assumption.
Qed.

(** *** From the entries to the keys *)

Lemma Forall_exists_Forall2 {A C : Type} (R : A -> C -> Prop) (l : list A) :
  Forall (fun a => exists c, R a c) l -> exists l', Forall2 R l l'.
Proof.
  induction 1 as [|a l [c Hc] _ [l' IH]].
  - exists []. constructor.
  - exists (c :: l'). constructor; assumption.
Qed.

Lemma Forall2_In_l {A C : Type} (R : A -> C -> Prop) (l : list A) (l' : list C) a :
  Forall2 R l l' -> In a l -> exists c, In c l' /\ R a c.
Proof.
  induction 1 as [|x y l l' Hxy _ IH]; intros Hin; [destruct Hin |].
  destruct Hin as [<- | Hin].
  - exists y. split; [left; reflexivity | exact Hxy].
  - destruct (IH Hin) as (c & Hc & Hr). exists c. split; [right; exact Hc | exact Hr].
Qed.

Lemma Forall2_In_r {A C : Type} (R : A -> C -> Prop) (l : list A) (l' : list C) c :
  Forall2 R l l' -> In c l' -> exists a, In a l /\ R a c.
Proof.
  induction 1 as [|x y l l' Hxy _ IH]; intros Hin; [destruct Hin |].
  destruct Hin as [<- | Hin].
  - exists x. split; [left; reflexivity | exact Hxy].
  - destruct (IH Hin) as (a & Ha & Hr). exists a. split; [right; exact Ha | exact Hr].
Qed.

Lemma Forall2_sorted {A C : Type} (R : A -> C -> Prop)
    (lt : A -> A -> Prop) (lt' : C -> C -> Prop) (l : list A) (l' : list C) :
  (forall a b a' b', R a a' -> R b b' -> lt a b -> lt' a' b') ->
  Forall2 R l l' -> StronglySorted lt l -> StronglySorted lt' l'.
Proof.
  intros Hmono. induction 1 as [|x y l l' Hxy Hall IH]; intros Hs.
  - constructor.
  - apply StronglySorted_inv in Hs as [Hs Hx]. constructor; [exact (IH Hs) |].
    apply Forall_forall. intros c Hc. apply list_elem_of_In in Hc.
    destruct (Forall2_In_r R l l' c Hall Hc) as (a & Ha & Hr).
    rewrite Forall_forall in Hx.
    exact (Hmono x a y c Hxy Hr (Hx a (proj2 (list_elem_of_In _ _) Ha))).
Qed.

Lemma entry_of_values (ns p : string) (l l' : list (string * bson_t)) :
  Forall2 (entry_of ns p) l l' -> map snd l' = map snd l /\ length l' = length l.
Proof.
  induction 1 as [|x y l l' (_ & _ & Hv) _ [IHv IHl]]; [split; reflexivity |].
  cbn [map length]. rewrite IHv, IHl, Hv. split; reflexivity.
Qed.

(** What iteration from the seek position yields, told by keys: on a
    database that the batches of namespaces without a colon have written,
    the values of the keys of the namespace that start with the prefix,
    each once, in the order of the encoded keys. *)
Lemma listing (db : leveldb_t) (ns p : string) (held : string -> option bson_t) :
  db_wf db -> Forall of_plain_namespace db ->
  no_colon ns -> no_nul ns -> no_nul p ->
  (forall key, leveldb_lookup db (nskey_of ns key ++ NUL) = held key) ->
  exists keyed,
    iterate_all (S (length keyed))
      (Some {| iterator := leveldb_iter_seek db (nskey_of ns p ++ NUL);
               prefix := nskey_of ns p |})
    = Some (map snd keyed, None)
    /\ (forall key value,
          In (key, value) keyed
          <-> String.prefix p key = true /\ held key = Some value)
    /\ StronglySorted (by_encoded_key ns) keyed.
Proof.
  intros Hwf Hplain Hns Hnul Hp Hheld.
  set (matching := List.filter (has_prefix (nskey_of ns p)) db).
  assert (Hkeys : Forall (fun e => exists kv, entry_of ns p e kv) matching).
  { apply Forall_forall. intros e He. apply list_elem_of_In in He.
    apply List.filter_In in He as [Hin Hpre].
    rewrite Forall_forall in Hplain.
    destruct (Hplain e (proj2 (list_elem_of_In _ _) Hin)) as (ns' & k' & Hns' & Hk).
    unfold has_prefix, g_str_has_prefix in Hpre. rewrite Hk, nskey_terminated in Hpre.
    destruct (prefix_namespace ns ns' p (k' ++ NUL) Hns Hns' Hpre) as [<- Hpk].
    exists (k', snd e). split; [exact Hk |].
    split; [exact (prefix_terminated p k' Hp Hpk) | reflexivity]. }
  destruct (Forall_exists_Forall2 _ _ Hkeys) as (keyed & Hall).
  destruct (entry_of_values ns p matching keyed Hall) as [Hvalues Hlength].
  exists keyed. split; [| split].
  - rewrite Hvalues, Hlength.
    apply iterate_from_seek; [exact Hwf | apply no_nul_nskey; assumption].
  - intros key value. split.
    + intros Hin.
      destruct (Forall2_In_r _ _ _ _ Hall Hin) as ([k v] & He & Hk & Hpre & Hv).
      cbn [fst snd] in Hk, Hpre, Hv. subst k v.
      split; [exact Hpre |]. rewrite <- Hheld.
      apply (lookup_In db _ _ (proj1 Hwf)).
      apply List.filter_In in He as [He _]. exact He.
    + intros [Hpre Hvalue]. rewrite <- Hheld in Hvalue.
      apply (lookup_In db _ _ (proj1 Hwf)) in Hvalue.
      assert (Hm : In (nskey_of ns key ++ NUL, value) matching).
      { apply List.filter_In. split; [exact Hvalue |].
        apply prefix_of_encoded. exact Hpre. }
      destruct (Forall2_In_l _ _ _ _ Hall Hm) as ([k v] & Hin & Hk & _ & Hv).
      cbn [fst snd] in Hk, Hv. apply nskey_inj_key in Hk. subst k v. exact Hin.
  - apply (Forall2_sorted (entry_of ns p) (fun e1 e2 => lt_key (fst e1) (fst e2))
             (by_encoded_key ns) matching keyed).
    + intros a b a' b' (Ha & _) (Hb & _) Hlt. unfold by_encoded_key.
      rewrite !encoded_key_nskey, <- Ha, <- Hb. exact Hlt.
    + exact Hall.
    + apply filter_sorted. exact (proj1 Hwf).
Qed.




Lemma example_history_plain :
  Forall (fun b => no_colon (c_namespace b)) example_history.
Proof.
  constructor; [exact no_colon_ns |].
  constructor; [exact no_colon_posix |].
  constructor; [exact no_colon_ns | constructor].
Qed.



(** X4. On a store that was empty when [backend_init] opened it and has
    since been written by any batches of this backend, no namespace having
    a colon in its name, [backend_get_all] for a namespace followed by
    [backend_iterate] until it returns [FALSE] yields the values of all and
    only the keys the namespace holds (those last put under it and not
    deleted since), each once and in the order of their encoded keys, and
    frees the iterator with the last call; it is [backend_get_by_prefix]
    with the empty prefix. *)
Theorem get_all_yields_the_namespace
    (st0 : Backend) (history : list committed) (ns : string) :
  initialised st0 -> backend_db st0 = Some [] ->
  Forall (fun b => no_colon (c_namespace b)) history ->
  no_colon ns -> no_nul ns ->
  exists st keyed,
    commit_all history st0 = Some st
    /\ (exists it,
          backend_get_all (Some ns) st = (true, Some it)
          /\ iterate_all (S (length keyed)) (Some it) = Some (map snd keyed, None))
    /\ (forall key value,
          In (key, value) keyed <-> stored history ns key = Some value)
    /\ StronglySorted (by_encoded_key ns) keyed
    /\ backend_get_all (Some ns) st = backend_get_by_prefix (Some ns) (Some "") st.
Proof.
  intros Hinit Hempty Hnames Hns Hnul.
  destruct (commit_all_spec history st0 [] Hinit Hempty)
    as (st & db & Hall & _ & Hdb & Hwf & Hplain & Hlook);
    [split; constructor | constructor | exact Hnames |].
  assert (Hheld : forall key,
             leveldb_lookup db (nskey_of ns key ++ NUL) = stored history ns key).
  { intros key. exact (Hlook ns key Hns). }
  destruct (listing db ns "" (stored history ns) Hwf Hplain Hns Hnul I Hheld)
    as (keyed & Hiter & Hkeyed & Hsorted).
  exists st, keyed. split; [exact Hall |].
  split; [| split; [| split; [exact Hsorted |]]].
  - unfold backend_get_all. rewrite Hdb. eexists. split; [reflexivity |].
    exact Hiter.
  - intros key value. rewrite (Hkeyed key value), prefix_empty. tauto.
  - unfold backend_get_all, backend_get_by_prefix. rewrite Hdb. reflexivity.
Qed.

Lemma get_all_yields_the_namespace_witness :
  exists st it,
    commit_all example_history example_state = Some st
    /\ backend_get_all (Some "ns") st = (true, Some it)
    /\ iterate_all 4 (Some it)
       = Some ([example_document Byte.x05; example_document Byte.x01;
                example_document Byte.x03], None).
Proof.
  destruct (get_all_yields_the_namespace example_state example_history "ns"
              example_state_initialised eq_refl example_history_plain
              no_colon_ns no_nul_ns)
    as (st & keyed & Hall & (it & Hget & _) & _).
  exists st, it. split; [exact Hall |]. split; [exact Hget |].
  vm_compute in Hall. injection Hall as <-.
  vm_compute in Hget. injection Hget as <-.
  vm_compute. reflexivity.
Defined.

End CommitFacts.
